(** * Document classification pipeline: detector decoding and refinement

    A shallow embedding of the two algorithmic cores of the repository,

    - [src/detectors/yolo-v8-onnx.detector.ts]: option defaulting in the
      constructor, output parsing, per-class suppression and the mapping of
      letterbox coordinates back to the image (module [Detector]);
    - [src/analysis/analysis-refine.ts]: the rule-based refinement of an
      analysis result, once as a function on values (module [Refine]) and
      once as a computation on a store of objects held by reference
      (module [Store]), where assignments and pushes are visible,

    followed by the properties stated about them.

    Numbers.  A JavaScript [number] is modelled by an exact rational [Q]:
    rounding, overflow and the special values are left out of the value
    space of inputs and fields.  The special values are kept where the
    source can create them out of finite numbers: a division whose divisor
    is not guarded against zero, and the [-Infinity] that initialises a
    running maximum.  Those expressions have type [jsnum].

    Equality.  Decisions of the source compare numbers, so they go through
    [Qle_bool] and [Qlt_bool]; a number that the source copies from one
    place to another is the same term in both places, so copies are stated
    with [=]. *)

From Equations Require Import Equations.
From Stdlib Require Import Ascii String.
From Stdlib Require Import QArith Qminmax Qround Qabs ZArith List Lia Lqa Bool Sorted.
Import ListNotations.
Open Scope Q_scope.

(** ** JavaScript numbers and arrays *)

Module Js.

(** The outcome of an arithmetic expression that may leave the finite
    numbers. *)
Inductive jsnum : Type :=
| Fin (q : Q)
| PosInf
| NegInf
| NaN.

Definition Qlt_bool (a b : Q) : bool := negb (Qle_bool b a).

(** [a / b] on finite operands.  A zero divisor is the positive zero (the
    divisors of the source are products of image dimensions). *)
Definition jsdiv (a b : Q) : jsnum :=
  if Qeq_bool b 0 then
    if Qlt_bool 0 a then PosInf
    else if Qlt_bool a 0 then NegInf
    else NaN
  else Fin (a / b).

(** Comparisons; every comparison with [NaN] is false. *)
Definition jslt (a b : jsnum) : bool :=
  match a, b with
  | NaN, _ | _, NaN => false
  | Fin p, Fin q => Qlt_bool p q
  | NegInf, NegInf => false
  | NegInf, _ => true
  | _, PosInf => match a with PosInf => false | _ => true end
  | _, _ => false
  end.

Definition jsle (a b : jsnum) : bool :=
  match a, b with
  | NaN, _ | _, NaN => false
  | Fin p, Fin q => Qle_bool p q
  | NegInf, _ => true
  | _, PosInf => true
  | _, _ => false
  end.

Definition jsgt (a b : jsnum) : bool := jslt b a.
Definition jsge (a b : jsnum) : bool := jsle b a.

(** [Math.round]: the nearest integer, halves going up. *)
Definition round (v : Q) : Q := inject_Z (Qfloor (v + (1#2))).

(** [Array.prototype.sort] with the comparator
    [(a, b) => key(b) - key(a)]: descending by [key], and stable. *)
Section Sort.
Context {A : Type} (key : A -> Q).

Fixpoint insertDesc (a : A) (l : list A) : list A :=
  match l with
  | [] => [a]
  | b :: l' =>
      if Qlt_bool (key a) (key b) then b :: insertDesc a l' else a :: l
  end.

Fixpoint sortDesc (l : list A) : list A :=
  match l with
  | [] => []
  | a :: l' => insertDesc a (sortDesc l')
  end.

(** [b] does not come before [a] in descending order. *)
Definition descending (a b : A) : Prop := key b <= key a.

End Sort.

End Js.

(** ** Shared data types: [types/detection.types.ts],
    [interfaces/document-analysis-result.ts] *)

Module Types.

Record Box : Type := mkBox { x1 : Q; y1 : Q; x2 : Q; y2 : Q }.

Inductive Source : Type := SrcDetector | SrcRefine | SrcFallback.

Inductive BarSide : Type := Top | Bottom.

(** Diagnostic measurements attached to a validated bar. *)
Record Metrics : Type := mkMetrics {
  widthFrac : Q;
  heightFrac : Q;
  which : BarSide }.

(** [DetectionMeta], extended with the two keys ([validated], [metrics])
    that the refinement writes into the [meta] of a validated bar. *)
Record DetectionMeta : Type := mkMeta {
  synthetic : option bool;
  adjusted : option bool;
  source : option Source;
  reason : option string;
  validated : option bool;
  metrics : option Metrics }.

Definition emptyMeta : DetectionMeta :=
  mkMeta None None None None None None.

Record DetectionAxisAligned : Type := mkDet {
  label : string;
  score : Q;
  box : Box;
  meta : option DetectionMeta }.

(** Modelled from the spec: [types/document-type.enum.ts] is not among the
    sources; the spec gives the document type as the closed, string-keyed
    set Receipt, Document, Screenshot, Unknown. *)
Inductive DocumentType : Type := RECEIPT | DOCUMENT | SCREENSHOT | UNKNOWN.

Definition DocumentType_eqb (a b : DocumentType) : bool :=
  match a, b with
  | RECEIPT, RECEIPT | DOCUMENT, DOCUMENT
  | SCREENSHOT, SCREENSHOT | UNKNOWN, UNKNOWN => true
  | _, _ => false
  end.

Inductive Clarity : Type := Low | Medium | High.

Inductive PrimaryBoxSource : Type := PbDetector | PbRefineBest | PbRefineFallback.

Record Quality : Type := mkQuality {
  edgeIntensity : option Q;
  readabilityScore : option Q;
  clarity : option Clarity;
  skewAngleDeg : option Q;
  isPartial : option bool }.

Definition emptyQuality : Quality := mkQuality None None None None None.

(** [background] holds a [BackgroundType], an enum that is not among the
    sources and that no modelled function inspects; its key is kept. *)
Record DocumentAnalysisSummary : Type := mkSummary {
  documentType : DocumentType;
  confidence : option Q;
  background : string;
  primaryBox : option Box;
  primarySynthetic : option bool;
  primaryBoxSource : option PrimaryBoxSource;
  quality : option Quality }.

(** A trace note.  The source builds English sentences with numbers
    formatted by [toFixed]; the notes keep the values and leave out the
    formatting.  [NoteText] is a diagnostic found in the input. *)
Inductive Note : Type :=
| NoteText (s : string)
| NoteDropOutside (lbl : string)
| NoteDropTooNarrow (lbl : string) (bW cW : Q)
| NoteDropTooTall (lbl : string) (bH cH : Q)
| NoteDropTopPosition (cy band : Q)
| NoteDropBottomPosition (cy band : Q)
| NoteTieScreenshot
| NoteTieDocument
| NoteRetype (from to : DocumentType)
| NotePrimaryAdopted
| NoteFlagPartial (cover : Q)
| NoteDropBars
| NoteSwitch (to : DocumentType) (cover altScore : Js.jsnum) (scrScore : Q)
| NotePrimaryFullFrame
| NoteResolveConflict (keep : string)
| NotePrimaryReplaced (lbl : option string)
| NotePrimaryUnknown
| NoteSynthUnknown
| NoteSynthPrimary.

Record AnalysisSignals : Type := mkSignals {
  colors : option (list string);
  classificationTopK : option (list (string * Q));
  diagnostics : option (list Note) }.

Definition emptySignals : AnalysisSignals := mkSignals None None None.

Record ImageMeta : Type := mkImageMeta {
  width : Q;
  height : Q;
  aspectRatio : Q;
  format : string;
  colorspace : string;
  density : option Q }.

Record SourceInfo : Type := mkSourceInfo {
  filename : option string;
  path : option string }.

Record ModelInfo : Type := mkModelInfo {
  detector : option string;
  classes : option (list string);
  inputSize : option Q;
  thresholds : option (option Q * option Q) }.

(** [detections] is read everywhere as [input.detections || []]: a missing
    array and the empty one are the same list. *)
Record DocumentAnalysisResult : Type := mkResult {
  source_ : SourceInfo;
  timestamp : string;
  meta_ : ImageMeta;
  summary : DocumentAnalysisSummary;
  detections : list DetectionAxisAligned;
  signals : option AnalysisSignals;
  model : option ModelInfo }.

End Types.

(** ** The detector: [src/detectors/yolo-v8-onnx.detector.ts] *)

Module Detector.
Import Js Types.

(** *** Construction *)

Record Options : Type := mkOptions {
  o_modelPath : option string;
  o_inputSize : option Q;
  o_confidenceThreshold : option Q;
  o_iouThreshold : option Q;
  o_classNames : option (list string) }.

(** The private fields of [YoloV8OnnxDetector] that the constructor sets. *)
Record YoloV8OnnxDetector : Type := mkDetector {
  modelPath : string;
  INPUT_SIZE : Q;
  CONFIDENCE_THRESHOLD : Q;
  IOU_THRESHOLD : Q;
  CLASS_NAMES : list string }.

(** The field initialisers of the class. *)
Definition initial : YoloV8OnnxDetector :=
  mkDetector "./models/yolo/800-50/best.onnx" 800 0.1 0.45 [].

(** [options?.field || fallback] on a number: absent and [0] are falsy. *)
Definition orNumber (v : option Q) (fallback : Q) : Q :=
  match v with
  | Some q => if Qeq_bool q 0 then fallback else q
  | None => fallback
  end.

(** [options?.field || fallback] on a string: absent and [''] are falsy. *)
Definition orString (v : option string) (fallback : string) : string :=
  match v with
  | Some EmptyString | None => fallback
  | Some s => s
  end.

(** [options?.field || fallback] on an array: every array is truthy. *)
Definition orArray {A : Type} (v : option (list A)) (fallback : list A)
  : list A :=
  match v with
  | Some l => l
  | None => fallback
  end.

(** What [existsSync] and [readFileSync] find at a path. *)
Inductive FileRead : Type :=
| Missing
| Unreadable
| Content (text : string).

(** [s.split('/')] *)
Fixpoint splitSlash (s : string) : list string :=
  match s with
  | EmptyString => [EmptyString]
  | String c rest =>
      if Ascii.eqb c "/"%char then EmptyString :: splitSlash rest
      else match splitSlash rest with
           | [] => [String c EmptyString]
           | p :: ps => String c p :: ps
           end
  end.

(** [parts.join('/')] *)
Fixpoint joinSlash (parts : list string) : string :=
  match parts with
  | [] => EmptyString
  | [p] => p
  | p :: ps => (p ++ "/" ++ joinSlash ps)%string
  end.

(** [s.split(/\r?\n/)] *)
Fixpoint splitLines (s : string) : list string :=
  match s with
  | EmptyString => [EmptyString]
  | String c rest =>
      if Ascii.eqb c "010"%char then EmptyString :: splitLines rest
      else if Ascii.eqb c "013"%char then
        match rest with
        | String d rest' =>
            if Ascii.eqb d "010"%char then EmptyString :: splitLines rest'
            else match splitLines rest with
                 | [] => [String c EmptyString]
                 | p :: ps => String c p :: ps
                 end
        | EmptyString => [String c EmptyString]
        end
      else match splitLines rest with
           | [] => [String c EmptyString]
           | p :: ps => String c p :: ps
           end
  end.

(** The white space and line terminators of the ASCII range that
    [String.prototype.trim] removes. *)
Definition isSpace (c : Ascii.ascii) : bool :=
  let n := Ascii.nat_of_ascii c in
  (Nat.eqb n 32 || (Nat.leb 9 n && Nat.leb n 13))%bool.

Fixpoint trimStart (s : string) : string :=
  match s with
  | String c rest => if isSpace c then trimStart rest else s
  | EmptyString => EmptyString
  end.

Fixpoint trimEnd (s : string) : string :=
  match s with
  | EmptyString => EmptyString
  | String c rest =>
      match trimEnd rest with
      | EmptyString => if isSpace c then EmptyString else String c EmptyString
      | t => String c t
      end
  end.

Definition trim (s : string) : string := trimEnd (trimStart s).

(** [filter(Boolean)] on strings keeps the non-empty ones. *)
Definition nonEmpty (s : string) : bool :=
  match s with EmptyString => false | _ => true end.

Section Construction.
(** The environment of the constructor: [path.join] of Node and the file
    system. *)
Variable path_join : string -> string -> string.
Variable readFile : string -> FileRead.

Definition detectAndReadClassesTxt (this : YoloV8OnnxDetector)
  : YoloV8OnnxDetector :=
  let parts := splitSlash (modelPath this) in
  let modelDir := joinSlash (removelast parts) in
  let classesPath := path_join modelDir "classes.txt" in
  match readFile classesPath with
  | Missing => this
  | Unreadable => this
  | Content text =>
      let lines := filter nonEmpty (map trim (splitLines text)) in
      mkDetector (modelPath this) (INPUT_SIZE this)
        (CONFIDENCE_THRESHOLD this) (IOU_THRESHOLD this) lines
  end.

Inductive ConstructionError : Type := EmptyClassList.

(** [new YoloV8OnnxDetector(options)]; [options] itself may be absent. *)
Definition constructor (options : option Options)
  : YoloV8OnnxDetector + ConstructionError :=
  let get {A} (f : Options -> option A) : option A :=
    match options with Some o => f o | None => None end in
  let this := initial in
  let this := mkDetector
    (orString (get o_modelPath) (modelPath this))
    (orNumber (get o_inputSize) (INPUT_SIZE this))
    (orNumber (get o_confidenceThreshold) (CONFIDENCE_THRESHOLD this))
    (orNumber (get o_iouThreshold) (IOU_THRESHOLD this))
    (orArray (get o_classNames) (CLASS_NAMES this)) in
  if Nat.eqb (List.length (CLASS_NAMES this)) 0 then
    let this := detectAndReadClassesTxt this in
    if Nat.eqb (List.length (CLASS_NAMES this)) 0 then inr EmptyClassList
    else inl this
  else inl this.

End Construction.

(** *** Letterbox geometry of [preprocessImage] *)

Record Letterbox : Type := mkLetterbox {
  scale : Q;
  padX : Q;
  padY : Q }.

(** The scale and the paddings for an image of [originalWidth] by
    [originalHeight] pixels, both positive, on a square of side [T]. *)
Definition letterbox (T originalWidth originalHeight : Q) : Letterbox :=
  let scale := Qmin (T / originalWidth) (T / originalHeight) in
  let newW := inject_Z (Qfloor (originalWidth * scale)) in
  let newH := inject_Z (Qfloor (originalHeight * scale)) in
  let padX := inject_Z (Qfloor ((T - newW) / 2)) in
  let padY := inject_Z (Qfloor ((T - newH) / 2)) in
  mkLetterbox scale padX padY.

(** *** Parsing the output tensor *)

(** An anchor that passed the parser: centre, size, class, raw score. *)
Record Candidate : Type := mkCandidate {
  c_x : Q;
  c_y : Q;
  c_w : Q;
  c_h : Q;
  classId : Z;
  confidence : Q }.

(** An output of the inference session: a [Float32Array] and its shape. *)
Record Tensor : Type := mkTensor {
  data : list Q;
  dims : list Z }.

Inductive DetectError : Type :=
| UnexpectedOutputShape (dims : list Z)
| UndefinedOutput.

(** [data[k]]; [None] is the [undefined] of a read outside the array. *)
Definition readAt (data : list Q) (k : Z) : option Q :=
  if (k <? 0)%Z then None else nth_error data (Z.to_nat k).

(** [v <= 0], false on [undefined]. *)
Definition leZero (v : option Q) : bool :=
  match v with Some q => Qle_bool q 0 | None => false end.

(** [s > bestScore], false on [undefined]. *)
Definition exceeds (s : option Q) (bestScore : jsnum) : bool :=
  match s with Some q => jsgt (Fin q) bestScore | None => false end.

(** The loop over the classes of one anchor; [scoreAt c] is the index of
    the score of class [c].  The state is [(bestScore, bestClass)]. *)
Fixpoint bestOfClasses (data : list Q) (scoreAt : Z -> Z) (remaining : nat)
  (c : Z) (best : jsnum * Z) : jsnum * Z :=
  match remaining with
  | O => best
  | S n =>
      let s := readAt data (scoreAt c) in
      let best' :=
        if exceeds s (fst best) then
          match s with Some q => (Fin q, c) | None => best end
        else best in
      bestOfClasses data scoreAt n (c + 1)%Z best'
  end.

(** The body of the loop over the anchors: the candidate pushed for anchor
    [i], if any. *)
Definition parseAnchor (data : list Q) (channelFirst : bool)
  (N expectedChannels : Z) (numClasses : nat) (i : Z) : option Candidate :=
  let base := (i * expectedChannels)%Z in
  let x := readAt data (if channelFirst then 0 * N + i else base + 0)%Z in
  let y := readAt data (if channelFirst then 1 * N + i else base + 1)%Z in
  let w := readAt data (if channelFirst then 2 * N + i else base + 2)%Z in
  let h := readAt data (if channelFirst then 3 * N + i else base + 3)%Z in
  if (leZero w || leZero h)%bool then None
  else
    let scoreAt (c : Z) : Z :=
      if channelFirst then ((4 + c) * N + i)%Z
      else (i * expectedChannels + 4 + c)%Z in
    let '(bestScore, bestClass) :=
      bestOfClasses data scoreAt numClasses 0%Z (NegInf, (-1)%Z) in
    if jsgt bestScore (Fin 0) then
      (* a score was read, so the four reads before it succeeded *)
      match x, y, w, h, bestScore with
      | Some x, Some y, Some w, Some h, Fin s =>
          Some (mkCandidate x y w h bestClass s)
      | _, _, _, _, _ => None
      end
    else None.

(** [for (let i = 0; i < N; i++)], pushing onto [results]. *)
Fixpoint anchorLoop (data : list Q) (channelFirst : bool)
  (N expectedChannels : Z) (numClasses : nat) (remaining : nat) (i : Z)
  (results : list Candidate) : list Candidate :=
  match remaining with
  | O => results
  | S n =>
      let results' :=
        match parseAnchor data channelFirst N expectedChannels numClasses i with
        | Some c => results ++ [c]
        | None => results
        end in
      anchorLoop data channelFirst N expectedChannels numClasses n (i + 1)%Z
        results'
  end.

(** The layout test of [parseYoloOnnxOutputCorrect]: [(channelFirst, N)],
    or nothing when the shape is neither [[1, C, N]] nor [[1, N, C]]. *)
Definition layoutOf (dims : list Z) (expectedChannels : Z)
  : option (bool * Z) :=
  match dims with
  | [d0; d1; d2] =>
      if ((d0 =? 1) && (d1 =? expectedChannels))%Z%bool then Some (true, d2)
      else if ((d0 =? 1) && (d2 =? expectedChannels))%Z%bool
           then Some (false, d1)
           else None
  | _ => None
  end.

Definition parseYoloOnnxOutputCorrect (output : Tensor) (numClasses : nat)
  : list Candidate + DetectError :=
  let expectedChannels := (4 + Z.of_nat numClasses)%Z in
  match layoutOf (dims output) expectedChannels with
  | None => inr (UnexpectedOutputShape (dims output))
  | Some (channelFirst, N) =>
      let results :=
        anchorLoop (data output) channelFirst N expectedChannels numClasses
          (Z.to_nat N) 0%Z [] in
      inl (sortDesc confidence results)
  end.

(** *** Suppression *)

Definition calculateIoU (box1 box2 : Candidate) : Q :=
  let x1_min := c_x box1 - c_w box1 / 2 in
  let y1_min := c_y box1 - c_h box1 / 2 in
  let x1_max := c_x box1 + c_w box1 / 2 in
  let y1_max := c_y box1 + c_h box1 / 2 in
  let x2_min := c_x box2 - c_w box2 / 2 in
  let y2_min := c_y box2 - c_h box2 / 2 in
  let x2_max := c_x box2 + c_w box2 / 2 in
  let y2_max := c_y box2 + c_h box2 / 2 in
  let intersectionXMin := Qmax x1_min x2_min in
  let intersectionYMin := Qmax y1_min y2_min in
  let intersectionXMax := Qmin x1_max x2_max in
  let intersectionYMax := Qmin y1_max y2_max in
  let intersectionWidth := Qmax 0 (intersectionXMax - intersectionXMin) in
  let intersectionHeight := Qmax 0 (intersectionYMax - intersectionYMin) in
  let intersectionArea := intersectionWidth * intersectionHeight in
  let box1Area := c_w box1 * c_h box1 in
  let box2Area := c_w box2 * c_h box2 in
  let unionArea := box1Area + box2Area - intersectionArea in
  if Qlt_bool 0 unionArea then intersectionArea / unionArea else 0.

(** The callback of [boxes.filter] in [applyNMS]: does [box] stay in the
    work list once [current] is selected? *)
Definition survives (iouThreshold : Q) (current box : Candidate) : bool :=
  if negb (classId box =? classId current)%Z then true
  else Qlt_bool (calculateIoU current box) iouThreshold.

(** [while (boxes.length > 0)]: move the head to [selected], filter the
    rest. *)
Equations? nmsLoop (iouThreshold : Q) (selected boxes : list Candidate)
  : list Candidate by wf (List.length boxes) lt :=
  nmsLoop iouThreshold selected [] := selected;
  nmsLoop iouThreshold selected (current :: rest) :=
    nmsLoop iouThreshold (selected ++ [current])
      (filter (survives iouThreshold current) rest).
Proof.
  simpl. apply Nat.lt_succ_r, filter_length_le.
Qed.

Definition applyNMS (iouThreshold : Q) (boxes : list Candidate)
  : list Candidate :=
  nmsLoop iouThreshold [] (sortDesc confidence boxes).

(** *** Mapping back to image coordinates *)

(** The callback of [nmsBoxes.map] in [postprocessOutput]. *)
Definition toDetection (classNames : list string)
  (originalWidth originalHeight scale padX padY : Q) (box : Candidate)
  : DetectionAxisAligned :=
  let x1 := ((c_x box - c_w box / 2) - padX) / scale in
  let y1 := ((c_y box - c_h box / 2) - padY) / scale in
  let x2 := ((c_x box + c_w box / 2) - padX) / scale in
  let y2 := ((c_y box + c_h box / 2) - padY) / scale in
  mkDet
    (nth (Z.to_nat (classId box)) classNames EmptyString)
    (confidence box)
    (mkBox (Qmax 0 (round x1)) (Qmax 0 (round y1))
           (Qmin originalWidth (round x2)) (Qmin originalHeight (round y2)))
    None.

Definition postprocessOutput (this : YoloV8OnnxDetector) (output : Tensor)
  (originalWidth originalHeight scale padX padY : Q)
  : list DetectionAxisAligned + DetectError :=
  match parseYoloOnnxOutputCorrect output (List.length (CLASS_NAMES this)) with
  | inr e => inr e
  | inl parsed =>
      let filtered :=
        filter (fun p => Qlt_bool (CONFIDENCE_THRESHOLD this) (confidence p))
          parsed in
      let nmsBoxes := applyNMS (IOU_THRESHOLD this) filtered in
      inl (map (toDetection (CLASS_NAMES this) originalWidth originalHeight
                  scale padX padY) nmsBoxes)
  end.

(** *** Choosing the output to decode *)

Definition hasDetShape (expectedChannels : Z) (dims : list Z) : bool :=
  match dims with
  | [d0; d1; d2] =>
      ((d0 =? 1) && ((d1 =? expectedChannels) || (d2 =? expectedChannels)))%Z%bool
  | _ => false
  end.

(** [results] lists the outputs in the order of [Object.keys]. *)
Definition pickDetOutput (results : list (string * Tensor))
  (numClasses : nat) : option Tensor :=
  let expectedChannels := (4 + Z.of_nat numClasses)%Z in
  match find (fun r => hasDetShape expectedChannels (dims (snd r))) results with
  | Some r => Some (snd r)
  | None =>
      match results with
      | r :: _ => Some (snd r)
      | [] => None
      end
  end.

(** The decoding part of [detectObjects]: from the session's outputs to the
    detections. *)
Definition decodeOutputs (this : YoloV8OnnxDetector)
  (results : list (string * Tensor))
  (originalWidth originalHeight scale padX padY : Q)
  : list DetectionAxisAligned + DetectError :=
  match pickDetOutput results (List.length (CLASS_NAMES this)) with
  | None => inr UndefinedOutput
  | Some output =>
      postprocessOutput this output originalWidth originalHeight
        scale padX padY
  end.

End Detector.

(** *** Notions used to state the properties of the suppression *)

Module SuppressionSpec.
Import Detector.

(** The loop of [applyNMS] started with an empty [selected]. *)
Definition kept (iouThreshold : Q) (boxes : list Candidate) : list Candidate :=
  nmsLoop iouThreshold [] boxes.

(** A list in which no element is suppressed by an earlier one. *)
Inductive Settled (iouThreshold : Q) : list Candidate -> Prop :=
| Settled_nil : Settled iouThreshold []
| Settled_cons (current : Candidate) (rest : list Candidate) :
    Forall (fun b => survives iouThreshold current b = true) rest ->
    Settled iouThreshold rest ->
    Settled iouThreshold (current :: rest).

(** The candidates of one class. *)
Definition ofClass (k : Z) (b : Candidate) : bool := (classId b =? k)%Z.

End SuppressionSpec.

(** *** Notions used to state the properties of the decoding *)

Module DecodeSpec.
Import Detector.

(** The two layouts of the output tensor: [[1, 4 + numClasses, N]] and
    [[1, N, 4 + numClasses]]. *)
Definition expectedLayout (numClasses : nat) (dims : list Z) : Prop :=
  exists N : Z,
    dims = [1; 4 + Z.of_nat numClasses; N]%Z \/
    dims = [1; N; 4 + Z.of_nat numClasses]%Z.

(** The call ended with the error thrown on an unexpected shape. *)
Definition shapeMismatch {A : Type} (r : A + DetectError) : Prop :=
  match r with
  | inr (UnexpectedOutputShape _) => True
  | _ => False
  end.

(** [o] with one option left out. *)
Definition withoutInputSize (o : Options) : Options :=
  mkOptions (o_modelPath o) None (o_confidenceThreshold o)
    (o_iouThreshold o) (o_classNames o).

Definition withoutConfidenceThreshold (o : Options) : Options :=
  mkOptions (o_modelPath o) (o_inputSize o) None
    (o_iouThreshold o) (o_classNames o).

Definition withoutIouThreshold (o : Options) : Options :=
  mkOptions (o_modelPath o) (o_inputSize o) (o_confidenceThreshold o)
    None (o_classNames o).

Definition withoutClassNames (o : Options) : Options :=
  mkOptions (o_modelPath o) (o_inputSize o) (o_confidenceThreshold o)
    (o_iouThreshold o) None.

(** The detector under construction once the options are merged. *)
Definition merged (o : Options) : YoloV8OnnxDetector :=
  mkDetector
    (orString (o_modelPath o) (modelPath initial))
    (orNumber (o_inputSize o) (INPUT_SIZE initial))
    (orNumber (o_confidenceThreshold o) (CONFIDENCE_THRESHOLD initial))
    (orNumber (o_iouThreshold o) (IOU_THRESHOLD initial))
    (orArray (o_classNames o) (CLASS_NAMES initial)).

End DecodeSpec.

(** *** A detection in the padding of the letterbox

    An image of 400 by 800 pixels on the 800 by 800 canvas has 200 columns of
    padding on each side.  The output tensor below, of shape [[1, 5, 1]], holds
    a single anchor centred at column 700, inside the right padding. *)

Module PaddingExample.
Import Detector.

Definition this : YoloV8OnnxDetector :=
  mkDetector "./models/yolo/800-50/best.onnx" 800 0.1 0.45 ["Document"%string].

Definition output : Tensor :=
  mkTensor [700; 400; 50; 50; 0.9] [1; 5; 1]%Z.

Definition originalWidth : Q := 400.
Definition originalHeight : Q := 800.

Definition geometry : Letterbox :=
  letterbox (INPUT_SIZE this) originalWidth originalHeight.

Definition detections : list Types.DetectionAxisAligned + DetectError :=
  postprocessOutput this output originalWidth originalHeight
    (scale geometry) (padX geometry) (padY geometry).

End PaddingExample.

(** ** The refinement: [src/analysis/analysis-refine.ts] *)

Module Refine.
Import Js Types.

(** *** Configuration *)

Record Tol : Type := mkTol {
  minBarWidthFrac : Q;
  topBottomBandFrac : Q;
  maxBarHeightFrac : Q;
  insideSlackPx : Q;
  classMargin : Q;
  minPrimaryAreaFrac : Q;
  screenshotMinCoverFrac : Q;
  screenshotBarBonus : Q;
  screenshotBothBarsBonus : Q;
  screenshotCoverBonus : Q;
  altCandidateMaxDelta : Q }.

(** [Partial<Tol>] *)
Record PartialTol : Type := mkPartialTol {
  p_minBarWidthFrac : option Q;
  p_topBottomBandFrac : option Q;
  p_maxBarHeightFrac : option Q;
  p_insideSlackPx : option Q;
  p_classMargin : option Q;
  p_minPrimaryAreaFrac : option Q;
  p_screenshotMinCoverFrac : option Q;
  p_screenshotBarBonus : option Q;
  p_screenshotBothBarsBonus : option Q;
  p_screenshotCoverBonus : option Q;
  p_altCandidateMaxDelta : option Q }.

Record RefineOptions : Type := mkRefineOptions {
  o_tol : option PartialTol;
  o_allowRetype : option bool;
  o_keepDiagnostics : option bool }.

Definition DEFAULT_TOL : Tol :=
  {| minBarWidthFrac := 0.80;
     topBottomBandFrac := 0.12;
     maxBarHeightFrac := 0.15;
     insideSlackPx := 8;
     classMargin := 0.07;
     minPrimaryAreaFrac := 0.20;
     screenshotMinCoverFrac := 0.80;
     screenshotBarBonus := 0.05;
     screenshotBothBarsBonus := 0.03;
     screenshotCoverBonus := 0.05;
     altCandidateMaxDelta := 0.06 |}.

Record FullRefineConfig : Type := mkConfig {
  tol : Tol;
  allowRetype : bool;
  keepDiagnostics : bool }.

Definition DEFAULT_OPTS : FullRefineConfig :=
  {| tol := DEFAULT_TOL; allowRetype := true; keepDiagnostics := true |}.

(** *** Utilities *)

Definition clamp (v lo hi : Q) : Q := Qmax lo (Qmin hi v).

Definition area (box : Box) : Q :=
  Qmax 0 (x2 box - x1 box) * Qmax 0 (y2 box - y1 box).

Definition intersect (a b : Box) : Box :=
  {| x1 := Qmax (x1 a) (x1 b);
     y1 := Qmax (y1 a) (y1 b);
     x2 := Qmin (x2 a) (x2 b);
     y2 := Qmin (y2 a) (y2 b) |}.

Definition iou (a b : Box) : Q :=
  let inter := intersect a b in
  let interA := area inter in
  let unionA := area a + area b - interA in
  if Qlt_bool 0 unionA then interA / unionA else 0.

Definition boxInside (a b : Box) (slackPx : Q) : bool :=
  (Qle_bool (x1 b - slackPx) (x1 a) &&
   Qle_bool (y1 b - slackPx) (y1 a) &&
   Qle_bool (x2 a) (x2 b + slackPx) &&
   Qle_bool (y2 a) (y2 b + slackPx))%bool.

(** [JSON.parse(JSON.stringify(x))]: a structurally equal value.  (That the
    result is a fresh object is the concern of the store model below.) *)
Definition copy {A : Type} (x : A) : A := x.

(** [v ?? fallback] *)
Definition orElse {A : Type} (v : option A) (fallback : A) : A :=
  match v with Some a => a | None => fallback end.

(** [{ ...DEFAULT_TOL, ...(options.tol ?? {}) }] *)
Definition mergeTol (base : Tol) (p : PartialTol) : Tol :=
  {| minBarWidthFrac := orElse (p_minBarWidthFrac p) (minBarWidthFrac base);
     topBottomBandFrac := orElse (p_topBottomBandFrac p) (topBottomBandFrac base);
     maxBarHeightFrac := orElse (p_maxBarHeightFrac p) (maxBarHeightFrac base);
     insideSlackPx := orElse (p_insideSlackPx p) (insideSlackPx base);
     classMargin := orElse (p_classMargin p) (classMargin base);
     minPrimaryAreaFrac := orElse (p_minPrimaryAreaFrac p) (minPrimaryAreaFrac base);
     screenshotMinCoverFrac :=
       orElse (p_screenshotMinCoverFrac p) (screenshotMinCoverFrac base);
     screenshotBarBonus := orElse (p_screenshotBarBonus p) (screenshotBarBonus base);
     screenshotBothBarsBonus :=
       orElse (p_screenshotBothBarsBonus p) (screenshotBothBarsBonus base);
     screenshotCoverBonus :=
       orElse (p_screenshotCoverBonus p) (screenshotCoverBonus base);
     altCandidateMaxDelta :=
       orElse (p_altCandidateMaxDelta p) (altCandidateMaxDelta base) |}.

(** [buildConfig(options = {})] *)
Definition buildConfig (options : option RefineOptions) : FullRefineConfig :=
  let options := orElse options (mkRefineOptions None None None) in
  let tol :=
    match o_tol options with
    | Some p => mergeTol DEFAULT_TOL p
    | None => DEFAULT_TOL
    end in
  {| tol := tol;
     allowRetype := orElse (o_allowRetype options) (allowRetype DEFAULT_OPTS);
     keepDiagnostics :=
       orElse (o_keepDiagnostics options) (keepDiagnostics DEFAULT_OPTS) |}.

(** *** Bar validation *)

Definition sideLabel (which : BarSide) : string :=
  match which with Top => "top" | Bottom => "bottom" end.

(** [validateBarNoMutate]; the result is the validated copy (or [None] for
    [null]) and the notes after the call. *)
Definition validateBarNoMutate (bar : DetectionAxisAligned) (container : Box)
  (W H : Q) (which : BarSide) (tol : Tol) (notes : list Note)
  : option DetectionAxisAligned * list Note :=
  let cW := x2 container - x1 container in
  let cH := y2 container - y1 container in
  let minBarW := cW * minBarWidthFrac tol in
  let maxBarH := cH * maxBarHeightFrac tol in
  let bandH := cH * topBottomBandFrac tol in
  let inter := intersect (box bar) container in
  let interA := area inter in
  if Qle_bool interA 0 then
    (None, notes ++ [NoteDropOutside (label bar)])
  else
    let bW := x2 inter - x1 inter in
    let bH := y2 inter - y1 inter in
    if Qlt_bool bW minBarW then
      (None, notes ++ [NoteDropTooNarrow (label bar) bW cW])
    else if Qlt_bool maxBarH bH then
      (None, notes ++ [NoteDropTooTall (label bar) bH cH])
    else
      let cy := (y1 inter + y2 inter) / 2 in
      let accept :=
        let out := copy bar in
        let old := orElse (meta out) emptyMeta in
        let out :=
          mkDet (label out) (score out) (box out)
            (Some
               {| synthetic := synthetic old;
                  adjusted := adjusted old;
                  source := Some SrcRefine;
                  reason := Some "bar_valid"%string;
                  validated := Some true;
                  metrics := Some (mkMetrics (bW / cW) (bH / cH) which) |}) in
        (Some out, notes) in
      match which with
      | Top =>
          let topBandY2 := y1 container + bandH in
          if Qlt_bool topBandY2 cy then
            (None, notes ++ [NoteDropTopPosition cy topBandY2])
          else accept
      | Bottom =>
          let botBandY1 := y2 container - bandH in
          if Qlt_bool cy botBandY1 then
            (None, notes ++ [NoteDropBottomPosition cy botBandY1])
          else accept
      end.

(** *** Main class selection *)

(** The [preferred] map of [pickMainType]. *)
Definition preferred (lbl : string) : option DocumentType :=
  if String.eqb lbl "Receipt" then Some RECEIPT
  else if String.eqb lbl "Document" then Some DOCUMENT
  else if String.eqb lbl "Screenshot" then Some SCREENSHOT
  else None.

(** A [Map<string, DetectionAxisAligned>] in insertion order. *)
Definition ByClass : Type := list (string * DetectionAxisAligned).

Fixpoint mapGet (m : ByClass) (k : string) : option DetectionAxisAligned :=
  match m with
  | [] => None
  | (k', v) :: m' => if String.eqb k' k then Some v else mapGet m' k
  end.

(** [Map.prototype.set]: a present key keeps its place. *)
Fixpoint mapSet (m : ByClass) (k : string) (v : DetectionAxisAligned)
  : ByClass :=
  match m with
  | [] => [(k, v)]
  | (k', v') :: m' =>
      if String.eqb k' k then (k', v) :: m' else (k', v') :: mapSet m' k v
  end.

Definition mapHas (m : ByClass) (k : string) : bool :=
  match mapGet m k with Some _ => true | None => false end.

(** The loop that fills [byClass]. *)
Definition collectByClass (dets : list DetectionAxisAligned) : ByClass :=
  fold_left
    (fun byClass d =>
       match preferred (label d) with
       | None => byClass
       | Some _ =>
           match mapGet byClass (label d) with
           | None => mapSet byClass (label d) d
           | Some prev =>
               if Qlt_bool (score prev) (score d)
               then mapSet byClass (label d) d
               else byClass
           end
       end)
    dets [].

Definition hasLabel (lbl : string) (dets : list DetectionAxisAligned) : bool :=
  existsb (fun d => String.eqb (label d) lbl) dets.

Record MainType : Type := mkMainType {
  type : DocumentType;
  conf : Q;
  primary : option DetectionAxisAligned }.

Definition pickMainType (result : DocumentAnalysisResult) (tol : Tol)
  (notes : list Note) : MainType * list Note :=
  let byClass := collectByClass (detections result) in
  let cand := byClass in
  match cand with
  | [] =>
      (mkMainType (documentType (summary result))
         (orElse (confidence (summary result)) 0) None,
       notes)
  | _ :: _ =>
      let hasTop := hasLabel "Top status bar" (detections result) in
      let hasBot := hasLabel "Bottom nav bar" (detections result) in
      let boost (c : string * DetectionAxisAligned) : Q :=
        if (String.eqb (fst c) "Screenshot" && (hasTop || hasBot))%bool
        then score (snd c) + 0.05 else score (snd c) in
      let cand := sortDesc boost cand in
      match cand with
      | [] => (* not reached: sorting keeps the length *)
          (mkMainType (documentType (summary result))
             (orElse (confidence (summary result)) 0) None,
           notes)
      | best :: others =>
          let second := hd_error others in
          let findLbl (lbl : string) :=
            find (fun c => String.eqb (fst c) lbl) cand in
          let '(pick, notes) :=
            match second with
            | Some second =>
                if Qlt_bool (Qabs (score (snd best) - score (snd second)))
                     (classMargin tol)
                then
                  let ar := aspectRatio (meta_ result) in
                  if (hasTop || hasBot)%bool then
                    (orElse (findLbl "Screenshot"%string) best,
                     notes ++ [NoteTieScreenshot])
                  else if (Qle_bool 0.65 ar && mapHas byClass "Document")%bool
                  then
                    (orElse (findLbl "Document"%string) best,
                     notes ++ [NoteTieDocument])
                  else (best, notes)
                else (best, notes)
            | None => (best, notes)
            end in
          (* [preferred.get(pick.lbl)!]: the key of a candidate is one of
             the three preferred labels *)
          let type := orElse (preferred (fst pick)) UNKNOWN in
          (mkMainType type (score (snd pick)) (Some (snd pick)), notes)
      end
  end.

(** *** Screenshot score *)

Record ScreenshotScore : Type := mkScreenshotScore {
  s_score : Q;
  s_cover : jsnum;
  s_validBars : nat }.

Definition scoreScreenshot (container : Box)
  (topOk botOk : option DetectionAxisAligned) (frameW frameH baseConf : Q)
  (tol : Tol) : ScreenshotScore :=
  let cover := jsdiv (area container) (frameW * frameH) in
  let score := baseConf in
  let validBars := 0%nat in
  let '(score, validBars) :=
    match topOk with
    | Some _ => (score + screenshotBarBonus tol, S validBars)
    | None => (score, validBars)
    end in
  let '(score, validBars) :=
    match botOk with
    | Some _ => (score + screenshotBarBonus tol, S validBars)
    | None => (score, validBars)
    end in
  let score :=
    if Nat.eqb validBars 2 then score + screenshotBothBarsBonus tol
    else score in
  let score :=
    if jsge cover (Fin (screenshotMinCoverFrac tol))
    then score + screenshotCoverBonus tol else score in
  mkScreenshotScore score cover validBars.

(** *** The pipeline *)

(** Assignments to the fields of a summary. *)
Definition setDocumentType (s : DocumentAnalysisSummary) (t : DocumentType)
  : DocumentAnalysisSummary :=
  mkSummary t (confidence s) (background s) (primaryBox s)
    (primarySynthetic s) (primaryBoxSource s) (quality s).

Definition setConfidence (s : DocumentAnalysisSummary) (c : option Q)
  : DocumentAnalysisSummary :=
  mkSummary (documentType s) c (background s) (primaryBox s)
    (primarySynthetic s) (primaryBoxSource s) (quality s).

Definition setPrimaryBox (s : DocumentAnalysisSummary) (b : option Box)
  : DocumentAnalysisSummary :=
  mkSummary (documentType s) (confidence s) (background s) b
    (primarySynthetic s) (primaryBoxSource s) (quality s).

Definition setQuality (s : DocumentAnalysisSummary) (q : option Quality)
  : DocumentAnalysisSummary :=
  mkSummary (documentType s) (confidence s) (background s) (primaryBox s)
    (primarySynthetic s) (primaryBoxSource s) q.

Definition setIsPartial (q : Quality) (b : option bool) : Quality :=
  mkQuality (edgeIntensity q) (readabilityScore q) (clarity q)
    (skewAngleDeg q) b.

(** The variables that the stages of [refineDocumentAnalysis] update. *)
Record State : Type := mkState {
  st_summary : DocumentAnalysisSummary;
  st_outDetections : list DetectionAxisAligned;
  st_notes : list Note }.

Definition fullFrame (W H : Q) : Box := mkBox 0 0 W H.

(** [// 2) Retype if allowed] *)
Definition retype (cfg : FullRefineConfig) (input : DocumentAnalysisResult)
  (main : MainType) (notes : list Note)
  : DocumentAnalysisSummary * list Note :=
  let summary_ := copy (summary input) in
  if (allowRetype cfg &&
      negb (DocumentType_eqb (type main) (documentType (summary input))))%bool
  then
    (setConfidence (setDocumentType summary_ (type main)) (Some (conf main)),
     notes ++ [NoteRetype (documentType (summary input)) (type main)])
  else (summary_, notes).

(** [// 3) Primary box] *)
Definition establishPrimaryBox (cfg : FullRefineConfig) (W H : Q)
  (main : MainType) (summary_ : DocumentAnalysisSummary) (notes : list Note)
  : DocumentAnalysisSummary * list Note :=
  let '(summary_, notes) :=
    match primaryBox summary_, primary main with
    | None, Some p =>
        (setPrimaryBox summary_ (Some (copy (box p))),
         notes ++ [NotePrimaryAdopted])
    | _, _ => (summary_, notes)
    end in
  match primaryBox summary_ with
  | None => (summary_, notes)
  | Some pb =>
      let pb :=
        {| x1 := clamp (x1 pb) 0 W;
           y1 := clamp (y1 pb) 0 H;
           x2 := clamp (x2 pb) 0 W;
           y2 := clamp (y2 pb) 0 H |} in
      let summary_ := setPrimaryBox summary_ (Some pb) in
      let primA := area pb in
      let frameA := W * H in
      let cover := if Qlt_bool 0 frameA then primA / frameA else 0 in
      let wasPartial :=
        match quality summary_ with
        | Some q => orElse (isPartial q) false
        | None => false
        end in
      let isPartial_ := Qlt_bool cover (minPrimaryAreaFrac (tol cfg)) in
      if negb (Bool.eqb isPartial_ wasPartial) then
        let q := orElse (quality summary_) emptyQuality in
        let summary_ :=
          setQuality summary_ (Some (setIsPartial q (Some isPartial_))) in
        (summary_,
         if isPartial_ then notes ++ [NoteFlagPartial cover] else notes)
      else (summary_, notes)
  end.

Definition isBar (d : DetectionAxisAligned) : bool :=
  (String.eqb (label d) "Top status bar" ||
   String.eqb (label d) "Bottom nav bar")%bool.

(** [// 4) Extract bars]: the arrays [bars] and [rest]. *)
Definition extractBars (dets : list DetectionAxisAligned)
  : list DetectionAxisAligned * list DetectionAxisAligned :=
  fold_left
    (fun '(bars, rest) d =>
       if isBar d then (bars ++ [d], rest) else (bars, rest ++ [d]))
    dets ([], []).

(** [// 5) If not a Screenshot — drop bars] *)
Definition noteDroppedBars (bars : list DetectionAxisAligned) (st : State)
  : State :=
  if (negb (DocumentType_eqb (documentType (st_summary st)) SCREENSHOT) &&
      negb (Nat.eqb (List.length bars) 0))%bool
  then mkState (st_summary st) (st_outDetections st)
         (st_notes st ++ [NoteDropBars])
  else st.

(** [dets.filter(keep).sort((a, b) => b.score - a.score)[0]] *)
Definition bestByScore (keep : DetectionAxisAligned -> bool)
  (dets : list DetectionAxisAligned) : option DetectionAxisAligned :=
  hd_error (sortDesc score (filter keep dets)).

Definition isScreenshot (d : DetectionAxisAligned) : bool :=
  String.eqb (label d) "Screenshot".

Definition isDocumentOrReceipt (d : DetectionAxisAligned) : bool :=
  (String.eqb (label d) "Document" || String.eqb (label d) "Receipt")%bool.

(** The container of the Screenshot logic: the box of the best Screenshot
    detection, or the full frame. *)
Definition screenshotContainerOf (input : DocumentAnalysisResult) (W H : Q)
  : Box :=
  match bestByScore isScreenshot (detections input) with
  | Some bestScreenshot => copy (box bestScreenshot)
  | None => fullFrame W H
  end.

(** [altScore] and [altType] for the alternative candidate [alt]. *)
Definition altScoreOf (alt : option DetectionAxisAligned)
  (screenshotContainer : Box) : jsnum :=
  match alt with
  | Some alt => Fin (score alt + 0.5 * iou (box alt) screenshotContainer)
  | None => NegInf
  end.

Definition altTypeOf (alt : option DetectionAxisAligned)
  : option DocumentType :=
  match alt with
  | Some alt =>
      Some (if String.eqb (label alt) "Document" then DOCUMENT else RECEIPT)
  | None => None
  end.

(** The [else] branch of the Screenshot logic ([// Keep Screenshot]). *)
Definition keepScreenshot (cfg : FullRefineConfig) (W H : Q)
  (bestScreenshot : option DetectionAxisAligned) (screenshotContainer : Box)
  (s : ScreenshotScore) (topOk botOk : option DetectionAxisAligned)
  (summary_ : DocumentAnalysisSummary)
  (outDetections : list DetectionAxisAligned) (notes : list Note) : State :=
  let containerCover := jsdiv (area screenshotContainer) (W * H) in
  let forceFullFrame :=
    match bestScreenshot with
    | None => true
    | Some _ => jslt containerCover (Fin (screenshotMinCoverFrac (tol cfg)))
    end in
  let '(summary_, notes) :=
    if forceFullFrame then
      (setPrimaryBox summary_ (Some (fullFrame W H)),
       notes ++ [NotePrimaryFullFrame])
    else (setPrimaryBox summary_ (Some (copy screenshotContainer)), notes) in
  let summary_ := setConfidence summary_ (Some (s_score s)) in
  let outDetections :=
    match topOk with
    | Some t => outDetections ++ [t]
    | None => outDetections
    end in
  let outDetections :=
    match botOk with
    | Some b => outDetections ++ [b]
    | None => outDetections
    end in
  mkState summary_ outDetections notes.

(** What [// 6) Screenshot logic] computes before it decides: the best
    Screenshot detection, the container, the validated bars, the acceptance
    score [s], the alternative candidate with its score and type, and the
    notes so far. *)
Record ScreenshotEvidence : Type := mkEvidence {
  e_bestScreenshot : option DetectionAxisAligned;
  e_screenshotContainer : Box;
  e_topOk : option DetectionAxisAligned;
  e_botOk : option DetectionAxisAligned;
  e_s : ScreenshotScore;
  e_alt : option DetectionAxisAligned;
  e_altScore : jsnum;
  e_altType : option DocumentType;
  e_notes : list Note }.

Definition screenshotEvidence (cfg : FullRefineConfig)
  (input : DocumentAnalysisResult) (W H : Q)
  (bars : list DetectionAxisAligned) (summary_ : DocumentAnalysisSummary)
  (notes : list Note) : ScreenshotEvidence :=
  let bestScreenshot := bestByScore isScreenshot (detections input) in
  let screenshotContainer := screenshotContainerOf input W H in
  let topRaw :=
    find (fun b => String.eqb (label b) "Top status bar") bars in
  let botRaw :=
    find (fun b => String.eqb (label b) "Bottom nav bar") bars in
  let '(topOk, notes) :=
    match topRaw with
    | Some topRaw =>
        validateBarNoMutate topRaw screenshotContainer W H Top (tol cfg) notes
    | None => (None, notes)
    end in
  let '(botOk, notes) :=
    match botRaw with
    | Some botRaw =>
        validateBarNoMutate botRaw screenshotContainer W H Bottom (tol cfg)
          notes
    | None => (None, notes)
    end in
  let baseConf :=
    orElse (confidence summary_)
      (match bestScreenshot with Some b => score b | None => 0 end) in
  let s :=
    scoreScreenshot screenshotContainer topOk botOk W H baseConf (tol cfg) in
  let alt := bestByScore isDocumentOrReceipt (detections input) in
  let altScore := altScoreOf alt screenshotContainer in
  let altType := altTypeOf alt in
  mkEvidence bestScreenshot screenshotContainer topOk botOk s alt altScore
    altType notes.

Definition needSwitchToAlt (cfg : FullRefineConfig) (e : ScreenshotEvidence)
  : bool :=
  (jslt (s_cover (e_s e)) (Fin (screenshotMinCoverFrac (tol cfg))) &&
   jsgt (e_altScore e) NegInf &&
   jsge (e_altScore e)
     (Fin (s_score (e_s e) - altCandidateMaxDelta (tol cfg))))%bool.

(** [// 6) Screenshot logic] *)
Definition screenshotLogic (cfg : FullRefineConfig)
  (input : DocumentAnalysisResult) (W H : Q)
  (bars : list DetectionAxisAligned) (st : State) : State :=
  let summary_ := st_summary st in
  let outDetections := st_outDetections st in
  if DocumentType_eqb (documentType summary_) SCREENSHOT then
    let e := screenshotEvidence cfg input W H bars summary_ (st_notes st) in
    let notes := e_notes e in
    let keep :=
      keepScreenshot cfg W H (e_bestScreenshot e) (e_screenshotContainer e)
        (e_s e) (e_topOk e) (e_botOk e) summary_ outDetections notes in
    if (needSwitchToAlt cfg e && allowRetype cfg)%bool then
      match e_alt e, e_altType e with
      | Some alt, Some altType =>
          let summary_ := setDocumentType summary_ altType in
          let summary_ := setConfidence summary_ (Some (score alt)) in
          let summary_ := setPrimaryBox summary_ (Some (copy (box alt))) in
          mkState summary_ outDetections
            (notes ++
             [NoteSwitch altType (s_cover (e_s e)) (e_altScore e)
                (s_score (e_s e))])
      | _, _ => keep (* [altType] is falsy *)
      end
    else keep
  else st.

(** [Math.max(...values)] for a non-empty array. *)
Definition mathMax (values : list Q) : Q :=
  match values with
  | [] => 0 (* not reached: the callers test the length *)
  | v :: vs => fold_left Qmax vs v
  end.

Definition hasLabelEq (lbl : string) (d : DetectionAxisAligned) : bool :=
  String.eqb (label d) lbl.

(** [// 7) Resolve Document vs Receipt] *)
Definition resolveDocumentVsReceipt (cfg : FullRefineConfig) (st : State)
  : State :=
  let summary_ := st_summary st in
  let outDetections := st_outDetections st in
  let notes := st_notes st in
  let doc := filter (hasLabelEq "Document") outDetections in
  let rec := filter (hasLabelEq "Receipt") outDetections in
  match primaryBox summary_ with
  | Some pb =>
      if (negb (Nat.eqb (List.length doc) 0) &&
          negb (Nat.eqb (List.length rec) 0) && allowRetype cfg)%bool
      then
        let scoreDoc := mathMax (map score doc) in
        let scoreRec := mathMax (map score rec) in
        let iouDoc := mathMax (map (fun d => iou (box d) pb) doc) in
        let iouRec := mathMax (map (fun d => iou (box d) pb) rec) in
        let keepDocument := Qle_bool (scoreRec + iouRec) (scoreDoc + iouDoc) in
        let keep := (if keepDocument then "Document" else "Receipt")%string in
        let outDetections :=
          filter
            (fun d =>
               (String.eqb (label d) keep ||
                (negb (String.eqb (label d) "Document") &&
                 negb (String.eqb (label d) "Receipt")))%bool)
            outDetections in
        let wantType := if keepDocument then DOCUMENT else RECEIPT in
        if negb (DocumentType_eqb (documentType summary_) wantType) then
          let summary_ := setDocumentType summary_ wantType in
          let summary_ :=
            setConfidence summary_
              (Some (if keepDocument then scoreDoc else scoreRec)) in
          mkState summary_ outDetections (notes ++ [NoteResolveConflict keep])
        else mkState summary_ outDetections notes
      else st
  | None => st
  end.

(** The label that stands for a document type in the detections. *)
Definition wantedLblOf (t : DocumentType) : option string :=
  match t with
  | SCREENSHOT => Some "Screenshot"%string
  | DOCUMENT => Some "Document"%string
  | RECEIPT => Some "Receipt"%string
  | UNKNOWN => None
  end.

(** [// 8) Replace primary with the best class box if IoU is low] *)
Definition replacePrimary (cfg : FullRefineConfig) (st : State) : State :=
  let summary_ := st_summary st in
  let outDetections := st_outDetections st in
  let notes := st_notes st in
  match primaryBox summary_ with
  | Some pb =>
      if allowRetype cfg then
        let wantedLbl := wantedLblOf (documentType summary_) in
        let cands :=
          filter (hasLabelEq (orElse wantedLbl EmptyString)) outDetections in
        let scored :=
          sortDesc snd
            (map (fun d => (d, score d + 0.5 * iou (box d) pb)) cands) in
        match scored with
        | [] => st
        | (best, _) :: _ =>
            if Qlt_bool (iou (box best) pb) 0.5 then
              mkState (setPrimaryBox summary_ (Some (copy (box best))))
                outDetections (notes ++ [NotePrimaryReplaced wantedLbl])
            else st
        end
      else st
  | None => st
  end.

(** The synthetic detection of the fallback for Unknown. *)
Definition fullDoc (W H : Q) : DetectionAxisAligned :=
  mkDet "Document" 0 (fullFrame W H)
    (Some {| synthetic := Some true;
             adjusted := None;
             source := Some SrcFallback;
             reason := Some "unknown_full_frame"%string;
             validated := None;
             metrics := None |}).

Definition hasNearFullDoc (input : DocumentAnalysisResult) (W H : Q) : bool :=
  existsb
    (fun d =>
       ((String.eqb (label d) "Document" || String.eqb (label d) "Screenshot") &&
        Qlt_bool 0.95 (iou (box d) (box (fullDoc W H))))%bool)
    (detections input).

(** [// 9) Fallback for Unknown — synthetic full-frame] *)
Definition unknownFallback (input : DocumentAnalysisResult) (W H : Q)
  (st : State) : State :=
  let summary_ := st_summary st in
  let outDetections := st_outDetections st in
  let notes := st_notes st in
  if DocumentType_eqb (documentType summary_) UNKNOWN then
    let '(summary_, notes) :=
      match primaryBox summary_ with
      | None =>
          (setPrimaryBox summary_ (Some (box (fullDoc W H))),
           notes ++ [NotePrimaryUnknown])
      | Some _ => (summary_, notes)
      end in
    let '(outDetections, notes) :=
      if negb (hasNearFullDoc input W H) then
        (fullDoc W H :: outDetections, notes ++ [NoteSynthUnknown])
      else (outDetections, notes) in
    let q := orElse (quality summary_) emptyQuality in
    let summary_ := setQuality summary_ (Some (setIsPartial q (Some false))) in
    mkState summary_ outDetections notes
  else st.

(** The loop of [upsertPrimaryDetection] that computes [bestIou]. *)
Definition bestIouWith (pb : Box) (wantedLbl : string)
  (dets : list DetectionAxisAligned) : Q :=
  fold_left
    (fun bestIou d =>
       if negb (String.eqb (label d) wantedLbl) then bestIou
       else
         let v := iou (box d) pb in
         if Qlt_bool bestIou v then v else bestIou)
    dets 0.

(** The detection that [upsertPrimaryDetection] inserts. *)
Definition syntheticPrimary (wantedLbl : string)
  (summary_ : DocumentAnalysisSummary) (pb : Box) : DetectionAxisAligned :=
  mkDet wantedLbl (orElse (confidence summary_) 0) pb
    (Some {| synthetic := Some true;
             adjusted := None;
             source := Some SrcRefine;
             reason := Some "matches_primaryBox"%string;
             validated := None;
             metrics := None |}).

Definition upsertPrimaryDetection (out : DocumentAnalysisResult)
  (notes : list Note) (wantedLbl : option string)
  : DocumentAnalysisResult * list Note :=
  match primaryBox (summary out), wantedLbl with
  | Some pb, Some wantedLbl =>
      let bestIou := bestIouWith pb wantedLbl (detections out) in
      if Qle_bool 0.90 bestIou then (out, notes)
      else
        let det := syntheticPrimary wantedLbl (summary out) pb in
        (mkResult (source_ out) (timestamp out) (meta_ out) (summary out)
           (detections out ++ [det]) (signals out) (model out),
         notes ++ [NoteSynthPrimary])
  | _, _ => (out, notes)
  end.

(** The variables of [refineDocumentAnalysis] after [// 8)]. *)
Definition stagesToPrimary (cfg : FullRefineConfig)
  (input : DocumentAnalysisResult) : State :=
  let notes : list Note := [] in
  let W := width (meta_ input) in
  let H := height (meta_ input) in
  let '(main, notes) := pickMainType input (tol cfg) notes in
  let '(summary_, notes) := retype cfg input main notes in
  let '(summary_, notes) := establishPrimaryBox cfg W H main summary_ notes in
  let '(bars, rest) := extractBars (detections input) in
  let st := mkState summary_ rest notes in
  let st := noteDroppedBars bars st in
  let st := screenshotLogic cfg input W H bars st in
  let st := resolveDocumentVsReceipt cfg st in
  replacePrimary cfg st.

(** The variables of [refineDocumentAnalysis] after [// 9)]. *)
Definition stages (cfg : FullRefineConfig) (input : DocumentAnalysisResult)
  : State :=
  unknownFallback input (width (meta_ input)) (height (meta_ input))
    (stagesToPrimary cfg input).

Definition refineDocumentAnalysis (input : DocumentAnalysisResult)
  (options : option RefineOptions) : DocumentAnalysisResult :=
  let cfg := buildConfig options in
  let st := stages cfg input in
  (* 10) Assemble result *)
  let out :=
    mkResult (source_ input) (timestamp input) (meta_ input) (st_summary st)
      (st_outDetections st) (signals input) (model input) in
  (* 11) Invariant: the primary box is reflected in the detections *)
  let wantedLbl := wantedLblOf (documentType (summary out)) in
  let '(out, notes) := upsertPrimaryDetection out (st_notes st) wantedLbl in
  if keepDiagnostics cfg then
    let old := orElse (signals out) emptySignals in
    mkResult (source_ out) (timestamp out) (meta_ out) (summary out)
      (detections out)
      (Some (mkSignals (colors old) (classificationTopK old)
               (Some (orElse (diagnostics old) [] ++ notes))))
      (model out)
  else out.

End Refine.

(** *** Notions used to state the properties of the refinement *)

Module RefineSpec.
Import Js Types Refine.

(** [d] carries the label [lbl] and its IoU with [pb] is at least [t]. *)
Definition reflectsPrimaryAt (t : Q) (lbl : string) (pb : Box)
  (d : DetectionAxisAligned) : Prop :=
  label d = lbl /\ t <= iou (box d) pb.

(** [d] reflects the primary box [pb] for the label [lbl]: it carries the
    label and its IoU with the box is at least 0.90. *)
Definition reflectsPrimary (lbl : string) (pb : Box)
  (d : DetectionAxisAligned) : Prop :=
  reflectsPrimaryAt 0.90 lbl pb d.

(** The meta of a detection synthesized by the refinement itself. *)
Definition refineMeta : DetectionMeta :=
  {| synthetic := Some true;
     adjusted := None;
     source := Some SrcRefine;
     reason := Some "matches_primaryBox"%string;
     validated := None;
     metrics := None |}.

(** The meta of the detection synthesized by the fallback for Unknown. *)
Definition fallbackMeta : DetectionMeta :=
  {| synthetic := Some true;
     adjusted := None;
     source := Some SrcFallback;
     reason := Some "unknown_full_frame"%string;
     validated := None;
     metrics := None |}.

(** The state on which the Screenshot logic runs, and the bars set aside:
    the variables of [refineDocumentAnalysis] after [// 5)]. *)
Definition beforeScreenshotLogic (cfg : FullRefineConfig)
  (input : DocumentAnalysisResult) : list DetectionAxisAligned * State :=
  let W := width (meta_ input) in
  let H := height (meta_ input) in
  let '(main, notes) := pickMainType input (tol cfg) [] in
  let '(summary_, notes) := retype cfg input main notes in
  let '(summary_, notes) := establishPrimaryBox cfg W H main summary_ notes in
  let '(bars, rest) := extractBars (detections input) in
  (bars, noteDroppedBars bars (mkState summary_ rest notes)).

(** An analysis result with the given frame, summary and detections. *)
Definition resultOf (W H : Q) (summary_ : DocumentAnalysisSummary)
  (dets : list DetectionAxisAligned) : DocumentAnalysisResult :=
  mkResult (mkSourceInfo None None) "2024-01-01T00:00:00.000Z"
    (mkImageMeta W H (W / H) "jpeg" "srgb" None)
    summary_ dets None None.

(** A summary as the analyzer builds it. *)
Definition summaryOf (t : DocumentType) (c : Q) (pb : option Box)
  : DocumentAnalysisSummary :=
  mkSummary t (Some c) "Unknown" pb None None
    (Some (mkQuality (Some 0.02) (Some 0.2) (Some Medium) None (Some false))).

(** An Unknown result with a primary box in a corner of a 100 by 100
    frame, and no detection. *)
Definition unknownWithPrimary : DocumentAnalysisResult :=
  resultOf 100 100 (summaryOf UNKNOWN 0 (Some (mkBox 0 0 10 10))) [].

(** A Screenshot detection covering 40% of a 1000 by 1000 frame, with a
    Document detection of score 0.6 inside it; the summary says Screenshot
    with confidence 0.55. *)
Definition smallScreenshot : DocumentAnalysisResult :=
  resultOf 1000 1000
    (summaryOf SCREENSHOT 0.55 (Some (mkBox 0 0 500 800)))
    [mkDet "Screenshot" 0.9 (mkBox 0 0 500 800) None;
     mkDet "Document" 0.6 (mkBox 50 100 450 700) None].

(** A Document result whose primary box has no width, and no detection. *)
Definition degeneratePrimary : DocumentAnalysisResult :=
  resultOf 100 100 (summaryOf DOCUMENT 0.9 (Some (mkBox 5 5 5 50))) [].

(** No detection, type Unknown, frame 800 by 600, and a primary box in a
    corner of the frame. *)
Definition emptyUnknownWithPrimary : DocumentAnalysisResult :=
  resultOf 800 600 (summaryOf UNKNOWN 0 (Some (mkBox 0 0 10 10))) [].

(** A Screenshot result with a valid top bar, a bottom bar that is too
    narrow, a Receipt and a Document. *)
Definition screenshotWithBars : DocumentAnalysisResult :=
  resultOf 400 800 (summaryOf SCREENSHOT 0.7 None)
    [mkDet "Screenshot" 0.7 (mkBox 0 0 400 800) None;
     mkDet "Top status bar" 0.8 (mkBox 0 0 400 40) None;
     mkDet "Bottom nav bar" 0.8 (mkBox 0 700 200 800) None;
     mkDet "Receipt" 0.65 (mkBox 10 10 300 700) None;
     mkDet "Document" 0.6 (mkBox 10 10 390 790) None].

(** No detection, type Unknown, no primary box, frame 800 by 600. *)
Definition emptyUnknown : DocumentAnalysisResult :=
  resultOf 800 600 (summaryOf UNKNOWN 0 None) [].

(** An Unknown result whose only detection, a Document, has an IoU of
    exactly 0.95 with the 100 by 100 frame; retyping is switched off. *)
Definition nearFullDocument : DocumentAnalysisResult :=
  resultOf 100 100 (summaryOf UNKNOWN 0 None)
    [mkDet "Document" 0.9 (mkBox 0 0 100 95) None].

Definition noRetype : option RefineOptions :=
  Some (mkRefineOptions None (Some false) None).

(** A Document result on a 100 by 100 frame whose only detection has the
    label and the box of the primary box. *)
Definition plainDocument : DocumentAnalysisResult :=
  resultOf 100 100 (summaryOf DOCUMENT 0.9 (Some (mkBox 10 10 90 90)))
    [mkDet "Document" 0.9 (mkBox 10 10 90 90) None].

(** A frame of size zero: the summary says Screenshot with confidence 0.5;
    the detections are a Screenshot and a Document, both clamped to the
    empty frame. *)
Definition zeroFrameScreenshot : DocumentAnalysisResult :=
  resultOf 0 0 (summaryOf SCREENSHOT 0.5 None)
    [mkDet "Screenshot" 0.9 (mkBox 0 0 0 0) None;
     mkDet "Document" 0.5 (mkBox 0 0 0 0) None].

(** [e] with the coverage replaced by [cover]. *)
Definition withCover (e : ScreenshotEvidence) (cover : jsnum)
  : ScreenshotEvidence :=
  mkEvidence (e_bestScreenshot e) (e_screenshotContainer e) (e_topOk e)
    (e_botOk e)
    (mkScreenshotScore (s_score (e_s e)) cover (s_validBars (e_s e)))
    (e_alt e) (e_altScore e) (e_altType e) (e_notes e).

End RefineSpec.

(** ** The refinement over a store of objects

    The value model above cannot say whether the refinement writes into the
    objects it was given.  Here the objects of the source live in a store and
    are held by reference: the result, its summary, the primary box and the
    quality of the summary, the detections array, each detection and its box.
    The statements of [refineDocumentAnalysis] that create an object
    allocate, those that assign to a property or push to an array write
    through the reference that the source uses, and the decisions are the
    ones of the value model, computed on what is read from the store.

    The [meta] of a detection, the image [meta], [source], [signals] and
    [model] are kept as values inside their owner: the source never assigns
    to a property of one of them.  The array [notes] is local to the call
    and is passed along as a list. *)

Module Store.
Import Js Types Refine.

Definition loc : Type := nat.

Inductive Obj : Type :=
| OBox (b : Box)
| ODet (lbl : string) (sc : Q) (bx : loc) (mt : option DetectionMeta)
| OArr (items : list loc)
| OQuality (q : Quality)
| OSummary (ty : DocumentType) (cf : option Q) (bg : string)
    (pb : option loc) (ps : option bool) (pbs : option PrimaryBoxSource)
    (ql : option loc)
| OResult (src : SourceInfo) (ts : string) (im : ImageMeta) (sm : loc)
    (dets : loc) (sig : option AnalysisSignals) (mdl : option ModelInfo).

Definition Heap : Type := list Obj.

(** Computations on the store. *)
Definition M (A : Type) : Type := Heap -> A * Heap.

Definition ret {A : Type} (a : A) : M A := fun h => (a, h).

Definition bind {A B : Type} (m : M A) (k : A -> M B) : M B :=
  fun h => let (a, h') := m h in k a h'.

Declare Scope store_scope.
Delimit Scope store_scope with store.
Notation "'do' x <- m ; k" := (bind m (fun x => k))
  (at level 10, x name, m at level 100, k at level 200) : store_scope.
Notation "'do' ' p <- m ; k" := (bind m (fun x => match x with p => k end))
  (at level 10, p pattern, m at level 100, k at level 200) : store_scope.
Notation "m ;; k" := (bind m (fun _ => k))
  (at level 100, k at level 200, right associativity) : store_scope.
Local Open Scope store_scope.

(** A new object; its reference is the next free location. *)
Definition alloc (o : Obj) : M loc :=
  fun h => (List.length h, h ++ [o]).

Definition lookup (l : loc) : M (option Obj) :=
  fun h => (nth_error h l, h).

(** An assignment through the reference [l]: the object there becomes
    [f o].  Nothing is written through a reference that holds no object. *)
Definition modify (l : loc) (f : Obj -> Obj) : M unit :=
  fun h =>
    match nth_error h l with
    | Some o => (tt, firstn l h ++ f o :: skipn (S l) h)
    | None => (tt, h)
    end.

Fixpoint forEach {A : Type} (l : list A) (body : A -> M unit) : M unit :=
  match l with
  | [] => ret tt
  | a :: l' => body a ;; forEach l' body
  end.

Fixpoint mapM {A B : Type} (f : A -> M B) (l : list A) : M (list B) :=
  match l with
  | [] => ret []
  | a :: l' => do b <- f a; do bs <- mapM f l'; ret (b :: bs)
  end.

(** *** Reading

    A read through a reference that does not hold an object of the expected
    kind gives the empty object of that kind ([undefined] properties); the
    stores built from values hold no such reference. *)

Definition getBox (l : loc) : M Box :=
  do o <- lookup l;
  ret (match o with Some (OBox b) => b | _ => mkBox 0 0 0 0 end).

(** A detection object: its properties, the box by reference. *)
Record DetObj : Type := mkDetObj {
  d_label : string;
  d_score : Q;
  d_box : loc;
  d_meta : option DetectionMeta }.

Definition getDet (l : loc) : M DetObj :=
  do o <- lookup l;
  ret (match o with
       | Some (ODet lbl sc bx mt) => mkDetObj lbl sc bx mt
       | _ => mkDetObj EmptyString 0 l None
       end).

Definition getArr (l : loc) : M (list loc) :=
  do o <- lookup l;
  ret (match o with Some (OArr items) => items | _ => [] end).

Definition getQuality (l : loc) : M Quality :=
  do o <- lookup l;
  ret (match o with Some (OQuality q) => q | _ => emptyQuality end).

(** A summary object: its properties, box and quality by reference. *)
Record SummaryObj : Type := mkSummaryObj {
  s_documentType : DocumentType;
  s_confidence : option Q;
  s_background : string;
  s_primaryBox : option loc;
  s_primarySynthetic : option bool;
  s_primaryBoxSource : option PrimaryBoxSource;
  s_quality : option loc }.

Definition getSummary (l : loc) : M SummaryObj :=
  do o <- lookup l;
  ret (match o with
       | Some (OSummary ty cf bg pb ps pbs ql) =>
           mkSummaryObj ty cf bg pb ps pbs ql
       | _ => mkSummaryObj UNKNOWN None EmptyString None None None None
       end).

(** A result object: its properties, summary and detections by
    reference. *)
Record ResultObj : Type := mkResultObj {
  r_source : SourceInfo;
  r_timestamp : string;
  r_meta : ImageMeta;
  r_summary : loc;
  r_detections : loc;
  r_signals : option AnalysisSignals;
  r_model : option ModelInfo }.

Definition getResult (l : loc) : M ResultObj :=
  do o <- lookup l;
  ret (match o with
       | Some (OResult src ts im sm dets sig mdl) =>
           mkResultObj src ts im sm dets sig mdl
       | _ =>
           mkResultObj (mkSourceInfo None None) EmptyString
             (mkImageMeta 0 0 0 EmptyString EmptyString None) l l None None
       end).

Definition optionM {A B : Type} (f : A -> M B) (o : option A)
  : M (option B) :=
  match o with
  | Some a => do b <- f a; ret (Some b)
  | None => ret None
  end.

(** The value held by a detection: the object and its box. *)
Definition readDet (l : loc) : M DetectionAxisAligned :=
  do d <- getDet l;
  do b <- getBox (d_box d);
  ret (mkDet (d_label d) (d_score d) b (d_meta d)).

(** The detections of an array, each with its reference. *)
Definition readDets (arr : loc) : M (list (loc * DetectionAxisAligned)) :=
  do items <- getArr arr;
  mapM (fun l => do v <- readDet l; ret (l, v)) items.

Definition readSummary (l : loc) : M DocumentAnalysisSummary :=
  do s <- getSummary l;
  do pb <- optionM getBox (s_primaryBox s);
  do q <- optionM getQuality (s_quality s);
  ret (mkSummary (s_documentType s) (s_confidence s) (s_background s) pb
         (s_primarySynthetic s) (s_primaryBoxSource s) q).

Definition readResult (l : loc) : M DocumentAnalysisResult :=
  do r <- getResult l;
  do s <- readSummary (r_summary r);
  do dets <- readDets (r_detections r);
  ret (mkResult (r_source r) (r_timestamp r) (r_meta r) s (map snd dets)
         (r_signals r) (r_model r)).

(** *** Creating *)

(** An object literal for a box. *)
Definition newBox (b : Box) : M loc := alloc (OBox b).

(** An object literal for a detection, with its box. *)
Definition newDet (d : DetectionAxisAligned) : M loc :=
  do b <- newBox (box d);
  alloc (ODet (label d) (score d) b (meta d)).

Definition newArr (items : list loc) : M loc := alloc (OArr items).

(** [copy(box)]: a new box with the coordinates read through [l]. *)
Definition copyBox (l : loc) : M loc :=
  do b <- getBox l; newBox b.

(** [copy(summary)]: a new summary, with a new box and a new quality. *)
Definition copySummary (l : loc) : M loc :=
  do s <- getSummary l;
  do pb <- optionM copyBox (s_primaryBox s);
  do q <- optionM (fun q => do v <- getQuality q; alloc (OQuality v))
            (s_quality s);
  alloc (OSummary (s_documentType s) (s_confidence s) (s_background s) pb
           (s_primarySynthetic s) (s_primaryBoxSource s) q).

(** A value placed in the store: the objects of a result. *)
Definition newSummary (s : DocumentAnalysisSummary) : M loc :=
  do pb <- optionM newBox (primaryBox s);
  do q <- optionM (fun v => alloc (OQuality v)) (quality s);
  alloc (OSummary (documentType s) (confidence s) (background s) pb
           (primarySynthetic s) (primaryBoxSource s) q).

Definition newResult (r : DocumentAnalysisResult) : M loc :=
  do s <- newSummary (summary r);
  do items <- mapM newDet (detections r);
  do arr <- newArr items;
  alloc (OResult (source_ r) (timestamp r) (meta_ r) s arr (signals r)
           (model r)).

(** *** Assigning

    Each assignment changes one property of the object of the expected
    kind and leaves an object of another kind as it is. *)

Definition setDocumentType (s : loc) (t : DocumentType) : M unit :=
  modify s (fun o =>
    match o with
    | OSummary _ cf bg pb ps pbs ql => OSummary t cf bg pb ps pbs ql
    | _ => o
    end).

Definition setConfidence (s : loc) (c : option Q) : M unit :=
  modify s (fun o =>
    match o with
    | OSummary ty _ bg pb ps pbs ql => OSummary ty c bg pb ps pbs ql
    | _ => o
    end).

Definition setPrimaryBox (s : loc) (b : option loc) : M unit :=
  modify s (fun o =>
    match o with
    | OSummary ty cf bg _ ps pbs ql => OSummary ty cf bg b ps pbs ql
    | _ => o
    end).

Definition setQuality (s : loc) (q : option loc) : M unit :=
  modify s (fun o =>
    match o with
    | OSummary ty cf bg pb ps pbs _ => OSummary ty cf bg pb ps pbs q
    | _ => o
    end).

Definition setIsPartial (q : loc) (b : option bool) : M unit :=
  modify q (fun o =>
    match o with
    | OQuality v => OQuality (Refine.setIsPartial v b)
    | _ => o
    end).

Definition setX1 (p : loc) (v : Q) : M unit :=
  modify p (fun o =>
    match o with OBox b => OBox (mkBox v (y1 b) (x2 b) (y2 b)) | _ => o end).

Definition setY1 (p : loc) (v : Q) : M unit :=
  modify p (fun o =>
    match o with OBox b => OBox (mkBox (x1 b) v (x2 b) (y2 b)) | _ => o end).

Definition setX2 (p : loc) (v : Q) : M unit :=
  modify p (fun o =>
    match o with OBox b => OBox (mkBox (x1 b) (y1 b) v (y2 b)) | _ => o end).

Definition setY2 (p : loc) (v : Q) : M unit :=
  modify p (fun o =>
    match o with OBox b => OBox (mkBox (x1 b) (y1 b) (x2 b) v) | _ => o end).

(** [arr.push(item)] *)
Definition push (arr : loc) (item : loc) : M unit :=
  modify arr (fun o =>
    match o with OArr items => OArr (items ++ [item]) | _ => o end).

(** [out.signals = signals] *)
Definition setSignals (r : loc) (sig : option AnalysisSignals) : M unit :=
  modify r (fun o =>
    match o with
    | OResult src ts im sm dets _ mdl => OResult src ts im sm dets sig mdl
    | _ => o
    end).

(** [out.detections = arr] *)
Definition setDetections (r : loc) (arr : loc) : M unit :=
  modify r (fun o =>
    match o with
    | OResult src ts im sm _ sig mdl => OResult src ts im sm arr sig mdl
    | _ => o
    end).

(** [out.meta = meta] *)
Definition setMeta (d : loc) (mt : option DetectionMeta) : M unit :=
  modify d (fun o =>
    match o with ODet lbl sc bx _ => ODet lbl sc bx mt | _ => o end).

(** [copy(det)]: a new detection with a new box. *)
Definition copyDet (l : loc) : M loc :=
  do d <- getDet l;
  do b <- copyBox (d_box d);
  alloc (ODet (d_label d) (d_score d) b (d_meta d)).

(** [arr.filter(keep)]: a new array. *)
Definition filterArr (keep : DetectionAxisAligned -> bool) (arr : loc)
  : M loc :=
  do dets <- readDets arr;
  newArr (map fst (filter (fun d => keep (snd d)) dets)).

(** [arr.sort((a, b) => key(b) - key(a))]: the array itself is
    reordered. *)
Definition sortArr (key : DetectionAxisAligned -> Q) (arr : loc) : M unit :=
  do dets <- readDets arr;
  let sorted := map fst (sortDesc (fun d => key (snd d)) dets) in
  modify arr (fun o => match o with OArr _ => OArr sorted | _ => o end).

(** [arr[0]] *)
Definition headArr (arr : loc) : M (option loc) :=
  do items <- getArr arr; ret (hd_error items).

(** [dets.filter(keep).sort((a, b) => b.score - a.score)[0]] *)
Definition bestByScore (keep : DetectionAxisAligned -> bool) (arr : loc)
  : M (option loc) :=
  do filtered <- filterArr keep arr;
  sortArr score filtered ;;
  headArr filtered.

(** *** The stages *)

(** [validateBarNoMutate]: the decision is the one of the value model; the
    validated bar is a copy that receives the new [meta]. *)
Definition validateBarNoMutate (bar : loc) (container : Box) (W H : Q)
  (which : BarSide) (tol : Tol) (notes : list Note)
  : M (option loc * list Note) :=
  do v <- readDet bar;
  let '(res, notes) :=
    Refine.validateBarNoMutate v container W H which tol notes in
  match res with
  | Some validated =>
      do out <- copyDet bar;
      setMeta out (meta validated) ;;
      ret (Some out, notes)
  | None => ret (None, notes)
  end.

(** [pickMainType] reads the result and creates only local objects. *)
Definition pickMainType (result : loc) (tol : Tol) (notes : list Note)
  : M (MainType * list Note) :=
  do v <- readResult result;
  ret (Refine.pickMainType v tol notes).

(** [// 2) Retype if allowed]; returns the reference held by [summary]. *)
Definition retype (cfg : FullRefineConfig) (input : loc) (main : MainType)
  (notes : list Note) : M (loc * list Note) :=
  do r <- getResult input;
  do summary_ <- copySummary (r_summary r);
  do inputSummary <- getSummary (r_summary r);
  if (allowRetype cfg &&
      negb (DocumentType_eqb (type main) (s_documentType inputSummary)))%bool
  then
    setDocumentType summary_ (type main) ;;
    setConfidence summary_ (Some (conf main)) ;;
    ret (summary_,
         notes ++ [NoteRetype (s_documentType inputSummary) (type main)])
  else ret (summary_, notes).

(** [// 3) Primary box] *)
Definition establishPrimaryBox (cfg : FullRefineConfig) (W H : Q)
  (main : MainType) (summary_ : loc) (notes : list Note) : M (list Note) :=
  do s <- getSummary summary_;
  do notes <-
    match s_primaryBox s, primary main with
    | None, Some p =>
        do b <- newBox (copy (box p));
        setPrimaryBox summary_ (Some b) ;;
        ret (notes ++ [NotePrimaryAdopted])
    | _, _ => ret notes
    end;
  do s <- getSummary summary_;
  match s_primaryBox s with
  | None => ret notes
  | Some pb =>
      do b <- getBox pb; setX1 pb (clamp (x1 b) 0 W) ;;
      do b <- getBox pb; setX2 pb (clamp (x2 b) 0 W) ;;
      do b <- getBox pb; setY1 pb (clamp (y1 b) 0 H) ;;
      do b <- getBox pb; setY2 pb (clamp (y2 b) 0 H) ;;
      do b <- getBox pb;
      let primA := area b in
      let frameA := W * H in
      let cover := if Qlt_bool 0 frameA then primA / frameA else 0 in
      do wasPartial <-
        match s_quality s with
        | Some q => do v <- getQuality q; ret (orElse (isPartial v) false)
        | None => ret false
        end;
      let isPartial_ := Qlt_bool cover (minPrimaryAreaFrac (tol cfg)) in
      if negb (Bool.eqb isPartial_ wasPartial) then
        (* summary.quality = summary.quality || {} *)
        do q <-
          match s_quality s with
          | Some q => setQuality summary_ (Some q) ;; ret q
          | None =>
              do q <- alloc (OQuality emptyQuality);
              setQuality summary_ (Some q) ;; ret q
          end;
        setIsPartial q (Some isPartial_) ;;
        ret (if isPartial_ then notes ++ [NoteFlagPartial cover] else notes)
      else ret notes
  end.

(** [// 4) Extract bars]: the new arrays [bars] and [rest]. *)
Definition extractBars (input : loc) : M (loc * loc) :=
  do bars <- newArr [];
  do rest <- newArr [];
  do r <- getResult input;
  do items <- getArr (r_detections r);
  forEach items (fun d =>
    do o <- getDet d;
    if (String.eqb (d_label o) "Top status bar" ||
        String.eqb (d_label o) "Bottom nav bar")%bool
    then push bars d else push rest d) ;;
  ret (bars, rest).

(** [// 5) If not a Screenshot — drop bars] *)
Definition noteDroppedBars (summary_ bars : loc) (notes : list Note)
  : M (list Note) :=
  do s <- getSummary summary_;
  do items <- getArr bars;
  if (negb (DocumentType_eqb (s_documentType s) SCREENSHOT) &&
      negb (Nat.eqb (List.length items) 0))%bool
  then ret (notes ++ [NoteDropBars])
  else ret notes.

(** [bars.find(b => b.label === lbl) || null] *)
Definition findLabel (lbl : string) (arr : loc) : M (option loc) :=
  do dets <- readDets arr;
  ret (option_map fst (find (fun d => String.eqb (label (snd d)) lbl) dets)).

(** The [else] branch of the Screenshot logic ([// Keep Screenshot]). *)
Definition keepScreenshot (cfg : FullRefineConfig) (W H : Q)
  (bestScreenshot : option loc) (screenshotContainer : Box)
  (s : ScreenshotScore) (topOk botOk : option loc)
  (summary_ outDetections : loc) (notes : list Note) : M (list Note) :=
  let containerCover := jsdiv (area screenshotContainer) (W * H) in
  let forceFullFrame :=
    match bestScreenshot with
    | None => true
    | Some _ => jslt containerCover (Fin (screenshotMinCoverFrac (tol cfg)))
    end in
  do notes <-
    if forceFullFrame then
      do b <- newBox (fullFrame W H);
      setPrimaryBox summary_ (Some b) ;;
      ret (notes ++ [NotePrimaryFullFrame])
    else
      do b <- newBox (copy screenshotContainer);
      setPrimaryBox summary_ (Some b) ;;
      ret notes;
  setConfidence summary_ (Some (s_score s)) ;;
  match topOk with Some t => push outDetections t | None => ret tt end ;;
  match botOk with Some b => push outDetections b | None => ret tt end ;;
  ret notes.

(** [// 6) Screenshot logic] *)
Definition screenshotLogic (cfg : FullRefineConfig) (input : loc) (W H : Q)
  (bars summary_ outDetections : loc) (notes : list Note) : M (list Note) :=
  do s0 <- getSummary summary_;
  if DocumentType_eqb (s_documentType s0) SCREENSHOT then
    do r <- getResult input;
    do bestScreenshot <- bestByScore isScreenshot (r_detections r);
    do screenshotContainer <-
      match bestScreenshot with
      | Some b => do d <- getDet b; do c <- copyBox (d_box d); getBox c
      | None => do c <- newBox (fullFrame W H); getBox c
      end;
    do topRaw <- findLabel "Top status bar" bars;
    do botRaw <- findLabel "Bottom nav bar" bars;
    do '(topOk, notes) <-
      match topRaw with
      | Some topRaw =>
          validateBarNoMutate topRaw screenshotContainer W H Top (tol cfg)
            notes
      | None => ret (None, notes)
      end;
    do '(botOk, notes) <-
      match botRaw with
      | Some botRaw =>
          validateBarNoMutate botRaw screenshotContainer W H Bottom (tol cfg)
            notes
      | None => ret (None, notes)
      end;
    do s1 <- getSummary summary_;
    do bestV <- optionM readDet bestScreenshot;
    let baseConf :=
      orElse (s_confidence s1)
        (match bestV with Some b => score b | None => 0 end) in
    do topV <- optionM readDet topOk;
    do botV <- optionM readDet botOk;
    let s :=
      scoreScreenshot screenshotContainer topV botV W H baseConf (tol cfg) in
    do alt <- bestByScore isDocumentOrReceipt (r_detections r);
    do altV <- optionM readDet alt;
    let altScore := altScoreOf altV screenshotContainer in
    let altType := altTypeOf altV in
    let needSwitchToAlt :=
      (jslt (s_cover s) (Fin (screenshotMinCoverFrac (tol cfg))) &&
       jsgt altScore NegInf &&
       jsge altScore (Fin (s_score s - altCandidateMaxDelta (tol cfg))))%bool in
    if (needSwitchToAlt && allowRetype cfg)%bool then
      match alt, altV, altType with
      | Some alt, Some altV, Some altType =>
          setDocumentType summary_ altType ;;
          setConfidence summary_ (Some (score altV)) ;;
          do d <- getDet alt;
          do b <- copyBox (d_box d);
          setPrimaryBox summary_ (Some b) ;;
          ret (notes ++ [NoteSwitch altType (s_cover s) altScore (s_score s)])
      | _, _, _ =>
          keepScreenshot cfg W H bestScreenshot screenshotContainer s topOk
            botOk summary_ outDetections notes
      end
    else
      keepScreenshot cfg W H bestScreenshot screenshotContainer s topOk botOk
        summary_ outDetections notes
  else ret notes.

(** [arr.length] *)
Definition lengthArr (arr : loc) : M nat :=
  do items <- getArr arr; ret (List.length items).

(** The box that [summary.primaryBox] holds, if any. *)
Definition readPrimaryBox (summary_ : loc) : M (option Box) :=
  do s <- getSummary summary_; optionM getBox (s_primaryBox s).

(** [// 7) Resolve Document vs Receipt]; returns the array held by
    [outDetections]. *)
Definition resolveDocumentVsReceipt (cfg : FullRefineConfig)
  (summary_ outDetections : loc) (notes : list Note)
  : M (loc * list Note) :=
  do doc <- filterArr (hasLabelEq "Document") outDetections;
  do rec <- filterArr (hasLabelEq "Receipt") outDetections;
  do docV <- readDets doc;
  do recV <- readDets rec;
  do pb <- readPrimaryBox summary_;
  match pb with
  | Some pb =>
      if (negb (Nat.eqb (List.length docV) 0) &&
          negb (Nat.eqb (List.length recV) 0) && allowRetype cfg)%bool
      then
        let scoreDoc := mathMax (map (fun d => score (snd d)) docV) in
        let scoreRec := mathMax (map (fun d => score (snd d)) recV) in
        let iouDoc := mathMax (map (fun d => iou (box (snd d)) pb) docV) in
        let iouRec := mathMax (map (fun d => iou (box (snd d)) pb) recV) in
        let keepDocument := Qle_bool (scoreRec + iouRec) (scoreDoc + iouDoc) in
        let keep := (if keepDocument then "Document" else "Receipt")%string in
        do outDetections <-
          filterArr
            (fun d =>
               (String.eqb (label d) keep ||
                (negb (String.eqb (label d) "Document") &&
                 negb (String.eqb (label d) "Receipt")))%bool)
            outDetections;
        let wantType := if keepDocument then DOCUMENT else RECEIPT in
        do s <- getSummary summary_;
        if negb (DocumentType_eqb (s_documentType s) wantType) then
          setDocumentType summary_ wantType ;;
          setConfidence summary_
            (Some (if keepDocument then scoreDoc else scoreRec)) ;;
          ret (outDetections, notes ++ [NoteResolveConflict keep])
        else ret (outDetections, notes)
      else ret (outDetections, notes)
  | None => ret (outDetections, notes)
  end.

(** [// 8) Replace primary with the best class box if IoU is low] *)
Definition replacePrimary (cfg : FullRefineConfig)
  (summary_ outDetections : loc) (notes : list Note) : M (list Note) :=
  do pb <- readPrimaryBox summary_;
  match pb with
  | Some pb =>
      if allowRetype cfg then
        do s <- getSummary summary_;
        let wantedLbl := wantedLblOf (s_documentType s) in
        do cands <-
          filterArr (hasLabelEq (orElse wantedLbl EmptyString)) outDetections;
        do candsV <- readDets cands;
        (* [scored]: a local array of fresh pairs *)
        let scored :=
          sortDesc snd
            (map (fun d => (d, score (snd d) + 0.5 * iou (box (snd d)) pb))
               candsV) in
        match scored with
        | [] => ret notes
        | ((best, bestV), _) :: _ =>
            if Qlt_bool (iou (box bestV) pb) 0.5 then
              do d <- getDet best;
              do b <- copyBox (d_box d);
              setPrimaryBox summary_ (Some b) ;;
              ret (notes ++ [NotePrimaryReplaced wantedLbl])
            else ret notes
        end
      else ret notes
  | None => ret notes
  end.

(** [// 9) Fallback for Unknown — synthetic full-frame]; returns the array
    held by [outDetections]. *)
Definition unknownFallback (input : loc) (W H : Q)
  (summary_ outDetections : loc) (notes : list Note)
  : M (loc * list Note) :=
  do s <- getSummary summary_;
  if DocumentType_eqb (s_documentType s) UNKNOWN then
    do fullDoc <- newDet (Refine.fullDoc W H);
    do notes <-
      match s_primaryBox s with
      | None =>
          do d <- getDet fullDoc;
          do b <- copyBox (d_box d);
          setPrimaryBox summary_ (Some b) ;;
          ret (notes ++ [NotePrimaryUnknown])
      | Some _ => ret notes
      end;
    do v <- readResult input;
    do '(outDetections, notes) <-
      if negb (hasNearFullDoc v W H) then
        do items <- getArr outDetections;
        do arr <- newArr (fullDoc :: items);
        ret (arr, notes ++ [NoteSynthUnknown])
      else ret (outDetections, notes);
    do s <- getSummary summary_;
    do q <-
      match s_quality s with
      | Some q => setQuality summary_ (Some q) ;; ret q
      | None =>
          do q <- alloc (OQuality emptyQuality);
          setQuality summary_ (Some q) ;; ret q
      end;
    setIsPartial q (Some false) ;;
    ret (outDetections, notes)
  else ret (outDetections, notes).

Definition upsertPrimaryDetection (out : loc) (notes : list Note)
  (wantedLbl : option string) : M (list Note) :=
  do r <- getResult out;
  do s <- getSummary (r_summary r);
  match s_primaryBox s, wantedLbl with
  | Some pb, Some wantedLbl =>
      (* out.detections = out.detections || [] *)
      setDetections out (r_detections r) ;;
      do pbV <- getBox pb;
      do dets <- readDets (r_detections r);
      let bestIou := bestIouWith pbV wantedLbl (map snd dets) in
      if Qle_bool 0.90 bestIou then ret notes
      else
        do sv <- readSummary (r_summary r);
        do det <- newDet (syntheticPrimary wantedLbl sv pbV);
        push (r_detections r) det ;;
        ret (notes ++ [NoteSynthPrimary])
  | _, _ => ret notes
  end.

(** [refineDocumentAnalysis]: from the reference of the input to the
    reference of the new result. *)
Definition refineDocumentAnalysis (input : loc)
  (options : option RefineOptions) : M loc :=
  let cfg := buildConfig options in
  let notes : list Note := [] in
  do r <- getResult input;
  let W := width (r_meta r) in
  let H := height (r_meta r) in
  do '(main, notes) <- pickMainType input (tol cfg) notes;
  do '(summary_, notes) <- retype cfg input main notes;
  do notes <- establishPrimaryBox cfg W H main summary_ notes;
  do '(bars, rest) <- extractBars input;
  let outDetections := rest in
  do notes <- noteDroppedBars summary_ bars notes;
  do notes <- screenshotLogic cfg input W H bars summary_ outDetections notes;
  do '(outDetections, notes) <-
    resolveDocumentVsReceipt cfg summary_ outDetections notes;
  do notes <- replacePrimary cfg summary_ outDetections notes;
  do '(outDetections, notes) <-
    unknownFallback input W H summary_ outDetections notes;
  (* 10) Assemble result *)
  do out <-
    alloc (OResult (r_source r) (r_timestamp r) (r_meta r) summary_
             outDetections (r_signals r) (r_model r));
  (* 11) Invariant *)
  do s <- getSummary summary_;
  let wantedLbl := wantedLblOf (s_documentType s) in
  do notes <- upsertPrimaryDetection out notes wantedLbl;
  (if keepDiagnostics cfg then
     do o <- getResult out;
     let old := orElse (r_signals o) emptySignals in
     setSignals out
       (Some (mkSignals (colors old) (classificationTopK old)
                (Some (orElse (diagnostics old) [] ++ notes))))
   else ret tt) ;;
  ret out.

(** The call on a value: the value is placed in an empty store, refined
    there, and the result is read back. *)
Definition run (input : DocumentAnalysisResult)
  (options : option RefineOptions) : DocumentAnalysisResult :=
  fst ((do l <- newResult input;
        do out <- refineDocumentAnalysis l options;
        readResult out) []).

(** [h'] holds every object of [h], unchanged, at the same reference. *)
Definition extends (h h' : Heap) : Prop := exists fresh, h' = h ++ fresh.

(** The references held by an object created during the call, as far as
    the call assigns through them, are references to objects created during
    the call: [n0] is the size of the store when the call starts. *)
Definition ownsFresh (n0 : nat) (o : Obj) : Prop :=
  match o with
  | OSummary _ _ _ pb _ _ ql =>
      (forall p, pb = Some p -> (n0 <= p)%nat) /\
      (forall q, ql = Some q -> (n0 <= q)%nat)
  | OResult _ _ _ sm dets _ _ => (n0 <= sm)%nat /\ (n0 <= dets)%nat
  | _ => True
  end.

(** The store [h] during a call started on [h0]: the objects of [h0] are
    unchanged and the objects created since own fresh references. *)
Definition Good (h0 h : Heap) : Prop :=
  extends h0 h /\
  forall l o,
    (List.length h0 <= l)%nat -> nth_error h l = Some o ->
    ownsFresh (List.length h0) o.

(** [m] keeps the store good and returns a value satisfying [Q]. *)
Definition safe {A : Type} (h0 : Heap) (m : M A) (Q : A -> Prop) : Prop :=
  forall h, Good h0 h -> Good h0 (snd (m h)) /\ Q (fst (m h)).

(** [m] leaves the store as it is. *)
Definition readonly {A : Type} (m : M A) : Prop :=
  forall h, snd (m h) = h.

(** A reference to an object created during the call, if any. *)
Definition freshOpt (n0 : nat) (o : option loc) : Prop :=
  forall l, o = Some l -> (n0 <= l)%nat.

(** The value that a computation returns on the store [h]. *)
Definition valueOf {A : Type} (m : M A) (h : Heap) : A := fst (m h).

(** *** Values held in the store

    [holdsResult h l r]: in the store [h] the reference [l] holds a result
    object whose summary, detections, boxes and quality hold the value
    [r]. *)

Definition holdsBox (h : Heap) (l : loc) (b : Box) : Prop :=
  nth_error h l = Some (OBox b).

Definition holdsQuality (h : Heap) (l : loc) (q : Quality) : Prop :=
  nth_error h l = Some (OQuality q).

Definition holdsDet (h : Heap) (l : loc) (d : DetectionAxisAligned) : Prop :=
  exists bl,
    nth_error h l = Some (ODet (label d) (score d) bl (meta d)) /\
    holdsBox h bl (box d).

Definition holdsOpt {A : Type} (holds : Heap -> loc -> A -> Prop) (h : Heap)
  (l : option loc) (a : option A) : Prop :=
  match l, a with
  | Some l, Some a => holds h l a
  | None, None => True
  | _, _ => False
  end.

Definition holdsSummary (h : Heap) (l : loc) (s : DocumentAnalysisSummary)
  : Prop :=
  exists pb ql,
    nth_error h l =
      Some (OSummary (documentType s) (confidence s) (background s) pb
              (primarySynthetic s) (primaryBoxSource s) ql) /\
    holdsOpt holdsBox h pb (primaryBox s) /\
    holdsOpt holdsQuality h ql (quality s).

Definition holdsResult (h : Heap) (l : loc) (r : DocumentAnalysisResult)
  : Prop :=
  exists sl al items,
    nth_error h l =
      Some (OResult (source_ r) (timestamp r) (meta_ r) sl al (signals r)
              (model r)) /\
    holdsSummary h sl (summary r) /\
    nth_error h al = Some (OArr items) /\
    Forall2 (holdsDet h) items (detections r).

End Store.
(** * The rest of the pipeline

    Notions used to state further properties of the detector and of the
    refinement, and the embedding of the code around them: the letterbox
    of the detector, cropping ([src/utils/crop-by-detection.ts]), the image
    processor ([src/processors/image-processor.ts]), the analyzer
    ([src/analysis/document-analyzer.ts]), the selection of the
    raw-detection example ([examples/raw-detect.ts]), the threshold and the
    projection score of the skew estimation ([src/utils/deskew.ts]) and the
    overlay ([src/utils/draw-detections.ts]).

    A [Uint8Array] or [Buffer] is a [list Byte.byte]; what an awaited call
    to sharp or to the detector returns is an argument of the function that
    awaits it. *)

From Stdlib Require Import DecimalString DecimalN Permutation.

(** *** Notions used to state the properties of the parsed candidates *)

Module ParseSpec.
Import Js Detector.

(** Entry [k] of anchor [i] in an output tensor of [N] anchors and [C]
    channels: [data[k * N + i]] in the layout [[1, C, N]], and
    [data[i * C + k]] in the layout [[1, N, C]]. *)
Definition entry (data : list Q) (channelFirst : bool) (N C : Z) (i k : Z)
  : option Q :=
  readAt data (if channelFirst then k * N + i else i * C + k)%Z.

(** The running best of the loop over the classes, having seen the classes
    from [lo] up to [hi]. *)
Definition bestSeen (data : list Q) (scoreAt : Z -> Z) (lo hi : Z) (best : jsnum * Z) : Prop :=
  match best with
  | (Fin q, k) =>
      (lo <= k < hi)%Z /\ readAt data (scoreAt k) = Some q /\
      (forall c q', (lo <= c < hi)%Z -> readAt data (scoreAt c) = Some q' ->
                    q' <= q) /\
      (forall c q', (lo <= c < k)%Z -> readAt data (scoreAt c) = Some q' ->
                    q' < q)
  | (NegInf, _) =>
      forall c, (lo <= c < hi)%Z -> readAt data (scoreAt c) = None
  | _ => False
  end.

(** What the parser read for a candidate that it made of anchor [i]. *)
Definition readFrom (data : list Q) (channelFirst : bool) (N : Z)
  (numClasses : nat) (i : Z) (c : Candidate) : Prop :=
  let C := (4 + Z.of_nat numClasses)%Z in
  let at_ := entry data channelFirst N C i in
  at_ 0%Z = Some (c_x c) /\ at_ 1%Z = Some (c_y c) /\
  at_ 2%Z = Some (c_w c) /\ at_ 3%Z = Some (c_h c) /\
  0 < c_w c /\ 0 < c_h c /\
  (0 <= classId c < Z.of_nat numClasses)%Z /\
  at_ (4 + classId c)%Z = Some (confidence c) /\
  0 < confidence c /\
  (forall k q, (0 <= k < Z.of_nat numClasses)%Z ->
               at_ (4 + k)%Z = Some q -> q <= confidence c) /\
  (forall k q, (0 <= k < classId c)%Z ->
               at_ (4 + k)%Z = Some q -> q < confidence c).

(** The corners of a candidate, which the detector keeps as a centre and
    a size. *)
Definition corners (c : Candidate) : Types.Box :=
  Types.mkBox (c_x c - c_w c / 2) (c_y c - c_h c / 2)
    (c_x c + c_w c / 2) (c_y c + c_h c / 2).

End ParseSpec.

(** *** Notions used to state the properties of the construction *)

Module ConstructionSpec.
Import Detector.

(** Every character of the string is in the ASCII range.  On such a
    string [trim] is [String.prototype.trim], which removes the byte-order
    mark and the white space outside this range as well. *)
Fixpoint isAscii (s : string) : bool :=
  match s with
  | EmptyString => true
  | String c rest => (Nat.ltb (Ascii.nat_of_ascii c) 128 && isAscii rest)%bool
  end.

(** The string holds no [/]. *)
Fixpoint noSlash (s : string) : bool :=
  match s with
  | EmptyString => true
  | String c rest => (negb (Ascii.eqb c "/"%char) && noSlash rest)%bool
  end.

(** [this] with the class names replaced. *)
Definition withClassNames (this : YoloV8OnnxDetector) (names : list string)
  : YoloV8OnnxDetector :=
  mkDetector (modelPath this) (INPUT_SIZE this) (CONFIDENCE_THRESHOLD this)
    (IOU_THRESHOLD this) names.

(** The class names that the options give, if any. *)
Definition givenClassNames (options : option Options) : option (list string) :=
  match options with
  | Some o => o_classNames o
  | None => None
  end.

(** The detector after [classes.txt] was looked for at [classesPath]: the
    class names become the trimmed non-blank lines of a file that could be
    read, and nothing changes otherwise. *)
Definition readingFrom (readFile : string -> FileRead) (classesPath : string)
  (this : YoloV8OnnxDetector) : YoloV8OnnxDetector :=
  match readFile classesPath with
  | Content text =>
      withClassNames this (filter nonEmpty (map trim (splitLines text)))
  | Missing | Unreadable => this
  end.

End ConstructionSpec.

(** *** The letterbox of [preprocessImage], with the size of the resized
    image *)

Module Preprocess.
Import Js Types Detector.

(** The numbers that [preprocessImage] computes before it resizes. *)
Record Geometry : Type := mkGeometry {
  g_scale : Q;
  g_newW : Q;
  g_newH : Q;
  g_padX : Q;
  g_padY : Q }.

(** For an image of [originalWidth] by [originalHeight] pixels, both
    positive, on a square canvas of side [T]. *)
Definition geometryOf (T originalWidth originalHeight : Q) : Geometry :=
  let scale := Qmin (T / originalWidth) (T / originalHeight) in
  let newW := inject_Z (Qfloor (originalWidth * scale)) in
  let newH := inject_Z (Qfloor (originalHeight * scale)) in
  let padX := inject_Z (Qfloor ((T - newW) / 2)) in
  let padY := inject_Z (Qfloor ((T - newH) / 2)) in
  mkGeometry scale newW newH padX padY.

(** The offsets of row [y] of the resized image in its own buffer and in
    the canvas, as the padding loop computes them. *)
Definition srcStart (g : Geometry) (y : Z) : Q :=
  inject_Z y * g_newW g * 3.

Definition dstStart (T : Q) (g : Geometry) (y : Z) : Q :=
  ((g_padY g + inject_Z y) * T + g_padX g) * 3.

(** The centre-and-size outline, on the canvas, of a box given in image
    coordinates: each image coordinate [v] lies at [v * scale + pad]. *)
Definition onCanvas (scale padX padY : Q) (b : Box) (classId : Z)
  (confidence : Q) : Candidate :=
  mkCandidate
    ((x1 b + x2 b) / 2 * scale + padX)
    ((y1 b + y2 b) / 2 * scale + padY)
    ((x2 b - x1 b) * scale)
    ((y2 b - y1 b) * scale)
    classId confidence.

End Preprocess.

(** *** Notions used to state further properties of the refinement *)

Module StageSpec.
Import Js Types Refine.

(** The box lies in the frame of [W] by [H] pixels. *)
Definition inFrame (W H : Q) (b : Box) : Prop :=
  (0 <= x1 b <= W /\ 0 <= x2 b <= W) /\ (0 <= y1 b <= H /\ 0 <= y2 b <= H).

(** The box with every coordinate clamped to the frame. *)
Definition clampBox (W H : Q) (b : Box) : Box :=
  mkBox (clamp (x1 b) 0 W) (clamp (y1 b) 0 H)
    (clamp (x2 b) 0 W) (clamp (y2 b) 0 H).

(** The part of the frame that the box covers, 0 for an empty frame. *)
Definition coverage (W H : Q) (b : Box) : Q :=
  if Qlt_bool 0 (W * H) then area b / (W * H) else 0.

(** [!!summary.quality?.isPartial] *)
Definition flaggedPartial (s : DocumentAnalysisSummary) : bool :=
  match quality s with
  | Some q => orElse (isPartial q) false
  | None => false
  end.

(** The detection [d] has the label, the score and the box of [d0]. *)
Definition sameDetection (d d0 : DetectionAxisAligned) : Prop :=
  label d = label d0 /\ score d = score d0 /\ box d = box d0.

(** [meta.validated] is [true]. *)
Definition isValidated (d : DetectionAxisAligned) : Prop :=
  exists m, meta d = Some m /\ validated m = Some true /\
            source m = Some SrcRefine.

(** [meta.synthetic] is [true]. *)
Definition isSynthetic (d : DetectionAxisAligned) : Prop :=
  exists m, meta d = Some m /\ synthetic m = Some true.

(** A copy of one of the [bars] that was validated. *)
Definition validatedFrom (bars : list DetectionAxisAligned)
  (d : DetectionAxisAligned) : Prop :=
  exists d0, In d0 bars /\ sameDetection d d0 /\ isValidated d.

(** The detections without those labelled [lbl]. *)
Definition without (lbl : string) (dets : list DetectionAxisAligned)
  : list DetectionAxisAligned :=
  filter (fun d => negb (String.eqb (label d) lbl)) dets.

(** What decides between Document and Receipt: the greatest score of the
    detections labelled [lbl] plus their greatest IoU with the primary
    box. *)
Definition strength (pb : Box) (lbl : string)
  (dets : list DetectionAxisAligned) : Q :=
  mathMax (map score (filter (hasLabelEq lbl) dets)) +
  mathMax (map (fun d => iou (box d) pb) (filter (hasLabelEq lbl) dets)).

(** The elements of an optional value, as a list. *)
Definition optList {A : Type} (o : option A) : list A :=
  match o with Some a => [a] | None => [] end.

(** The margin of the comparisons between sums of scores.  The source
    computes these sums in double arithmetic, whose rounding decides the
    comparison of two numbers that are equal or nearly so: with an
    acceptance score of 0.66 and an alternative of 0.6 the source finds
    [0.66 - 0.06] greater than [0.6], and it finds [0.3 + 0.6] less than
    [0.9].  The properties that name the outcome of such a comparison do so
    for numbers that are at least this margin apart, and for scores that
    are confidences, between 0 and 1. *)
Definition margin : Q := 1 # 1000000000.

Definition unitScore (d : DetectionAxisAligned) : Prop := 0 <= score d <= 1.

End StageSpec.

(** *** Notions used to state the decision of the Screenshot stage *)

Module ScreenshotSpec.
Import Js Types Refine StageSpec.

(** [o] is the first of the detections that [keep] accepts and that has
    the greatest score among them; there is none when [keep] accepts no
    detection. *)
Definition firstBest (keep : DetectionAxisAligned -> bool)
  (dets : list DetectionAxisAligned) (o : option DetectionAxisAligned)
  : Prop :=
  match o with
  | Some a =>
      exists before after,
        dets = before ++ a :: after /\ keep a = true /\
        (forall d, In d before -> keep d = true -> score d < score a) /\
        (forall d, In d after -> keep d = true -> score d <= score a)
  | None => forall d, In d dets -> keep d = false
  end.

(** The container: the box of the best Screenshot detection, or the full
    frame. *)
Definition containerFor (best : option DetectionAxisAligned) (W H : Q)
  : Box :=
  match best with Some b => box b | None => mkBox 0 0 W H end.

(** The base confidence: the confidence of the summary, or else the score
    of the best Screenshot detection, or else 0. *)
Definition baseFor (summary_ : DocumentAnalysisSummary)
  (best : option DetectionAxisAligned) : Q :=
  match confidence summary_, best with
  | Some c, _ => c
  | None, Some b => score b
  | None, None => 0
  end.

(** A bar fits the container: its intersection with the container has a
    positive area, at least [minBarWidthFrac] of the width of the container
    and at most [maxBarHeightFrac] of its height, and the centre of the
    intersection lies in the band of [topBottomBandFrac] of the height of
    the container at its top edge, for a top bar, or at its bottom edge,
    for a bottom bar. *)
Definition barFits (which : BarSide) (container : Box) (t : Tol)
  (bar : DetectionAxisAligned) : Prop :=
  let inter := intersect (box bar) container in
  let cW := x2 container - x1 container in
  let cH := y2 container - y1 container in
  let cy := (y1 inter + y2 inter) / 2 in
  0 < area inter /\
  cW * minBarWidthFrac t <= x2 inter - x1 inter /\
  y2 inter - y1 inter <= cH * maxBarHeightFrac t /\
  match which with
  | Top => cy <= y1 container + cH * topBottomBandFrac t
  | Bottom => y2 container - cH * topBottomBandFrac t <= cy
  end.

(** The bar fits the container with [m] to spare in every comparison. *)
Definition barFitsBy (m : Q) (which : BarSide) (container : Box) (t : Tol)
  (bar : DetectionAxisAligned) : Prop :=
  let inter := intersect (box bar) container in
  let cW := x2 container - x1 container in
  let cH := y2 container - y1 container in
  let cy := (y1 inter + y2 inter) / 2 in
  m <= x2 inter - x1 inter /\
  m <= y2 inter - y1 inter /\
  cW * minBarWidthFrac t + m <= x2 inter - x1 inter /\
  y2 inter - y1 inter + m <= cH * maxBarHeightFrac t /\
  match which with
  | Top => cy + m <= y1 container + cH * topBottomBandFrac t
  | Bottom => y2 container - cH * topBottomBandFrac t + m <= cy
  end.

(** The bar does not fit the container, by [m] or more: the intersection
    is empty, or it is too narrow, too tall or out of the band by at least
    [m]. *)
Definition barMissesBy (m : Q) (which : BarSide) (container : Box) (t : Tol)
  (bar : DetectionAxisAligned) : Prop :=
  let inter := intersect (box bar) container in
  let cW := x2 container - x1 container in
  let cH := y2 container - y1 container in
  let cy := (y1 inter + y2 inter) / 2 in
  area inter <= 0 \/
  x2 inter - x1 inter + m <= cW * minBarWidthFrac t \/
  cH * maxBarHeightFrac t + m <= y2 inter - y1 inter \/
  match which with
  | Top => y1 container + cH * topBottomBandFrac t + m <= cy
  | Bottom => cy + m <= y2 container - cH * topBottomBandFrac t
  end.

(** The coordinates of the box are at most 100000 in absolute value: an
    error of rounding in the validation of a bar is then far below the
    margin. *)
Definition inRange (b : Box) : Prop :=
  Forall (fun v => -100000 <= v <= 100000) [x1 b; y1 b; x2 b; y2 b].

(** Whether the bar of the label [lbl] is valid, when every comparison of
    the validation is the margin away from equality: [ok] is false when
    there is no detection of that label among [bars]; otherwise it tells
    whether the first one fits the container. *)
Definition barDecided (bars : list DetectionAxisAligned) (lbl : string)
  (which : BarSide) (container : Box) (t : Tol) (ok : bool) : Prop :=
  match find (fun b => String.eqb (label b) lbl) bars with
  | Some raw =>
      inRange container /\ inRange (box raw) /\
      if ok then barFitsBy margin which container t raw
      else barMissesBy margin which container t raw
  | None => ok = false
  end.

(** What the stage computes: the first bar of the label [lbl] among
    [bars] is there and [validateBarNoMutate] accepts it. *)
Definition validBar (bars : list DetectionAxisAligned) (lbl : string)
  (which : BarSide) (container : Box) (W H : Q) (t : Tol) : bool :=
  match find (fun b => String.eqb (label b) lbl) bars with
  | Some raw =>
      match fst (validateBarNoMutate raw container W H which t []) with
      | Some _ => true
      | None => false
      end
  | None => false
  end.

(** The bonuses of the acceptance score for the bars: 0.05 for each valid
    bar and 0.03 more when both are valid. *)
Definition barBonus (topOk botOk : bool) : Q :=
  (if topOk then 0.05 else 0) + (if botOk then 0.05 else 0) +
  (if (topOk && botOk)%bool then 0.03 else 0).

(** The stage took over the alternative [a]: its type, its score and its
    box, and it added no bar to the detections. *)
Definition switchedTo (a : DetectionAxisAligned) (st st' : State) : Prop :=
  documentType (st_summary st') =
    (if String.eqb (label a) "Document" then DOCUMENT else RECEIPT) /\
  confidence (st_summary st') = Some (score a) /\
  primaryBox (st_summary st') = Some (box a) /\
  st_outDetections st' = st_outDetections st.

(** The stage kept the type Screenshot, with a confidence that is the
    acceptance score [c] up to the margin. *)
Definition keptWith (c : Q) (st' : State) : Prop :=
  documentType (st_summary st') = SCREENSHOT /\
  exists c', confidence (st_summary st') = Some c' /\
             c - margin <= c' <= c + margin.

(** A Screenshot detection that covers the frame of 400 by 800, a Document
    detection of score 0.6 on the same box, and a Receipt detection of
    score 0.5 on a quarter of the frame; the summary says Screenshot. *)
Definition coveringScreenshot : DocumentAnalysisResult :=
  RefineSpec.resultOf 400 800 (RefineSpec.summaryOf SCREENSHOT 0.7 None)
    [mkDet "Screenshot" 0.7 (mkBox 0 0 400 800) None;
     mkDet "Document" 0.6 (mkBox 0 0 400 800) None;
     mkDet "Receipt" 0.5 (mkBox 0 0 200 400) None].

(** A Screenshot detection on 40% of the frame of 1000 by 1000 with a
    status bar along its top edge, and a Document detection of score 0.2
    inside it; the summary says Screenshot with confidence 0.55. *)
Definition barredScreenshot : DocumentAnalysisResult :=
  RefineSpec.resultOf 1000 1000
    (RefineSpec.summaryOf SCREENSHOT 0.55 (Some (mkBox 0 0 500 800)))
    [mkDet "Screenshot" 0.9 (mkBox 0 0 500 800) None;
     mkDet "Top status bar" 0.8 (mkBox 0 0 500 40) None;
     mkDet "Document" 0.2 (mkBox 50 100 450 700) None].

End ScreenshotSpec.

(** *** Notions used to state the properties of the per-class maps *)

Module ByClassSpec.
Import Js Types Refine.

(** What the loop over the detections keeps in [byClass], having seen the
    detections [seen] of which [keep] admits the labels: every entry is
    filed under the label of its detection, which is one of those seen; no
    label is filed twice; and for every admitted detection seen, the entry
    of its label scores at least as much. *)
Definition collected (keep : string -> bool) (seen : list DetectionAxisAligned)
  (byClass : ByClass) : Prop :=
  (forall k v, In (k, v) byClass ->
     k = label v /\ In v seen /\ keep k = true) /\
  NoDup (map fst byClass) /\
  (forall d, In d seen -> keep (label d) = true ->
     exists v, mapGet byClass (label d) = Some v /\ score d <= score v).

(** The labels that [pickMainType] considers. *)
Definition isPreferred (lbl : string) : bool :=
  match preferred lbl with Some _ => true | None => false end.

End ByClassSpec.

(** ** Cropping: [src/utils/crop-by-detection.ts] *)

Module Crop.
Import Js Types.

(** The argument of sharp's [extract]. *)
Record Region : Type := mkRegion {
  left : Q;
  top : Q;
  r_width : Q;
  r_height : Q }.

(** The region that [cropByDetection] asks sharp to extract. *)
Definition cropByDetection (det : DetectionAxisAligned) : Region :=
  let '(mkBox x1 y1 x2 y2) := box det in
  let left := Qmax 0 (Qmin x1 x2) in
  let top := Qmax 0 (Qmin y1 y2) in
  let width := Qmax 1 (Qabs (x2 - x1)) in
  let height := Qmax 1 (Qabs (y2 - y1)) in
  mkRegion left top width height.

(** The detection with the corners of its box exchanged. *)
Definition flipped (det : DetectionAxisAligned) : DetectionAxisAligned :=
  mkDet (label det) (score det)
    (mkBox (x2 (box det)) (y2 (box det)) (x1 (box det)) (y1 (box det)))
    (meta det).

End Crop.

(** ** The image processor: [src/processors/image-processor.ts] *)

Module Processor.
Import Js Types.

(** What sharp's [metadata()] reports; every key may be missing. *)
Record SharpMetadata : Type := mkSharpMetadata {
  m_width : option Q;
  m_height : option Q;
  m_format : option string;
  m_space : option string;
  m_hasAlpha : option bool;
  m_density : option Q }.

Record ImageMetadata : Type := mkImageMetadata {
  i_width : Q;
  i_height : Q;
  i_format : string;
  i_colorspace : string;
  i_hasAlpha : bool;
  i_density : option Q }.

(** The error thrown for an image without a size. *)
Inductive MetadataError : Type :=
| InvalidSize (width height : Q).

(** [getImageMetadata], from the metadata that sharp reports for the
    source. *)
Definition getImageMetadata (meta : SharpMetadata)
  : ImageMetadata + MetadataError :=
  let width := Refine.orElse (m_width meta) 0 in
  let height := Refine.orElse (m_height meta) 0 in
  if (Qeq_bool width 0 || Qeq_bool height 0)%bool then
    inr (InvalidSize width height)
  else
    inl {| i_width := width;
           i_height := height;
           i_format := Detector.orString (m_format meta) "unknown";
           i_colorspace := Detector.orString (m_space meta) "srgb";
           i_hasAlpha := Refine.orElse (m_hasAlpha meta) false;
           i_density := m_density meta |}.

End Processor.

(** ** The analyzer: [src/analysis/document-analyzer.ts] *)

Module Analyzer.
Import Js Types.

(** [String.prototype.toLowerCase] on the letters of the ASCII range, which
    is where the class labels are written. *)
Definition toLowerChar (c : Ascii.ascii) : Ascii.ascii :=
  let n := Ascii.nat_of_ascii c in
  if (Nat.leb 65 n && Nat.leb n 90)%bool then Ascii.ascii_of_nat (n + 32)
  else c.

Fixpoint toLowerCase (s : string) : string :=
  match s with
  | EmptyString => EmptyString
  | String c rest => String (toLowerChar c) (toLowerCase rest)
  end.

(** [s.includes(sub)] *)
Fixpoint includes (s sub : string) : bool :=
  (String.prefix sub s ||
   match s with
   | String _ rest => includes rest sub
   | EmptyString => false
   end)%bool.

(** [mapLabelToType]; an absent label and the empty one are falsy. *)
Definition mapLabelToType (label : option string) : DocumentType :=
  match label with
  | None | Some EmptyString => UNKNOWN
  | Some label =>
      let l := toLowerCase label in
      if includes l "receipt" then RECEIPT
      else if includes l "document" then DOCUMENT
      else if (includes l "screenshot" || includes l "bar")%bool
           then SCREENSHOT
           else UNKNOWN
  end.

(** [detections.reduce((best, cur) => cur.score > best.score ? cur : best)],
    or [null] for no detection. *)
Definition topDetection (detections : list DetectionAxisAligned)
  : option DetectionAxisAligned :=
  match detections with
  | [] => None
  | first :: others =>
      Some (fold_left
              (fun best cur =>
                 if Qlt_bool (score best) (score cur) then cur else best)
              others first)
  end.

(** The source of an analysis: a path or a buffer. *)
Inductive Src : Type :=
| Path (p : string)
| Buffer.

Record AnalyzeOptions : Type := mkAnalyzeOptions {
  refine : option bool;
  refineOptions : option Refine.RefineOptions }.

(** What the awaited calls of [analyze] returned: the metadata that sharp
    reports, the colours and the edge intensity of the image processor, the
    detections of the detector, and the time of the call. *)
Record Observed : Type := mkObserved {
  ob_meta : Processor.SharpMetadata;
  ob_colors : list string;
  ob_edgeIntensity : Q;
  ob_detections : list DetectionAxisAligned;
  ob_now : string }.

Definition clarityOf (edgeIntensity : Q) : Clarity :=
  if Qlt_bool edgeIntensity 0.01 then Low
  else if Qlt_bool 0.05 edgeIntensity then High
  else Medium.

(** An awaited call returns a value, or it throws an error, which is
    modelled by its message. *)
Inductive Awaited (A : Type) : Type :=
| Returned (a : A)
| Threw (message : string).
Arguments Returned {A} a.
Arguments Threw {A} message.

(** What the calls that [analyze] awaits do, in the order of the source:
    [isReady] and [initialize] of the detector, sharp's [metadata] inside
    [getImageMetadata], [analyzeImageColors], [detectEdges] and
    [detectObjects]; and the time of the call. *)
Record Calls : Type := mkCalls {
  c_isReady : bool;
  c_initialize : Awaited unit;
  c_metadata : Awaited Processor.SharpMetadata;
  c_colors : Awaited (list string);
  c_edgeIntensity : Awaited Q;
  c_detectObjects : Awaited (list DetectionAxisAligned);
  c_now : string }.

(** How [analyze] rejects: with the error of an awaited call, or with the
    error of [getImageMetadata] for an image without a size. *)
Inductive AnalyzeError : Type :=
| Rejected (message : string)
| InvalidImage (e : Processor.MetadataError).

Section Analyze.
(** [path.basename] of Node, and the member [UNKNOWN] of the enum
    [BackgroundType], which is not among the sources. *)
Variable basename : string -> string.
Variable BackgroundType_UNKNOWN : string.

(** [analyze], once the detector is ready and when every call that it
    awaits returns: [ob] is what the calls return.  [classNames] is the
    class list of the detector.  The calls that throw are in
    [analyzeAwaiting] below. *)
Definition analyze (classNames : list string) (src : Src) (ob : Observed)
  (opts : option AnalyzeOptions)
  : DocumentAnalysisResult + Processor.MetadataError :=
  let sourcePath := match src with Path p => Some p | Buffer => None end in
  let filename :=
    match sourcePath with
    | Some (String c rest) => Some (basename (String c rest))
    | Some EmptyString | None => None
    end in
  match Processor.getImageMetadata (ob_meta ob) with
  | inr e => inr e
  | inl meta =>
      let colors := ob_colors ob in
      let edgeIntensity := ob_edgeIntensity ob in
      let detections := ob_detections ob in
      let top := topDetection detections in
      let documentType := mapLabelToType (option_map label top) in
      let confidence := match top with Some t => score t | None => 0 end in
      let primaryBox := option_map box top in
      let aspectRatio :=
        if (negb (Qeq_bool (Processor.i_width meta) 0) &&
            negb (Qeq_bool (Processor.i_height meta) 0))%bool
        then Processor.i_width meta / Processor.i_height meta else 1 in
      let clarity := clarityOf edgeIntensity in
      let result :=
        {| source_ := mkSourceInfo filename sourcePath;
           timestamp := ob_now ob;
           meta_ :=
             mkImageMeta (Processor.i_width meta) (Processor.i_height meta)
               aspectRatio (Processor.i_format meta)
               (Processor.i_colorspace meta) (Processor.i_density meta);
           summary :=
             {| documentType := documentType;
                confidence := Some confidence;
                background := BackgroundType_UNKNOWN;
                primaryBox := primaryBox;
                primarySynthetic := None;
                primaryBoxSource := None;
                quality :=
                  Some {| edgeIntensity := Some edgeIntensity;
                          readabilityScore := Some (Qmin (edgeIntensity * 10) 1);
                          clarity := Some clarity;
                          skewAngleDeg := None;
                          isPartial := Some false |} |};
           detections := detections;
           signals := Some (mkSignals (Some colors) None None);
           model :=
             Some (mkModelInfo (Some "yolov8-onnx"%string) (Some classNames)
                     (Some 800) (Some (Some 0.1, Some 0.45))) |} in
      match opts with
      | Some o =>
          if Refine.orElse (refine o) false
          then inl (Refine.refineDocumentAnalysis result (refineOptions o))
          else inl result
      | None => inl result
      end
  end.

(** [analyze] with the calls that it awaits: a call that throws ends it,
    and the calls after it are not made. *)
Definition analyzeAwaiting (classNames : list string) (src : Src)
  (calls : Calls) (opts : option AnalyzeOptions)
  : DocumentAnalysisResult + AnalyzeError :=
  match (if c_isReady calls then Returned tt else c_initialize calls) with
  | Threw m => inr (Rejected m)
  | Returned _ =>
  match c_metadata calls with
  | Threw m => inr (Rejected m)
  | Returned meta =>
  match Processor.getImageMetadata meta with
  | inr e => inr (InvalidImage e)
  | inl _ =>
  match c_colors calls with
  | Threw m => inr (Rejected m)
  | Returned colors =>
  match c_edgeIntensity calls with
  | Threw m => inr (Rejected m)
  | Returned edgeIntensity =>
  match c_detectObjects calls with
  | Threw m => inr (Rejected m)
  | Returned detections =>
      match
        analyze classNames src
          (mkObserved meta colors edgeIntensity detections (c_now calls)) opts
      with
      | inl result => inl result
      | inr e => inr (InvalidImage e)
      end
  end end end end end end.

End Analyze.

End Analyzer.

(** *** Notions used to state the properties of the analyzer *)

Module AnalyzerSpec.
Import Js Types.

(** [t] is the first detection of greatest score in [dets]. *)
Definition firstGreatest (dets : list DetectionAxisAligned)
  (t : DetectionAxisAligned) : Prop :=
  exists before after,
    dets = before ++ t :: after /\
    (forall d, In d before -> score d < score t) /\
    (forall d, In d after -> score d <= score t).

(** The size that sharp reports is missing or zero. *)
Definition noSize (m : Processor.SharpMetadata) : Prop :=
  Refine.orElse (Processor.m_width m) 0 == 0 \/
  Refine.orElse (Processor.m_height m) 0 == 0.

(** The call ended with an error. *)
Definition failed {A E : Type} (r : A + E) : Prop :=
  match r with inr _ => True | inl _ => False end.

(** The detector is ready when the image is looked at: it was ready, or
    [initialize] returned. *)
Definition started (calls : Analyzer.Calls) : Prop :=
  Analyzer.c_isReady calls = true \/
  Analyzer.c_initialize calls = Analyzer.Returned tt.

(** An observation of an image of 800 by 600 pixels with no detection. *)
Definition nothingDetected : Analyzer.Observed :=
  Analyzer.mkObserved
    (Processor.mkSharpMetadata (Some 800) (Some 600) (Some "jpeg"%string)
       (Some "srgb"%string) (Some false) None)
    ["rgb(248,248,248)"%string] 0.02 [] "2024-01-01T00:00:00.000Z".

(** An observation of the same image with a Receipt and two Documents. *)
Definition threeDetected : Analyzer.Observed :=
  Analyzer.mkObserved
    (Processor.mkSharpMetadata (Some 800) (Some 600) (Some "jpeg"%string)
       (Some "srgb"%string) (Some false) None)
    ["rgb(248,248,248)"%string] 0.02
    [mkDet "Receipt" 0.4 (mkBox 0 0 100 100) None;
     mkDet "Document" 0.9 (mkBox 10 10 700 500) None;
     mkDet "Document" 0.9 (mkBox 20 20 600 400) None]
    "2024-01-01T00:00:00.000Z".

End AnalyzerSpec.

(** ** One detection per class: [examples/raw-detect.ts] *)

Module RawDetect.
Import Js Types Refine.

(** The [Map] that the [reduce] of the example builds. *)
Definition bestByLabel (detections : list DetectionAxisAligned) : ByClass :=
  fold_left
    (fun m d =>
       if (negb (mapHas m (label d)) ||
           match mapGet m (label d) with
           | Some prev => Qlt_bool (score prev) (score d)
           | None => false
           end)%bool
       then mapSet m (label d) d
       else m)
    detections [].

(** [Array.from(map.values())] *)
Definition bestPerClass (detections : list DetectionAxisAligned)
  : list DetectionAxisAligned :=
  map snd (bestByLabel detections).

End RawDetect.

(** ** Skew estimation: [src/utils/deskew.ts] *)

Module Deskew.
Import Js.

(** An element of a [Uint8Array], as a number. *)
Definition pixel (b : Byte.byte) : Z := Z.of_N (Byte.to_N b).

(** [hist[g]++] on a [Uint32Array]: the count wraps at [2^32]; an index
    outside the array writes nothing. *)
Definition increment (hist : list Z) (g : Z) : list Z :=
  let k := Z.to_nat g in
  match nth_error hist k with
  | Some h => firstn k hist ++ ((h + 1) mod 2 ^ 32)%Z :: skipn (S k) hist
  | None => hist
  end.

(** [new Uint32Array(256)], filled by the loop over the pixels. *)
Definition histogram (gray : list Byte.byte) : list Z :=
  fold_left (fun hist g => increment hist (pixel g)) gray (repeat 0%Z 256).

(** [hist[t]] *)
Definition histAt (hist : list Z) (t : Z) : Q :=
  inject_Z (nth (Z.to_nat t) hist 0%Z).

(** [let sum = 0; for (let i = 0; i < 256; i++) sum += i * hist[i]] *)
Definition weightedSum (hist : list Z) : Q :=
  fold_left (fun sum i => sum + inject_Z i * histAt hist i)
    (map Z.of_nat (seq 0 256)) 0.

(** The variables that the threshold loop updates. *)
Record Running : Type := mkRunning {
  sumB : Q;
  wB : Q;
  varMax : Q;
  threshold : Z }.

(** [for (let t = 0; t < 256; t++)], with its [continue] and [break]. *)
Fixpoint thresholdLoop (hist : list Z) (total sum : Q) (remaining : nat)
  (t : Z) (r : Running) : Z :=
  match remaining with
  | O => threshold r
  | S n =>
      let wB := wB r + histAt hist t in
      if Qeq_bool wB 0 then
        thresholdLoop hist total sum n (t + 1)
          (mkRunning (sumB r) wB (varMax r) (threshold r))
      else
        let wF := total - wB in
        if Qeq_bool wF 0 then threshold r
        else
          let sumB := sumB r + inject_Z t * histAt hist t in
          let mB := sumB / wB in
          let mF := (sum - sumB) / wF in
          let between := wB * wF * (mB - mF) * (mB - mF) in
          if Qlt_bool (varMax r) between then
            thresholdLoop hist total sum n (t + 1)
              (mkRunning sumB wB between t)
          else
            thresholdLoop hist total sum n (t + 1)
              (mkRunning sumB wB (varMax r) (threshold r))
  end.

Definition otsuThreshold (gray : list Byte.byte) : Z :=
  let hist := histogram gray in
  let total := inject_Z (Z.of_nat (List.length gray)) in
  let sum := weightedSum hist in
  thresholdLoop hist total sum 256 0 (mkRunning 0 0 0 127).

(** [(bw[idx] < thr) ? 1 : 0]; a read outside the array compares as
    false. *)
Definition dark (bw : list Byte.byte) (thr : Q) (idx : nat) : Q :=
  match nth_error bw idx with
  | Some p => if Qlt_bool (inject_Z (pixel p)) thr then 1 else 0
  | None => 0
  end.

(** The inner loop: the number of dark pixels of the row at [rowOff]. *)
Definition rowSum (bw : list Byte.byte) (w : nat) (thr : Q) (rowOff : nat)
  : Q :=
  fold_left (fun s x => s + dark bw thr (rowOff + x)) (seq 0 w) 0.

(** [horizontalProjectionScore]: the variance of the row sums.  With no
    row, both divisions are [0 / 0]. *)
Definition horizontalProjectionScore (bw : list Byte.byte) (w h : nat)
  (thr : Q) : jsnum :=
  let rows := map (fun y => rowSum bw w thr (y * w)) (seq 0 h) in
  let mean := fold_left Qplus rows 0 in
  match jsdiv mean (inject_Z (Z.of_nat h)) with
  | Fin mean =>
      let varSum :=
        fold_left (fun varSum r => let d := r - mean in varSum + d * d)
          rows 0 in
      jsdiv varSum (inject_Z (Z.of_nat h))
  | _ => jsdiv 0 (inject_Z (Z.of_nat h))
  end.

End Deskew.

(** *** Notions used to state the properties of the skew estimation *)

Module DeskewSpec.
Import Js Deskew.

(** The number of pixels of gray level [t]. *)
Definition count (gray : list Byte.byte) (t : Z) : Z :=
  Z.of_nat (count_occ Z.eq_dec (map pixel gray) t).

(** The sum of [c] over the levels below [n], and the sum of the levels
    below [n] weighted by [c]. *)
Fixpoint below (c : Z -> Q) (n : nat) : Q :=
  match n with
  | O => 0
  | S k => below c k + c (Z.of_nat k)
  end.

Fixpoint weightedBelow (c : Z -> Q) (n : nat) : Q :=
  match n with
  | O => 0
  | S k => weightedBelow c k + inject_Z (Z.of_nat k) * c (Z.of_nat k)
  end.

(** The between-class variance that the loop computes, up to the factor
    [total^2], for a background of weight [w] and weighted sum [s]. *)
Definition between (total sum w s : Q) : Q :=
  let wF := total - w in
  let mB := s / w in
  let mF := (sum - s) / wF in
  w * wF * (mB - mF) * (mB - mF).

(** What holds of the running variables when the loop reaches level [t]. *)
Definition reached (c : Z -> Q) (total sum : Q) (t : nat) (r : Running)
  : Prop :=
  wB r == below c t /\ sumB r == weightedBelow c t /\
  (below c t == 0 \/ below c t < total) /\
  (below c t == 0 -> threshold r = 127%Z /\ varMax r == 0) /\
  (0 < below c t ->
     (0 <= threshold r < Z.of_nat t)%Z /\ 0 < c (threshold r) /\
     between total sum (below c t) (weightedBelow c t) <= varMax r).

(** What holds of the threshold that the loop returns: it is the default
    and at most one level occurs, or it is a level that occurs and a
    brighter one occurs too. *)
Definition settled (c : Z -> Q) (thr : Z) : Prop :=
  (thr = 127%Z /\
   forall i j, (0 <= i < j)%Z -> (j < 256)%Z -> 0 < c i -> 0 < c j -> False) \/
  ((0 <= thr < 256)%Z /\ 0 < c thr /\
   exists j, (thr < j < 256)%Z /\ 0 < c j).

End DeskewSpec.

(** ** The overlay: [src/utils/draw-detections.ts] *)

Module Overlay.
Import Js Types.

Definition floor (v : Q) : Q := inject_Z (Qfloor v).
Definition ceil (v : Q) : Q := inject_Z (Qceiling v).

(** The visual parameters, which both renderers take from the size of the
    image. *)
Record Style : Type := mkStyle {
  strokeWidth : Q;
  fontSize : Q;
  textPaddingX : Q;
  textPaddingY : Q }.

Definition styleOf (W H : Q) : Style :=
  let strokeWidth := Qmax 2 (floor (Qmin W H * 0.003)) in
  let fontSize := Qmax 14 (floor (Qmin W H * 0.025)) in
  let textPaddingX := Qmax 6 (floor (fontSize * 0.5)) in
  let textPaddingY := Qmax 4 (floor (fontSize * 0.35)) in
  mkStyle strokeWidth fontSize textPaddingX textPaddingY.

(** The numbers of a [<rect>]. *)
Record Rect : Type := mkRect {
  r_x : Q;
  r_y : Q;
  r_w : Q;
  r_h : Q }.

(** The numbers that the loop writes into the SVG for one detection: the
    box, the background of the label with its corner radius, and the
    position of the text. *)
Record Drawn : Type := mkDrawn {
  d_box : Rect;
  d_bg : Rect;
  d_rx : Q;
  d_textX : Q;
  d_textY : Q }.

(** The error thrown for an image without a size. *)
Inductive OverlayError : Type := NoDimensions.

Section Draw.

(** The length of the text of a label, [`${label} (${score.toFixed(2)})`]. *)
Variable textLength : DetectionAxisAligned -> nat.

(** The body of the loop of [drawDetections]; [None] is its [continue]. *)
Definition drawOne (W H : Q) (st : Style) (det : DetectionAxisAligned)
  : option Drawn :=
  let '(mkBox bx1 by1 bx2 by2) := box det in
  let x1 := Qmax 0 (Qmin W (round bx1)) in
  let y1 := Qmax 0 (Qmin H (round by1)) in
  let x2 := Qmax 0 (Qmin W (round bx2)) in
  let y2 := Qmax 0 (Qmin H (round by2)) in
  if (Qle_bool x2 x1 || Qle_bool y2 y1)%bool then None
  else
    let w := x2 - x1 in
    let h := y2 - y1 in
    let approxTextWidth :=
      ceil (inject_Z (Z.of_nat (textLength det)) * fontSize st * 0.6) in
    let bgW := approxTextWidth + textPaddingX st * 2 in
    let bgH := fontSize st + textPaddingY st * 2 in
    let bgX := Qmax 0 x1 in
    let bgY := Qmax 0 (y1 - bgH - Qmax 2 (strokeWidth st)) in
    let labelX := bgX + textPaddingX st in
    let labelY := bgY + textPaddingY st + floor (fontSize st * 0.8) in
    Some (mkDrawn (mkRect x1 y1 w h)
            (mkRect bgX (Qmax 0 bgY) (Qmin bgW (W - bgX)) bgH)
            (floor (bgH * 0.2)) labelX (Qmax 0 labelY)).

(** The body of the loop of [drawDetectionsOnBuffer]. *)
Definition drawOneOnBuffer (W H : Q) (st : Style) (det : DetectionAxisAligned)
  : option Drawn :=
  let '(mkBox bx1 by1 bx2 by2) := box det in
  let x1 := Qmax 0 (Qmin W (round bx1)) in
  let y1 := Qmax 0 (Qmin H (round by1)) in
  let x2 := Qmax 0 (Qmin W (round bx2)) in
  let y2 := Qmax 0 (Qmin H (round by2)) in
  if (Qle_bool x2 x1 || Qle_bool y2 y1)%bool then None
  else
    let w := x2 - x1 in
    let h := y2 - y1 in
    let approxW :=
      ceil (inject_Z (Z.of_nat (textLength det)) * fontSize st * 0.6) in
    let bgW := approxW + textPaddingX st * 2 in
    let bgH := fontSize st + textPaddingY st * 2 in
    let bgX := x1 in
    let bgY := Qmax 0 (y1 - bgH - Qmax 2 (strokeWidth st)) in
    let labelX := bgX + textPaddingX st in
    let labelY := bgY + textPaddingY st + floor (fontSize st * 0.8) in
    Some (mkDrawn (mkRect x1 y1 w h)
            (mkRect bgX bgY (Qmin bgW (W - bgX)) bgH)
            (floor (bgH * 0.2)) labelX labelY).

(** The loop over the detections, for either body. *)
Definition drawAll (body : DetectionAxisAligned -> option Drawn)
  (detections : list DetectionAxisAligned) : list Drawn :=
  flat_map (fun det => match body det with Some d => [d] | None => [] end)
    detections.

(** [drawDetections], from the width and the height that sharp reports:
    what it writes into the SVG, or the error that it throws. *)
Definition drawDetections (width height : option Q)
  (detections : list DetectionAxisAligned) : list Drawn + OverlayError :=
  let W := Refine.orElse width 0 in
  let H := Refine.orElse height 0 in
  if (Qeq_bool W 0 || Qeq_bool H 0)%bool then inr NoDimensions
  else inl (drawAll (drawOne W H (styleOf W H)) detections).

(** [drawDetectionsOnBuffer] *)
Definition drawDetectionsOnBuffer (width height : option Q)
  (detections : list DetectionAxisAligned) : list Drawn + OverlayError :=
  let W := Refine.orElse width 0 in
  let H := Refine.orElse height 0 in
  if (Qeq_bool W 0 || Qeq_bool H 0)%bool then inr NoDimensions
  else inl (drawAll (drawOneOnBuffer W H (styleOf W H)) detections).

End Draw.

(** [s.replace(/c/g, by)] for a character [c]. *)
Fixpoint replaceAll (c : ascii) (by_ : string) (s : string) : string :=
  match s with
  | EmptyString => EmptyString
  | String a rest =>
      if Ascii.eqb a c then (by_ ++ replaceAll c by_ rest)%string
      else String a (replaceAll c by_ rest)
  end.

(** [escape] (and [esc]): the three replacements, one after the other. *)
Definition escape (s : string) : string :=
  replaceAll ">" "&gt;" (replaceAll "<" "&lt;" (replaceAll "&" "&amp;" s)).

End Overlay.

Module OverlaySpec.
Import Js Types Overlay.

(** The same numbers, up to the equality of rationals. *)
Definition sameRect (a b : Rect) : Prop :=
  r_x a == r_x b /\ r_y a == r_y b /\ r_w a == r_w b /\ r_h a == r_h b.

Definition sameDrawn (a b : Drawn) : Prop :=
  sameRect (d_box a) (d_box b) /\ sameRect (d_bg a) (d_bg b) /\
  d_rx a == d_rx b /\ d_textX a == d_textX b /\ d_textY a == d_textY b.

(** A box drawn inside a [W] x [H] image, with a label background that
    starts at its left edge, not below its top, and ends inside the image
    on the right, and a text inside that background's corner. *)
Definition insideImage (W H : Q) (d : Drawn) : Prop :=
  (0 <= r_x (d_box d) /\ 0 < r_w (d_box d) /\
   r_x (d_box d) + r_w (d_box d) <= W) /\
  (0 <= r_y (d_box d) /\ 0 < r_h (d_box d) /\
   r_y (d_box d) + r_h (d_box d) <= H) /\
  (r_x (d_bg d) == r_x (d_box d) /\
   0 <= r_y (d_bg d) <= r_y (d_box d) /\
   0 < r_w (d_bg d) /\ r_x (d_bg d) + r_w (d_bg d) <= W /\
   0 < r_h (d_bg d)) /\
  (r_x (d_bg d) < d_textX d /\ r_y (d_bg d) < d_textY d).

(** The rounded box of a detection, clamped to the image. *)
Definition clampedBox (W H : Q) (det : DetectionAxisAligned) : Rect :=
  let x1 := Qmax 0 (Qmin W (round (x1 (box det)))) in
  let y1 := Qmax 0 (Qmin H (round (y1 (box det)))) in
  let x2 := Qmax 0 (Qmin W (round (x2 (box det)))) in
  let y2 := Qmax 0 (Qmin H (round (y2 (box det)))) in
  mkRect x1 y1 (x2 - x1) (y2 - y1).

(** Nothing of the box of a detection is left on the image. *)
Definition emptyOnImage (W H : Q) (det : DetectionAxisAligned) : Prop :=
  r_w (clampedBox W H det) <= 0 \/ r_h (clampedBox W H det) <= 0.

(** What one character becomes. *)
Definition escapeChar (a : ascii) : string :=
  if Ascii.eqb a "&" then "&amp;"
  else if Ascii.eqb a "<" then "&lt;"
  else if Ascii.eqb a ">" then "&gt;"
  else String a EmptyString.

(** The character occurs in the string. *)
Fixpoint occurs (c : ascii) (s : string) : Prop :=
  match s with
  | EmptyString => False
  | String a rest => a = c \/ occurs c rest
  end.

(** [p] is a prefix of [s]. *)
Fixpoint startsWith (p s : string) : Prop :=
  match p, s with
  | EmptyString, _ => True
  | String a p', String b s' => a = b /\ startsWith p' s'
  | String _ _, EmptyString => False
  end.

(** Every ampersand of the string starts one of the three entities. *)
Fixpoint entitiesOnly (s : string) : Prop :=
  match s with
  | EmptyString => True
  | String a rest =>
      (a = "&"%char ->
       startsWith "amp;" rest \/ startsWith "lt;" rest \/
       startsWith "gt;" rest) /\
      entitiesOnly rest
  end.

End OverlaySpec.

(** ** The dominant colours: [analyzeImageColors] of
    [src/processors/image-processor.ts] *)

Module Colors.
Import Js.

(** [`${n}`] for a natural number. *)
Definition show (n : N) : string := NilEmpty.string_of_uint (N.to_uint n).

(** [Number(s)] for a string of decimal digits; the empty string gives 0.
    [None] stands for the result on any other string, which is not
    modelled. *)
Definition Number (s : string) : option N :=
  option_map N.of_uint (NilEmpty.uint_of_string s).

(** [data[i] >> 4]; a read outside the buffer is [undefined], which [>>]
    takes for 0. *)
Definition shr4 (data : list Byte.byte) (i : nat) : N :=
  match nth_error data i with
  | Some b => N.shiftr (Byte.to_N b) 4
  | None => 0%N
  end.

(** [`${qr}-${qg}-${qb}`] for the pixel that starts at [i]. *)
Definition keyAt (data : list Byte.byte) (i : nat) : string :=
  (show (shr4 data i) ++ "-" ++ show (shr4 data (i + 1)) ++ "-" ++
   show (shr4 data (i + 2)))%string.

(** A [Map<string, number>] in insertion order. *)
Definition Bins : Type := list (string * N).

Fixpoint binsGet (bins : Bins) (key : string) : option N :=
  match bins with
  | [] => None
  | (k, n) :: rest => if String.eqb k key then Some n else binsGet rest key
  end.

Fixpoint binsSet (bins : Bins) (key : string) (v : N) : Bins :=
  match bins with
  | [] => [(key, v)]
  | (k, n) :: rest =>
      if String.eqb k key then (k, v) :: rest
      else (k, n) :: binsSet rest key v
  end.

(** [bins.set(key, (bins.get(key) || 0) + 1)] *)
Definition bump (bins : Bins) (key : string) : Bins :=
  binsSet bins key
    (match binsGet bins key with Some n => n | None => 0 end + 1)%N.

(** [for (let i = 0; i < data.length; i += info.channels)], from [i] on.
    [fuel] bounds the number of rounds. *)
Fixpoint binLoop (data : list Byte.byte) (channels : nat) (fuel i : nat)
  (bins : Bins) : Bins :=
  match fuel with
  | O => bins
  | S fuel' =>
      if (i <? List.length data)%nat then
        binLoop data channels fuel' (i + channels)
          (bump bins (keyAt data i))
      else bins
  end.

(** [key.split('-')] *)
Fixpoint splitDash (s : string) : list string :=
  match s with
  | EmptyString => [EmptyString]
  | String c rest =>
      if Ascii.eqb c "-"%char then EmptyString :: splitDash rest
      else match splitDash rest with
           | [] => [String c EmptyString]
           | p :: ps => String c p :: ps
           end
  end.

(** The colour of a bin, from its key:
    [const [qr, qg, qb] = key.split('-').map(Number)] and the centres
    [q * 16 + 8].  [None] stands for a colour with a component that is not
    a number, or not modelled. *)
Definition colorOf (key : string) : option string :=
  match map Number (splitDash key) with
  | Some qr :: Some qg :: Some qb :: _ =>
      let rr := (qr * 16 + 8)%N in
      let gg := (qg * 16 + 8)%N in
      let bb := (qb * 16 + 8)%N in
      Some ("rgb(" ++ show rr ++ "," ++ show gg ++ "," ++ show bb ++ ")")%string
  | _ => None
  end.

(** [analyzeImageColors], from the raw pixels and the number of channels
    that sharp returns for the downscaled image.  The loop makes at most
    one round per byte, since there are at least 3 channels when it
    runs. *)
Definition analyzeImageColors (data : list Byte.byte) (channels : nat)
  : list (option string) :=
  if (channels <? 3)%nat then []
  else
    let bins := binLoop data channels (List.length data) 0 [] in
    let top :=
      firstn 5 (sortDesc (fun e => inject_Z (Z.of_N (snd e))) bins) in
    map (fun e => colorOf (fst e)) top.

End Colors.

Module ColorsSpec.
Import Js Colors.

(** A bin: the three quantised channels of a pixel. *)
Definition Bin : Type := (N * N * N)%type.

Definition Bin_eqb (a b : Bin) : bool :=
  let '(a1, a2, a3) := a in
  let '(b1, b2, b3) := b in
  (N.eqb a1 b1 && N.eqb a2 b2 && N.eqb a3 b3)%bool.

(** The bin of the pixel that starts at the byte [i]. *)
Definition binAt (data : list Byte.byte) (i : nat) : Bin :=
  (shr4 data i, shr4 data (i + 1), shr4 data (i + 2)).

(** The bytes at which the pixels start: the multiples of [channels]
    below [len]. *)
Definition starts (channels len : nat) : list nat :=
  map (fun k => (k * channels)%nat)
    (seq 0 ((len + channels - 1) / channels)).

(** The number of pixels of the image in a bin. *)
Definition population (data : list Byte.byte) (channels : nat) (t : Bin)
  : nat :=
  List.length
    (filter (fun i => Bin_eqb (binAt data i) t)
       (starts channels (List.length data))).

(** The key of a bin, and the colour of its centre. *)
Definition keyOf (t : Bin) : string :=
  let '(a, b, c) := t in (show a ++ "-" ++ show b ++ "-" ++ show c)%string.

Definition rgb (t : Bin) : string :=
  let '(a, b, c) := t in
  ("rgb(" ++ show (a * 16 + 8) ++ "," ++ show (b * 16 + 8) ++ "," ++
   show (c * 16 + 8) ++ ")")%string.

(** The bin that a key names. *)
Definition binOf (key : string) : option Bin :=
  match map Number (splitDash key) with
  | Some a :: Some b :: Some c :: _ => Some (a, b, c)
  | _ => None
  end.

(** The number of occurrences of a key. *)
Definition occurrences (keys : list string) (k : string) : N :=
  N.of_nat (List.length (filter (String.eqb k) keys)).

(** The bins count the keys. *)
Definition tallies (keys : list string) (bins : Bins) : Prop :=
  NoDup (map fst bins) /\
  forall k,
    binsGet bins k =
    if N.eqb (occurrences keys k) 0 then None
    else Some (occurrences keys k).

End ColorsSpec.
(** * Properties *)

(** ** Facts about numbers and sorting *)

Lemma Qlt_bool_iff (a b : Q) : Js.Qlt_bool a b = true <-> a < b.
Proof.
  unfold Js.Qlt_bool. rewrite negb_true_iff.
  split.
  - intros E. apply Qnot_le_lt. intros L.
    apply Qle_bool_iff in L. congruence.
  - intros L. destruct (Qle_bool b a) eqn:E; [|reflexivity].
    apply Qle_bool_iff in E. lra.
Qed.

Lemma Qlt_bool_false_iff (a b : Q) : Js.Qlt_bool a b = false <-> b <= a.
Proof.
  unfold Js.Qlt_bool. rewrite negb_false_iff. apply Qle_bool_iff.
Qed.

Section SortFacts.
Import Js.
Context {A : Type} (key : A -> Q).

Lemma insertDesc_In (a c : A) (l : list A) :
  In c (insertDesc key a l) <-> c = a \/ In c l.
Proof.
  induction l as [|b l IH]; simpl.
  - intuition.
  - destruct (Qlt_bool (key a) (key b)); simpl; rewrite ?IH; intuition.
Qed.

Lemma sortDesc_In (c : A) (l : list A) : In c (sortDesc key l) <-> In c l.
Proof.
  induction l as [|a l IH]; simpl; [tauto|].
  rewrite insertDesc_In, IH. intuition.
Qed.

Lemma insertDesc_sorted (a : A) (l : list A) :
  StronglySorted (descending key) l -> StronglySorted (descending key) (insertDesc key a l).
Proof.
  induction 1 as [|b l Hl IH Hb]; simpl.
  - constructor; constructor.
  - destruct (Qlt_bool (key a) (key b)) eqn:E.
    + constructor; [exact IH|].
      apply Forall_forall. intros c Hc.
      apply insertDesc_In in Hc. destruct Hc as [->|Hc].
      * apply Qlt_bool_iff in E. unfold descending. lra.
      * rewrite Forall_forall in Hb. auto.
    + apply Qlt_bool_false_iff in E.
      constructor; [constructor; assumption|].
      constructor; [exact E|].
      eapply Forall_impl; [|exact Hb].
      unfold descending. intros c Hc. lra.
Qed.

Lemma sortDesc_sorted (l : list A) : StronglySorted (descending key) (sortDesc key l).
Proof.
  induction l; simpl; [constructor|]. now apply insertDesc_sorted.
Qed.

(** Sorting leaves a list that is already in order as it is. *)
Lemma sortDesc_fixed (l : list A) :
  StronglySorted (descending key) l -> sortDesc key l = l.
Proof.
  induction 1 as [|a l Hl IH Ha]; simpl; [reflexivity|].
  rewrite IH. destruct l as [|b l]; [reflexivity|]. simpl.
  inversion Ha as [|? ? Hab _]; subst.
  unfold descending in Hab. apply Qlt_bool_false_iff in Hab.
  now rewrite Hab.
Qed.

Lemma filter_sorted (p : A -> bool) (l : list A) :
  StronglySorted (descending key) l -> StronglySorted (descending key) (filter p l).
Proof.
  induction 1 as [|a l Hl IH Ha]; simpl; [constructor|].
  destruct (p a); [|exact IH].
  constructor; [exact IH|].
  apply Forall_forall. intros c Hc. apply filter_In in Hc.
  rewrite Forall_forall in Ha. now apply Ha.
Qed.

Lemma filter_insertDesc (p : A -> bool) (a : A) (l : list A) :
  StronglySorted (descending key) l ->
  filter p (insertDesc key a l) =
  if p a then insertDesc key a (filter p l) else filter p l.
Proof.
  induction 1 as [|b l Hl IH Hb]; simpl.
  - destruct (p a); reflexivity.
  - destruct (Qlt_bool (key a) (key b)) eqn:E; simpl.
    + rewrite IH. destruct (p b), (p a); simpl; rewrite ?E; reflexivity.
    + destruct (p a) eqn:Ea, (p b) eqn:Eb; simpl; rewrite ?E; try reflexivity.
      assert (Hs : StronglySorted (descending key) (filter p l))
        by now apply filter_sorted.
      destruct (filter p l) as [|c l'] eqn:Ef; [reflexivity|]. simpl.
      assert (Hc : In c l).
      { apply (proj1 (filter_In p c l)). rewrite Ef. now left. }
      rewrite Forall_forall in Hb. specialize (Hb c Hc).
      apply Qlt_bool_false_iff in E. unfold descending in Hb.
      assert (E' : Qlt_bool (key a) (key c) = false)
        by (apply Qlt_bool_false_iff; lra).
      now rewrite E'.
Qed.

(** A stable sort commutes with taking a sub-selection. *)
Lemma filter_sortDesc (p : A -> bool) (l : list A) :
  filter p (sortDesc key l) = sortDesc key (filter p l).
Proof.
  induction l as [|a l IH]; simpl; [reflexivity|].
  rewrite filter_insertDesc by apply sortDesc_sorted.
  rewrite IH. destruct (p a); reflexivity.
Qed.
End SortFacts.

Lemma list_length_ind {A : Type} (P : list A -> Prop) :
  (forall l, (forall l', (List.length l' < List.length l)%nat -> P l') -> P l) ->
  forall l, P l.
Proof.
  intros step l.
  remember (List.length l) as n eqn:E. revert l E.
  induction n as [n IH] using lt_wf_ind.
  intros l ->. apply step. intros l' Hlt. now apply (IH (List.length l')).
Qed.

Lemma filter_all {A : Type} (p : A -> bool) (l : list A) :
  Forall (fun a => p a = true) l -> filter p l = l.
Proof.
  induction 1 as [|a l Ha _ IH]; simpl; [reflexivity|].
  now rewrite Ha, IH.
Qed.

Lemma filter_comm {A : Type} (p q : A -> bool) (l : list A) :
  filter p (filter q l) = filter q (filter p l).
Proof.
  induction l as [|a l IH]; simpl; [reflexivity|].
  destruct (p a) eqn:Ep, (q a) eqn:Eq; simpl; rewrite ?Ep, ?Eq, IH; reflexivity.
Qed.

Lemma filter_absorb {A : Type} (p q : A -> bool) (l : list A) :
  (forall a, p a = true -> q a = true) ->
  filter p (filter q l) = filter p l.
Proof.
  intros Hpq. induction l as [|a l IH]; simpl; [reflexivity|].
  destruct (q a) eqn:Eq; simpl.
  - now rewrite IH.
  - destruct (p a) eqn:Ep; [|exact IH].
    apply Hpq in Ep. congruence.
Qed.

(** ** Per-class suppression *)

Section Suppression.
Import Js Detector SuppressionSpec.
Variable iouThreshold : Q.

Lemma nmsLoop_selected (boxes : list Candidate) :
  forall selected,
    nmsLoop iouThreshold selected boxes = selected ++ kept iouThreshold boxes.
Proof.
  unfold kept.
  induction boxes as [boxes IH] using list_length_ind. intros selected.
  destruct boxes as [|current rest]; simp nmsLoop.
  - now rewrite app_nil_r.
  - assert (Hlen : (List.length (filter (survives iouThreshold current) rest)
                    < List.length (current :: rest))%nat)
      by (simpl; apply Nat.lt_succ_r, filter_length_le).
    rewrite (IH _ Hlen (selected ++ [current])).
    rewrite (IH _ Hlen ([] ++ [current])).
    now rewrite <- app_assoc.
Qed.

Lemma kept_nil : kept iouThreshold [] = [].
Proof. unfold kept. now simp nmsLoop. Qed.

Lemma kept_cons (current : Candidate) (rest : list Candidate) :
  kept iouThreshold (current :: rest) =
  current :: kept iouThreshold (filter (survives iouThreshold current) rest).
Proof.
  unfold kept at 1. simp nmsLoop. now rewrite nmsLoop_selected.
Qed.

Lemma filter_shorter (current : Candidate) (rest : list Candidate) :
  (List.length (filter (survives iouThreshold current) rest)
   < List.length (current :: rest))%nat.
Proof. simpl. apply Nat.lt_succ_r, filter_length_le. Qed.

Lemma kept_In (b : Candidate) (boxes : list Candidate) :
  In b (kept iouThreshold boxes) -> In b boxes.
Proof.
  induction boxes as [boxes IH] using list_length_ind.
  destruct boxes as [|current rest].
  - now rewrite kept_nil.
  - rewrite kept_cons. intros [->|Hin]; [now left|].
    right. apply IH in Hin; [|apply filter_shorter].
    now apply filter_In in Hin.
Qed.

Lemma kept_sorted (boxes : list Candidate) :
  StronglySorted (descending confidence) boxes ->
  StronglySorted (descending confidence) (kept iouThreshold boxes).
Proof.
  induction boxes as [boxes IH] using list_length_ind.
  destruct boxes as [|current rest]; intros Hs.
  - rewrite kept_nil. constructor.
  - rewrite kept_cons. inversion Hs as [|? ? Hrest Hcur]; subst.
    constructor.
    + apply IH; [apply filter_shorter|]. now apply filter_sorted.
    + apply Forall_forall. intros b Hb.
      apply kept_In, filter_In in Hb.
      rewrite Forall_forall in Hcur. now apply Hcur.
Qed.

Lemma kept_settled (boxes : list Candidate) : Settled iouThreshold (kept iouThreshold boxes).
Proof.
  induction boxes as [boxes IH] using list_length_ind.
  destruct boxes as [|current rest].
  - rewrite kept_nil. constructor.
  - rewrite kept_cons. constructor.
    + apply Forall_forall. intros b Hb.
      apply kept_In, filter_In in Hb. tauto.
    + apply IH, filter_shorter.
Qed.

Lemma settled_kept (boxes : list Candidate) : Settled iouThreshold boxes -> kept iouThreshold boxes = boxes.
Proof.
  induction 1 as [|current rest Hall _ IH].
  - apply kept_nil.
  - rewrite kept_cons, filter_all by exact Hall. now rewrite IH.
Qed.

Lemma kept_ofClass (k : Z) (boxes : list Candidate) :
  filter (ofClass k) (kept iouThreshold boxes) = kept iouThreshold (filter (ofClass k) boxes).
Proof.
  induction boxes as [boxes IH] using list_length_ind.
  destruct boxes as [|current rest].
  - simpl. now rewrite kept_nil.
  - rewrite kept_cons. simpl.
    destruct (ofClass k current) eqn:Ek.
    + rewrite kept_cons, IH by apply filter_shorter.
      now rewrite filter_comm.
    + rewrite IH by apply filter_shorter.
      f_equal. apply filter_absorb.
      intros b Hb. unfold survives, ofClass in *.
      apply Z.eqb_eq in Hb. apply Z.eqb_neq in Ek.
      destruct (classId b =? classId current)%Z eqn:E; [|reflexivity].
      apply Z.eqb_eq in E. congruence.
Qed.

Lemma removed_has_culprit (b : Candidate) (boxes : list Candidate) :
  In b boxes -> ~ In b (kept iouThreshold boxes) ->
  exists current,
    In current (kept iouThreshold boxes) /\ survives iouThreshold current b = false.
Proof.
  induction boxes as [boxes IH] using list_length_ind.
  destruct boxes as [|current rest]; [intros []|].
  rewrite kept_cons. intros Hin Hout.
  destruct Hin as [->|Hin]; [exfalso; apply Hout; now left|].
  destruct (survives iouThreshold current b) eqn:Es.
  - destruct (IH (filter (survives iouThreshold current) rest)
                (filter_shorter current rest)) as (c & Hc & Hs).
    + apply filter_In. tauto.
    + intros H. apply Hout. now right.
    + exists c. split; [now right|exact Hs].
  - exists current. split; [now left|exact Es].
Qed.

End Suppression.

(** C5.  Per-class suppression is idempotent: for every list of scored
    candidates and every IoU threshold, running [applyNMS] on its own
    output with the same threshold gives that output back, unchanged and
    in the same order. *)
Theorem applyNMS_idempotent (iouThreshold : Q)
  (boxes : list Detector.Candidate) :
  Detector.applyNMS iouThreshold (Detector.applyNMS iouThreshold boxes) =
  Detector.applyNMS iouThreshold boxes.
Proof.
  unfold Detector.applyNMS.
  change (Detector.nmsLoop iouThreshold []) with (SuppressionSpec.kept iouThreshold).
  rewrite sortDesc_fixed.
  - apply settled_kept, kept_settled.
  - apply kept_sorted, sortDesc_sorted.
Qed.

(** C9.  Candidates of different classes never suppress one another.
    (1) The filter that follows the selection of [current] keeps every
    candidate of another class, whatever the overlap.  (2) A candidate that
    [applyNMS] removes was removed by a kept candidate of its own class
    whose IoU with it reaches the threshold.  (3) The kept candidates of a
    class are those that suppression keeps when it is given the candidates
    of that class alone. *)
Theorem applyNMS_class_isolation (iouThreshold : Q)
  (boxes : list Detector.Candidate) :
  (forall current box,
      Detector.classId box <> Detector.classId current ->
      Detector.survives iouThreshold current box = true) /\
  (forall b,
      In b boxes -> ~ In b (Detector.applyNMS iouThreshold boxes) ->
      exists current,
        In current (Detector.applyNMS iouThreshold boxes) /\
        Detector.classId current = Detector.classId b /\
        iouThreshold <= Detector.calculateIoU current b) /\
  (forall k,
      filter (SuppressionSpec.ofClass k) (Detector.applyNMS iouThreshold boxes) =
      Detector.applyNMS iouThreshold (filter (SuppressionSpec.ofClass k) boxes)).
Proof.
  split; [|split].
  - intros current box Hne. unfold Detector.survives.
    apply Z.eqb_neq in Hne. now rewrite Hne.
  - intros b Hin Hout. unfold Detector.applyNMS in *.
    change (Detector.nmsLoop iouThreshold [])
      with (SuppressionSpec.kept iouThreshold) in *.
    destruct (removed_has_culprit iouThreshold b
                (Js.sortDesc Detector.confidence boxes)) as (c & Hc & Hs).
    + now apply sortDesc_In.
    + exact Hout.
    + exists c. split; [exact Hc|].
      unfold Detector.survives in Hs.
      destruct (Detector.classId b =? Detector.classId c)%Z eqn:E;
        [|discriminate].
      apply Z.eqb_eq in E. split; [now symmetry|].
      now apply Qlt_bool_false_iff.
  - intros k. unfold Detector.applyNMS.
    change (Detector.nmsLoop iouThreshold [])
      with (SuppressionSpec.kept iouThreshold).
    now rewrite kept_ofClass, filter_sortDesc.
Qed.

(** ** Decoding *)

Section Decoding.
Import Js Types Detector DecodeSpec.

Lemma layoutOf_expected (numClasses : nat) (dims : list Z) :
  layoutOf dims (4 + Z.of_nat numClasses) <> None <->
  expectedLayout numClasses dims.
Proof.
  unfold layoutOf, expectedLayout.
  generalize (4 + Z.of_nat numClasses)%Z. intros C.
  destruct dims as [|d0 [|d1 [|d2 [|d3 rest]]]];
    try (split; [congruence | intros [N [H|H]]; discriminate]).
  destruct (d0 =? 1)%Z eqn:E0; cbn [andb].
  - apply Z.eqb_eq in E0. subst d0.
    destruct (d1 =? C)%Z eqn:E1.
    + apply Z.eqb_eq in E1. subst d1.
      split; [intros _; exists d2; now left | intros _; discriminate].
    + destruct (d2 =? C)%Z eqn:E2.
      * apply Z.eqb_eq in E2. subst d2.
        split; [intros _; exists d1; now right | intros _; discriminate].
      * apply Z.eqb_neq in E1, E2.
        split; [congruence|]. intros [N [H|H]]; injection H; congruence.
  - apply Z.eqb_neq in E0.
    split; [congruence|]. intros [N [H|H]]; injection H; congruence.
Qed.

Lemma hasDetShape_expected (numClasses : nat) (dims : list Z) :
  hasDetShape (4 + Z.of_nat numClasses) dims = true <->
  expectedLayout numClasses dims.
Proof.
  rewrite <- layoutOf_expected. unfold hasDetShape, layoutOf.
  generalize (4 + Z.of_nat numClasses)%Z. intros C.
  destruct dims as [|d0 [|d1 [|d2 [|d3 rest]]]]; try (split; congruence).
  destruct (d0 =? 1)%Z, (d1 =? C)%Z, (d2 =? C)%Z; cbn; split; congruence.
Qed.

Lemma parse_shapeMismatch (output : Tensor) (numClasses : nat) :
  shapeMismatch (parseYoloOnnxOutputCorrect output numClasses) <->
  ~ expectedLayout numClasses (dims output).
Proof.
  rewrite <- layoutOf_expected. unfold parseYoloOnnxOutputCorrect.
  destruct (layoutOf (dims output) (4 + Z.of_nat numClasses))
    as [[channelFirst N]|]; simpl.
  - split; [intros [] | intros H; apply H; discriminate].
  - split; [intros _ H; now apply H | trivial].
Qed.

Lemma postprocess_shapeMismatch (this : YoloV8OnnxDetector) (output : Tensor)
  (W H scale padX padY : Q) :
  shapeMismatch (postprocessOutput this output W H scale padX padY) <->
  ~ expectedLayout (List.length (CLASS_NAMES this)) (dims output).
Proof.
  rewrite <- parse_shapeMismatch. unfold postprocessOutput.
  destruct (parseYoloOnnxOutputCorrect output (List.length (CLASS_NAMES this)));
    simpl; tauto.
Qed.

Lemma pickDetOutput_first (results : list (string * Tensor)) (numClasses : nat) :
  (forall r, In r results -> ~ expectedLayout numClasses (dims (snd r))) ->
  pickDetOutput results numClasses = option_map snd (hd_error results).
Proof.
  intros Hall. unfold pickDetOutput.
  destruct (find _ results) as [r|] eqn:Ef.
  - apply find_some in Ef. destruct Ef as [Hin Hshape].
    apply hasDetShape_expected in Hshape. now apply Hall in Hin.
  - destruct results; reflexivity.
Qed.

Lemma pickDetOutput_match (results : list (string * Tensor)) (numClasses : nat) :
  (exists r, In r results /\ expectedLayout numClasses (dims (snd r))) ->
  exists output,
    pickDetOutput results numClasses = Some output /\
    expectedLayout numClasses (dims output).
Proof.
  intros (r & Hin & Hr). unfold pickDetOutput.
  destruct (find _ results) as [r'|] eqn:Ef.
  - apply find_some in Ef. destruct Ef as [_ Hshape].
    apply hasDetShape_expected in Hshape. now exists (snd r').
  - apply (find_none _ _ Ef) in Hin.
    apply hasDetShape_expected in Hr. congruence.
Qed.

End Decoding.

(** C7.  Decoding raises the shape error exactly when the dimensions of the
    output tensor match neither [[1, 4 + numClasses, N]] nor
    [[1, N, 4 + numClasses]].  (1) For the parser: it fails with the shape
    error iff the tensor has neither layout, and returns candidates
    otherwise.  (2) For the decoding of a session result with at least one
    output: it fails with the shape error iff no output has either layout
    (when one has, that output is decoded). *)
Theorem shape_mismatch_iff (this : Detector.YoloV8OnnxDetector)
  (output : Detector.Tensor) (results : list (string * Detector.Tensor))
  (W H scale padX padY : Q) :
  let numClasses := List.length (Detector.CLASS_NAMES this) in
  (DecodeSpec.shapeMismatch
     (Detector.parseYoloOnnxOutputCorrect output numClasses) <->
   ~ DecodeSpec.expectedLayout numClasses (Detector.dims output)) /\
  (DecodeSpec.expectedLayout numClasses (Detector.dims output) ->
   exists parsed,
     Detector.parseYoloOnnxOutputCorrect output numClasses = inl parsed) /\
  (results <> [] ->
   (DecodeSpec.shapeMismatch
      (Detector.decodeOutputs this results W H scale padX padY) <->
    forall r, In r results ->
      ~ DecodeSpec.expectedLayout numClasses (Detector.dims (snd r)))).
Proof.
  intros numClasses. split; [|split].
  - apply parse_shapeMismatch.
  - intros Hl. pose proof (parse_shapeMismatch output numClasses) as Hp.
    destruct (Detector.parseYoloOnnxOutputCorrect output numClasses)
      as [parsed|e] eqn:E.
    + now exists parsed.
    + exfalso. unfold Detector.parseYoloOnnxOutputCorrect in E.
      apply layoutOf_expected in Hl.
      destruct (Detector.layoutOf _ _) as [[cf N]|]; [discriminate|].
      now apply Hl.
  - intros Hne. unfold Detector.decodeOutputs. fold numClasses. split.
    + intros Hmis r Hin Hr.
      destruct (pickDetOutput_match results numClasses) as (o & Ho & Hl).
      { now exists r. }
      rewrite Ho in Hmis. apply postprocess_shapeMismatch in Hmis.
      now apply Hmis.
    + intros Hall. rewrite (pickDetOutput_first _ _ Hall).
      destruct results as [|r rest]; [congruence|]. simpl.
      apply postprocess_shapeMismatch. apply Hall. now left.
Qed.

(** ** Mapping back to image coordinates *)

(** What the one-sided clamps of [toDetection] give: the left and top
    coordinates are not negative, the right and bottom ones are not beyond
    the image. *)
Lemma toDetection_one_sided (classNames : list string)
  (W H scale padX padY : Q) (c : Detector.Candidate) :
  let b := Types.box (Detector.toDetection classNames W H scale padX padY c) in
  0 <= Types.x1 b /\ 0 <= Types.y1 b /\ Types.x2 b <= W /\ Types.y2 b <= H.
Proof.
  simpl. repeat split;
    first [apply Q.le_max_l | apply Q.le_min_l].
Qed.

(** With an integral width and height, the coordinates are integers. *)
Lemma toDetection_integral (classNames : list string)
  (scale padX padY : Q) (zW zH : Z) (c : Detector.Candidate) :
  let b :=
    Types.box
      (Detector.toDetection classNames (inject_Z zW) (inject_Z zH) scale
         padX padY c) in
  (exists z, Types.x1 b = inject_Z z) /\ (exists z, Types.y1 b = inject_Z z) /\
  (exists z, Types.x2 b = inject_Z z) /\ (exists z, Types.y2 b = inject_Z z).
Proof.
  cbn [Types.box Detector.toDetection Types.x1 Types.y1 Types.x2 Types.y2].
  unfold Js.round, Qmax, Qmin, GenericMinMax.gmax, GenericMinMax.gmin.
  repeat split;
    match goal with
    | |- exists z, match ?c with _ => _ end = _ =>
        destruct c; first [now exists 0%Z | eexists; reflexivity]
    end.
Qed.

(** C4 (the code at the failing input).  For the anchor in the right padding
    of a 400 by 800 image, the detector returns the box
    [{x1: 475, y1: 375, x2: 400, y2: 425}]: its [x1] is greater than the
    image width and greater than its [x2]. *)
Theorem toDetection_leaves_image :
  PaddingExample.detections =
    inl [Types.mkDet "Document" 0.9 (Types.mkBox 475 375 400 425) None] /\
  ~ (475 <= PaddingExample.originalWidth) /\
  ~ (475 <= 400).
Proof.
  split; [vm_compute; reflexivity|].
  split; intros H; vm_compute in H; now apply H.
Qed.

(** ** Construction of the detector *)

Section ConstructionFacts.
Import Js Detector DecodeSpec.
Variable path_join : string -> string -> string.
Variable readFile : string -> FileRead.

Lemma orNumber_zero (q fallback : Q) :
  q == 0 -> orNumber (Some q) fallback = fallback.
Proof.
  intros Hq. unfold orNumber. apply Qeq_bool_iff in Hq. now rewrite Hq.
Qed.

Lemma constructor_merged (o : Options) :
  constructor path_join readFile (Some o) =
  if Nat.eqb (List.length (CLASS_NAMES (merged o))) 0 then
    let this := detectAndReadClassesTxt path_join readFile (merged o) in
    if Nat.eqb (List.length (CLASS_NAMES this)) 0 then inr EmptyClassList
    else inl this
  else inl (merged o).
Proof. reflexivity. Qed.

End ConstructionFacts.

(** C10.  The constructor treats a supplied [0] as an absent option.
    (1)-(3) When [inputSize], [confidenceThreshold] or [iouThreshold] is [0],
    construction gives what it gives without that option, and a detector
    that it returns holds the default [800], [0.1] or [0.45].  (4) An empty
    [classNames] array gives what an absent one gives, the [classes.txt]
    fallback is consulted, and construction fails when the file is missing,
    unreadable or without a non-blank line. *)
Theorem constructor_falsy_options
  (path_join : string -> string -> string)
  (readFile : string -> Detector.FileRead) (o : Detector.Options) :
  let new := Detector.constructor path_join readFile in
  (forall q, Detector.o_inputSize o = Some q -> q == 0 ->
     new (Some o) = new (Some (DecodeSpec.withoutInputSize o)) /\
     forall d, new (Some o) = inl d -> Detector.INPUT_SIZE d = 800) /\
  (forall q, Detector.o_confidenceThreshold o = Some q -> q == 0 ->
     new (Some o) = new (Some (DecodeSpec.withoutConfidenceThreshold o)) /\
     forall d, new (Some o) = inl d -> Detector.CONFIDENCE_THRESHOLD d = 0.1) /\
  (forall q, Detector.o_iouThreshold o = Some q -> q == 0 ->
     new (Some o) = new (Some (DecodeSpec.withoutIouThreshold o)) /\
     forall d, new (Some o) = inl d -> Detector.IOU_THRESHOLD d = 0.45) /\
  (Detector.o_classNames o = Some [] ->
     new (Some o) = new (Some (DecodeSpec.withoutClassNames o)) /\
     (let this := Detector.detectAndReadClassesTxt path_join readFile
                    (DecodeSpec.merged o) in
      new (Some o) =
        if Nat.eqb (List.length (Detector.CLASS_NAMES this)) 0
        then inr Detector.EmptyClassList else inl this) /\
     (Detector.CLASS_NAMES
        (Detector.detectAndReadClassesTxt path_join readFile
           (DecodeSpec.merged o)) = [] ->
      new (Some o) = inr Detector.EmptyClassList)).
Proof.
  intros new. unfold new.
  assert (Hfield : forall d,
    Detector.constructor path_join readFile (Some o) = inl d ->
    Detector.INPUT_SIZE d = Detector.INPUT_SIZE (DecodeSpec.merged o) /\
    Detector.CONFIDENCE_THRESHOLD d =
      Detector.CONFIDENCE_THRESHOLD (DecodeSpec.merged o) /\
    Detector.IOU_THRESHOLD d = Detector.IOU_THRESHOLD (DecodeSpec.merged o)).
  { intros d. rewrite constructor_merged.
    destruct (Nat.eqb _ 0).
    - cbv zeta. unfold Detector.detectAndReadClassesTxt.
      destruct (readFile _); cbn -[DecodeSpec.merged];
        destruct (Nat.eqb _ 0); intros E; inversion E; subst; cbn; auto.
    - intros E. inversion E; subst. auto. }
  repeat split.
  - rewrite !constructor_merged. unfold DecodeSpec.merged, DecodeSpec.withoutInputSize.
    cbn [Detector.o_modelPath Detector.o_inputSize Detector.o_confidenceThreshold
         Detector.o_iouThreshold Detector.o_classNames].
    rewrite H. now rewrite (orNumber_zero q).
  - intros d Hd. apply Hfield in Hd. destruct Hd as (-> & _).
    unfold DecodeSpec.merged. cbn [Detector.INPUT_SIZE].
    rewrite H. now rewrite (orNumber_zero q).
  - rewrite !constructor_merged.
    unfold DecodeSpec.merged, DecodeSpec.withoutConfidenceThreshold.
    cbn [Detector.o_modelPath Detector.o_inputSize Detector.o_confidenceThreshold
         Detector.o_iouThreshold Detector.o_classNames].
    rewrite H. now rewrite (orNumber_zero q).
  - intros d Hd. apply Hfield in Hd. destruct Hd as (_ & -> & _).
    unfold DecodeSpec.merged. cbn [Detector.CONFIDENCE_THRESHOLD].
    rewrite H. now rewrite (orNumber_zero q).
  - rewrite !constructor_merged.
    unfold DecodeSpec.merged, DecodeSpec.withoutIouThreshold.
    cbn [Detector.o_modelPath Detector.o_inputSize Detector.o_confidenceThreshold
         Detector.o_iouThreshold Detector.o_classNames].
    rewrite H. now rewrite (orNumber_zero q).
  - intros d Hd. apply Hfield in Hd. destruct Hd as (_ & _ & ->).
    unfold DecodeSpec.merged. cbn [Detector.IOU_THRESHOLD].
    rewrite H. now rewrite (orNumber_zero q).
  - rewrite !constructor_merged.
    unfold DecodeSpec.merged, DecodeSpec.withoutClassNames.
    cbn [Detector.o_modelPath Detector.o_inputSize Detector.o_confidenceThreshold
         Detector.o_iouThreshold Detector.o_classNames].
    now rewrite H.
  - rewrite constructor_merged.
    assert (E : Detector.CLASS_NAMES (DecodeSpec.merged o) = []).
    { unfold DecodeSpec.merged. cbn [Detector.CLASS_NAMES]. now rewrite H. }
    now rewrite E.
  - intros Hempty. rewrite constructor_merged.
    assert (E : Detector.CLASS_NAMES (DecodeSpec.merged o) = []).
    { unfold DecodeSpec.merged. cbn [Detector.CLASS_NAMES]. now rewrite H. }
    rewrite E. cbn [List.length Nat.eqb]. cbv zeta. now rewrite Hempty.
Qed.

(** ** Geometry of the refinement *)

Section Geometry.
Import Js Types Refine.

Lemma Qmax_same (a : Q) : Qmax a a = a.
Proof.
  unfold Qmax, GenericMinMax.gmax.
  now rewrite (proj1 (Qeq_alt a a) (Qeq_refl a)).
Qed.

Lemma Qmin_same (a : Q) : Qmin a a = a.
Proof.
  unfold Qmin, GenericMinMax.gmin.
  now rewrite (proj1 (Qeq_alt a a) (Qeq_refl a)).
Qed.

Lemma intersect_same (b : Box) : intersect b b = b.
Proof.
  destruct b. unfold intersect. cbn.
  now rewrite !Qmax_same, !Qmin_same.
Qed.

Lemma area_nonneg (b : Box) : 0 <= area b.
Proof.
  unfold area. apply Qmult_le_0_compat; apply Q.le_max_l.
Qed.

(** A box of positive area has IoU 1 with itself. *)
Lemma iou_same (b : Box) : 0 < area b -> iou b b == 1.
Proof.
  intros Hpos. unfold iou. rewrite intersect_same.
  assert (E : area b + area b - area b == area b) by ring.
  assert (Hlt : Qlt_bool 0 (area b + area b - area b) = true)
    by (apply Qlt_bool_iff; lra).
  rewrite Hlt. rewrite E. field. lra.
Qed.

(** A box of area zero has IoU 0 with itself. *)
Lemma iou_same_degenerate (b : Box) : area b == 0 -> iou b b = 0.
Proof.
  intros Hz. unfold iou. rewrite intersect_same.
  assert (Hlt : Qlt_bool 0 (area b + area b - area b) = false)
    by (apply Qlt_bool_false_iff; lra).
  now rewrite Hlt.
Qed.

(** [iou] returns 0 whenever the union area is not positive. *)
Lemma iou_zero_union (a b : Box) :
  area a + area b - area (intersect a b) <= 0 -> iou a b = 0.
Proof.
  intros Hz. unfold iou.
  assert (Hlt : Qlt_bool 0 (area a + area b - area (intersect a b)) = false)
    by now apply Qlt_bool_false_iff.
  now rewrite Hlt.
Qed.

Lemma iou_nonneg (a b : Box) : 0 <= iou a b.
Proof.
  unfold iou.
  destruct (Qlt_bool 0 _) eqn:E; [|apply Qle_refl].
  apply Qlt_bool_iff in E.
  apply Qle_shift_div_l; [exact E|].
  rewrite Qmult_0_l. apply area_nonneg.
Qed.

End Geometry.

(** ** The primary-detection invariant *)

Section PrimaryDetection.
Import Js Types Refine RefineSpec.

Lemma bestIou_fold_reaches (pb : Box) (lbl : string) (t : Q)
  (dets : list DetectionAxisAligned) :
  forall acc,
    t <= fold_left
           (fun bestIou d =>
              if negb (String.eqb (label d) lbl) then bestIou
              else
                let v := iou (box d) pb in
                if Qlt_bool bestIou v then v else bestIou)
           dets acc <->
    t <= acc \/ exists d, In d dets /\ reflectsPrimaryAt t lbl pb d.
Proof.
  unfold reflectsPrimaryAt.
  induction dets as [|d0 dets IH]; intros acc; simpl.
  - split; [now left | intros [H|(d & [] & _)]; exact H].
  - rewrite IH. clear IH.
    destruct (String.eqb (label d0) lbl) eqn:El; simpl.
    + apply String.eqb_eq in El.
      destruct (Qlt_bool acc (iou (box d0) pb)) eqn:Ev.
      * apply Qlt_bool_iff in Ev. split.
        -- intros [H|(d & Hd & Hr)].
           ++ right. exists d0. auto.
           ++ right. exists d. auto.
        -- intros [H|(d & [->|Hd] & Hr)].
           ++ left. lra.
           ++ left. tauto.
           ++ right. exists d. auto.
      * apply Qlt_bool_false_iff in Ev. split.
        -- intros [H|(d & Hd & Hr)]; [now left|].
           right. exists d. auto.
        -- intros [H|(d & [->|Hd] & Hr)].
           ++ now left.
           ++ left. destruct Hr. lra.
           ++ right. exists d. auto.
    + apply String.eqb_neq in El. split.
      * intros [H|(d & Hd & Hr)]; [now left|]. right. exists d. auto.
      * intros [H|(d & [->|Hd] & Hr)].
        -- now left.
        -- destruct Hr. congruence.
        -- right. exists d. auto.
Qed.

(** [bestIou] reaches 0.90 exactly when a detection reflects the primary
    box. *)
Lemma bestIouWith_reaches (pb : Box) (lbl : string)
  (dets : list DetectionAxisAligned) :
  Qle_bool 0.90 (bestIouWith pb lbl dets) = true <->
  exists d, In d dets /\ reflectsPrimary lbl pb d.
Proof.
  rewrite Qle_bool_iff. unfold bestIouWith.
  rewrite bestIou_fold_reaches. split.
  - intros [H|H]; [exfalso; revert H; apply Qlt_not_le; reflexivity | exact H].
  - intros H. now right.
Qed.

Lemma upsert_summary (out : DocumentAnalysisResult) (notes : list Note)
  (wantedLbl : option string) :
  summary (fst (upsertPrimaryDetection out notes wantedLbl)) = summary out.
Proof.
  unfold upsertPrimaryDetection.
  destruct (primaryBox (summary out)), wantedLbl; try reflexivity.
  destruct (Qle_bool _ _); reflexivity.
Qed.

Lemma refine_summary (input : DocumentAnalysisResult)
  (options : option RefineOptions) :
  summary (refineDocumentAnalysis input options) =
  st_summary (stages (buildConfig options) input).
Proof.
  unfold refineDocumentAnalysis. cbv zeta.
  match goal with
  | |- context [upsertPrimaryDetection ?o ?n ?w] =>
      pose proof (upsert_summary o n w) as Hs;
      destruct (upsertPrimaryDetection o n w) as [out notes]
  end.
  simpl in Hs. destruct (keepDiagnostics _); simpl; exact Hs.
Qed.

Lemma refine_detections (input : DocumentAnalysisResult)
  (options : option RefineOptions) :
  let st := stages (buildConfig options) input in
  detections (refineDocumentAnalysis input options) =
  match primaryBox (st_summary st),
        wantedLblOf (documentType (st_summary st)) with
  | Some pb, Some lbl =>
      if Qle_bool 0.90 (bestIouWith pb lbl (st_outDetections st))
      then st_outDetections st
      else st_outDetections st ++
           [syntheticPrimary lbl (st_summary st) pb]
  | _, _ => st_outDetections st
  end.
Proof.
  intros st. unfold refineDocumentAnalysis. cbv zeta. fold st.
  unfold upsertPrimaryDetection. cbn [summary detections].
  destruct (primaryBox (st_summary st)) as [pb|];
    destruct (wantedLblOf (documentType (st_summary st))) as [lbl|];
    try (destruct (keepDiagnostics _); reflexivity).
  destruct (Qle_bool _ _); destruct (keepDiagnostics _); reflexivity.
Qed.

End PrimaryDetection.




(** ** The Screenshot logic *)

Section ScreenshotLogic.
Import Js Types Refine RefineSpec.

Lemma scoreScreenshot_cover (container : Box)
  (topOk botOk : option DetectionAxisAligned) (W H baseConf : Q) (t : Tol) :
  s_cover (scoreScreenshot container topOk botOk W H baseConf t) =
  jsdiv (area container) (W * H).
Proof.
  unfold scoreScreenshot. destruct topOk, botOk; reflexivity.
Qed.

Lemma evidence_fields (cfg : FullRefineConfig) (input : DocumentAnalysisResult)
  (W H : Q) (bars : list DetectionAxisAligned)
  (summary_ : DocumentAnalysisSummary) (notes : list Note) :
  let e := screenshotEvidence cfg input W H bars summary_ notes in
  e_bestScreenshot e = bestByScore isScreenshot (detections input) /\
  e_screenshotContainer e = screenshotContainerOf input W H /\
  e_alt e = bestByScore isDocumentOrReceipt (detections input) /\
  e_altScore e = altScoreOf (e_alt e) (e_screenshotContainer e) /\
  e_altType e = altTypeOf (e_alt e) /\
  s_cover (e_s e) = jsdiv (area (e_screenshotContainer e)) (W * H).
Proof.
  unfold screenshotEvidence.
  destruct (find _ bars) as [topRaw|];
    [destruct (validateBarNoMutate topRaw _ W H Top (tol cfg) notes)
       as [topOk notes1]|];
    (destruct (find _ bars) as [botRaw|];
     [destruct (validateBarNoMutate botRaw _ W H Bottom (tol cfg) _)
        as [botOk notes2]|]);
    cbn [e_bestScreenshot e_screenshotContainer e_alt e_altScore e_altType e_s];
    rewrite scoreScreenshot_cover; repeat split; reflexivity.
Qed.

Lemma keepScreenshot_summary (cfg : FullRefineConfig) (W H : Q)
  (bestScreenshot : option DetectionAxisAligned) (container : Box)
  (s : ScreenshotScore) (topOk botOk : option DetectionAxisAligned)
  (summary_ : DocumentAnalysisSummary)
  (outDetections : list DetectionAxisAligned) (notes : list Note) :
  let st' :=
    keepScreenshot cfg W H bestScreenshot container s topOk botOk summary_
      outDetections notes in
  documentType (st_summary st') = documentType summary_ /\
  confidence (st_summary st') = Some (s_score s).
Proof.
  unfold keepScreenshot.
  destruct bestScreenshot; [destruct (jslt _ _)|]; destruct topOk, botOk;
    split; reflexivity.
Qed.

(** The test [needSwitchToAlt], spelled out. *)
Lemma needSwitchToAlt_iff (cfg : FullRefineConfig) (e : ScreenshotEvidence) :
  e_altScore e = altScoreOf (e_alt e) (e_screenshotContainer e) ->
  needSwitchToAlt cfg e = true <->
  jslt (s_cover (e_s e)) (Fin (screenshotMinCoverFrac (tol cfg))) = true /\
  exists alt,
    e_alt e = Some alt /\
    s_score (e_s e) - altCandidateMaxDelta (tol cfg) <=
      score alt + 0.5 * iou (box alt) (e_screenshotContainer e).
Proof.
  intros Halt. unfold needSwitchToAlt. rewrite Halt.
  rewrite !andb_true_iff.
  destruct (e_alt e) as [alt|]; cbn.
  - rewrite Qle_bool_iff. split.
    + intros [[Hc _] Hs]. split; [exact Hc|]. now exists alt.
    + intros [Hc (a & Ha & Hs)]. injection Ha as <-. auto.
  - split.
    + intros [[_ F] _]. discriminate.
    + intros [_ (a & Ha & _)]. discriminate.
Qed.

End ScreenshotLogic.

(** The decision of the Screenshot logic, for the default tolerances and
    with retyping allowed. *)
Lemma screenshotLogic_decision (cfg : Refine.FullRefineConfig)
  (input : Types.DocumentAnalysisResult) (W H : Q)
  (bars : list Types.DetectionAxisAligned) (st : Refine.State) :
  Refine.tol cfg = Refine.DEFAULT_TOL ->
  Refine.allowRetype cfg = true ->
  Types.documentType (Refine.st_summary st) = Types.SCREENSHOT ->
  let container := Refine.screenshotContainerOf input W H in
  let cover := Js.jsdiv (Refine.area container) (W * H) in
  let alt :=
    Refine.bestByScore Refine.isDocumentOrReceipt (Types.detections input) in
  let acceptance :=
    Refine.s_score
      (Refine.e_s
         (Refine.screenshotEvidence cfg input W H bars (Refine.st_summary st)
            (Refine.st_notes st))) in
  let switch :=
    Js.jslt cover (Js.Fin 0.80) = true /\
    exists a,
      alt = Some a /\
      acceptance - 0.06 <=
        Types.score a + 0.5 * Refine.iou (Types.box a) container in
  let st' := Refine.screenshotLogic cfg input W H bars st in
  (Types.documentType (Refine.st_summary st') <> Types.SCREENSHOT <-> switch) /\
  (switch ->
   exists a,
     alt = Some a /\
     Types.documentType (Refine.st_summary st') =
       (if String.eqb (Types.label a) "Document"
        then Types.DOCUMENT else Types.RECEIPT) /\
     Types.confidence (Refine.st_summary st') = Some (Types.score a) /\
     Types.primaryBox (Refine.st_summary st') = Some (Types.box a) /\
     Refine.st_outDetections st' = Refine.st_outDetections st) /\
  (~ switch ->
   Types.documentType (Refine.st_summary st') = Types.SCREENSHOT /\
   Types.confidence (Refine.st_summary st') = Some acceptance).
Proof.
  intros Htol Hallow Htype container cover alt acceptance switch st'.
  pose proof (evidence_fields cfg input W H bars (Refine.st_summary st)
                (Refine.st_notes st)) as Hev.
  cbv zeta in Hev.
  set (e := Refine.screenshotEvidence cfg input W H bars
              (Refine.st_summary st) (Refine.st_notes st)) in *.
  destruct Hev as (Hbest & Hcont & Halt & Hscore & Htypeof & Hcover).
  assert (Hneed : Refine.needSwitchToAlt cfg e = true <-> switch).
  { rewrite (needSwitchToAlt_iff cfg e Hscore).
    unfold switch, cover, alt, container, acceptance.
    rewrite Hcover, Hcont, Halt, Htol. reflexivity. }
  assert (Hst' :
    st' =
    if (Refine.needSwitchToAlt cfg e && Refine.allowRetype cfg)%bool then
      match Refine.e_alt e, Refine.e_altType e with
      | Some a, Some altType =>
          Refine.mkState
            (Refine.setPrimaryBox
               (Refine.setConfidence
                  (Refine.setDocumentType (Refine.st_summary st) altType)
                  (Some (Types.score a)))
               (Some (Refine.copy (Types.box a))))
            (Refine.st_outDetections st)
            (Refine.e_notes e ++
             [Types.NoteSwitch altType (Refine.s_cover (Refine.e_s e))
                (Refine.e_altScore e) (Refine.s_score (Refine.e_s e))])
      | _, _ =>
          Refine.keepScreenshot cfg W H (Refine.e_bestScreenshot e)
            (Refine.e_screenshotContainer e) (Refine.e_s e) (Refine.e_topOk e)
            (Refine.e_botOk e) (Refine.st_summary st)
            (Refine.st_outDetections st) (Refine.e_notes e)
      end
    else
      Refine.keepScreenshot cfg W H (Refine.e_bestScreenshot e)
        (Refine.e_screenshotContainer e) (Refine.e_s e) (Refine.e_topOk e)
        (Refine.e_botOk e) (Refine.st_summary st)
        (Refine.st_outDetections st) (Refine.e_notes e)).
  { unfold st', Refine.screenshotLogic. rewrite Htype. reflexivity. }
  pose proof (keepScreenshot_summary cfg W H (Refine.e_bestScreenshot e)
                (Refine.e_screenshotContainer e) (Refine.e_s e)
                (Refine.e_topOk e) (Refine.e_botOk e) (Refine.st_summary st)
                (Refine.st_outDetections st) (Refine.e_notes e)) as Hkeep.
  cbv zeta in Hkeep. destruct Hkeep as [Hkt Hkc].
  rewrite Hallow, andb_true_r in Hst'.
  destruct (Refine.needSwitchToAlt cfg e) eqn:En.
  - (* the switch *)
    assert (Hsw : switch) by now apply Hneed.
    destruct Hsw as [Hc (a & Ha & Hs)].
    assert (Hea : Refine.e_alt e = Some a) by (rewrite Halt; exact Ha).
    rewrite Htypeof, Hea in Hst'. cbn [Refine.altTypeOf] in Hst'.
    assert (Ht' : Types.documentType (Refine.st_summary st') =
                  if String.eqb (Types.label a) "Document"
                  then Types.DOCUMENT else Types.RECEIPT)
      by (rewrite Hst'; reflexivity).
    split; [|split].
    + split; [intros _; apply Hneed; reflexivity|].
      intros _. rewrite Ht'. destruct (String.eqb _ _); discriminate.
    + intros _. exists a. rewrite Hst'. repeat split; assumption.
    + intros Hno. exfalso. apply Hno. now apply Hneed.
  - (* the type stays *)
    assert (Hno : ~ switch) by (intros Hsw; apply Hneed in Hsw; discriminate).
    rewrite Hst'. split; [|split].
    + split; [|intros Hsw; now apply Hno in Hsw].
      intros Hne. exfalso. apply Hne. now rewrite Hkt.
    + intros Hsw. now apply Hno in Hsw.
    + intros _. split; [now rewrite Hkt | exact Hkc].
Qed.


(** *** What the other stages leave as it is *)

Section StageFacts.
Import Js Types Refine.

Lemma establishPrimaryBox_keeps (cfg : FullRefineConfig) (W H : Q)
  (main : MainType) (s : DocumentAnalysisSummary) (notes : list Note) :
  let s' := fst (establishPrimaryBox cfg W H main s notes) in
  documentType s' = documentType s /\ confidence s' = confidence s.
Proof.
  unfold establishPrimaryBox.
  destruct (primaryBox s) as [pb|] eqn:Epb.
  - cbn. rewrite Epb. destruct (negb _); cbn; auto.
  - destruct (primary main) as [p|]; cbn; rewrite ?Epb.
    + destruct (negb _); cbn; auto.
    + auto.
Qed.

Lemma resolve_without_receipt (cfg : FullRefineConfig) (st : State) :
  filter (hasLabelEq "Receipt") (st_outDetections st) = [] ->
  resolveDocumentVsReceipt cfg st = st.
Proof.
  intros E. unfold resolveDocumentVsReceipt. rewrite E. cbn.
  destruct (primaryBox (st_summary st)); [|reflexivity].
  now rewrite andb_false_r.
Qed.

Lemma replacePrimary_keeps (cfg : FullRefineConfig) (st : State) :
  let st' := replacePrimary cfg st in
  documentType (st_summary st') = documentType (st_summary st) /\
  confidence (st_summary st') = confidence (st_summary st) /\
  st_outDetections st' = st_outDetections st.
Proof.
  unfold replacePrimary.
  destruct (primaryBox (st_summary st)); [|auto].
  destruct (allowRetype cfg); [|auto].
  destruct (sortDesc _ _) as [|[best sc] rest]; [auto|].
  destruct (Qlt_bool _ _); cbn; auto.
Qed.

Lemma unknownFallback_known (input : DocumentAnalysisResult) (W H : Q)
  (st : State) :
  documentType (st_summary st) <> UNKNOWN ->
  unknownFallback input W H st = st.
Proof.
  intros Hne. unfold unknownFallback.
  destruct (documentType (st_summary st)); try reflexivity.
  now contradiction Hne.
Qed.

End StageFacts.

(** *** The scenario of the small Screenshot

    A Screenshot detection [S] covering 40% of a frame of 1000 by 1000 and a
    Document detection [D] of score 0.6, in either order; the summary says
    Screenshot with confidence 0.55.  Without bars and with a coverage
    below the threshold, 0.55 is also the acceptance score. *)

Section Scenario.
Import Js Types Refine.
Variables (ss : Q) (sb db : Box) (ms md : option DetectionMeta).
Variables (src : SourceInfo) (ts : string) (ar : Q) (fmt cs : string)
  (den : option Q).
Variables (bg : string) (pbIn : option Box) (ps : option bool)
  (pbs : option PrimaryBoxSource) (ql : option Quality).
Variables (sig : option AnalysisSignals) (mdl : option ModelInfo).
Variable dets : list DetectionAxisAligned.
Let S := mkDet "Screenshot" ss sb ms.
Let D := mkDet "Document" 0.6 db md.
Let input :=
  mkResult src ts (mkImageMeta 1000 1000 ar fmt cs den)
    (mkSummary SCREENSHOT (Some 0.55) bg pbIn ps pbs ql) dets sig mdl.
Hypothesis Hdets : dets = [S; D] \/ dets = [D; S].
Hypothesis Harea : area sb == 400000.

Lemma scenario_lists :
  extractBars dets = ([], dets) /\
  screenshotContainerOf input 1000 1000 = sb /\
  bestByScore isDocumentOrReceipt dets = Some D /\
  filter (hasLabelEq "Receipt") dets = [].
Proof.
  unfold input. destruct Hdets as [-> | ->]; repeat split; reflexivity.
Qed.

Lemma scenario_pick (t : Tol) (notes : list Note) :
  let main := fst (pickMainType input t notes) in
  (type main = DOCUMENT /\ conf main = 0.6) \/ type main = SCREENSHOT.
Proof.
  unfold pickMainType, input. cbn [detections].
  destruct Hdets as [-> | ->].
  - change (collectByClass [S; D])
      with [("Screenshot"%string, S); ("Document"%string, D)].
    change (hasLabel "Top status bar" [S; D]) with false.
    change (hasLabel "Bottom nav bar" [S; D]) with false.
    cbv zeta.
    match goal with |- context [sortDesc ?b _] => set (boost := b) end.
    change (sortDesc boost [("Screenshot"%string, S); ("Document"%string, D)])
      with (if Qlt_bool (boost ("Screenshot"%string, S))
                 (boost ("Document"%string, D))
            then [("Document"%string, D); ("Screenshot"%string, S)]
            else [("Screenshot"%string, S); ("Document"%string, D)]).
    destruct (Qlt_bool _ _); cbn [hd_error orb];
      destruct (Qlt_bool (Qabs _) _);
      try destruct (Qle_bool _ _ && _)%bool;
      first [left; split; reflexivity | right; reflexivity].
  - change (collectByClass [D; S])
      with [("Document"%string, D); ("Screenshot"%string, S)].
    change (hasLabel "Top status bar" [D; S]) with false.
    change (hasLabel "Bottom nav bar" [D; S]) with false.
    cbv zeta.
    match goal with |- context [sortDesc ?b _] => set (boost := b) end.
    change (sortDesc boost [("Document"%string, D); ("Screenshot"%string, S)])
      with (if Qlt_bool (boost ("Document"%string, D))
                 (boost ("Screenshot"%string, S))
            then [("Screenshot"%string, S); ("Document"%string, D)]
            else [("Document"%string, D); ("Screenshot"%string, S)]).
    destruct (Qlt_bool _ _); cbn [hd_error orb];
      destruct (Qlt_bool (Qabs _) _);
      try destruct (Qle_bool _ _ && _)%bool;
      first [left; split; reflexivity | right; reflexivity].
Qed.

Lemma scenario_cover :
  jslt (jsdiv (area sb) (1000 * 1000)) (Fin 0.80) = true /\
  jsge (jsdiv (area sb) (1000 * 1000)) (Fin 0.80) = false.
Proof.
  unfold jsdiv. change (Qeq_bool (1000 * 1000) 0) with false.
  cbn [jslt jsge jsle]. split.
  - apply Qlt_bool_iff. rewrite Harea. reflexivity.
  - apply not_true_is_false. intros Hle.
    apply Qle_bool_iff in Hle. rewrite Harea in Hle.
    revert Hle. apply Qlt_not_le. reflexivity.
Qed.

Lemma scenario_stages (cfg : FullRefineConfig) :
  tol cfg = DEFAULT_TOL ->
  allowRetype cfg = true ->
  let st := stagesToPrimary cfg input in
  documentType (st_summary st) = DOCUMENT /\
  confidence (st_summary st) = Some 0.6.
Proof.
  intros Htol Hallow.
  destruct scenario_lists as (Hbars & Hcont & Halt & Hrec).
  destruct scenario_cover as [Hlt Hge].
  unfold stagesToPrimary.
  pose proof (scenario_pick (tol cfg) []) as Hpick. cbv zeta in Hpick.
  destruct (pickMainType input (tol cfg) []) as [main notes1].
  cbn [fst] in Hpick.
  change (width (meta_ input)) with 1000.
  change (height (meta_ input)) with 1000.
  change (detections input) with dets. rewrite Hbars.
  destruct (retype cfg input main notes1) as [sum2 notes2] eqn:Eretype.
  pose proof (establishPrimaryBox_keeps cfg 1000 1000 main sum2 notes2)
    as Hest. cbv zeta in Hest.
  destruct (establishPrimaryBox cfg 1000 1000 main sum2 notes2)
    as [sum3 notes3]. cbn [fst] in Hest. destruct Hest as [Ht3 Hc3].
  set (st5 := noteDroppedBars [] (mkState sum3 dets notes3)).
  assert (Hst5 : st5 = mkState sum3 dets notes3).
  { unfold st5, noteDroppedBars. cbn. now rewrite andb_false_r. }
  assert (Hafter :
    let st6 := screenshotLogic cfg input 1000 1000 [] st5 in
    documentType (st_summary st6) = DOCUMENT /\
    confidence (st_summary st6) = Some 0.6 /\
    st_outDetections st6 = dets).
  { rewrite Hst5. unfold retype in Eretype. rewrite Hallow in Eretype.
    cbn [andb] in Eretype.
    destruct Hpick as [[Hty Hcf]|Hty].
    - (* the selection retypes to Document *)
      rewrite Hty in Eretype. cbn in Eretype.
      injection Eretype as <- <-. cbn in Ht3, Hc3.
      unfold screenshotLogic. cbn [st_summary]. rewrite Ht3.
      cbn. rewrite Hc3, Hcf. auto.
    - (* the selection keeps Screenshot: the switch *)
      rewrite Hty in Eretype. cbn in Eretype.
      injection Eretype as <- <-. cbn in Ht3, Hc3.
      pose proof (screenshotLogic_decision cfg input 1000 1000 []
                    (mkState sum3 dets notes3) Htol Hallow Ht3) as Hsw.
      cbv zeta in Hsw. destruct Hsw as (_ & Hsw & _).
      change (detections input) with dets in Hsw.
      rewrite Hcont, Halt in Hsw.
      destruct Hsw as (a & Ha & Hta & Hca & _ & Hda).
      + split; [exact Hlt|].
        exists D. split; [reflexivity|].
        assert (Hacc :
          s_score
            (e_s (screenshotEvidence cfg input 1000 1000 []
                    (st_summary (mkState sum3 dets notes3))
                    (st_notes (mkState sum3 dets notes3)))) == 0.55).
        { unfold screenshotEvidence. cbn [find st_summary st_notes].
          rewrite Hc3. cbn [orElse e_s].
          unfold scoreScreenshot. cbn [Nat.eqb s_score].
          rewrite Hcont, Htol.
          change (screenshotMinCoverFrac DEFAULT_TOL) with 0.80.
          rewrite Hge. reflexivity. }
        rewrite Hacc. pose proof (iou_nonneg db sb) as Hi.
        change (score D) with 0.6. change (box D) with db. lra.
      + injection Ha as <-. cbv zeta.
        rewrite Hta, Hca, Hda. auto. }
  cbv zeta in Hafter. destruct Hafter as (Ht6 & Hc6 & Hd6).
  set (st6 := screenshotLogic cfg input 1000 1000 [] st5) in *.
  rewrite (resolve_without_receipt cfg st6) by (rewrite Hd6; exact Hrec).
  pose proof (replacePrimary_keeps cfg st6) as Hrp. cbv zeta in Hrp.
  destruct Hrp as (Ht & Hc & _). cbv zeta. now rewrite Ht, Hc.
Qed.

Lemma scenario_output (options : option RefineOptions) :
  tol (buildConfig options) = DEFAULT_TOL ->
  allowRetype (buildConfig options) = true ->
  let out := refineDocumentAnalysis input options in
  documentType (summary out) = DOCUMENT /\
  confidence (summary out) = Some 0.6.
Proof.
  intros Htol Hallow. cbv zeta. rewrite refine_summary.
  destruct (scenario_stages (buildConfig options) Htol Hallow) as [Ht Hc].
  unfold stages. rewrite unknownFallback_known; [auto|].
  rewrite Ht. discriminate.
Qed.

End Scenario.

(** ** The fallback for Unknown *)

Section UnknownFallback.
Import Js Types Refine RefineSpec.

Lemma unknownFallback_type (input : DocumentAnalysisResult) (W H : Q)
  (st : State) :
  documentType (st_summary (unknownFallback input W H st)) =
  documentType (st_summary st).
Proof.
  unfold unknownFallback.
  destruct (DocumentType_eqb (documentType (st_summary st)) UNKNOWN);
    [|reflexivity].
  destruct (primaryBox (st_summary st)), (negb (hasNearFullDoc input W H));
    reflexivity.
Qed.

Lemma unknownFallback_unknown (input : DocumentAnalysisResult) (W H : Q)
  (st : State) :
  documentType (st_summary st) = UNKNOWN ->
  let st' := unknownFallback input W H st in
  st_outDetections st' =
    (if hasNearFullDoc input W H then st_outDetections st
     else fullDoc W H :: st_outDetections st) /\
  primaryBox (st_summary st') =
    Some (orElse (primaryBox (st_summary st)) (fullFrame W H)) /\
  quality (st_summary st') =
    Some (setIsPartial (orElse (quality (st_summary st)) emptyQuality)
            (Some false)).
Proof.
  intros Ht. unfold unknownFallback. rewrite Ht. cbn [DocumentType_eqb].
  destruct (primaryBox (st_summary st)) eqn:Epb,
    (hasNearFullDoc input W H); cbn; rewrite ?Epb; auto.
Qed.

Lemma hasNearFullDoc_iff (input : DocumentAnalysisResult) (W H : Q) :
  hasNearFullDoc input W H = true <->
  exists d,
    In d (detections input) /\
    (label d = "Document"%string \/ label d = "Screenshot"%string) /\
    0.95 < iou (box d) (mkBox 0 0 W H).
Proof.
  unfold hasNearFullDoc. rewrite existsb_exists.
  split; intros (d & Hin & Hd); exists d; (split; [exact Hin|]).
  - apply andb_true_iff in Hd. destruct Hd as [Hl Hi].
    apply orb_true_iff in Hl. rewrite !String.eqb_eq in Hl.
    apply Qlt_bool_iff in Hi. auto.
  - destruct Hd as [Hl Hi]. apply andb_true_iff. split.
    + apply orb_true_iff. rewrite !String.eqb_eq. exact Hl.
    + apply Qlt_bool_iff. exact Hi.
Qed.

(** Without detections, without a primary box and with the type Unknown,
    the stages before the fallback change nothing. *)
Lemma stagesToPrimary_empty (cfg : FullRefineConfig)
  (input : DocumentAnalysisResult) :
  detections input = [] ->
  documentType (summary input) = UNKNOWN ->
  primaryBox (summary input) = None ->
  stagesToPrimary cfg input = mkState (summary input) [] [].
Proof.
  destruct input as [src ts m [ty c bg pb ps pbs q] dets sig mdl].
  cbn. intros -> -> ->.
  unfold stagesToPrimary, pickMainType, retype. cbn.
  rewrite andb_false_r. cbn.
  unfold resolveDocumentVsReceipt, replacePrimary. cbn. reflexivity.
Qed.

End UnknownFallback.




(** ** Degenerate geometry *)

(** The parts of the neutral-value rule that the code keeps: an IoU over a
    union of area zero is 0, in the refinement and in the detector, and the
    coverage of the primary box in a frame of size zero is 0, so that the
    summary is flagged partial. *)
Lemma calculateIoU_zero_union (a b : Detector.Candidate) :
  Detector.c_w a * Detector.c_h a == 0 ->
  Detector.c_w b * Detector.c_h b == 0 ->
  Detector.calculateIoU a b = 0.
Proof.
  intros Ha Hb. unfold Detector.calculateIoU. cbv zeta.
  match goal with
  | |- (if Js.Qlt_bool 0 ?u then _ else _) = _ =>
      assert (Hu : Js.Qlt_bool 0 u = false)
  end.
  { apply Qlt_bool_false_iff. rewrite Ha, Hb.
    match goal with
    | |- 0 + 0 - ?i <= 0 => assert (0 <= i); [|lra]
    end.
    apply Qmult_le_0_compat; apply Q.le_max_l. }
  now rewrite Hu.
Qed.

(** C8 (the code at the failing input).  In a frame of size zero the
    coverage that [scoreScreenshot] computes is not 0: it is [NaN] for a
    container of area zero and [+Infinity] for any other container.  For the
    zero-size Screenshot result, stage 3 computes the coverage 0 (and flags
    the result partial), while the Screenshot logic, comparing [NaN] with
    the threshold, does not switch to the Document alternative that a
    coverage of 0 would select. *)
Theorem zero_frame_coverage :
  Refine.s_cover
    (Refine.scoreScreenshot (Refine.fullFrame 0 0) None None 0 0 0.5
       Refine.DEFAULT_TOL) = Js.NaN /\
  Refine.s_cover
    (Refine.scoreScreenshot (Types.mkBox 0 0 10 10) None None 0 0 0.5
       Refine.DEFAULT_TOL) = Js.PosInf /\
  (let input := RefineSpec.zeroFrameScreenshot in
   let bs := RefineSpec.beforeScreenshotLogic Refine.DEFAULT_OPTS input in
   let e :=
     Refine.screenshotEvidence Refine.DEFAULT_OPTS input 0 0 (fst bs)
       (Refine.st_summary (snd bs)) (Refine.st_notes (snd bs)) in
   let out := Refine.refineDocumentAnalysis input None in
   In (Types.NoteFlagPartial 0) (Refine.st_notes (snd bs)) /\
   Refine.s_cover (Refine.e_s e) = Js.NaN /\
   Refine.needSwitchToAlt Refine.DEFAULT_OPTS e = false /\
   Refine.needSwitchToAlt Refine.DEFAULT_OPTS
     (RefineSpec.withCover e (Js.Fin 0)) = true /\
   Types.documentType (Types.summary out) = Types.SCREENSHOT).
Proof.
  split; [vm_compute; reflexivity|].
  split; [vm_compute; reflexivity|].
  cbv zeta. split.
  - vm_compute. right. left. reflexivity.
  - repeat split; vm_compute; reflexivity.
Qed.

(** ** Instances of the statements about the detector *)

Lemma applyNMS_class_isolation_witness :
  let a := Detector.mkCandidate 100 100 50 50 0 0.9 in
  let b := Detector.mkCandidate 102 100 50 50 0 0.8 in
  let c := Detector.mkCandidate 100 100 50 50 1 0.7 in
  Detector.applyNMS 0.45 [b; c; a] = [a; c] /\
  exists current,
    In current (Detector.applyNMS 0.45 [b; c; a]) /\
    Detector.classId current = Detector.classId b /\
    0.45 <= Detector.calculateIoU current b.
Proof.
  cbv zeta. split; [vm_compute; reflexivity|].
  apply (proj1 (proj2 (applyNMS_class_isolation 0.45
           [Detector.mkCandidate 102 100 50 50 0 0.8;
            Detector.mkCandidate 100 100 50 50 1 0.7;
            Detector.mkCandidate 100 100 50 50 0 0.9]))).
  - now left.
  - vm_compute. intros [H|[H|[]]]; discriminate H.
Defined.

Lemma shape_mismatch_iff_witness :
  DecodeSpec.shapeMismatch
    (Detector.decodeOutputs PaddingExample.this
       [("output0"%string, Detector.mkTensor [] [1; 8400; 6]%Z)]
       400 800 1 200 0).
Proof.
  apply (proj2 (proj2 (shape_mismatch_iff PaddingExample.this
                         PaddingExample.output
                         [("output0"%string,
                           Detector.mkTensor [] [1; 8400; 6]%Z)]
                         400 800 1 200 0))).
  - discriminate.
  - intros r [<-|[]] (N & [E|E]); vm_compute in E; discriminate E.
Defined.

Lemma constructor_falsy_options_witness :
  let o := Detector.mkOptions None (Some 0) (Some 0) (Some 0)
             (Some ["Receipt"%string]) in
  let new := Detector.constructor (fun dir name => name)
               (fun _ => Detector.Missing) in
  new (Some o) = new (Some (DecodeSpec.withoutConfidenceThreshold o)) /\
  forall d, new (Some o) = inl d -> Detector.CONFIDENCE_THRESHOLD d = 0.1.
Proof.
  cbv zeta.
  apply (proj1 (proj2 (constructor_falsy_options (fun dir name => name)
                         (fun _ => Detector.Missing)
                         (Detector.mkOptions None (Some 0) (Some 0) (Some 0)
                            (Some ["Receipt"%string])))) 0 eq_refl).
  reflexivity.
Defined.

(** ** The refinement does not write into its input *)

Create HintDb ro.
Create HintDb safe.

Section StoreFrame.
Import Js Types Store.
Local Open Scope store_scope.
Variable h0 : Heap.
Let n0 := List.length h0.

Lemma Good_start : Good h0 h0.
Proof.
  split.
  - exists []. now rewrite app_nil_r.
  - intros l o Hl Hn. apply nth_error_None in Hl. congruence.
Qed.

Lemma safe_ret {A : Type} (a : A) (Q : A -> Prop) : Q a -> safe h0 (ret a) Q.
Proof. intros Hq h Hg. split; assumption. Qed.

Lemma safe_bind {A B : Type} (m : M A) (k : A -> M B) (P : A -> Prop)
  (Q : B -> Prop) :
  safe h0 m P -> (forall a, P a -> safe h0 (k a) Q) -> safe h0 (bind m k) Q.
Proof.
  intros Hm Hk h Hg. unfold bind.
  destruct (Hm h Hg) as [Hg1 Hp]. destruct (m h) as [a h1]. cbn in *.
  exact (Hk a Hp h1 Hg1).
Qed.

Lemma safe_weaken {A : Type} (m : M A) (P Q : A -> Prop) :
  safe h0 m P -> (forall a, P a -> Q a) -> safe h0 m Q.
Proof.
  intros Hm Hpq h Hg. destruct (Hm h Hg). auto.
Qed.

Lemma safe_readonly {A : Type} (m : M A) :
  readonly m -> safe h0 m (fun _ => True).
Proof.
  intros Hr h Hg. rewrite Hr. auto.
Qed.

Lemma readonly_ret {A : Type} (a : A) : readonly (ret a).
Proof. intros h. reflexivity. Qed.

Lemma readonly_bind {A B : Type} (m : M A) (k : A -> M B) :
  readonly m -> (forall a, readonly (k a)) -> readonly (bind m k).
Proof.
  intros Hm Hk h. unfold bind.
  specialize (Hm h). destruct (m h) as [a h1]. cbn in Hm. subst h1.
  apply Hk.
Qed.

Lemma readonly_lookup (l : loc) : readonly (lookup l).
Proof. intros h. reflexivity. Qed.

Lemma readonly_optionM {A B : Type} (f : A -> M B) (o : option A) :
  (forall a, readonly (f a)) -> readonly (optionM f o).
Proof.
  intros Hf. destruct o; cbn.
  - apply readonly_bind; [apply Hf | intros; apply readonly_ret].
  - apply readonly_ret.
Qed.

Lemma readonly_mapM {A B : Type} (f : A -> M B) (l : list A) :
  (forall a, readonly (f a)) -> readonly (mapM f l).
Proof.
  intros Hf. induction l as [|a l IH]; cbn.
  - apply readonly_ret.
  - apply readonly_bind; [apply Hf|]. intros b.
    apply readonly_bind; [exact IH|]. intros bs. apply readonly_ret.
Qed.

Ltac ro :=
  repeat first
    [ solve [auto with ro]
    | apply readonly_ret
    | apply readonly_lookup
    | apply readonly_optionM; intros
    | apply readonly_mapM; intros
    | apply readonly_bind; [|intros] ].

Lemma readonly_getBox (l : loc) : readonly (getBox l).
Proof. unfold getBox. ro. Qed.

Lemma readonly_getDet (l : loc) : readonly (getDet l).
Proof. unfold getDet. ro. Qed.

Lemma readonly_getArr (l : loc) : readonly (getArr l).
Proof. unfold getArr. ro. Qed.

Lemma readonly_getQuality (l : loc) : readonly (getQuality l).
Proof. unfold getQuality. ro. Qed.

Lemma readonly_getSummary (l : loc) : readonly (getSummary l).
Proof. unfold getSummary. ro. Qed.

Lemma readonly_getResult (l : loc) : readonly (getResult l).
Proof. unfold getResult. ro. Qed.

#[local] Hint Resolve readonly_getBox readonly_getDet readonly_getArr
  readonly_getQuality readonly_getSummary readonly_getResult : ro.

Lemma readonly_readDet (l : loc) : readonly (readDet l).
Proof. unfold readDet. ro. Qed.

#[local] Hint Resolve readonly_readDet : ro.

Lemma readonly_readDets (l : loc) : readonly (readDets l).
Proof. unfold readDets. ro. Qed.

Lemma readonly_readSummary (l : loc) : readonly (readSummary l).
Proof. unfold readSummary. ro. Qed.

#[local] Hint Resolve readonly_readDets readonly_readSummary : ro.

Lemma readonly_readResult (l : loc) : readonly (readResult l).
Proof. unfold readResult. ro. Qed.

Lemma readonly_readPrimaryBox (l : loc) : readonly (readPrimaryBox l).
Proof. unfold readPrimaryBox. ro. Qed.

Lemma readonly_headArr (l : loc) : readonly (headArr l).
Proof. unfold headArr. ro. Qed.

Lemma readonly_findLabel (lbl : string) (l : loc) : readonly (findLabel lbl l).
Proof. unfold findLabel. ro. Qed.

#[local] Hint Resolve readonly_readResult readonly_readPrimaryBox
  readonly_headArr readonly_findLabel : ro.

Lemma readonly_pickMainType (l : loc) (t : Refine.Tol) (notes : list Note) :
  readonly (pickMainType l t notes).
Proof. unfold pickMainType. ro. Qed.

Lemma readonly_noteDroppedBars (s bars : loc) (notes : list Note) :
  readonly (noteDroppedBars s bars notes).
Proof.
  unfold noteDroppedBars. ro.
  match goal with |- readonly (if ?c then _ else _) => destruct c end; ro.
Qed.

#[local] Hint Resolve readonly_pickMainType readonly_noteDroppedBars : ro.

(** *** Allocation and assignment *)

Lemma nth_error_update {A : Type} (h : list A) (l l' : nat) (a x : A) :
  nth_error h l = Some a ->
  nth_error (firstn l h ++ x :: skipn (S l) h) l' =
  if Nat.eqb l' l then Some x else nth_error h l'.
Proof.
  intros Hl.
  assert (Hlen : (l < List.length h)%nat)
    by (apply nth_error_Some; congruence).
  assert (Hf : List.length (firstn l h) = l)
    by (rewrite length_firstn; lia).
  destruct (Nat.eqb l' l) eqn:E.
  - apply Nat.eqb_eq in E. subst l'.
    rewrite nth_error_app2 by lia. now rewrite Hf, Nat.sub_diag.
  - apply Nat.eqb_neq in E.
    destruct (Nat.lt_ge_cases l' l) as [Hlt|Hge].
    + rewrite nth_error_app1 by lia. rewrite nth_error_firstn.
      apply Nat.ltb_lt in Hlt. now rewrite Hlt.
    + rewrite nth_error_app2 by lia. rewrite Hf.
      destruct (l' - l)%nat as [|k] eqn:Ek; [lia|].
      change (nth_error (skipn (S l) h) k = nth_error h l').
      rewrite nth_error_skipn. f_equal. lia.
Qed.

Lemma safe_alloc (o : Obj) :
  ownsFresh n0 o -> safe h0 (alloc o) (fun l => (n0 <= l)%nat).
Proof.
  intros Ho h [[fresh ->] Hown]. cbn. split; [split|].
  - exists (fresh ++ [o]). now rewrite app_assoc.
  - intros l o' Hl Hn.
    destruct (Nat.lt_ge_cases l (List.length (h0 ++ fresh))) as [Hlt|Hge].
    + rewrite nth_error_app1 in Hn by exact Hlt. now apply (Hown l).
    + rewrite nth_error_app2 in Hn by exact Hge.
      destruct (l - List.length (h0 ++ fresh))%nat as [|k]; cbn in Hn.
      * now injection Hn as <-.
      * destruct k; discriminate.
  - rewrite length_app. unfold n0. lia.
Qed.

Lemma safe_modify (l : loc) (f : Obj -> Obj) :
  (n0 <= l)%nat ->
  (forall o, ownsFresh n0 o -> ownsFresh n0 (f o)) ->
  safe h0 (modify l f) (fun _ => True).
Proof.
  intros Hl Hf h [[fresh ->] Hown]. unfold modify.
  destruct (nth_error (h0 ++ fresh) l) as [o|] eqn:En; cbn.
  - split; [split|trivial].
    + exists (firstn (l - n0) fresh ++ f o :: skipn (S l) (h0 ++ fresh)).
      rewrite firstn_app, firstn_all2 by exact Hl.
      now rewrite <- app_assoc.
    + intros l' o' Hl' Hn.
      rewrite (nth_error_update _ _ _ _ _ En) in Hn.
      destruct (Nat.eqb l' l).
      * injection Hn as <-. apply Hf. now apply (Hown l).
      * now apply (Hown l').
  - split; [split|trivial]; [now exists fresh | exact Hown].
Qed.

Lemma safe_getSummary (s : loc) :
  (n0 <= s)%nat ->
  safe h0 (getSummary s)
    (fun so => freshOpt n0 (s_primaryBox so) /\ freshOpt n0 (s_quality so)).
Proof.
  intros Hs h Hg. split; [exact Hg|].
  unfold getSummary, bind, lookup, ret. cbn.
  destruct (nth_error h s) as [o|] eqn:En.
  - destruct Hg as [_ Hown]. specialize (Hown s o Hs En).
    destruct o; cbn; try (split; intros l E; discriminate E).
    exact Hown.
  - cbn. split; intros l E; discriminate E.
Qed.

Lemma safe_getResult (r : loc) :
  (n0 <= r)%nat ->
  safe h0 (getResult r)
    (fun ro => (n0 <= r_summary ro)%nat /\ (n0 <= r_detections ro)%nat).
Proof.
  intros Hr h Hg. split; [exact Hg|].
  unfold getResult, bind, lookup, ret. cbn.
  destruct (nth_error h r) as [o|] eqn:En.
  - destruct Hg as [_ Hown]. specialize (Hown r o Hr En).
    destruct o; cbn; try (split; exact Hr).
    exact Hown.
  - cbn. split; exact Hr.
Qed.

Lemma freshOpt_Some (l : loc) : (n0 <= l)%nat -> freshOpt n0 (Some l).
Proof. intros Hl l' E. now injection E as <-. Qed.

Lemma freshOpt_None : freshOpt n0 None.
Proof. intros l E. discriminate E. Qed.

Lemma safe_true {A : Type} (m : M A) (Q : A -> Prop) :
  safe h0 m Q -> safe h0 m (fun _ => True).
Proof. intros Hm. eapply safe_weaken; [exact Hm | trivial]. Qed.

(** One step through a computation: a bind whose first part is covered by
    a lemma of the [safe] database or reads only, a return, or a case
    distinction. *)
Ltac facts :=
  cbn [fst snd] in *;
  repeat match goal with
    | H : _ /\ _ |- _ => destruct H
    | H : freshOpt _ (Some ?b) |- _ =>
        lazymatch goal with
        | _ : (n0 <= b)%nat |- _ => fail
        | _ => pose proof (H b eq_refl)
        end
    end.

Ltac prim :=
  first
    [ solve [eauto 4 with safe]
    | solve [apply safe_readonly; ro]
    | solve [eapply safe_true; eauto 4 with safe] ].

Ltac step :=
  facts;
  lazymatch goal with
  | |- safe _ (ret _) _ => apply safe_ret
  | |- safe _ (bind _ _) _ =>
      eapply safe_bind; [prim | cbv beta; intros]
  | |- safe _ (if ?c then _ else _) _ => destruct c
  | |- safe _ (match ?x with Some _ => _ | None => _ end) _ =>
      let E := fresh "E" in destruct x eqn:E; rewrite ?E in *
  | |- safe _ (match ?x with (_, _) => _ end) _ => destruct x
  | |- safe _ (match ?x with Top => _ | Bottom => _ end) _ => destruct x
  end.

Ltac steps :=
  repeat step; facts; cbn [fst snd]; try solve [prim]; auto with safe.

#[local] Hint Resolve freshOpt_Some freshOpt_None safe_alloc : safe.
#[local] Hint Extern 1 (ownsFresh _ _) => cbn; auto : safe.

Lemma safe_newBox (b : Box) : safe h0 (newBox b) (fun l => (n0 <= l)%nat).
Proof. apply safe_alloc. exact I. Qed.

Lemma safe_newArr (items : list loc) :
  safe h0 (newArr items) (fun l => (n0 <= l)%nat).
Proof. apply safe_alloc. exact I. Qed.

#[local] Hint Resolve safe_newBox safe_newArr : safe.

Lemma safe_newDet (d : DetectionAxisAligned) :
  safe h0 (newDet d) (fun l => (n0 <= l)%nat).
Proof. unfold newDet. step. apply safe_alloc. exact I. Qed.

Lemma safe_copyBox (l : loc) : safe h0 (copyBox l) (fun l => (n0 <= l)%nat).
Proof. unfold copyBox. step. apply safe_newBox. Qed.

#[local] Hint Resolve safe_newDet safe_copyBox : safe.

Lemma safe_copyDet (l : loc) : safe h0 (copyDet l) (fun l => (n0 <= l)%nat).
Proof. unfold copyDet. do 2 step. apply safe_alloc. exact I. Qed.

Lemma safe_optionM_fresh {A : Type} (f : A -> M loc) (o : option A) :
  (forall a, safe h0 (f a) (fun l => (n0 <= l)%nat)) ->
  safe h0 (optionM f o) (freshOpt n0).
Proof.
  intros Hf. destruct o as [a|]; cbn.
  - eapply safe_bind; [apply Hf|]. intros l Hl.
    apply safe_ret. now apply freshOpt_Some.
  - apply safe_ret. apply freshOpt_None.
Qed.

Lemma safe_copySummary (l : loc) :
  safe h0 (copySummary l) (fun s => (n0 <= s)%nat).
Proof.
  unfold copySummary. step.
  eapply safe_bind; [apply safe_optionM_fresh; intros; apply safe_copyBox|].
  intros pb Hpb.
  eapply safe_bind.
  { apply safe_optionM_fresh. intros q. step. apply safe_alloc. exact I. }
  intros ql Hql. apply safe_alloc. split; assumption.
Qed.

Lemma safe_filterArr (keep : DetectionAxisAligned -> bool) (arr : loc) :
  safe h0 (filterArr keep arr) (fun l => (n0 <= l)%nat).
Proof. unfold filterArr. step. apply safe_newArr. Qed.

#[local] Hint Resolve safe_copyDet safe_copySummary safe_filterArr : safe.

Ltac setter :=
  intros; apply safe_modify; [assumption|];
  intros o Ho; destruct o; cbn in *; auto.

Lemma safe_setDocumentType (s : loc) (t : DocumentType) :
  (n0 <= s)%nat -> safe h0 (setDocumentType s t) (fun _ => True).
Proof. setter. Qed.

Lemma safe_setConfidence (s : loc) (c : option Q) :
  (n0 <= s)%nat -> safe h0 (setConfidence s c) (fun _ => True).
Proof. setter. Qed.

Lemma safe_setPrimaryBox (s : loc) (b : option loc) :
  (n0 <= s)%nat -> freshOpt n0 b ->
  safe h0 (setPrimaryBox s b) (fun _ => True).
Proof. setter. tauto. Qed.

Lemma safe_setQuality (s : loc) (q : option loc) :
  (n0 <= s)%nat -> freshOpt n0 q ->
  safe h0 (setQuality s q) (fun _ => True).
Proof. setter. tauto. Qed.

Lemma safe_setIsPartial (q : loc) (b : option bool) :
  (n0 <= q)%nat -> safe h0 (setIsPartial q b) (fun _ => True).
Proof. setter. Qed.

Lemma safe_setX1 (p : loc) (v : Q) :
  (n0 <= p)%nat -> safe h0 (setX1 p v) (fun _ => True).
Proof. setter. Qed.

Lemma safe_setY1 (p : loc) (v : Q) :
  (n0 <= p)%nat -> safe h0 (setY1 p v) (fun _ => True).
Proof. setter. Qed.

Lemma safe_setX2 (p : loc) (v : Q) :
  (n0 <= p)%nat -> safe h0 (setX2 p v) (fun _ => True).
Proof. setter. Qed.

Lemma safe_setY2 (p : loc) (v : Q) :
  (n0 <= p)%nat -> safe h0 (setY2 p v) (fun _ => True).
Proof. setter. Qed.

Lemma safe_push (arr item : loc) :
  (n0 <= arr)%nat -> safe h0 (push arr item) (fun _ => True).
Proof. setter. Qed.

Lemma safe_setSignals (r : loc) (sig : option AnalysisSignals) :
  (n0 <= r)%nat -> safe h0 (setSignals r sig) (fun _ => True).
Proof. setter. Qed.

Lemma safe_setDetections (r arr : loc) :
  (n0 <= r)%nat -> (n0 <= arr)%nat ->
  safe h0 (setDetections r arr) (fun _ => True).
Proof. setter. tauto. Qed.

Lemma safe_setMeta (d : loc) (mt : option DetectionMeta) :
  (n0 <= d)%nat -> safe h0 (setMeta d mt) (fun _ => True).
Proof. setter. Qed.

#[local] Hint Resolve safe_setDocumentType safe_setConfidence
  safe_setPrimaryBox safe_setQuality safe_setIsPartial safe_setX1 safe_setY1
  safe_setX2 safe_setY2 safe_push safe_setSignals safe_setDetections
  safe_setMeta safe_getSummary safe_getResult : safe.

Lemma safe_sortArr (key : DetectionAxisAligned -> Q) (arr : loc) :
  (n0 <= arr)%nat -> safe h0 (sortArr key arr) (fun _ => True).
Proof.
  intros Ha. unfold sortArr. step.
  apply safe_modify; [assumption|].
  intros o Ho. destruct o; cbn in *; auto.
Qed.

#[local] Hint Resolve safe_sortArr : safe.

Lemma safe_bestByScore (keep : DetectionAxisAligned -> bool) (arr : loc) :
  safe h0 (bestByScore keep arr) (fun _ => True).
Proof.
  unfold bestByScore. do 2 step. apply safe_readonly. auto with ro.
Qed.

Lemma safe_forEach {A : Type} (l : list A) (body : A -> M unit) :
  (forall a, safe h0 (body a) (fun _ => True)) ->
  safe h0 (forEach l body) (fun _ => True).
Proof.
  intros Hb. induction l as [|a l IH]; cbn.
  - now apply safe_ret.
  - eapply safe_bind; [apply Hb|]. intros _ _. exact IH.
Qed.

#[local] Hint Resolve safe_bestByScore : safe.

(** *** The stages *)

Lemma safe_validateBar (bar : loc) (container : Box) (W H : Q)
  (which : BarSide) (t : Refine.Tol) (notes : list Note) :
  safe h0 (validateBarNoMutate bar container W H which t notes)
    (fun r => freshOpt n0 (fst r)).
Proof.
  unfold validateBarNoMutate. step.
  destruct (Refine.validateBarNoMutate _ _ _ _ _ _ _) as [[validated|] notes'].
  - steps.
  - steps.
Qed.

Lemma safe_retype (cfg : Refine.FullRefineConfig) (input : loc)
  (main : Refine.MainType) (notes : list Note) :
  safe h0 (retype cfg input main notes) (fun r => (n0 <= fst r)%nat).
Proof. unfold retype. steps. Qed.

Lemma safe_establishPrimaryBox (cfg : Refine.FullRefineConfig) (W H : Q)
  (main : Refine.MainType) (summary_ : loc) (notes : list Note) :
  (n0 <= summary_)%nat ->
  safe h0 (establishPrimaryBox cfg W H main summary_ notes) (fun _ => True).
Proof.
  intros Hs. unfold establishPrimaryBox. step.
  eapply safe_bind with (P := fun _ => True).
  { destruct (s_primaryBox a); [steps|].
    destruct (Refine.primary main); steps. }
  intros notes1 _. step.
  destruct (s_primaryBox a0) as [pb|] eqn:Epb; [|steps].
  rewrite ?Epb in *. facts.
  do 9 step.
  eapply safe_bind with (P := fun _ => True).
  { destruct (s_quality a0); steps. }
  intros wasPartial _.
  destruct (negb _); [|steps].
  eapply safe_bind with (P := fun q => (n0 <= q)%nat).
  { destruct (s_quality a0) as [q|] eqn:Eq.
    - rewrite ?Eq in *. steps.
    - steps. }
  intros q Hq. steps.
Qed.

Lemma safe_extractBars (input : loc) :
  safe h0 (extractBars input)
    (fun r => (n0 <= fst r)%nat /\ (n0 <= snd r)%nat).
Proof.
  unfold extractBars. do 4 step.
  eapply safe_bind with (P := fun _ => True); [|intros; steps].
  apply safe_forEach. intros d. steps.
Qed.

Lemma safe_keepScreenshot (cfg : Refine.FullRefineConfig) (W H : Q)
  (bestScreenshot : option loc) (container : Box)
  (s : Refine.ScreenshotScore) (topOk botOk : option loc)
  (summary_ outDetections : loc) (notes : list Note) :
  (n0 <= summary_)%nat -> (n0 <= outDetections)%nat ->
  safe h0
    (keepScreenshot cfg W H bestScreenshot container s topOk botOk summary_
       outDetections notes)
    (fun _ => True).
Proof.
  intros Hs Ho. unfold keepScreenshot. cbv zeta.
  eapply safe_bind with (P := fun _ => True).
  { match goal with |- safe _ (if ?c then _ else _) _ => destruct c end;
      steps. }
  intros notes1 _. step.
  eapply safe_bind with (P := fun _ => True).
  { destruct topOk; steps. }
  intros _ _.
  eapply safe_bind with (P := fun _ => True).
  { destruct botOk; steps. }
  intros _ _. steps.
Qed.

#[local] Hint Resolve safe_validateBar safe_keepScreenshot : safe.

Lemma safe_screenshotLogic (cfg : Refine.FullRefineConfig) (input : loc)
  (W H : Q) (bars summary_ outDetections : loc) (notes : list Note) :
  (n0 <= summary_)%nat -> (n0 <= outDetections)%nat ->
  safe h0 (screenshotLogic cfg input W H bars summary_ outDetections notes)
    (fun _ => True).
Proof.
  intros Hs Ho. unfold screenshotLogic. step.
  match goal with |- safe _ (if ?c then _ else _) _ => destruct c end;
    [|steps].
  do 2 step.
  eapply safe_bind with (P := fun _ => True).
  { destruct a1; steps. }
  intros container _. do 2 step.
  eapply safe_bind with (P := fun r => freshOpt n0 (fst r)).
  { destruct a2; [auto with safe|steps]. }
  intros [topOk notes1] Htop. cbn [fst] in Htop.
  eapply safe_bind with (P := fun r => freshOpt n0 (fst r)).
  { destruct a3; [auto with safe|steps]. }
  intros [botOk notes2] Hbot. cbn [fst] in Hbot.
  do 6 step.
  match goal with |- safe _ (if ?c then _ else _) _ => destruct c end;
    [|auto with safe].
  destruct a8 as [alt|]; [|auto with safe].
  destruct a9 as [altV|]; [|auto with safe].
  destruct (Refine.altTypeOf (Some altV)); [|auto with safe].
  steps.
Qed.

Lemma safe_resolveDocumentVsReceipt (cfg : Refine.FullRefineConfig)
  (summary_ outDetections : loc) (notes : list Note) :
  (n0 <= summary_)%nat -> (n0 <= outDetections)%nat ->
  safe h0 (resolveDocumentVsReceipt cfg summary_ outDetections notes)
    (fun r => (n0 <= fst r)%nat).
Proof.
  intros Hs Ho. unfold resolveDocumentVsReceipt. cbv zeta. steps.
Qed.

Lemma safe_replacePrimary (cfg : Refine.FullRefineConfig)
  (summary_ outDetections : loc) (notes : list Note) :
  (n0 <= summary_)%nat ->
  safe h0 (replacePrimary cfg summary_ outDetections notes) (fun _ => True).
Proof.
  intros Hs. unfold replacePrimary. cbv zeta. do 2 step; [|steps].
  step; [|steps]. do 3 step.
  destruct (sortDesc _ _) as [|[[best bestV] sc] rest]; steps.
Qed.

Lemma safe_unknownFallback (input : loc) (W H : Q)
  (summary_ outDetections : loc) (notes : list Note) :
  (n0 <= summary_)%nat -> (n0 <= outDetections)%nat ->
  safe h0 (unknownFallback input W H summary_ outDetections notes)
    (fun r => (n0 <= fst r)%nat).
Proof.
  intros Hs Ho. unfold unknownFallback. step.
  match goal with |- safe _ (if ?c then _ else _) _ => destruct c end;
    [|steps].
  step.
  eapply safe_bind with (P := fun _ => True).
  { destruct (s_primaryBox a); steps. }
  intros notes1 _. step.
  eapply safe_bind with (P := fun r => (n0 <= fst r)%nat).
  { match goal with |- safe _ (if ?c then _ else _) _ => destruct c end;
      steps. }
  intros [outDetections1 notes2] Ho1. cbn [fst] in Ho1. step.
  eapply safe_bind with (P := fun q => (n0 <= q)%nat).
  { destruct (s_quality a2) as [q|] eqn:Eq; rewrite ?Eq in *; steps. }
  intros q Hq. steps.
Qed.

Lemma safe_upsertPrimaryDetection (out : loc) (notes : list Note)
  (wantedLbl : option string) :
  (n0 <= out)%nat ->
  safe h0 (upsertPrimaryDetection out notes wantedLbl) (fun _ => True).
Proof.
  intros Ho. unfold upsertPrimaryDetection. do 2 step.
  destruct (s_primaryBox a0) as [pb|]; [|steps].
  destruct wantedLbl as [lbl|]; [|steps].
  steps.
Qed.

#[local] Hint Resolve safe_retype safe_establishPrimaryBox safe_extractBars
  safe_screenshotLogic safe_resolveDocumentVsReceipt safe_replacePrimary
  safe_unknownFallback safe_upsertPrimaryDetection : safe.

Lemma safe_refineDocumentAnalysis (input : loc)
  (options : option Refine.RefineOptions) :
  safe h0 (refineDocumentAnalysis input options) (fun out => (n0 <= out)%nat).
Proof.
  unfold refineDocumentAnalysis. cbv zeta. repeat step.
  eapply safe_bind with (P := fun _ => True).
  { match goal with |- safe _ (if ?c then _ else _) _ => destruct c end;
      steps. }
  intros _ _. now apply safe_ret.
Qed.

End StoreFrame.

(** *** Reading a value back *)

Section StoreValues.
Import Js Types Store.
Local Open Scope store_scope.

Lemma valueOf_bind {A B : Type} (m : M A) (k : A -> M B) (h : Heap) :
  readonly m -> valueOf (bind m k) h = valueOf (k (valueOf m h)) h.
Proof.
  intros Hm. unfold valueOf, bind. specialize (Hm h).
  destruct (m h) as [a h1]. cbn in *. now subst.
Qed.

Lemma nth_error_extended {A : Type} (h fresh : list A) (l : nat) (a : A) :
  nth_error h l = Some a -> nth_error (h ++ fresh) l = Some a.
Proof.
  intros Hl. rewrite nth_error_app1; [exact Hl|].
  apply nth_error_Some. congruence.
Qed.

Lemma holdsDet_extended (h fresh : Heap) (l : loc) (d : DetectionAxisAligned) :
  holdsDet h l d -> holdsDet (h ++ fresh) l d.
Proof.
  intros (bl & Hd & Hb). exists bl.
  split; now apply nth_error_extended.
Qed.

Lemma holdsOpt_extended {A : Type} (holds : Heap -> loc -> A -> Prop)
  (h fresh : Heap) (l : option loc) (a : option A) :
  (forall l a, holds h l a -> holds (h ++ fresh) l a) ->
  holdsOpt holds h l a -> holdsOpt holds (h ++ fresh) l a.
Proof. intros Hm. destruct l, a; cbn; auto. Qed.

Lemma holdsSummary_extended (h fresh : Heap) (l : loc)
  (s : DocumentAnalysisSummary) :
  holdsSummary h l s -> holdsSummary (h ++ fresh) l s.
Proof.
  intros (pb & ql & Hs & Hp & Hq). exists pb, ql.
  split; [now apply nth_error_extended|].
  split; (eapply holdsOpt_extended; [|eassumption]);
    intros; now apply nth_error_extended.
Qed.

Lemma holdsResult_extended (h fresh : Heap) (l : loc)
  (r : DocumentAnalysisResult) :
  holdsResult h l r -> holdsResult (h ++ fresh) l r.
Proof.
  intros (sl & al & items & Hr & Hs & Ha & Hd). exists sl, al, items.
  split; [now apply nth_error_extended|].
  split; [now apply holdsSummary_extended|].
  split; [now apply nth_error_extended|].
  eapply Forall2_impl; [|exact Hd].
  intros ? ?. apply holdsDet_extended.
Qed.

(** What is held is what is read. *)
Lemma read_holdsDet (h : Heap) (l : loc) (d : DetectionAxisAligned) :
  holdsDet h l d -> valueOf (readDet l) h = d.
Proof.
  intros (bl & Hd & Hb). unfold holdsBox in Hb.
  unfold valueOf, readDet, getDet, getBox, bind, lookup, ret. cbn.
  rewrite Hd. cbn. rewrite Hb. now destruct d.
Qed.

Lemma read_holdsDets (h : Heap) (items : list loc)
  (ds : list DetectionAxisAligned) :
  Forall2 (holdsDet h) items ds ->
  map snd
    (valueOf (mapM (fun l => do v <- readDet l; ret (l, v)) items) h) = ds.
Proof.
  induction 1 as [|l d items ds Hd _ IH]; [reflexivity|].
  cbn [mapM].
  rewrite valueOf_bind.
  2:{ intros h1. unfold bind. pose proof (readonly_readDet l h1) as Hr.
      destruct (readDet l h1). cbn in *. now subst. }
  rewrite valueOf_bind.
  2:{ apply readonly_mapM. intros a h1. unfold bind.
      pose proof (readonly_readDet a h1) as Hr.
      destruct (readDet a h1). cbn in *. now subst. }
  unfold valueOf at 1. cbn [ret fst map snd].
  rewrite IH. f_equal.
  rewrite valueOf_bind by apply readonly_readDet.
  unfold valueOf at 1. cbn. now apply read_holdsDet.
Qed.

Lemma read_holdsSummary (h : Heap) (l : loc) (s : DocumentAnalysisSummary) :
  holdsSummary h l s -> valueOf (readSummary l) h = s.
Proof.
  intros (pb & ql & Hs & Hp & Hq).
  unfold valueOf, readSummary, getSummary, bind, lookup, ret. cbn.
  rewrite Hs. cbn.
  destruct s as [ty cf bg pbv ps pbs qv]. cbn in *.
  destruct pb as [p|], pbv as [b|]; cbn in Hp; try contradiction;
    destruct ql as [q|], qv as [v|]; cbn in Hq; try contradiction;
    unfold holdsBox, holdsQuality in *; cbn;
    unfold getBox, getQuality, bind, lookup, ret; cbn;
    rewrite ?Hp; cbn; rewrite ?Hq; reflexivity.
Qed.

Lemma read_holdsResult (h : Heap) (l : loc) (r : DocumentAnalysisResult) :
  holdsResult h l r -> valueOf (readResult l) h = r.
Proof.
  intros (sl & al & items & Hr & Hs & Ha & Hd).
  unfold readResult.
  rewrite valueOf_bind by apply readonly_getResult.
  assert (Er : valueOf (getResult l) h =
               mkResultObj (source_ r) (timestamp r) (meta_ r) sl al
                 (signals r) (model r)).
  { unfold valueOf, getResult, bind, lookup, ret. cbn. now rewrite Hr. }
  rewrite Er. cbn [r_summary r_detections r_source r_timestamp r_meta
                   r_signals r_model].
  rewrite valueOf_bind by apply readonly_readSummary.
  rewrite (read_holdsSummary h sl _ Hs).
  rewrite valueOf_bind by apply readonly_readDets.
  unfold valueOf at 1. cbn [ret fst].
  unfold readDets. rewrite valueOf_bind by apply readonly_getArr.
  assert (Ea : valueOf (getArr al) h = items).
  { unfold valueOf, getArr, bind, lookup, ret. cbn. now rewrite Ha. }
  rewrite Ea, (read_holdsDets h items _ Hd). now destruct r.
Qed.

(** What is placed in the store is held there. *)
Lemma nth_error_at {A : Type} (h l : list A) (n k : nat) :
  n = (List.length h + k)%nat -> nth_error (h ++ l) n = nth_error l k.
Proof.
  intros ->. rewrite nth_error_app2 by lia. f_equal. lia.
Qed.

Ltac heap_index :=
  rewrite <- ?app_assoc; cbn [app];
  match goal with
  | |- nth_error (?h ++ ?l) ?n = _ =>
      first
        [ rewrite (nth_error_at h l n 0)
            by (rewrite ?length_app; cbn [List.length]; lia)
        | rewrite (nth_error_at h l n 1)
            by (rewrite ?length_app; cbn [List.length]; lia)
        | rewrite (nth_error_at h l n 2)
            by (rewrite ?length_app; cbn [List.length]; lia) ];
      reflexivity
  end.

Lemma newDet_holds (d : DetectionAxisAligned) (h : Heap) :
  let '(l, h') := newDet d h in
  extends h h' /\ holdsDet h' l d.
Proof.
  unfold newDet, newBox, alloc, bind. cbn. split.
  - exists [OBox (box d); ODet (label d) (score d) (List.length h) (meta d)].
    now rewrite <- app_assoc.
  - exists (List.length h). unfold holdsBox. split; heap_index.
Qed.

Lemma newDets_hold (ds : list DetectionAxisAligned) (h : Heap) :
  let '(items, h') := mapM newDet ds h in
  extends h h' /\ Forall2 (holdsDet h') items ds.
Proof.
  revert h. induction ds as [|d ds IH]; intros h; cbn [mapM].
  - cbn. split; [exists []; now rewrite app_nil_r | constructor].
  - unfold bind at 1.
    pose proof (newDet_holds d h) as Hd.
    destruct (newDet d h) as [l h1]. destruct Hd as [[f1 ->] Hd].
    unfold bind at 1. specialize (IH (h ++ f1)).
    destruct (mapM newDet ds (h ++ f1)) as [items h2].
    destruct IH as [[f2 ->] Hds]. cbn. split.
    + exists (f1 ++ f2). now rewrite app_assoc.
    + constructor; [now apply holdsDet_extended | exact Hds].
Qed.

Lemma newSummary_holds (s : DocumentAnalysisSummary) (h : Heap) :
  let '(l, h') := newSummary s h in
  extends h h' /\ holdsSummary h' l s.
Proof.
  destruct s as [ty cf bg [b|] ps pbs [q|]];
    unfold newSummary, optionM, newBox, alloc, bind, ret; cbn;
    (split; [eexists; rewrite <- ?app_assoc; reflexivity|]).
  - exists (Some (List.length h)), (Some (List.length (h ++ [OBox b]))).
    unfold holdsOpt, holdsBox, holdsQuality. cbn.
    repeat split; heap_index.
  - exists (Some (List.length h)), None.
    unfold holdsOpt, holdsBox. cbn. repeat split; heap_index.
  - exists None, (Some (List.length h)).
    unfold holdsOpt, holdsQuality. cbn. repeat split; heap_index.
  - exists None, None. unfold holdsOpt. cbn. repeat split; heap_index.
Qed.

Lemma newResult_holds (r : DocumentAnalysisResult) (h : Heap) :
  let '(l, h') := newResult r h in
  extends h h' /\ holdsResult h' l r.
Proof.
  unfold newResult. unfold bind at 1.
  pose proof (newSummary_holds (summary r) h) as Hs.
  destruct (newSummary (summary r) h) as [sl h1].
  destruct Hs as [[f1 ->] Hs].
  unfold bind at 1.
  pose proof (newDets_hold (detections r) (h ++ f1)) as Hd.
  destruct (mapM newDet (detections r) (h ++ f1)) as [items h2].
  destruct Hd as [[f2 ->] Hd].
  unfold bind, newArr, alloc. cbn. split.
  - eexists. rewrite <- !app_assoc. reflexivity.
  - exists sl, (List.length ((h ++ f1) ++ f2)), items.
    split; [|split; [|split]].
    + rewrite nth_error_app2 by (rewrite !length_app; cbn; lia).
      rewrite !length_app. cbn.
      match goal with
      | |- nth_error _ ?n = _ => replace n with 0%nat by lia
      end.
      reflexivity.
    + rewrite <- (app_assoc (_ ++ f2)).
      apply holdsSummary_extended. now apply holdsSummary_extended.
    + rewrite nth_error_app1 by (rewrite !length_app; cbn; lia).
      rewrite nth_error_app2 by lia. now rewrite Nat.sub_diag.
    + rewrite <- (app_assoc (_ ++ f2)).
      eapply Forall2_impl; [|exact Hd].
      intros ? ?. apply holdsDet_extended.
Qed.

End StoreValues.

(** C6.  [refineDocumentAnalysis] does not write into its input.  (1) Run
    on any store, with any reference as input and any options, it returns a
    reference to an object that did not exist before, and the store after
    the call is the store before it followed by new objects: every object
    that existed when the call started (the result, its summary, the
    detections array, every detection and box) is still held, unchanged, by
    the same reference.  (2) When a result is placed in a store and refined
    there, the input reference holds the same value after the call as
    before it: reading it back gives the result that was placed. *)
Theorem refine_leaves_input (options : option Refine.RefineOptions) :
  (forall (h : Store.Heap) (input : Store.loc),
     let '(out, h') := Store.refineDocumentAnalysis input options h in
     Store.extends h h' /\
     (List.length h <= out)%nat /\
     (forall l o, nth_error h l = Some o -> nth_error h' l = Some o)) /\
  (forall (r : Types.DocumentAnalysisResult) (h : Store.Heap),
     let '(input, h1) := Store.newResult r h in
     let '(out, h2) := Store.refineDocumentAnalysis input options h1 in
     Store.valueOf (Store.readResult input) h1 = r /\
     Store.valueOf (Store.readResult input) h2 = r /\
     input <> out).
Proof.
  assert (Hframe :
    forall (h : Store.Heap) (input : Store.loc),
      let '(out, h') := Store.refineDocumentAnalysis input options h in
      Store.extends h h' /\
      (List.length h <= out)%nat /\
      (forall l o, nth_error h l = Some o -> nth_error h' l = Some o)).
  { intros h input.
    pose proof (safe_refineDocumentAnalysis h input options h (Good_start h))
      as [[Hext _] Hout].
    destruct (Store.refineDocumentAnalysis input options h) as [out h'].
    cbn [fst snd] in *. split; [exact Hext|]. split; [exact Hout|].
    intros l o Hl. destruct Hext as [fresh ->].
    now apply nth_error_extended. }
  split; [exact Hframe|].
  intros r h.
  pose proof (newResult_holds r h) as Hnew.
  destruct (Store.newResult r h) as [input h1].
  destruct Hnew as [_ Hholds].
  specialize (Hframe h1 input).
  destruct (Store.refineDocumentAnalysis input options h1) as [out h2].
  destruct Hframe as ([fresh ->] & Hout & _).
  split; [now apply read_holdsResult|].
  split; [apply read_holdsResult; now apply holdsResult_extended|].
  destruct Hholds as (sl & al & items & Hr & _).
  assert (input < List.length h1)%nat by (apply nth_error_Some; congruence).
  lia.
Qed.

(** The refinement over the store computes what the value model computes:
    placed in an empty store, refined there and read back, each of the
    results used above gives the value that the value model returns. *)
Lemma run_agrees_on_scenarios :
  Forall
    (fun c =>
       Store.run (fst c) (snd c) = Refine.refineDocumentAnalysis (fst c) (snd c))
    [(RefineSpec.smallScreenshot, None);
     (RefineSpec.emptyUnknown, None);
     (RefineSpec.emptyUnknownWithPrimary, None);
     (RefineSpec.unknownWithPrimary, None);
     (RefineSpec.degeneratePrimary, None);
     (RefineSpec.plainDocument, None);
     (RefineSpec.zeroFrameScreenshot, None);
     (RefineSpec.screenshotWithBars, None);
     (RefineSpec.screenshotWithBars, RefineSpec.noRetype);
     (RefineSpec.nearFullDocument, RefineSpec.noRetype);
     (RefineSpec.nearFullDocument, None)].
Proof.
  repeat constructor; vm_compute; reflexivity.
Qed.
(** ** Further properties of the suppression *)

Section SuppressionOrder.
Import Js Detector SuppressionSpec.
Variable iouThreshold : Q.

Lemma Settled_pairs (l : list Candidate) :
  Settled iouThreshold l ->
  forall i j bi bj,
    (i < j)%nat -> nth_error l i = Some bi -> nth_error l j = Some bj ->
    survives iouThreshold bi bj = true.
Proof.
  induction 1 as [|current rest Hall _ IH]; intros i j bi bj Hij Hi Hj.
  - destruct i; discriminate.
  - destruct j as [|j]; [lia|]. simpl in Hj.
    destruct i as [|i]; simpl in Hi.
    + injection Hi as <-. rewrite Forall_forall in Hall.
      apply Hall. eapply nth_error_In; eauto.
    + apply (IH i j); auto. lia.
Qed.

Lemma kept_length (boxes : list Candidate) :
  (List.length (kept iouThreshold boxes) <= List.length boxes)%nat.
Proof.
  induction boxes as [boxes IH] using list_length_ind.
  destruct boxes as [|current rest].
  - rewrite kept_nil. simpl. lia.
  - rewrite kept_cons. simpl.
    pose proof (IH _ (filter_shorter iouThreshold current rest)) as H1.
    pose proof (filter_length_le (survives iouThreshold current) rest) as H2.
    lia.
Qed.

Lemma kept_head (boxes : list Candidate) :
  hd_error (kept iouThreshold boxes) = hd_error boxes.
Proof.
  destruct boxes; [now rewrite kept_nil | now rewrite kept_cons].
Qed.

End SuppressionOrder.

Lemma sortDesc_length {A : Type} (key : A -> Q) (l : list A) :
  List.length (Js.sortDesc key l) = List.length l.
Proof.
  assert (Hi : forall a l', List.length (Js.insertDesc key a l') = S (List.length l')).
  { intros a l'. induction l' as [|b l' IH]; simpl; [reflexivity|].
    destruct (Js.Qlt_bool (key a) (key b)); simpl; now rewrite ?IH. }
  induction l as [|a l IH]; simpl; [reflexivity|].
  now rewrite Hi, IH.
Qed.

Lemma sorted_head_max {A : Type} (key : A -> Q) (l : list A) (b : A) :
  StronglySorted (Js.descending key) l -> In b l ->
  exists top, hd_error l = Some top /\ key b <= key top.
Proof.
  intros Hs Hin. destruct l as [|a l]; [destruct Hin|].
  exists a. split; [reflexivity|].
  destruct Hin as [->|Hin]; [lra|].
  inversion Hs as [|? ? _ Ha]; subst.
  rewrite Forall_forall in Ha. now apply Ha.
Qed.

Lemma applyNMS_facts (iouThreshold : Q)
  (boxes : list Detector.Candidate) :
  let out := Detector.applyNMS iouThreshold boxes in
  (forall b, In b out -> In b boxes) /\
  (List.length out <= List.length boxes)%nat /\
  StronglySorted (Js.descending Detector.confidence) out /\
  (forall i j bi bj,
      (i < j)%nat -> nth_error out i = Some bi -> nth_error out j = Some bj ->
      Detector.classId bi = Detector.classId bj ->
      Detector.calculateIoU bi bj < iouThreshold) /\
  (forall b, In b boxes ->
     exists top, hd_error out = Some top /\
                 Detector.confidence b <= Detector.confidence top).
Proof.
  intros out. unfold out, Detector.applyNMS.
  change (Detector.nmsLoop iouThreshold []) with (SuppressionSpec.kept iouThreshold).
  repeat split.
  - intros b Hb. apply kept_In in Hb. now apply sortDesc_In in Hb.
  - rewrite <- (sortDesc_length Detector.confidence boxes). apply kept_length.
  - apply kept_sorted, sortDesc_sorted.
  - intros i j bi bj Hij Hi Hj Hc.
    pose proof (Settled_pairs iouThreshold _ (kept_settled iouThreshold _)
                  i j bi bj Hij Hi Hj) as Hs.
    unfold Detector.survives in Hs.
    rewrite Hc, Z.eqb_refl in Hs. cbn in Hs.
    now apply Qlt_bool_iff.
  - intros b Hb. rewrite kept_head.
    apply sorted_head_max; [apply sortDesc_sorted | now apply sortDesc_In].
Qed.


(** X1.  What [applyNMS] returns.  Every returned candidate is one of the
    given ones, and there are not more of them; they come in descending
    order of confidence; of two returned candidates of the same class, the
    earlier one overlaps the later one with an IoU below the threshold; and
    when candidates are given, the first one returned has the greatest
    confidence of all of them. *)
Theorem applyNMS_selection (iouThreshold : Q)
  (boxes : list Detector.Candidate) :
  let out := Detector.applyNMS iouThreshold boxes in
  (forall b, In b out -> In b boxes) /\
  (List.length out <= List.length boxes)%nat /\
  StronglySorted (Js.descending Detector.confidence) out /\
  (forall i j bi bj,
      (i < j)%nat -> nth_error out i = Some bi -> nth_error out j = Some bj ->
      Detector.classId bi = Detector.classId bj ->
      Detector.calculateIoU bi bj < iouThreshold) /\
  (forall b, In b boxes ->
     exists top, hd_error out = Some top /\
                 Detector.confidence b <= Detector.confidence top).
Proof. apply applyNMS_facts. Qed.

(** ** Parsing the output tensor *)

Section Parsing.
Import Js Detector ParseSpec.
Variable data : list Q.

Lemma bestOfClasses_seen (scoreAt : Z -> Z) (lo : Z) (remaining : nat) :
  forall c best,
    (lo <= c)%Z -> bestSeen data scoreAt lo c best ->
    bestSeen data scoreAt lo (c + Z.of_nat remaining)
      (bestOfClasses data scoreAt remaining c best).
Proof.
  induction remaining as [|n IH]; intros c best Hc Hb.
  - cbn [bestOfClasses Z.of_nat]. now rewrite Z.add_0_r.
  - cbn [bestOfClasses].
    replace (c + Z.of_nat (S n))%Z with ((c + 1) + Z.of_nat n)%Z by lia.
    apply IH; [lia|].
    destruct best as [[q| | |] k]; cbn [fst]; try contradiction.
    + destruct Hb as (Hk & Hq & Hmax & Hfirst).
      destruct (readAt data (scoreAt c)) as [s|] eqn:Es; cbn.
      * destruct (Qlt_bool q s) eqn:E; cbn.
        -- apply Qlt_bool_iff in E. repeat split; try lia; try assumption.
           ++ intros c' q' Hc' Hq'.
              destruct (Z.eq_dec c' c) as [->|Hne].
              ** rewrite Es in Hq'. injection Hq' as <-. lra.
              ** assert (q' <= q) by (apply (Hmax c'); [lia|assumption]). lra.
           ++ intros c' q' Hc' Hq'.
              assert (q' <= q) by (apply (Hmax c'); [lia|assumption]). lra.
        -- apply Qlt_bool_false_iff in E. repeat split; try lia; try assumption.
           intros c' q' Hc' Hq'.
           destruct (Z.eq_dec c' c) as [->|Hne].
           ++ rewrite Es in Hq'. now injection Hq' as <-.
           ++ apply (Hmax c'); [lia|assumption].
      * repeat split; try lia; try assumption.
        intros c' q' Hc' Hq'.
        destruct (Z.eq_dec c' c) as [->|Hne]; [congruence|].
        apply (Hmax c'); [lia|assumption].
    + destruct (readAt data (scoreAt c)) as [s|] eqn:Es; cbn.
      * repeat split; try lia; try assumption.
        -- intros c' q' Hc' Hq'.
           destruct (Z.eq_dec c' c) as [->|Hne].
           ++ rewrite Es in Hq'. injection Hq' as <-. lra.
           ++ rewrite Hb in Hq' by lia. discriminate.
        -- intros c' q' Hc' Hq'. rewrite Hb in Hq' by lia. discriminate.
      * intros c' Hc'.
        destruct (Z.eq_dec c' c) as [->|Hne]; [assumption|].
        apply Hb. lia.
Qed.

Variable channelFirst : bool.
Variable N : Z.
Variable numClasses : nat.

Lemma parseAnchor_some (i : Z) (c : Candidate) :
  parseAnchor data channelFirst N (4 + Z.of_nat numClasses) numClasses i = Some c ->
  readFrom data channelFirst N numClasses i c.
Proof.
  unfold parseAnchor, readFrom, entry.
  set (C := (4 + Z.of_nat numClasses)%Z).
  set (scoreAt := fun c0 : Z =>
         if channelFirst then ((4 + c0) * N + i)%Z else (i * C + 4 + c0)%Z).
  assert (Hidx : forall k,
             (if channelFirst then (4 + k) * N + i else i * C + (4 + k))%Z =
             scoreAt k).
  { intros k. unfold scoreAt. destruct channelFirst; lia. }
  destruct (readAt data (if channelFirst then (0 * N + i)%Z else (i * C + 0)%Z))
    as [x|] eqn:Ex;
  destruct (readAt data (if channelFirst then (1 * N + i)%Z else (i * C + 1)%Z))
    as [y|] eqn:Ey;
  destruct (readAt data (if channelFirst then (2 * N + i)%Z else (i * C + 2)%Z))
    as [w|] eqn:Ew;
  destruct (readAt data (if channelFirst then (3 * N + i)%Z else (i * C + 3)%Z))
    as [h|] eqn:Eh;
  cbn [leZero];
  try (destruct (_ || _)%bool;
       [discriminate|
        destruct (bestOfClasses _ _ _ _ _) as [bs bc];
        destruct (jsgt bs (Fin 0)); try discriminate;
        destruct bs; discriminate]).
  destruct (Qle_bool w 0) eqn:Lw; [discriminate|].
  destruct (Qle_bool h 0) eqn:Lh; [discriminate|]. cbn [orb].
  pose proof (bestOfClasses_seen scoreAt 0 numClasses 0 (NegInf, (-1)%Z)
                (Z.le_refl 0)) as Hbest.
  destruct (bestOfClasses data scoreAt numClasses 0 (NegInf, (-1)%Z))
    as [bs bc].
  destruct (jsgt bs (Fin 0)) eqn:Eg; [|discriminate].
  destruct bs as [s| | |]; try discriminate.
  intros E. injection E as <-. cbn [c_x c_y c_w c_h classId confidence].
  assert (Hinit : bestSeen data scoreAt 0 0 (NegInf, (-1)%Z)).
  { intros k Hk. lia. }
  specialize (Hbest Hinit). cbn in Hbest.
  destruct Hbest as (Hk & Hq & Hmax & Hfirst).
  assert (Hw : 0 < w).
  { apply Qnot_le_lt. intros L. apply Qle_bool_iff in L. congruence. }
  assert (Hh : 0 < h).
  { apply Qnot_le_lt. intros L. apply Qle_bool_iff in L. congruence. }
  assert (Hs : 0 < s) by (now apply Qlt_bool_iff in Eg).
  repeat split; try assumption; try lia.
  - now rewrite Hidx.
  - intros k q Hk' Hq'. rewrite Hidx in Hq'. apply (Hmax k); [lia|assumption].
  - intros k q Hk' Hq'. rewrite Hidx in Hq'. apply (Hfirst k); [lia|assumption].
Qed.

Lemma anchorLoop_reads (remaining : nat) :
  forall i results,
    (0 <= i)%Z -> (i + Z.of_nat remaining <= Z.max 0 N)%Z ->
    Forall (fun c => exists j, (0 <= j < N)%Z /\ readFrom data channelFirst N numClasses j c) results ->
    let out :=
      anchorLoop data channelFirst N (4 + Z.of_nat numClasses) numClasses
        remaining i results in
    Forall (fun c => exists j, (0 <= j < N)%Z /\ readFrom data channelFirst N numClasses j c) out /\
    (List.length out <= List.length results + remaining)%nat.
Proof.
  pose proof (Z.max_spec 0 N) as Hmax.
  induction remaining as [|n IH]; intros i results Hi Hn Hres; cbn zeta.
  - simpl. split; [assumption|lia].
  - cbn [anchorLoop].
    destruct (parseAnchor data channelFirst N (4 + Z.of_nat numClasses)
                numClasses i) as [c|] eqn:Ep.
    + assert (Hc : Forall (fun c0 => exists j, (0 <= j < N)%Z /\
                       readFrom data channelFirst N numClasses j c0)
                     (results ++ [c])).
      { apply Forall_app. split; [assumption|].
        constructor; [|constructor].
        exists i. split; [lia|].
        now apply parseAnchor_some. }
      assert (G1 : (0 <= i + 1)%Z) by lia.
      assert (G2 : (i + 1 + Z.of_nat n <= Z.max 0 N)%Z) by lia.
      destruct (IH (i + 1)%Z (results ++ [c]) G1 G2 Hc) as [H1 H2].
      split; [exact H1|]. rewrite length_app in H2.
      cbn [List.length] in H2. lia.
    + assert (G1 : (0 <= i + 1)%Z) by lia.
      assert (G2 : (i + 1 + Z.of_nat n <= Z.max 0 N)%Z) by lia.
      destruct (IH (i + 1)%Z results G1 G2 Hres) as [H1 H2].
      split; [exact H1|]. lia.
Qed.

End Parsing.

Lemma parse_candidates_core (output : Detector.Tensor) (numClasses : nat)
  (channelFirst : bool) (N : Z) :
  Detector.layoutOf (Detector.dims output) (4 + Z.of_nat numClasses) =
    Some (channelFirst, N) ->
  exists parsed,
    Detector.parseYoloOnnxOutputCorrect output numClasses = inl parsed /\
    (List.length parsed <= Z.to_nat N)%nat /\
    StronglySorted (Js.descending Detector.confidence) parsed /\
    Forall
      (fun c => exists i, (0 <= i < N)%Z /\
                          ParseSpec.readFrom (Detector.data output)
                            channelFirst N numClasses i c)
      parsed.
Proof.
  intros Hl. unfold Detector.parseYoloOnnxOutputCorrect. rewrite Hl.
  eexists. split; [reflexivity|].
  destruct (anchorLoop_reads (Detector.data output) channelFirst N numClasses
              (Z.to_nat N) 0 []) as [H1 H2]; try lia.
  { constructor. }
  cbn zeta in H1, H2. simpl in H2.
  split; [|split].
  - now rewrite sortDesc_length.
  - apply sortDesc_sorted.
  - apply Forall_forall. intros c Hc. apply sortDesc_In in Hc.
    rewrite Forall_forall in H1. now apply H1.
Qed.




(** ** From the output tensor to the detections *)

Section Postprocessing.
Import Js Types Detector.

Lemma map_sorted {A B : Type} (keyA : A -> Q) (keyB : B -> Q) (f : A -> B)
  (l : list A) :
  (forall a, keyB (f a) = keyA a) ->
  StronglySorted (descending keyA) l ->
  StronglySorted (descending keyB) (map f l).
Proof.
  intros Hk. induction 1 as [|a l Hl IH Ha]; simpl; constructor.
  - exact IH.
  - apply Forall_forall. intros b Hb. apply in_map_iff in Hb.
    destruct Hb as (a' & <- & Ha'). unfold descending. rewrite !Hk.
    rewrite Forall_forall in Ha. now apply Ha.
Qed.

End Postprocessing.



(** ** The class list of a detector *)

Section ClassList.
Import Detector ConstructionSpec.

Lemma splitSlash_nonempty (s : string) : splitSlash s <> [].
Proof.
  destruct s as [|c rest]; simpl; [discriminate|].
  destruct (Ascii.eqb c "/"); [discriminate|].
  destruct (splitSlash rest); discriminate.
Qed.

Lemma splitSlash_noSlash (s : string) :
  noSlash s = true -> splitSlash s = [s].
Proof.
  induction s as [|c rest IH]; simpl; [reflexivity|].
  destruct (Ascii.eqb c "/"); simpl; [discriminate|].
  intros H. now rewrite (IH H).
Qed.

Lemma splitSlash_app (a b : string) :
  splitSlash (a ++ String "/" b) = splitSlash a ++ splitSlash b.
Proof.
  induction a as [|c rest IH]; simpl.
  - reflexivity.
  - destruct (Ascii.eqb c "/"); simpl.
    + now rewrite IH.
    + rewrite IH. pose proof (splitSlash_nonempty rest) as Hne.
      destruct (splitSlash rest) as [|p ps]; [congruence|reflexivity].
Qed.

Lemma joinSlash_cons (p : string) (ps : list string) :
  ps <> [] -> joinSlash (p :: ps) = (p ++ String "/" (joinSlash ps))%string.
Proof. destruct ps; [congruence|reflexivity]. Qed.

Lemma joinSlash_splitSlash (s : string) : joinSlash (splitSlash s) = s.
Proof.
  induction s as [|c rest IH]; [reflexivity|].
  pose proof (splitSlash_nonempty rest) as Hne.
  cbn [splitSlash]. destruct (Ascii.eqb c "/") eqn:E.
  - apply Ascii.eqb_eq in E. subst c.
    rewrite joinSlash_cons by assumption. now rewrite IH.
  - destruct (splitSlash rest) as [|p ps] eqn:Es; [congruence|].
    destruct ps as [|q qs].
    + cbn in IH |- *. now rewrite IH.
    + rewrite joinSlash_cons by discriminate.
      rewrite joinSlash_cons in IH by discriminate.
      rewrite <- IH. reflexivity.
Qed.

(** The directory part that [detectAndReadClassesTxt] computes. *)
Lemma modelDir_of_path (dir file : string) :
  noSlash file = true ->
  joinSlash (removelast (splitSlash (dir ++ String "/" file))) = dir.
Proof.
  intros Hf. rewrite splitSlash_app, (splitSlash_noSlash file Hf).
  rewrite removelast_last. apply joinSlash_splitSlash.
Qed.

Lemma trimStart_head (s : string) :
  match trimStart s with
  | String c _ => isSpace c = false
  | EmptyString => True
  end.
Proof.
  induction s as [|c rest IH]; simpl; [exact I|].
  destruct (isSpace c) eqn:E; [exact IH|exact E].
Qed.

Lemma trimStart_fixed (c : Ascii.ascii) (s : string) :
  isSpace c = false -> trimStart (String c s) = String c s.
Proof. intros E. simpl. now rewrite E. Qed.

Lemma trimEnd_cons (c : Ascii.ascii) (s : string) :
  trimEnd (String c s) =
  match trimEnd s with
  | EmptyString => if isSpace c then EmptyString else String c EmptyString
  | t => String c t
  end.
Proof. reflexivity. Qed.

Lemma trimEnd_idem (s : string) : trimEnd (trimEnd s) = trimEnd s.
Proof.
  induction s as [|c rest IH]; [reflexivity|].
  rewrite trimEnd_cons. destruct (trimEnd rest) as [|d t] eqn:Et.
  - destruct (isSpace c) eqn:E; [reflexivity|].
    rewrite trimEnd_cons. cbn [trimEnd]. now rewrite E.
  - rewrite trimEnd_cons, IH. reflexivity.
Qed.

Lemma trimEnd_head (c : Ascii.ascii) (s : string) :
  isSpace c = false -> exists t, trimEnd (String c s) = String c t.
Proof.
  intros E. cbn [trimEnd]. destruct (trimEnd s).
  - rewrite E. now exists EmptyString.
  - eexists. reflexivity.
Qed.

Lemma trim_idem (s : string) : trim (trim s) = trim s.
Proof.
  unfold trim. pose proof (trimStart_head s) as Hh.
  destruct (trimStart s) as [|c rest]; [reflexivity|].
  destruct (trimEnd_head c rest Hh) as (t & Et).
  rewrite Et, (trimStart_fixed c t Hh), <- Et. apply trimEnd_idem.
Qed.

End ClassList.

(** X4.  Where [detectAndReadClassesTxt] looks for the class names and what
    it makes of them, for a [classes.txt] written in ASCII characters.  For
    a model path [dir/file], with no [/] in [file], the file read is
    [classes.txt] joined to [dir]; when it can be read, the class names
    become its lines, trimmed, with the blank ones left out, so that no
    name is empty or has white space at either end; when it is missing or
    unreadable, the detector is left as it is.  (Outside the ASCII range
    the trimming of the source also removes the byte-order mark and the
    Unicode spaces, which [Detector.trim] leaves.) *)
Theorem classes_txt_lookup (path_join : string -> string -> string)
  (readFile : string -> Detector.FileRead)
  (this : Detector.YoloV8OnnxDetector) (dir file : string) :
  Detector.modelPath this = (dir ++ String "/" file)%string ->
  ConstructionSpec.noSlash file = true ->
  (forall text,
      readFile (path_join dir "classes.txt"%string) = Detector.Content text ->
      ConstructionSpec.isAscii text = true) ->
  let after := Detector.detectAndReadClassesTxt path_join readFile this in
  after =
    ConstructionSpec.readingFrom readFile
      (path_join dir "classes.txt"%string) this /\
  (Detector.CLASS_NAMES after = Detector.CLASS_NAMES this \/
   Forall (fun n => n <> EmptyString /\ Detector.trim n = n)
     (Detector.CLASS_NAMES after)).
Proof.
  intros Hp Hf _ after. unfold after, Detector.detectAndReadClassesTxt.
  cbv zeta.
  assert (Hdir : Detector.joinSlash
            (removelast (Detector.splitSlash (Detector.modelPath this))) = dir)
    by (rewrite Hp; now apply modelDir_of_path).
  rewrite Hdir.
  unfold ConstructionSpec.readingFrom, ConstructionSpec.withClassNames.
  split; [reflexivity|].
  destruct (readFile (path_join dir "classes.txt"%string)) as [| |text];
    [now left | now left |].
  right. cbn [Detector.CLASS_NAMES].
  apply Forall_forall. intros n Hn. apply filter_In in Hn.
  destruct Hn as [Hn Hne]. apply in_map_iff in Hn.
  destruct Hn as (l & <- & _). split.
  - intros E. rewrite E in Hne. discriminate.
  - apply trim_idem.
Qed.

Lemma classes_txt_lookup_witness :
  let this := Detector.initial in
  let readFile := fun p : string =>
    if String.eqb p "./models/yolo/800-50+classes.txt"%string
    then Detector.Content (String "013" (String "010" " Receipt 
Document

"%string))
    else Detector.Missing in
  let path_join := fun a b : string => (a ++ "+" ++ b)%string in
  let after := Detector.detectAndReadClassesTxt path_join readFile this in
  Detector.CLASS_NAMES after = ["Receipt"; "Document"]%string /\
  (Detector.CLASS_NAMES after = Detector.CLASS_NAMES this \/
   Forall (fun n => n <> EmptyString /\ Detector.trim n = n)
     (Detector.CLASS_NAMES after)).
Proof.
  cbv zeta. split; [vm_compute; reflexivity|].
  apply (classes_txt_lookup _ _ Detector.initial
           "./models/yolo/800-50"%string "best.onnx"%string);
    [reflexivity | reflexivity |].
  intros text H. vm_compute in H. injection H as <-. vm_compute. reflexivity.
Defined.

(** X5.  The class list of a constructed detector.  A detector that the
    constructor returns has at least one class name.  When the options give
    a non-empty list of class names, construction succeeds with exactly
    those names, whatever the file system holds.  Construction fails only
    when the options give no class name. *)
Theorem constructor_class_names (path_join : string -> string -> string)
  (readFile : string -> Detector.FileRead)
  (options : option Detector.Options) :
  let new := Detector.constructor path_join readFile options in
  (forall this, new = inl this -> Detector.CLASS_NAMES this <> []) /\
  (forall names,
      ConstructionSpec.givenClassNames options = Some names -> names <> [] ->
      exists this, new = inl this /\ Detector.CLASS_NAMES this = names) /\
  (forall e, new = inr e ->
      ConstructionSpec.givenClassNames options = None \/
      ConstructionSpec.givenClassNames options = Some []).
Proof.
  intros new. unfold new, Detector.constructor.
  change (match options with Some o => Detector.o_classNames o | None => None end)
    with (ConstructionSpec.givenClassNames options).
  cbn [Detector.CLASS_NAMES].
  destruct (ConstructionSpec.givenClassNames options) as [[|n names]|];
    cbn [Detector.orArray List.length Nat.eqb Detector.initial
         Detector.CLASS_NAMES].
  - repeat split.
    + intros this.
      match goal with
      | |- context [Detector.detectAndReadClassesTxt ?a ?b ?c] =>
          set (d := Detector.detectAndReadClassesTxt a b c)
      end.
      destruct (Detector.CLASS_NAMES d) eqn:Ed; cbn; [discriminate|].
      intros H. injection H as <-. rewrite Ed. discriminate.
    + intros names H Hne. injection H as <-. congruence.
    + intros _ _. now right.
  - repeat split.
    + intros this H. injection H as <-. discriminate.
    + intros names' H _. injection H as <-. eexists. split; reflexivity.
    + intros e H. discriminate.
  - repeat split.
    + intros this.
      match goal with
      | |- context [Detector.detectAndReadClassesTxt ?a ?b ?c] =>
          set (d := Detector.detectAndReadClassesTxt a b c)
      end.
      destruct (Detector.CLASS_NAMES d) eqn:Ed; cbn; [discriminate|].
      intros H. injection H as <-. rewrite Ed. discriminate.
    + intros names H. discriminate.
    + intros _ _. now left.
Qed.

(** ** The letterbox *)

Section LetterboxFacts.
Import Js Types Detector Preprocess.

Lemma Qfloor_nonneg (x : Q) : 0 <= x -> 0 <= inject_Z (Qfloor x).
Proof.
  intros Hx. change 0 with (inject_Z 0). rewrite <- Zle_Qle.
  change 0%Z with (Qfloor 0). now apply Qfloor_resp_le.
Qed.

Lemma Qfloor_unique (x : Q) (z : Z) :
  inject_Z z <= x -> x < inject_Z z + 1 -> Qfloor x = z.
Proof.
  intros Hlo Hhi.
  pose proof (Qfloor_le x) as H1. pose proof (Qlt_floor x) as H2.
  rewrite inject_Z_plus in H2. change (inject_Z 1) with 1 in H2.
  assert (Ha : inject_Z (Qfloor x) < inject_Z z + 1) by lra.
  assert (Hb : inject_Z z < inject_Z (Qfloor x) + 1) by lra.
  change 1 with (inject_Z 1) in Ha, Hb. rewrite <- inject_Z_plus in Ha, Hb.
  rewrite <- Zlt_Qlt in Ha, Hb. lia.
Qed.

Lemma round_whole (v : Q) (z : Z) : v == inject_Z z -> round v == inject_Z z.
Proof.
  intros E. unfold round.
  rewrite (Qfloor_unique (v + (1 # 2)) z); [reflexivity| |]; lra.
Qed.

Lemma scale_positive (T W H : Q) :
  0 < T -> 0 < W -> 0 < H -> 0 < Qmin (T / W) (T / H).
Proof.
  intros HT HW HH.
  assert (0 < T / W) by (apply Qlt_shift_div_l; lra).
  assert (0 < T / H) by (apply Qlt_shift_div_l; lra).
  apply Q.min_glb_lt; assumption.
Qed.

Lemma scaled_side (T W H : Q) :
  0 < T -> 0 < W -> 0 < H ->
  W * Qmin (T / W) (T / H) <= T /\ H * Qmin (T / W) (T / H) <= T.
Proof.
  intros HT HW HH.
  pose proof (Q.le_min_l (T / W) (T / H)) as Hl.
  pose proof (Q.le_min_r (T / W) (T / H)) as Hr.
  assert (EW : W * (T / W) == T) by (field; lra).
  assert (EH : H * (T / H) == T) by (field; lra).
  split.
  - apply Qle_trans with (W * (T / W)).
    + now apply (proj2 (Qmult_le_l _ _ W HW)).
    + rewrite EW. apply Qle_refl.
  - apply Qle_trans with (H * (T / H)).
    + now apply (proj2 (Qmult_le_l _ _ H HH)).
    + rewrite EH. apply Qle_refl.
Qed.

End LetterboxFacts.

Lemma pad_bounds (T n : Q) :
  0 <= n -> n <= T ->
  let p := inject_Z (Qfloor ((T - n) / 2)) in
  0 <= p /\ p + n <= T /\ p <= T - n - p /\ T - n - p < p + 2.
Proof.
  intros Hn HT. cbv zeta.
  assert (Hx : 2 * ((T - n) / 2) == T - n) by field.
  generalize dependent ((T - n) / 2). intros x Hx.
  pose proof (Qfloor_le x) as H1.
  pose proof (Qlt_floor x) as H2.
  rewrite inject_Z_plus in H2. change (inject_Z 1) with 1 in H2.
  assert (H0 : 0 <= inject_Z (Qfloor x)) by (apply Qfloor_nonneg; lra).
  repeat split; lra.
Qed.

(** X6.  The letterbox of [preprocessImage] for an image of positive width
    and height on a canvas of positive side [T].  The scale is positive; the
    resized image is not larger than the canvas; the paddings are not
    negative and the padded image ends inside the canvas; the padding after
    the image is the padding before it, or up to two more; and the copy of
    any row [y] of the resized image starts and ends inside the canvas
    buffer of [3 * T * T] bytes.  The scale and the paddings are the ones
    that the detections are mapped back with. *)
Theorem letterbox_fits (T W H : Q) :
  0 < T -> 0 < W -> 0 < H ->
  let g := Preprocess.geometryOf T W H in
  Detector.letterbox T W H =
    Detector.mkLetterbox (Preprocess.g_scale g) (Preprocess.g_padX g)
      (Preprocess.g_padY g) /\
  0 < Preprocess.g_scale g /\
  (0 <= Preprocess.g_newW g <= T /\ 0 <= Preprocess.g_newH g <= T) /\
  (0 <= Preprocess.g_padX g /\ 0 <= Preprocess.g_padY g) /\
  (Preprocess.g_padX g + Preprocess.g_newW g <= T /\
   Preprocess.g_padY g + Preprocess.g_newH g <= T) /\
  (Preprocess.g_padX g <= T - Preprocess.g_newW g - Preprocess.g_padX g
     < Preprocess.g_padX g + 2 /\
   Preprocess.g_padY g <= T - Preprocess.g_newH g - Preprocess.g_padY g
     < Preprocess.g_padY g + 2) /\
  (forall y : Z,
      0 <= inject_Z y < Preprocess.g_newH g ->
      0 <= Preprocess.dstStart T g y /\
      Preprocess.dstStart T g y + 3 * Preprocess.g_newW g <= 3 * T * T).
Proof.
  intros HT HW HH g.
  pose proof (scale_positive T W H HT HW HH) as Hs.
  destruct (scaled_side T W H HT HW HH) as [HsW HsH].
  set (scale := Qmin (T / W) (T / H)) in *.
  assert (HnW : 0 <= inject_Z (Qfloor (W * scale)) <= T).
  { split; [apply Qfloor_nonneg; nra|].
    pose proof (Qfloor_le (W * scale)). lra. }
  assert (HnH : 0 <= inject_Z (Qfloor (H * scale)) <= T).
  { split; [apply Qfloor_nonneg; nra|].
    pose proof (Qfloor_le (H * scale)). lra. }
  destruct (pad_bounds T _ (proj1 HnW) (proj2 HnW)) as (Px0 & Px1 & Px2 & Px3).
  destruct (pad_bounds T _ (proj1 HnH) (proj2 HnH)) as (Py0 & Py1 & Py2 & Py3).
  unfold g, Preprocess.geometryOf, Preprocess.dstStart.
  cbn [Preprocess.g_scale Preprocess.g_newW Preprocess.g_newH
       Preprocess.g_padX Preprocess.g_padY].
  fold scale.
  set (newW := inject_Z (Qfloor (W * scale))) in *.
  set (newH := inject_Z (Qfloor (H * scale))) in *.
  set (padX := inject_Z (Qfloor ((T - newW) / 2))) in *.
  set (padY := inject_Z (Qfloor ((T - newH) / 2))) in *.
  repeat split; try assumption; try tauto.
  - destruct H0 as [Hy0 Hy1]. nra.
  - destruct H0 as [Hy0 Hy1].
    assert (Hy : inject_Z y + 1 <= newH).
    { unfold newH in *. change 1 with (inject_Z 1).
      rewrite <- inject_Z_plus. rewrite <- Zle_Qle.
      rewrite <- Zlt_Qlt in Hy1. lia. }
    nra.
Qed.

Lemma letterbox_fits_witness :
  let g := Preprocess.geometryOf 800 400 800 in
  0 < Preprocess.g_scale g /\
  Preprocess.g_padX g + Preprocess.g_newW g <= 800 /\
  Preprocess.g_padX g == 200.
Proof.
  cbv zeta.
  destruct (letterbox_fits 800 400 800) as (_ & H1 & _ & _ & (H2 & _) & _);
    try reflexivity.
  split; [exact H1|]. split; [exact H2|]. reflexivity.
Defined.

(** X7.  Mapping back undoes the letterbox.  Take a box with whole
    coordinates whose left and top are not negative and whose right and
    bottom are not beyond the image, and any scale other than zero.  For the
    candidate that outlines this box on the canvas, [toDetection] returns the
    coordinates of the box, the class name at the index of the class, and
    the confidence as the score. *)
Theorem toDetection_undoes_letterbox (classNames : list string)
  (zW zH : Z) (scale padX padY : Q) (a b c e : Z) (classId : Z)
  (confidence : Q) :
  ~ scale == 0 ->
  (0 <= a)%Z -> (0 <= b)%Z -> (c <= zW)%Z -> (e <= zH)%Z ->
  let pixels :=
    Types.mkBox (inject_Z a) (inject_Z b) (inject_Z c) (inject_Z e) in
  let d :=
    Detector.toDetection classNames (inject_Z zW) (inject_Z zH) scale
      padX padY
      (Preprocess.onCanvas scale padX padY pixels classId confidence) in
  Types.x1 (Types.box d) == inject_Z a /\
  Types.y1 (Types.box d) == inject_Z b /\
  Types.x2 (Types.box d) == inject_Z c /\
  Types.y2 (Types.box d) == inject_Z e /\
  Types.label d = nth (Z.to_nat classId) classNames EmptyString /\
  Types.score d = confidence.
Proof.
  intros Hs Ha Hb Hc He pixels d. unfold d, pixels.
  cbn [Detector.toDetection Preprocess.onCanvas Types.box Types.label
       Types.score Types.x1 Types.y1 Types.x2 Types.y2
       Detector.c_x Detector.c_y Detector.c_w Detector.c_h
       Detector.classId Detector.confidence].
  rewrite Zle_Qle in Ha, Hb, Hc, He. change (inject_Z 0) with 0 in Ha, Hb.
  repeat split.
  - rewrite (round_whole _ a) by (field; exact Hs). now apply Q.max_r.
  - rewrite (round_whole _ b) by (field; exact Hs). now apply Q.max_r.
  - rewrite (round_whole _ c) by (field; exact Hs). now apply Q.min_r.
  - rewrite (round_whole _ e) by (field; exact Hs). now apply Q.min_r.
Qed.

Lemma toDetection_undoes_letterbox_witness :
  let d :=
    Detector.toDetection ["Document"%string] 400 800 1 200 0
      (Preprocess.onCanvas 1 200 0 (Types.mkBox 10 20 390 780) 0 0.9) in
  Types.x1 (Types.box d) == 10 /\
  Types.y1 (Types.box d) == 20 /\
  Types.x2 (Types.box d) == 390 /\
  Types.y2 (Types.box d) == 780 /\
  Types.label d = "Document"%string /\
  Types.score d = 0.9.
Proof.
  cbv zeta.
  apply (toDetection_undoes_letterbox ["Document"%string] 400 800 1 200 0
           10 20 390 780 0 0.9);
    first [discriminate | lia].
Defined.

(** ** Intersection over union *)

Section IoU.
Import Js Types Refine.

Lemma Qmax0_mono (a b : Q) : a <= b -> Qmax 0 a <= Qmax 0 b.
Proof. intros H. apply Q.max_le_compat_l. exact H. Qed.

Lemma Qmult_mono (w1 w2 h1 h2 : Q) :
  0 <= w1 -> w1 <= w2 -> 0 <= h1 -> h1 <= h2 -> w1 * h1 <= w2 * h2.
Proof. intros. nra. Qed.

Lemma area_intersect_le_l (a b : Box) : area (intersect a b) <= area a.
Proof.
  unfold area, intersect. cbn [x1 y1 x2 y2].
  apply Qmult_mono; try apply Q.le_max_l; apply Qmax0_mono.
  - pose proof (Q.le_min_l (x2 a) (x2 b)).
    pose proof (Q.le_max_l (x1 a) (x1 b)). lra.
  - pose proof (Q.le_min_l (y2 a) (y2 b)).
    pose proof (Q.le_max_l (y1 a) (y1 b)). lra.
Qed.

Lemma area_intersect_comm (a b : Box) :
  area (intersect a b) == area (intersect b a).
Proof.
  unfold area, intersect. cbn [x1 y1 x2 y2].
  rewrite (Q.min_comm (x2 a) (x2 b)), (Q.max_comm (x1 a) (x1 b)).
  rewrite (Q.min_comm (y2 a) (y2 b)), (Q.max_comm (y1 a) (y1 b)).
  reflexivity.
Qed.

Lemma area_intersect_le_r (a b : Box) : area (intersect a b) <= area b.
Proof. rewrite area_intersect_comm. apply area_intersect_le_l. Qed.

Lemma iou_le_1 (a b : Box) : iou a b <= 1.
Proof.
  unfold iou. destruct (Qlt_bool 0 _) eqn:E; [|lra].
  apply Qlt_bool_iff in E. apply Qle_shift_div_r; [exact E|].
  pose proof (area_intersect_le_l a b). pose proof (area_intersect_le_r a b).
  lra.
Qed.

Lemma iou_comm (a b : Box) : iou a b == iou b a.
Proof.
  unfold iou. pose proof (area_intersect_comm a b) as E.
  destruct (Qlt_bool 0 (area a + area b - area (intersect a b))) eqn:E1;
  destruct (Qlt_bool 0 (area b + area a - area (intersect b a))) eqn:E2;
    try reflexivity.
  - rewrite E. apply Qlt_bool_iff in E1.
    assert (Eu : area a + area b - area (intersect b a) ==
                 area b + area a - area (intersect b a)) by ring.
    now rewrite Eu.
  - apply Qlt_bool_iff in E1. apply Qlt_bool_false_iff in E2. lra.
  - apply Qlt_bool_iff in E2. apply Qlt_bool_false_iff in E1. lra.
Qed.

Lemma iou_disjoint (a b : Box) : area (intersect a b) == 0 -> iou a b == 0.
Proof.
  intros E. unfold iou. destruct (Qlt_bool 0 _) eqn:E1; [|reflexivity].
  rewrite E. apply Qlt_bool_iff in E1. field. lra.
Qed.

End IoU.

(** X8.  The [iou] of the refinement, for any two boxes: it lies between 0
    and 1; it does not depend on the order of the boxes; a box of positive
    area has IoU 1 with itself; and two boxes whose intersection has no area
    have IoU 0. *)
Theorem iou_properties (a b : Types.Box) :
  0 <= Refine.iou a b <= 1 /\
  Refine.iou a b == Refine.iou b a /\
  (0 < Refine.area a -> Refine.iou a a == 1) /\
  (Refine.area (Refine.intersect a b) == 0 -> Refine.iou a b == 0).
Proof.
  split; [split; [apply iou_nonneg | apply iou_le_1]|].
  split; [apply iou_comm|].
  split; [apply iou_same | apply iou_disjoint].
Qed.

Section DetectorIoU.
Import Js Types Detector ParseSpec.

Lemma area_corners (c : Candidate) :
  0 <= c_w c -> 0 <= c_h c -> Refine.area (corners c) == c_w c * c_h c.
Proof.
  intros Hw Hh. unfold Refine.area, corners. cbn [x1 y1 x2 y2].
  assert (Ew : c_x c + c_w c / 2 - (c_x c - c_w c / 2) == c_w c) by field.
  assert (Eh : c_y c + c_h c / 2 - (c_y c - c_h c / 2) == c_h c) by field.
  rewrite Ew, Eh. rewrite !Q.max_r by assumption. reflexivity.
Qed.

Lemma calculateIoU_unfold (c1 c2 : Candidate) :
  calculateIoU c1 c2 =
  let inter := Refine.area (Refine.intersect (corners c1) (corners c2)) in
  let union := c_w c1 * c_h c1 + c_w c2 * c_h c2 - inter in
  if Qlt_bool 0 union then inter / union else 0.
Proof. reflexivity. Qed.

Lemma calculateIoU_corners (c1 c2 : Candidate) :
  0 <= c_w c1 -> 0 <= c_h c1 -> 0 <= c_w c2 -> 0 <= c_h c2 ->
  calculateIoU c1 c2 == Refine.iou (corners c1) (corners c2).
Proof.
  intros Hw1 Hh1 Hw2 Hh2. rewrite calculateIoU_unfold. unfold Refine.iou.
  cbv zeta.
  pose proof (area_corners c1 Hw1 Hh1) as E1.
  pose proof (area_corners c2 Hw2 Hh2) as E2.
  set (inter := Refine.area (Refine.intersect (corners c1) (corners c2))) in *.
  destruct (Qlt_bool 0 (c_w c1 * c_h c1 + c_w c2 * c_h c2 - inter)) eqn:Ea;
  destruct (Qlt_bool 0 (Refine.area (corners c1) + Refine.area (corners c2)
                        - inter)) eqn:Eb;
    try reflexivity.
  - now rewrite E1, E2.
  - apply Qlt_bool_iff in Ea. apply Qlt_bool_false_iff in Eb. lra.
  - apply Qlt_bool_iff in Eb. apply Qlt_bool_false_iff in Ea. lra.
Qed.

End DetectorIoU.

(** X9.  The [calculateIoU] of the detector, on candidates whose width and
    height are not negative (as those of every parsed candidate are): it is
    the [iou] that the refinement computes for the corners of the two
    candidates, so it lies between 0 and 1 and does not depend on the order
    of the candidates. *)
Theorem calculateIoU_properties (c1 c2 : Detector.Candidate) :
  0 <= Detector.c_w c1 -> 0 <= Detector.c_h c1 ->
  0 <= Detector.c_w c2 -> 0 <= Detector.c_h c2 ->
  Detector.calculateIoU c1 c2 ==
    Refine.iou (ParseSpec.corners c1) (ParseSpec.corners c2) /\
  0 <= Detector.calculateIoU c1 c2 <= 1 /\
  Detector.calculateIoU c1 c2 == Detector.calculateIoU c2 c1.
Proof.
  intros Hw1 Hh1 Hw2 Hh2.
  pose proof (calculateIoU_corners c1 c2 Hw1 Hh1 Hw2 Hh2) as E12.
  pose proof (calculateIoU_corners c2 c1 Hw2 Hh2 Hw1 Hh1) as E21.
  split; [exact E12|]. split.
  - rewrite E12. split; [apply iou_nonneg | apply iou_le_1].
  - rewrite E12, E21. apply iou_comm.
Qed.

Lemma calculateIoU_properties_witness :
  let c1 := Detector.mkCandidate 100 100 50 50 0 0.9 in
  let c2 := Detector.mkCandidate 102 100 50 50 0 0.8 in
  Detector.calculateIoU c1 c2 ==
    Refine.iou (ParseSpec.corners c1) (ParseSpec.corners c2) /\
  0 <= Detector.calculateIoU c1 c2 <= 1 /\
  Detector.calculateIoU c1 c2 == Detector.calculateIoU c2 c1.
Proof.
  cbv zeta.
  apply (calculateIoU_properties (Detector.mkCandidate 100 100 50 50 0 0.9)
           (Detector.mkCandidate 102 100 50 50 0 0.8));
    discriminate.
Defined.

(** ** The primary box *)

Section PrimaryBox.
Import Js Types Refine StageSpec.

Lemma clamp_range (v lo hi : Q) : lo <= hi -> lo <= clamp v lo hi <= hi.
Proof.
  intros H. unfold clamp. split; [apply Q.le_max_l|].
  apply Q.max_lub; [exact H | apply Q.le_min_l].
Qed.

Lemma clampBox_inFrame (W H : Q) (b : Box) :
  0 <= W -> 0 <= H -> inFrame W H (clampBox W H b).
Proof.
  intros HW HH. unfold inFrame, clampBox. cbn [x1 y1 x2 y2].
  repeat split; apply clamp_range; assumption.
Qed.

Lemma establishPrimaryBox_outcome (cfg : FullRefineConfig) (W H : Q)
  (main : MainType) (s : DocumentAnalysisSummary) (notes : list Note) :
  let s' := fst (establishPrimaryBox cfg W H main s notes) in
  match primaryBox s' with
  | None => primaryBox s = None /\ primary main = None /\ s' = s
  | Some pb =>
      (exists b0,
          (primaryBox s = Some b0 \/
           primaryBox s = None /\ option_map box (primary main) = Some b0) /\
          pb = clampBox W H b0) /\
      flaggedPartial s' =
        Qlt_bool (coverage W H pb) (minPrimaryAreaFrac (tol cfg))
  end.
Proof.
  cbv zeta. unfold establishPrimaryBox.
  assert (Hcore : forall s0 b0 (notes0 : list Note),
    primaryBox s0 = Some b0 ->
    let r :=
      fst (let pb :=
             {| x1 := clamp (x1 b0) 0 W; y1 := clamp (y1 b0) 0 H;
                x2 := clamp (x2 b0) 0 W; y2 := clamp (y2 b0) 0 H |} in
           let summary_ := setPrimaryBox s0 (Some pb) in
           let primA := area pb in
           let frameA := W * H in
           let cover := if Qlt_bool 0 frameA then primA / frameA else 0 in
           let wasPartial :=
             match quality summary_ with
             | Some q => orElse (isPartial q) false
             | None => false
             end in
           let isPartial_ := Qlt_bool cover (minPrimaryAreaFrac (tol cfg)) in
           if negb (Bool.eqb isPartial_ wasPartial) then
             let q := orElse (quality summary_) emptyQuality in
             let summary_ :=
               setQuality summary_ (Some (setIsPartial q (Some isPartial_))) in
             (summary_,
              if isPartial_ then notes0 ++ [NoteFlagPartial cover] else notes0)
           else (summary_, notes0)) in
    primaryBox r = Some (clampBox W H b0) /\
    flaggedPartial r =
      Qlt_bool (coverage W H (clampBox W H b0)) (minPrimaryAreaFrac (tol cfg))).
  { intros s0 b0 notes0 Hb0. cbv zeta. cbn [quality setPrimaryBox].
    fold (clampBox W H b0).
    change (if Qlt_bool 0 (W * H) then area (clampBox W H b0) / (W * H) else 0)
      with (coverage W H (clampBox W H b0)).
    fold (flaggedPartial s0).
    destruct (Bool.eqb _ (flaggedPartial s0)) eqn:En; cbn [negb fst].
    - split; [reflexivity|].
      apply Bool.eqb_prop in En. rewrite En. reflexivity.
    - split; [reflexivity|]. reflexivity. }
  destruct (primaryBox s) as [b0|] eqn:Eb.
  - destruct (Hcore s b0 notes Eb) as [H1 H2]. cbv zeta in H1, H2.
    destruct (primary main) as [p|]; cbv beta iota; rewrite Eb;
      rewrite H1; (split; [|exact H2]);
      exists b0; (split; [now left|reflexivity]).
  - destruct (primary main) as [p|] eqn:Ep.
    + destruct (Hcore (setPrimaryBox s (Some (box p))) (box p)
                  (notes ++ [NotePrimaryAdopted]) eq_refl)
        as [H1 H2].
      match goal with
      | |- match primaryBox ?r with _ => _ end =>
          assert (E1 : primaryBox r = Some (clampBox W H (box p)))
            by exact H1;
          assert (E2 : flaggedPartial r =
                       Qlt_bool (coverage W H (clampBox W H (box p)))
                         (minPrimaryAreaFrac (tol cfg))) by exact H2;
          rewrite E1
      end.
      split; [|exact E2].
      exists (box p). split; [right; now split|reflexivity].
    + cbv beta iota. rewrite Eb. cbn [fst]. rewrite Eb. auto.
Qed.

End PrimaryBox.



(** ** Validation of a bar *)

Lemma validateBar_facts (bar : Types.DetectionAxisAligned)
  (container : Types.Box) (W H : Q) (which : Types.BarSide)
  (tol : Refine.Tol) (notes : list Types.Note) :
  let inter := Refine.intersect (Types.box bar) container in
  let cW := Types.x2 container - Types.x1 container in
  let cH := Types.y2 container - Types.y1 container in
  match Refine.validateBarNoMutate bar container W H which tol notes with
  | (Some out, notes') =>
      StageSpec.sameDetection out bar /\ StageSpec.isValidated out /\
      notes' = notes /\
      0 < Refine.area inter /\
      cW * Refine.minBarWidthFrac tol <= Types.x2 inter - Types.x1 inter /\
      Types.y2 inter - Types.y1 inter <= cH * Refine.maxBarHeightFrac tol
  | (None, notes') => exists n, notes' = notes ++ [n]
  end.
Proof.
  cbv zeta. unfold Refine.validateBarNoMutate.
  destruct (Qle_bool _ 0) eqn:E0; [cbv beta iota; eexists; reflexivity|].
  destruct (Js.Qlt_bool _ (_ * Refine.minBarWidthFrac tol)) eqn:E1;
    [cbv beta iota; eexists; reflexivity|].
  destruct (Js.Qlt_bool (_ * Refine.maxBarHeightFrac tol) _) eqn:E2;
    [cbv beta iota; eexists; reflexivity|].
  assert (Hacc :
    0 < Refine.area (Refine.intersect (Types.box bar) container) /\
    (Types.x2 container - Types.x1 container) * Refine.minBarWidthFrac tol <=
      Types.x2 (Refine.intersect (Types.box bar) container) -
      Types.x1 (Refine.intersect (Types.box bar) container) /\
    Types.y2 (Refine.intersect (Types.box bar) container) -
      Types.y1 (Refine.intersect (Types.box bar) container) <=
      (Types.y2 container - Types.y1 container) * Refine.maxBarHeightFrac tol).
  { apply Qlt_bool_false_iff in E1, E2. repeat split; try assumption.
    apply Qnot_le_lt. intros L. apply Qle_bool_iff in L. congruence. }
  destruct which.
  - match goal with |- context [if ?c then _ else _] => destruct c end;
      [cbv beta iota; eexists; reflexivity|].
    cbv beta iota zeta. split; [repeat split|].
    split; [|split; [reflexivity|exact Hacc]].
    eexists. split; [reflexivity|]. split; reflexivity.
  - match goal with |- context [if ?c then _ else _] => destruct c end;
      [cbv beta iota; eexists; reflexivity|].
    cbv beta iota zeta. split; [repeat split|].
    split; [|split; [reflexivity|exact Hacc]].
    eexists. split; [reflexivity|]. split; reflexivity.
Qed.


(** X11.  What [validateBarNoMutate] returns.  A bar that it accepts comes
    back with the label, the score and the box that it had, marked
    [validated] with source [refine], and no note is added; its
    intersection with the container has a positive area, is at least
    [minBarWidthFrac] of the container wide and at most [maxBarHeightFrac]
    of it tall.  A bar that it rejects adds exactly one note. *)
Theorem validateBar_outcome (bar : Types.DetectionAxisAligned)
  (container : Types.Box) (W H : Q) (which : Types.BarSide)
  (tol : Refine.Tol) (notes : list Types.Note) :
  let inter := Refine.intersect (Types.box bar) container in
  let cW := Types.x2 container - Types.x1 container in
  let cH := Types.y2 container - Types.y1 container in
  match Refine.validateBarNoMutate bar container W H which tol notes with
  | (Some out, notes') =>
      StageSpec.sameDetection out bar /\ StageSpec.isValidated out /\
      notes' = notes /\
      0 < Refine.area inter /\
      cW * Refine.minBarWidthFrac tol <= Types.x2 inter - Types.x1 inter /\
      Types.y2 inter - Types.y1 inter <= cH * Refine.maxBarHeightFrac tol
  | (None, notes') => exists n, notes' = notes ++ [n]
  end.
Proof. apply validateBar_facts. Qed.

(** ** Maps from labels to detections *)

Section ByClassFacts.
Import Js Types Refine ByClassSpec.

Lemma mapGet_In (m : ByClass) (k : string) (v : DetectionAxisAligned) :
  mapGet m k = Some v -> In (k, v) m.
Proof.
  induction m as [|[k' v'] m IH]; simpl; [discriminate|].
  destruct (String.eqb k' k) eqn:E.
  - apply String.eqb_eq in E. subst k'. intros H. injection H as <-. now left.
  - intros H. right. now apply IH.
Qed.

Lemma mapGet_None (m : ByClass) (k : string) :
  mapGet m k = None <-> ~ In k (map fst m).
Proof.
  induction m as [|[k' v'] m IH]; simpl; [tauto|].
  destruct (String.eqb k' k) eqn:E.
  - apply String.eqb_eq in E. subst k'. split; [discriminate|].
    intros H. exfalso. apply H. now left.
  - apply String.eqb_neq in E. rewrite IH. tauto.
Qed.

Lemma NoDup_mapGet (m : ByClass) (k : string) (v : DetectionAxisAligned) :
  NoDup (map fst m) -> In (k, v) m -> mapGet m k = Some v.
Proof.
  induction m as [|[k' v'] m IH]; simpl; [tauto|].
  intros Hnd [H|H].
  - injection H as -> ->. now rewrite String.eqb_refl.
  - inversion Hnd as [|? ? Hnotin Hnd']; subst.
    destruct (String.eqb k' k) eqn:E.
    + apply String.eqb_eq in E. subst k'. exfalso. apply Hnotin.
      apply in_map_iff. now exists (k, v).
    + now apply IH.
Qed.

Lemma mapSet_In (m : ByClass) (k : string) (v : DetectionAxisAligned)
  (k' : string) (v' : DetectionAxisAligned) :
  In (k', v') (mapSet m k v) -> (k', v') = (k, v) \/ In (k', v') m.
Proof.
  induction m as [|[k0 v0] m IH]; simpl.
  - intros [H|[]]. left. now symmetry.
  - destruct (String.eqb k0 k) eqn:E; simpl.
    + apply String.eqb_eq in E. subst k0. intros [H|H]; [left|right; right];
        [now symmetry | assumption].
    + intros [H|H]; [right; now left|].
      destruct (IH H) as [H'|H']; [now left | right; now right].
Qed.

Lemma mapSet_keys (m : ByClass) (k : string) (v : DetectionAxisAligned) :
  map fst (mapSet m k v) =
  if mapHas m k then map fst m else map fst m ++ [k].
Proof.
  unfold mapHas. induction m as [|[k0 v0] m IH]; simpl; [reflexivity|].
  destruct (String.eqb k0 k) eqn:E; simpl; [reflexivity|].
  rewrite IH. now destruct (mapGet m k).
Qed.

Lemma mapSet_NoDup (m : ByClass) (k : string) (v : DetectionAxisAligned) :
  NoDup (map fst m) -> NoDup (map fst (mapSet m k v)).
Proof.
  intros Hnd. rewrite mapSet_keys. unfold mapHas.
  destruct (mapGet m k) eqn:E; [exact Hnd|].
  apply mapGet_None in E.
  apply NoDup_app; [exact Hnd | constructor; [intros []|constructor] |].
  intros x Hx [<-|[]]. contradiction.
Qed.

Lemma mapGet_mapSet_same (m : ByClass) (k : string) (v : DetectionAxisAligned) :
  mapGet (mapSet m k v) k = Some v.
Proof.
  induction m as [|[k0 v0] m IH]; simpl; [now rewrite String.eqb_refl|].
  destruct (String.eqb k0 k) eqn:E; simpl; now rewrite E.
Qed.

Lemma mapGet_mapSet_other (m : ByClass) (k k' : string)
  (v : DetectionAxisAligned) :
  k' <> k -> mapGet (mapSet m k v) k' = mapGet m k'.
Proof.
  intros Hne. induction m as [|[k0 v0] m IH]; simpl.
  - apply String.eqb_neq in Hne. rewrite String.eqb_sym in Hne.
    now rewrite Hne.
  - destruct (String.eqb k0 k) eqn:E; simpl.
    + apply String.eqb_eq in E. subst k0.
      apply String.eqb_neq in Hne. rewrite String.eqb_sym in Hne.
      now rewrite Hne.
    + now rewrite IH.
Qed.

(** One step of the loops that file the best detection of each label. *)
Lemma collected_step (keep : string -> bool)
  (seen : list DetectionAxisAligned) (m : ByClass) (d : DetectionAxisAligned) :
  collected keep seen m ->
  collected keep (seen ++ [d])
    (if keep (label d) then
       match mapGet m (label d) with
       | None => mapSet m (label d) d
       | Some prev =>
           if Qlt_bool (score prev) (score d) then mapSet m (label d) d else m
       end
     else m).
Proof.
  intros (Hin & Hnd & Hbest).
  assert (Hold : collected keep (seen ++ [d]) m ->
                 keep (label d) = false -> collected keep (seen ++ [d]) m)
    by auto.
  assert (Hset : keep (label d) = true ->
            (forall prev, mapGet m (label d) = Some prev ->
                          score prev <= score d) ->
            collected keep (seen ++ [d]) (mapSet m (label d) d)).
  { intros Hk Hprev. split; [|split].
    - intros k v Hkv. apply mapSet_In in Hkv. destruct Hkv as [E|Hkv].
      + injection E as -> ->. repeat split; auto.
        apply in_or_app. right. now left.
      + destruct (Hin k v Hkv) as (H1 & H2 & H3). repeat split; auto.
        apply in_or_app. now left.
    - now apply mapSet_NoDup.
    - intros d' Hd' Hk'. apply in_app_or in Hd'.
      destruct (string_dec (label d') (label d)) as [E|E].
      + rewrite E, mapGet_mapSet_same. exists d. split; [reflexivity|].
        destruct Hd' as [Hd'|[<-|[]]]; [|lra].
        destruct (Hbest d' Hd' Hk') as (v & Hv & Hle).
        rewrite E in Hv. specialize (Hprev v Hv). lra.
      + rewrite mapGet_mapSet_other by exact E.
        destruct Hd' as [Hd'|[<-|[]]]; [now apply Hbest | congruence]. }
  assert (Hkeep : (keep (label d) = true ->
                   exists v, mapGet m (label d) = Some v /\
                             score d <= score v) ->
                  collected keep (seen ++ [d]) m).
  { intros Hd. split; [|split]; [|exact Hnd|].
    - intros k v Hkv. destruct (Hin k v Hkv) as (H1 & H2 & H3).
      repeat split; auto. apply in_or_app. now left.
    - intros d' Hd' Hk'. apply in_app_or in Hd'.
      destruct Hd' as [Hd'|[<-|[]]]; [now apply Hbest | now apply Hd]. }
  destruct (keep (label d)) eqn:Ek.
  - destruct (mapGet m (label d)) as [prev|] eqn:Eg.
    + destruct (Qlt_bool (score prev) (score d)) eqn:El.
      * apply Hset; [reflexivity|]. intros prev' E. injection E as <-.
        apply Qlt_bool_iff in El. lra.
      * apply Hkeep. intros _. exists prev. split; [reflexivity|].
        now apply Qlt_bool_false_iff in El.
    + apply Hset; [reflexivity|]. intros prev E. discriminate.
  - apply Hkeep. intros H. discriminate.
Qed.

Lemma collectByClass_collected (dets : list DetectionAxisAligned) :
  collected isPreferred dets (collectByClass dets).
Proof.
  unfold collectByClass.
  assert (Hgen : forall l seen m,
    collected isPreferred seen m ->
    collected isPreferred (seen ++ l)
      (fold_left
         (fun byClass d =>
            match preferred (label d) with
            | None => byClass
            | Some _ =>
                match mapGet byClass (label d) with
                | None => mapSet byClass (label d) d
                | Some prev =>
                    if Qlt_bool (score prev) (score d)
                    then mapSet byClass (label d) d
                    else byClass
                end
            end) l m)).
  { induction l as [|d l IH]; intros seen m Hm; simpl.
    - now rewrite app_nil_r.
    - replace (seen ++ d :: l) with ((seen ++ [d]) ++ l)
        by (now rewrite <- app_assoc).
      apply IH. pose proof (collected_step isPreferred seen m d Hm) as Hs.
      unfold isPreferred in Hs at 2.
      destruct (preferred (label d)); exact Hs. }
  apply (Hgen dets [] []).
  split; [intros k v []|]. split; [constructor|]. intros d [].
Qed.

End ByClassFacts.

(** ** The main class *)

Section MainClass.
Import Js Types Refine ByClassSpec.

Lemma orElse_find_In {A : Type} (p : A -> bool) (l : list A) (a : A) :
  In a l -> In (orElse (find p l) a) l.
Proof.
  intros Ha. destruct (find p l) as [b|] eqn:E; [|exact Ha].
  now apply find_some in E.
Qed.

Lemma pickMainType_pick (result : DocumentAnalysisResult) (tol : Tol)
  (notes : list Note) :
  collectByClass (detections result) <> [] ->
  exists pick notes',
    pickMainType result tol notes =
      (mkMainType (orElse (preferred (fst pick)) UNKNOWN) (score (snd pick))
         (Some (snd pick)), notes') /\
    In pick (collectByClass (detections result)) /\
    (notes' = notes \/ exists n, notes' = notes ++ [n]).
Proof.
  intros Hne. unfold pickMainType.
  destruct (collectByClass (detections result)) as [|c0 m] eqn:Em;
    [congruence|].
  cbv zeta.
  set (boost := fun c : string * DetectionAxisAligned =>
         if (String.eqb (fst c) "Screenshot" &&
             (hasLabel "Top status bar" (detections result) ||
              hasLabel "Bottom nav bar" (detections result)))%bool
         then score (snd c) + 0.05 else score (snd c)).
  assert (Hin : forall c, In c (sortDesc boost (c0 :: m)) -> In c (c0 :: m))
    by (intros c; apply sortDesc_In).
  pose proof (sortDesc_length boost (c0 :: m)) as Hlen.
  destruct (sortDesc boost (c0 :: m)) as [|best others] eqn:Es;
    [discriminate|].
  assert (Hbest : In best (best :: others)) by now left.
  destruct (hd_error others) as [second|].
  - destruct (Qlt_bool _ (classMargin tol)).
    + destruct (_ || _)%bool.
      * eexists _, _. split; [reflexivity|]. split.
        -- apply Hin. now apply orElse_find_In.
        -- right. eexists. reflexivity.
      * destruct (_ && _)%bool.
        -- eexists _, _. split; [reflexivity|]. split.
           ++ apply Hin. now apply orElse_find_In.
           ++ right. eexists. reflexivity.
        -- eexists _, _. split; [reflexivity|]. split; [now apply Hin|].
           now left.
    + eexists _, _. split; [reflexivity|]. split; [now apply Hin|]. now left.
  - eexists _, _. split; [reflexivity|]. split; [now apply Hin|]. now left.
Qed.

Lemma pickMainType_facts (result : DocumentAnalysisResult) (tol : Tol)
  (notes : list Note) :
  let m := fst (pickMainType result tol notes) in
  let notes' := snd (pickMainType result tol notes) in
  (notes' = notes \/ exists n, notes' = notes ++ [n]) /\
  match primary m with
  | None =>
      type m = documentType (summary result) /\
      conf m = orElse (confidence (summary result)) 0 /\
      notes' = notes /\
      forall d, In d (detections result) -> preferred (label d) = None
  | Some p =>
      In p (detections result) /\
      preferred (label p) = Some (type m) /\
      conf m = score p /\
      forall d, In d (detections result) -> label d = label p ->
                score d <= score p
  end.
Proof.
  cbv zeta.
  pose proof (collectByClass_collected (detections result))
    as (Hin & Hnd & Hbest).
  destruct (collectByClass (detections result)) as [|c0 m] eqn:Em.
  - unfold pickMainType. rewrite Em. cbn [fst snd primary type conf].
    split; [now left|]. repeat split.
    intros d Hd. destruct (preferred (label d)) eqn:Ep; [|reflexivity].
    destruct (Hbest d Hd) as (v & Hv & _); [|discriminate].
    unfold isPreferred. now rewrite Ep.
  - destruct (pickMainType_pick result tol notes) as (pick & notes' & E & Hp & Hn).
    { rewrite Em. discriminate. }
    rewrite E. cbn [fst snd primary type conf]. split; [exact Hn|].
    rewrite Em in Hp. destruct pick as [k p]. cbn [fst snd].
    destruct (Hin k p Hp) as (Hk & Hpin & Hpref).
    unfold isPreferred in Hpref. subst k.
    destruct (preferred (label p)) as [t|] eqn:Et; [|discriminate].
    cbn [orElse]. repeat split; try assumption.
    intros d Hd Hl.
    destruct (Hbest d Hd) as (v & Hv & Hle).
    { unfold isPreferred. now rewrite Hl, Et. }
    rewrite Hl in Hv. rewrite (NoDup_mapGet _ _ _ Hnd Hp) in Hv.
    injection Hv as <-. exact Hle.
Qed.

End MainClass.

(** X12.  What [pickMainType] returns.  When no detection carries one of the
    labels Receipt, Document, Screenshot, it returns the type and the
    confidence of the summary (0 for a missing confidence), no primary
    detection, and adds no note.  Otherwise the primary detection is one of
    the detections of the result; the type is the one that stands for its
    label; the confidence is its score; and no detection of the same label
    has a greater score.  At most one note is added. *)
Theorem pickMainType_outcome (result : Types.DocumentAnalysisResult)
  (tol : Refine.Tol) (notes : list Types.Note) :
  let m := fst (Refine.pickMainType result tol notes) in
  let notes' := snd (Refine.pickMainType result tol notes) in
  (notes' = notes \/ exists n, notes' = notes ++ [n]) /\
  match Refine.primary m with
  | None =>
      Refine.type m = Types.documentType (Types.summary result) /\
      Refine.conf m =
        Refine.orElse (Types.confidence (Types.summary result)) 0 /\
      notes' = notes /\
      forall d, In d (Types.detections result) ->
                Refine.preferred (Types.label d) = None
  | Some p =>
      In p (Types.detections result) /\
      Refine.preferred (Types.label p) = Some (Refine.type m) /\
      Refine.conf m = Types.score p /\
      forall d, In d (Types.detections result) ->
                Types.label d = Types.label p ->
                Types.score d <= Types.score p
  end.
Proof. apply pickMainType_facts. Qed.

(** ** The refinement as a whole *)

Section Pipeline.
Import Js Types Refine StageSpec.

Lemma upsert_fields (out : DocumentAnalysisResult) (notes : list Note)
  (wantedLbl : option string) :
  let out' := fst (upsertPrimaryDetection out notes wantedLbl) in
  source_ out' = source_ out /\ timestamp out' = timestamp out /\
  meta_ out' = meta_ out /\ signals out' = signals out /\
  model out' = model out.
Proof.
  cbv zeta. unfold upsertPrimaryDetection.
  destruct (primaryBox (summary out)) as [pb|]; [|now repeat split].
  destruct wantedLbl as [lbl|]; [|now repeat split].
  destruct (Qle_bool 0.90 _); now repeat split.
Qed.

Lemma refine_fields (input : DocumentAnalysisResult)
  (options : option RefineOptions) :
  let out := refineDocumentAnalysis input options in
  source_ out = source_ input /\ timestamp out = timestamp input /\
  meta_ out = meta_ input /\ model out = model input /\
  (keepDiagnostics (buildConfig options) = false ->
   signals out = signals input) /\
  (keepDiagnostics (buildConfig options) = true ->
   exists notes,
     signals out =
     Some (mkSignals
             (colors (orElse (signals input) emptySignals))
             (classificationTopK (orElse (signals input) emptySignals))
             (Some (orElse (diagnostics (orElse (signals input) emptySignals))
                      [] ++ notes)))).
Proof.
  cbv zeta. unfold refineDocumentAnalysis.
  set (st := stages (buildConfig options) input).
  set (out0 := mkResult (source_ input) (timestamp input) (meta_ input)
                 (st_summary st) (st_outDetections st) (signals input)
                 (model input)).
  pose proof (upsert_fields out0 (st_notes st)
                (wantedLblOf (documentType (summary out0))))
    as (H1 & H2 & H3 & H4 & H5).
  cbv zeta in H1, H2, H3, H4, H5.
  destruct (upsertPrimaryDetection out0 (st_notes st)
              (wantedLblOf (documentType (summary out0)))) as [out notes].
  cbn [fst] in *. cbn [source_ timestamp meta_ signals model out0] in *.
  destruct (keepDiagnostics (buildConfig options));
    cbn [source_ timestamp meta_ signals model]; repeat split;
    try assumption; try discriminate; intros _; [|exact H4].
  exists notes. now rewrite H4.
Qed.

End Pipeline.

(** X13.  What the refinement passes through.  The source, the timestamp,
    the image metadata and the model information of the result are those of
    the input.  With [keepDiagnostics] off, so are the signals; with it on,
    the colours and the classification of the signals are kept and the
    diagnostics are the incoming ones followed by the notes of this run. *)
Theorem refine_passes_through (input : Types.DocumentAnalysisResult)
  (options : option Refine.RefineOptions) :
  let out := Refine.refineDocumentAnalysis input options in
  Types.source_ out = Types.source_ input /\
  Types.timestamp out = Types.timestamp input /\
  Types.meta_ out = Types.meta_ input /\
  Types.model out = Types.model input /\
  (Refine.keepDiagnostics (Refine.buildConfig options) = false ->
   Types.signals out = Types.signals input) /\
  (Refine.keepDiagnostics (Refine.buildConfig options) = true ->
   exists notes,
     Types.signals out =
     Some (Types.mkSignals
             (Types.colors
                (Refine.orElse (Types.signals input) Types.emptySignals))
             (Types.classificationTopK
                (Refine.orElse (Types.signals input) Types.emptySignals))
             (Some (Refine.orElse
                      (Types.diagnostics
                         (Refine.orElse (Types.signals input)
                            Types.emptySignals)) [] ++ notes)))).
Proof. apply refine_fields. Qed.

(** ** The stages of the refinement, one by one *)

Section StageTrace.
Import Js Types Refine StageSpec.

Lemma extractBars_filter (dets : list DetectionAxisAligned) :
  extractBars dets =
  (filter isBar dets, filter (fun d => negb (isBar d)) dets).
Proof.
  unfold extractBars.
  assert (Hgen : forall l bars rest,
    fold_left
      (fun '(bars, rest) d =>
         if isBar d then (bars ++ [d], rest) else (bars, rest ++ [d]))
      l (bars, rest) =
    (bars ++ filter isBar l, rest ++ filter (fun d => negb (isBar d)) l)).
  { induction l as [|d l IH]; intros bars rest; simpl.
    - now rewrite !app_nil_r.
    - destruct (isBar d); simpl; rewrite IH, <- app_assoc; reflexivity. }
  apply (Hgen dets [] []).
Qed.

Lemma retype_box (cfg : FullRefineConfig) (input : DocumentAnalysisResult)
  (main : MainType) (notes : list Note) :
  primaryBox (fst (retype cfg input main notes)) = primaryBox (summary input).
Proof. unfold retype. destruct (_ && _)%bool; reflexivity. Qed.

Lemma retype_same (cfg : FullRefineConfig) (input : DocumentAnalysisResult)
  (main : MainType) (notes : list Note) :
  allowRetype cfg = false \/ type main = documentType (summary input) ->
  retype cfg input main notes = (summary input, notes).
Proof.
  intros H. unfold retype.
  destruct H as [H|H]; rewrite H; [reflexivity|].
  assert (E : DocumentType_eqb (documentType (summary input))
                (documentType (summary input)) = true)
    by (destruct (documentType (summary input)); reflexivity).
  rewrite E. now rewrite andb_false_r.
Qed.

Lemma noteDroppedBars_fields (bars : list DetectionAxisAligned) (st : State) :
  st_summary (noteDroppedBars bars st) = st_summary st /\
  st_outDetections (noteDroppedBars bars st) = st_outDetections st.
Proof. unfold noteDroppedBars. destruct (_ && _)%bool; now split. Qed.

Lemma find_label_In (lbl : string) (bars : list DetectionAxisAligned)
  (d : DetectionAxisAligned) :
  find (fun b => String.eqb (label b) lbl) bars = Some d ->
  In d bars /\ label d = lbl.
Proof.
  intros H. apply find_some in H. destruct H as [H1 H2].
  split; [exact H1 | now apply String.eqb_eq].
Qed.

Lemma validate_found (lbl : string) (bars : list DetectionAxisAligned)
  (container : Box) (W H : Q) (which : BarSide) (tol : Tol)
  (notes : list Note) :
  forall t,
    fst (match find (fun b => String.eqb (label b) lbl) bars with
         | Some raw => validateBarNoMutate raw container W H which tol notes
         | None => (None, notes)
         end) = Some t ->
    validatedFrom bars t.
Proof.
  intros t. destruct (find _ bars) as [raw|] eqn:Ef; [|discriminate].
  apply find_label_In in Ef. destruct Ef as [Hin _].
  pose proof (validateBar_facts raw container W H which tol notes) as Hv.
  cbv zeta in Hv.
  destruct (validateBarNoMutate raw container W H which tol notes)
    as [[out|] notes']; [|discriminate].
  cbn [fst]. intros E. injection E as <-.
  destruct Hv as (Hs & Hval & _). now exists raw.
Qed.

Lemma evidence_bars (cfg : FullRefineConfig) (input : DocumentAnalysisResult)
  (W H : Q) (bars : list DetectionAxisAligned)
  (summary_ : DocumentAnalysisSummary) (notes : list Note) :
  let e := screenshotEvidence cfg input W H bars summary_ notes in
  (forall t, e_topOk e = Some t -> validatedFrom bars t) /\
  (forall b, e_botOk e = Some b -> validatedFrom bars b).
Proof.
  cbv zeta. unfold screenshotEvidence.
  set (container := screenshotContainerOf input W H).
  pose proof (validate_found "Top status bar" bars container W H Top
                (tol cfg) notes) as Htop.
  destruct (match find (fun b => String.eqb (label b) "Top status bar") bars with
            | Some raw => validateBarNoMutate raw container W H Top (tol cfg) notes
            | None => (None, notes)
            end) as [topOk notes1].
  pose proof (validate_found "Bottom nav bar" bars container W H Bottom
                (tol cfg) notes1) as Hbot.
  destruct (match find (fun b => String.eqb (label b) "Bottom nav bar") bars with
            | Some raw =>
                validateBarNoMutate raw container W H Bottom (tol cfg) notes1
            | None => (None, notes1)
            end) as [botOk notes2].
  cbn [e_topOk e_botOk fst] in *. split; assumption.
Qed.

Lemma keepScreenshot_trace (cfg : FullRefineConfig) (W H : Q)
  (bestScreenshot : option DetectionAxisAligned) (container : Box)
  (s : ScreenshotScore) (topOk botOk : option DetectionAxisAligned)
  (summary_ : DocumentAnalysisSummary)
  (outDetections : list DetectionAxisAligned) (notes : list Note) :
  let st' :=
    keepScreenshot cfg W H bestScreenshot container s topOk botOk summary_
      outDetections notes in
  primaryBox (st_summary st') <> None /\
  st_outDetections st' = outDetections ++ optList topOk ++ optList botOk.
Proof.
  cbv zeta. unfold keepScreenshot.
  destruct (match bestScreenshot with
            | Some _ => _
            | None => true
            end);
    cbn [st_summary st_outDetections primaryBox setConfidence setPrimaryBox];
    (split; [discriminate|]);
    destruct topOk, botOk; cbn [optList app];
    rewrite <- ?app_assoc, ?app_nil_r; reflexivity.
Qed.

Lemma screenshotLogic_trace (cfg : FullRefineConfig)
  (input : DocumentAnalysisResult) (W H : Q)
  (bars : list DetectionAxisAligned) (st : State) :
  let st' := screenshotLogic cfg input W H bars st in
  (documentType (st_summary st) <> SCREENSHOT -> st' = st) /\
  (documentType (st_summary st) = SCREENSHOT ->
   primaryBox (st_summary st') <> None /\
   (documentType (st_summary st') = SCREENSHOT \/
    documentType (st_summary st') = DOCUMENT \/
    documentType (st_summary st') = RECEIPT) /\
   (allowRetype cfg = false ->
    documentType (st_summary st') = SCREENSHOT)) /\
  (exists extra,
      st_outDetections st' = st_outDetections st ++ extra /\
      Forall (validatedFrom bars) extra /\
      (extra <> [] -> documentType (st_summary st) = SCREENSHOT)).
Proof.
  cbv zeta. unfold screenshotLogic.
  destruct (DocumentType_eqb (documentType (st_summary st)) SCREENSHOT) eqn:Et.
  2:{ split; [reflexivity|]. split.
      - intros E. rewrite E in Et. discriminate.
      - exists []. rewrite app_nil_r. split; [reflexivity|].
        split; [constructor|congruence]. }
  assert (Etype : documentType (st_summary st) = SCREENSHOT)
    by (destruct (documentType (st_summary st)); try discriminate; reflexivity).
  split; [congruence|].
  destruct (evidence_bars cfg input W H bars (st_summary st) (st_notes st))
    as [Htop Hbot].
  destruct (evidence_fields cfg input W H bars (st_summary st) (st_notes st))
    as (_ & _ & _ & _ & HaltT & _).
  cbv zeta in Htop, Hbot, HaltT.
  set (e := screenshotEvidence cfg input W H bars (st_summary st)
              (st_notes st)) in *.
  pose proof (keepScreenshot_trace cfg W H (e_bestScreenshot e)
                (e_screenshotContainer e) (e_s e) (e_topOk e) (e_botOk e)
                (st_summary st) (st_outDetections st) (e_notes e))
    as [Kbox Kdets].
  pose proof (keepScreenshot_summary cfg W H (e_bestScreenshot e)
                (e_screenshotContainer e) (e_s e) (e_topOk e) (e_botOk e)
                (st_summary st) (st_outDetections st) (e_notes e))
    as [Ktype _].
  cbv zeta in Kbox, Kdets, Ktype.
  set (keep := keepScreenshot cfg W H (e_bestScreenshot e)
                 (e_screenshotContainer e) (e_s e) (e_topOk e) (e_botOk e)
                 (st_summary st) (st_outDetections st) (e_notes e)) in *.
  assert (Hkeep :
    (documentType (st_summary st) = SCREENSHOT ->
     primaryBox (st_summary keep) <> None /\
     (documentType (st_summary keep) = SCREENSHOT \/
      documentType (st_summary keep) = DOCUMENT \/
      documentType (st_summary keep) = RECEIPT) /\
     (allowRetype cfg = false -> documentType (st_summary keep) = SCREENSHOT)) /\
    (exists extra,
        st_outDetections keep = st_outDetections st ++ extra /\
        Forall (validatedFrom bars) extra /\
        (extra <> [] -> documentType (st_summary st) = SCREENSHOT))).
  { split.
    - intros _. rewrite Ktype, Etype. auto.
    - exists (optList (e_topOk e) ++ optList (e_botOk e)).
      split; [exact Kdets|]. split; [|auto].
      apply Forall_app. split.
      + destruct (e_topOk e) as [t|]; [|constructor].
        constructor; [now apply Htop | constructor].
      + destruct (e_botOk e) as [b|]; [|constructor].
        constructor; [now apply Hbot | constructor]. }
  destruct (needSwitchToAlt cfg e && allowRetype cfg)%bool eqn:Es;
    [|exact Hkeep].
  destruct (e_alt e) as [alt|] eqn:Ealt; [|exact Hkeep].
  destruct (e_altType e) as [altType|] eqn:EaltT; [|exact Hkeep].
  cbn [st_summary st_outDetections documentType primaryBox setPrimaryBox
       setConfidence setDocumentType].
  split.
  - intros _. split; [discriminate|]. split.
    + unfold altTypeOf in HaltT. injection HaltT as ->.
      destruct (String.eqb (label alt) "Document"); auto.
    + intros Hr. rewrite Hr, andb_false_r in Es. discriminate.
  - exists []. rewrite app_nil_r. split; [reflexivity|].
    split; [constructor|congruence].
Qed.

Lemma resolve_trace (cfg : FullRefineConfig) (st : State) :
  let st' := resolveDocumentVsReceipt cfg st in
  primaryBox (st_summary st') = primaryBox (st_summary st) /\
  (forall d, In d (st_outDetections st') -> In d (st_outDetections st)) /\
  (allowRetype cfg = false \/ primaryBox (st_summary st) = None -> st' = st) /\
  (documentType (st_summary st') = documentType (st_summary st) \/
   documentType (st_summary st') = DOCUMENT \/
   documentType (st_summary st') = RECEIPT).
Proof.
  cbv zeta. unfold resolveDocumentVsReceipt.
  destruct (primaryBox (st_summary st)) as [pb|] eqn:Eb.
  2:{ rewrite Eb. repeat split; auto. }
  destruct (_ && _ && allowRetype cfg)%bool eqn:Ec.
  2:{ rewrite Eb. repeat split; auto. }
  assert (Ha : allowRetype cfg = true).
  { destruct (allowRetype cfg); [reflexivity|].
    now rewrite andb_false_r in Ec. }
  set (keepDocument := Qle_bool _ _).
  destruct (negb (DocumentType_eqb (documentType (st_summary st))
                    (if keepDocument then DOCUMENT else RECEIPT))) eqn:En;
    cbn [st_summary st_outDetections primaryBox documentType setConfidence
         setDocumentType]; rewrite ?Eb.
  - split; [reflexivity|]. split; [intros d Hd; now apply filter_In in Hd|].
    split; [intros [H|H]; congruence|].
    destruct keepDocument; auto.
  - split; [reflexivity|]. split; [intros d Hd; now apply filter_In in Hd|].
    split; [intros [H|H]; congruence|]. now left.
Qed.

Lemma replacePrimary_box (cfg : FullRefineConfig) (st : State) :
  primaryBox (st_summary (replacePrimary cfg st)) = None <->
  primaryBox (st_summary st) = None.
Proof.
  unfold replacePrimary.
  destruct (primaryBox (st_summary st)) as [pb|] eqn:Eb; [|now rewrite Eb].
  destruct (allowRetype cfg); [|now rewrite Eb].
  destruct (sortDesc snd _) as [|[best sc] rest]; [now rewrite Eb|].
  destruct (Qlt_bool _ 0.5); [|now rewrite Eb].
  cbn. split; discriminate.
Qed.

Lemma stages_chain (cfg : FullRefineConfig) (input : DocumentAnalysisResult) :
  let W := width (meta_ input) in
  let H := height (meta_ input) in
  let bars := filter isBar (detections input) in
  let rest := filter (fun d => negb (isBar d)) (detections input) in
  exists main n0 s1 n1 s2 n2,
    pickMainType input (tol cfg) [] = (main, n0) /\
    retype cfg input main n0 = (s1, n1) /\
    establishPrimaryBox cfg W H main s1 n1 = (s2, n2) /\
    stagesToPrimary cfg input =
      replacePrimary cfg
        (resolveDocumentVsReceipt cfg
           (screenshotLogic cfg input W H bars
              (noteDroppedBars bars (mkState s2 rest n2)))).
Proof.
  cbv zeta. unfold stagesToPrimary.
  destruct (pickMainType input (tol cfg) []) as [main n0] eqn:E0.
  destruct (retype cfg input main n0) as [s1 n1] eqn:E1.
  destruct (establishPrimaryBox cfg (width (meta_ input)) (height (meta_ input))
              main s1 n1) as [s2 n2] eqn:E2.
  rewrite extractBars_filter.
  exists main, n0, s1, n1, s2, n2.
  split; [reflexivity|]. split; [exact E1|]. split; [exact E2|reflexivity].
Qed.

End StageTrace.

Section WholeRun.
Import Js Types Refine StageSpec.

Lemma unknownFallback_dets (input : DocumentAnalysisResult) (W H : Q)
  (st : State) :
  st_outDetections (unknownFallback input W H st) = st_outDetections st \/
  st_outDetections (unknownFallback input W H st) =
    fullDoc W H :: st_outDetections st.
Proof.
  unfold unknownFallback.
  destruct (DocumentType_eqb _ UNKNOWN); [|now left].
  destruct (primaryBox (st_summary st));
    destruct (negb (hasNearFullDoc input W H)); cbn; auto.
Qed.

Lemma refine_detections_cases (input : DocumentAnalysisResult)
  (options : option RefineOptions) :
  let st := stages (buildConfig options) input in
  detections (refineDocumentAnalysis input options) = st_outDetections st \/
  exists lbl pb,
    wantedLblOf (documentType (st_summary st)) = Some lbl /\
    detections (refineDocumentAnalysis input options) =
      st_outDetections st ++ [syntheticPrimary lbl (st_summary st) pb].
Proof.
  cbv zeta. pose proof (refine_detections input options) as E.
  cbv zeta in E. rewrite E.
  destruct (primaryBox (st_summary (stages (buildConfig options) input)))
    as [pb|]; [|now left].
  destruct (wantedLblOf _) as [lbl|] eqn:El; [|now left].
  destruct (Qle_bool 0.90 _); [now left|].
  right. now exists lbl, pb.
Qed.

(** Where the detections of the state after the stages come from. *)
Lemma stages_detections (cfg : FullRefineConfig)
  (input : DocumentAnalysisResult) :
  let W := width (meta_ input) in
  let H := height (meta_ input) in
  let bars := filter isBar (detections input) in
  let rest := filter (fun d => negb (isBar d)) (detections input) in
  let st := stages cfg input in
  (forall d, In d (st_outDetections st) ->
     In d rest \/ validatedFrom bars d \/ d = fullDoc W H) /\
  (allowRetype cfg = false ->
   forall d, In d rest -> In d (st_outDetections st)).
Proof.
  cbv zeta. unfold stages.
  destruct (stages_chain cfg input)
    as (main & n0 & s1 & n1 & s2 & n2 & E0 & E1 & E2 & Ec).
  cbv zeta in Ec. rewrite Ec. clear Ec.
  set (W := width (meta_ input)) in *.
  set (H := height (meta_ input)) in *.
  set (bars := filter isBar (detections input)).
  set (rest := filter (fun d => negb (isBar d)) (detections input)).
  set (st0 := noteDroppedBars bars (mkState s2 rest n2)).
  destruct (noteDroppedBars_fields bars (mkState s2 rest n2)) as [_ Hd0].
  fold st0 in Hd0. cbn [st_outDetections] in Hd0.
  destruct (screenshotLogic_trace cfg input W H bars st0)
    as (_ & _ & extra & Hd1 & Hextra & _).
  cbv zeta in Hd1. set (st1 := screenshotLogic cfg input W H bars st0) in *.
  destruct (resolve_trace cfg st1) as (_ & Hd2 & Hid & _).
  cbv zeta in Hd2, Hid. set (st2 := resolveDocumentVsReceipt cfg st1) in *.
  destruct (replacePrimary_keeps cfg st2) as (_ & _ & Hd3).
  cbv zeta in Hd3. set (st3 := replacePrimary cfg st2) in *.
  pose proof (unknownFallback_dets input W H st3) as Hd4.
  split.
  - intros d Hd.
    assert (H3 : d = fullDoc W H \/ In d (st_outDetections st3)).
    { destruct Hd4 as [E|E]; rewrite E in Hd; [now right|].
      destruct Hd as [<-|Hd]; [now left | now right]. }
    destruct H3 as [->|H3]; [auto|].
    rewrite Hd3 in H3. apply Hd2 in H3. rewrite Hd1, Hd0 in H3.
    apply in_app_or in H3. destruct H3 as [H3|H3]; [now left|].
    right. left. rewrite Forall_forall in Hextra. now apply Hextra.
  - intros Hr d Hd.
    assert (H3 : In d (st_outDetections st3)).
    { rewrite Hd3. rewrite (Hid (or_introl Hr)).
      rewrite Hd1, Hd0. apply in_or_app. now left. }
    destruct Hd4 as [E|E]; rewrite E; [exact H3 | now right].
Qed.

Lemma stages_type_fixed (cfg : FullRefineConfig)
  (input : DocumentAnalysisResult) :
  allowRetype cfg = false ->
  documentType (st_summary (stages cfg input)) =
  documentType (summary input).
Proof.
  intros Hr. unfold stages. rewrite unknownFallback_type.
  destruct (stages_chain cfg input)
    as (main & n0 & s1 & n1 & s2 & n2 & E0 & E1 & E2 & Ec).
  cbv zeta in Ec. rewrite Ec. clear Ec.
  set (W := width (meta_ input)) in *.
  set (H := height (meta_ input)) in *.
  set (bars := filter isBar (detections input)).
  set (rest := filter (fun d => negb (isBar d)) (detections input)).
  destruct (replacePrimary_keeps cfg
              (resolveDocumentVsReceipt cfg
                 (screenshotLogic cfg input W H bars
                    (noteDroppedBars bars (mkState s2 rest n2)))))
    as (Ht & _ & _).
  cbv zeta in Ht. rewrite Ht. clear Ht.
  destruct (resolve_trace cfg
              (screenshotLogic cfg input W H bars
                 (noteDroppedBars bars (mkState s2 rest n2))))
    as (_ & _ & Hid & _).
  cbv zeta in Hid. rewrite (Hid (or_introl Hr)). clear Hid.
  destruct (noteDroppedBars_fields bars (mkState s2 rest n2)) as [Hs0 _].
  set (st0 := noteDroppedBars bars (mkState s2 rest n2)) in *.
  cbn [st_summary] in Hs0.
  assert (Hs2 : documentType s2 = documentType (summary input)).
  { pose proof (establishPrimaryBox_keeps cfg W H main s1 n1) as [Hk _].
    cbv zeta in Hk. rewrite E2 in Hk. cbn [fst] in Hk. rewrite Hk.
    rewrite (retype_same cfg input main n0 (or_introl Hr)) in E1.
    now injection E1 as <- _. }
  destruct (screenshotLogic_trace cfg input W H bars st0) as (Hne & Heq & _).
  cbv zeta in Hne, Heq.
  destruct (DocumentType_eqb (documentType (st_summary st0)) SCREENSHOT) eqn:Et.
  - assert (Es : documentType (st_summary st0) = SCREENSHOT)
      by (destruct (documentType (st_summary st0)); try discriminate;
          reflexivity).
    destruct (Heq Es) as (_ & _ & Hfix). rewrite (Hfix Hr).
    rewrite <- Es, Hs0. exact Hs2.
  - rewrite Hne; [now rewrite Hs0|].
    intros Es. rewrite Es in Et. discriminate.
Qed.

End WholeRun.

(** X14.  With [allowRetype] off, the refinement keeps the document type of
    the input, and every detection of the input that is not a status or
    navigation bar is among the detections of the result. *)
Theorem no_retype_keeps_type (input : Types.DocumentAnalysisResult)
  (options : option Refine.RefineOptions) :
  Refine.allowRetype (Refine.buildConfig options) = false ->
  let out := Refine.refineDocumentAnalysis input options in
  Types.documentType (Types.summary out) =
    Types.documentType (Types.summary input) /\
  (forall d, In d (Types.detections input) -> Refine.isBar d = false ->
             In d (Types.detections out)).
Proof.
  intros Hr out. unfold out. split.
  - rewrite refine_summary. now apply stages_type_fixed.
  - intros d Hd Hb.
    destruct (stages_detections (Refine.buildConfig options) input)
      as [_ Hkeep].
    cbv zeta in Hkeep.
    assert (Hin : In d (Refine.st_outDetections
                          (Refine.stages (Refine.buildConfig options) input))).
    { apply (Hkeep Hr). apply filter_In. split; [exact Hd|]. now rewrite Hb. }
    destruct (refine_detections_cases input options) as [E|(lbl & pb & _ & E)];
      cbv zeta in E; rewrite E; [exact Hin|].
    apply in_or_app. now left.
Qed.

Lemma no_retype_keeps_type_witness :
  let out :=
    Refine.refineDocumentAnalysis RefineSpec.smallScreenshot
      RefineSpec.noRetype in
  Types.documentType (Types.summary out) = Types.SCREENSHOT /\
  (forall d, In d (Types.detections RefineSpec.smallScreenshot) ->
             Refine.isBar d = false -> In d (Types.detections out)).
Proof.
  cbv zeta.
  apply (no_retype_keeps_type RefineSpec.smallScreenshot RefineSpec.noRetype).
  reflexivity.
Defined.

(** X15.  Where the detections of a refined result come from.  Each of them
    is a detection of the input that is no status or navigation bar, taken
    over as it is; or a copy of a bar of the input, with the label, the
    score and the box of that bar, marked as validated by the refinement;
    or a detection marked as synthetic, which is no bar.  So the refinement
    never changes the coordinates of a detected box, and no bar reaches the
    result without having been validated. *)
Theorem refine_detections_provenance (input : Types.DocumentAnalysisResult)
  (options : option Refine.RefineOptions) :
  Forall
    (fun d =>
       (In d (Types.detections input) /\ Refine.isBar d = false) \/
       (exists d0,
           In d0 (Types.detections input) /\ Refine.isBar d0 = true /\
           StageSpec.sameDetection d d0 /\ StageSpec.isValidated d) \/
       (StageSpec.isSynthetic d /\ Refine.isBar d = false))
    (Types.detections (Refine.refineDocumentAnalysis input options)).
Proof.
  apply Forall_forall. intros d Hd.
  destruct (stages_detections (Refine.buildConfig options) input)
    as [Hsrc _].
  cbv zeta in Hsrc.
  assert (Hst : forall d',
            In d' (Refine.st_outDetections
                     (Refine.stages (Refine.buildConfig options) input)) ->
            (In d' (Types.detections input) /\ Refine.isBar d' = false) \/
            (exists d0,
                In d0 (Types.detections input) /\ Refine.isBar d0 = true /\
                StageSpec.sameDetection d' d0 /\ StageSpec.isValidated d') \/
            (StageSpec.isSynthetic d' /\ Refine.isBar d' = false)).
  { intros d' Hd'. destruct (Hsrc d' Hd') as [H|[H|H]].
    - apply filter_In in H. destruct H as [H1 H2]. left.
      split; [exact H1|]. now destruct (Refine.isBar d').
    - destruct H as (d0 & Hd0 & Hs & Hv). apply filter_In in Hd0.
      right. left. exists d0. tauto.
    - right. right. subst d'. split; [|reflexivity].
      eexists. split; reflexivity. }
  destruct (refine_detections_cases input options) as [E|(lbl & pb & El & E)];
    cbv zeta in E; rewrite E in Hd; [now apply Hst|].
  apply in_app_or in Hd. destruct Hd as [Hd|[<-|[]]]; [now apply Hst|].
  right. right. split; [eexists; split; reflexivity|].
  destruct (Types.documentType _); try discriminate;
    injection El as <-; reflexivity.
Qed.

(** X16.  When a refined result has no primary box.  This happens only when
    the input has no primary box and no detection labelled Receipt,
    Document or Screenshot, and its type is Document or Receipt; the summary
    of the result is then the summary of the input.  In particular a result
    of type Screenshot or Unknown always has a primary box. *)
Theorem refine_without_primary_box (input : Types.DocumentAnalysisResult)
  (options : option Refine.RefineOptions) :
  let out := Refine.refineDocumentAnalysis input options in
  Types.primaryBox (Types.summary out) = None ->
  Types.summary out = Types.summary input /\
  (forall d, In d (Types.detections input) ->
             Refine.preferred (Types.label d) = None) /\
  (Types.documentType (Types.summary input) = Types.DOCUMENT \/
   Types.documentType (Types.summary input) = Types.RECEIPT).
Proof.
  intros out. unfold out. rewrite refine_summary.
  set (cfg := Refine.buildConfig options). unfold Refine.stages.
  set (W := Types.width (Types.meta_ input)).
  set (H := Types.height (Types.meta_ input)).
  set (st3 := Refine.stagesToPrimary cfg input).
  intros Hnone.
  assert (Hknown : Types.documentType (Refine.st_summary st3) <> Types.UNKNOWN).
  { intros Hu. destruct (unknownFallback_unknown input W H st3 Hu)
      as (_ & Hb & _).
    cbv zeta in Hb. rewrite Hb in Hnone. discriminate. }
  rewrite (unknownFallback_known input W H st3 Hknown) in Hnone |- *.
  destruct (stages_chain cfg input)
    as (main & n0 & s1 & n1 & s2 & n2 & E0 & E1 & E2 & Ec).
  cbv zeta in Ec. fold W H st3 in Ec, E2.
  set (bars := filter Refine.isBar (Types.detections input)) in *.
  set (rest := filter (fun d => negb (Refine.isBar d))
                 (Types.detections input)) in *.
  set (st0 := Refine.noteDroppedBars bars (Refine.mkState s2 rest n2)) in *.
  set (st1 := Refine.screenshotLogic cfg input W H bars st0) in *.
  set (st2 := Refine.resolveDocumentVsReceipt cfg st1) in *.
  rewrite Ec in Hnone, Hknown |- *.
  apply replacePrimary_box in Hnone.
  destruct (replacePrimary_keeps cfg st2) as (Ht3 & Hc3 & _).
  cbv zeta in Ht3. rewrite Ht3 in Hknown.
  assert (E32 : Refine.replacePrimary cfg st2 = st2).
  { unfold Refine.replacePrimary. now rewrite Hnone. }
  rewrite E32.
  destruct (resolve_trace cfg st1) as (Hb2 & _ & Hid & _).
  cbv zeta in Hb2, Hid. fold st2 in Hb2, Hid.
  rewrite Hb2 in Hnone. rewrite (Hid (or_intror Hnone)) in Hknown |- *.
  destruct (screenshotLogic_trace cfg input W H bars st0) as (Hne & Heq & _).
  cbv zeta in Hne, Heq. fold st1 in Hne, Heq.
  assert (Hns : Types.documentType (Refine.st_summary st0) <> Types.SCREENSHOT).
  { intros Es. destruct (Heq Es) as (Hb & _). contradiction. }
  rewrite (Hne Hns) in Hnone, Hknown |- *.
  destruct (noteDroppedBars_fields bars (Refine.mkState s2 rest n2)) as [Hs0 _].
  fold st0 in Hs0. cbn [Refine.st_summary] in Hs0.
  rewrite Hs0 in Hnone, Hknown, Hns |- *.
  pose proof (establishPrimaryBox_outcome cfg W H main s1 n1) as Ho.
  cbv zeta in Ho. rewrite E2 in Ho. cbn [fst] in Ho. rewrite Hnone in Ho.
  destruct Ho as (Hb1 & Hmain & ->).
  pose proof (pickMainType_facts input (Refine.tol cfg) []) as [_ Hp].
  cbv zeta in Hp. rewrite E0 in Hp. cbn [fst snd] in Hp. rewrite Hmain in Hp.
  destruct Hp as (Htype & _ & _ & Hpref).
  rewrite (retype_same cfg input main n0 (or_intror Htype)) in E1.
  injection E1 as <- _.
  split; [reflexivity|]. split; [exact Hpref|].
  destruct (Types.documentType (Types.summary input)); auto; congruence.
Qed.

Lemma refine_without_primary_box_witness :
  let input :=
    RefineSpec.resultOf 100 100
      (RefineSpec.summaryOf Types.DOCUMENT 0.9 None)
      [Types.mkDet "Stamp" 0.8 (Types.mkBox 1 1 5 5) None] in
  let out := Refine.refineDocumentAnalysis input None in
  Types.primaryBox (Types.summary out) = None /\
  Types.summary out = Types.summary input /\
  (forall d, In d (Types.detections input) ->
             Refine.preferred (Types.label d) = None) /\
  (Types.documentType (Types.summary input) = Types.DOCUMENT \/
   Types.documentType (Types.summary input) = Types.RECEIPT).
Proof.
  cbv zeta.
  assert (Hnone :
    Types.primaryBox
      (Types.summary
         (Refine.refineDocumentAnalysis
            (RefineSpec.resultOf 100 100
               (RefineSpec.summaryOf Types.DOCUMENT 0.9 None)
               [Types.mkDet "Stamp" 0.8 (Types.mkBox 1 1 5 5) None])
            None)) = None) by (vm_compute; reflexivity).
  split; [exact Hnone|].
  exact (refine_without_primary_box _ None Hnone).
Defined.

(** ** Reflecting the primary box, again *)

(** X17.  [upsertPrimaryDetection] changes nothing when it runs a second
    time, provided that the primary box (if there is one) has a positive
    area: the detection that the first run may have appended answers for
    the primary box in the second.  The first run leaves the detections as
    they are or appends one detection to them. *)
Theorem upsert_idempotent (out : Types.DocumentAnalysisResult)
  (notes : list Types.Note) (wantedLbl : option string) :
  (forall pb, Types.primaryBox (Types.summary out) = Some pb ->
              0 < Refine.area pb) ->
  let r := Refine.upsertPrimaryDetection out notes wantedLbl in
  Refine.upsertPrimaryDetection (fst r) (snd r) wantedLbl = r /\
  (Types.detections (fst r) = Types.detections out \/
   exists d, Types.detections (fst r) = Types.detections out ++ [d]).
Proof.
  intros Hpos. cbv zeta.
  destruct (Refine.upsertPrimaryDetection out notes wantedLbl) as [out' notes']
    eqn:Er.
  cbn [fst snd]. unfold Refine.upsertPrimaryDetection in Er |- *.
  destruct (Types.primaryBox (Types.summary out)) as [pb|] eqn:Eb.
  2:{ injection Er as <- <-. rewrite Eb. auto. }
  destruct wantedLbl as [lbl|].
  2:{ injection Er as <- <-. rewrite Eb. auto. }
  destruct (Qle_bool 0.90 (Refine.bestIouWith pb lbl (Types.detections out)))
    eqn:Eq.
  - injection Er as <- <-. rewrite Eb, Eq. auto.
  - injection Er as <- <-. split; [|right; eexists; reflexivity].
    cbn [Types.summary Types.detections]. rewrite Eb.
    assert (Hr : Qle_bool 0.90
              (Refine.bestIouWith pb lbl
                 (Types.detections out ++
                  [Refine.syntheticPrimary lbl (Types.summary out) pb])) = true).
    { apply bestIouWith_reaches.
      exists (Refine.syntheticPrimary lbl (Types.summary out) pb). split.
      - apply in_or_app. right. now left.
      - split; [reflexivity|]. cbn [Refine.syntheticPrimary Types.box].
        rewrite (iou_same pb (Hpos pb eq_refl)). discriminate. }
    now rewrite Hr.
Qed.

Lemma upsert_idempotent_witness :
  let out :=
    RefineSpec.resultOf 100 100
      (RefineSpec.summaryOf Types.DOCUMENT 0.9 (Some (Types.mkBox 0 0 50 50)))
      [] in
  let r := Refine.upsertPrimaryDetection out [] (Some "Document"%string) in
  Refine.upsertPrimaryDetection (fst r) (snd r) (Some "Document"%string) = r /\
  (Types.detections (fst r) = Types.detections out \/
   exists d, Types.detections (fst r) = Types.detections out ++ [d]).
Proof.
  cbv zeta.
  apply (upsert_idempotent
           (RefineSpec.resultOf 100 100
              (RefineSpec.summaryOf Types.DOCUMENT 0.9
                 (Some (Types.mkBox 0 0 50 50))) [])
           [] (Some "Document"%string)).
  intros pb E. injection E as <-. reflexivity.
Defined.

(** ** Document against Receipt *)

Section Conflict.
Import Js Types Refine StageSpec.

Lemma Qmax_cases (a b : Q) : (Qmax a b = a \/ Qmax a b = b).
Proof.
  unfold Qmax, GenericMinMax.gmax. destruct (a ?= b); auto.
Qed.

Lemma fold_Qmax_max (l : list Q) :
  forall v,
    (fold_left Qmax l v = v \/ In (fold_left Qmax l v) l) /\
    v <= fold_left Qmax l v /\
    (forall x, In x l -> x <= fold_left Qmax l v).
Proof.
  induction l as [|a l IH]; intros v; simpl.
  - split; [now left|]. split; [apply Qle_refl | intros x []].
  - destruct (IH (Qmax v a)) as (Hin & Hle & Hall).
    pose proof (Q.le_max_l v a). pose proof (Q.le_max_r v a).
    split; [|split].
    + destruct Hin as [E|Hin]; [|right; now right].
      rewrite E. destruct (Qmax_cases v a) as [E'|E']; rewrite E'; auto.
    + lra.
    + intros x [<-|Hx]; [lra | now apply Hall].
Qed.

Lemma mathMax_max (l : list Q) :
  l <> [] -> In (mathMax l) l /\ forall x, In x l -> x <= mathMax l.
Proof.
  destruct l as [|v l]; [congruence|]. intros _. unfold mathMax.
  destruct (fold_Qmax_max l v) as (Hin & Hle & Hall).
  split.
  - destruct Hin as [E|Hin]; [rewrite E; now left | now right].
  - intros x [<-|Hx]; [exact Hle | now apply Hall].
Qed.

Lemma hasLabel_filter (lbl : string) (dets : list DetectionAxisAligned) :
  hasLabel lbl dets = negb (Nat.eqb (List.length (filter (hasLabelEq lbl) dets)) 0).
Proof.
  unfold hasLabel, hasLabelEq.
  induction dets as [|d dets IH]; simpl; [reflexivity|].
  destruct (String.eqb (label d) lbl); simpl; [reflexivity | exact IH].
Qed.

Lemma keep_filter (keepDocument : bool) (dets : list DetectionAxisAligned) :
  filter
    (fun d =>
       (String.eqb (label d) (if keepDocument then "Document" else "Receipt") ||
        (negb (String.eqb (label d) "Document") &&
         negb (String.eqb (label d) "Receipt")))%bool)
    dets =
  without (if keepDocument then "Receipt" else "Document") dets.
Proof.
  unfold without. apply filter_ext. intros d.
  destruct (String.eqb (label d) "Document") eqn:Ed;
  destruct (String.eqb (label d) "Receipt") eqn:Er;
    destruct keepDocument; rewrite ?Ed, ?Er; try reflexivity.
  all: apply String.eqb_eq in Ed, Er; congruence.
Qed.

Lemma resolve_facts (cfg : FullRefineConfig) (st : State) (pb : Box) :
  allowRetype cfg = true ->
  primaryBox (st_summary st) = Some pb ->
  hasLabel "Document" (st_outDetections st) = true ->
  hasLabel "Receipt" (st_outDetections st) = true ->
  let st' := resolveDocumentVsReceipt cfg st in
  let docWins :=
    Qle_bool (strength pb "Receipt" (st_outDetections st))
      (strength pb "Document" (st_outDetections st)) in
  st_outDetections st' =
    without (if docWins then "Receipt" else "Document") (st_outDetections st) /\
  documentType (st_summary st') = (if docWins then DOCUMENT else RECEIPT) /\
  primaryBox (st_summary st') = Some pb /\
  (documentType (st_summary st) = (if docWins then DOCUMENT else RECEIPT) ->
   st_summary st' = st_summary st) /\
  (documentType (st_summary st) <> (if docWins then DOCUMENT else RECEIPT) ->
   confidence (st_summary st') =
     Some (mathMax (map score
             (filter (hasLabelEq (if docWins then "Document" else "Receipt"))
                (st_outDetections st))))).
Proof.
  intros Ha Hb Hd Hr. cbv zeta. unfold resolveDocumentVsReceipt.
  rewrite Hb. rewrite hasLabel_filter in Hd, Hr. rewrite Hd, Hr, Ha.
  cbn [andb]. fold (strength pb "Document" (st_outDetections st)).
  fold (strength pb "Receipt" (st_outDetections st)).
  set (docWins := Qle_bool _ _).
  rewrite keep_filter.
  destruct (DocumentType_eqb (documentType (st_summary st))
              (if docWins then DOCUMENT else RECEIPT)) eqn:Et; cbn [negb].
  - assert (E : documentType (st_summary st) =
                (if docWins then DOCUMENT else RECEIPT)).
    { destruct (documentType (st_summary st)), docWins;
        try discriminate; reflexivity. }
    cbn [st_summary st_outDetections]. repeat split; try assumption.
    intros Hne. contradiction.
  - assert (E : documentType (st_summary st) <>
                (if docWins then DOCUMENT else RECEIPT)).
    { intros E. rewrite E in Et. destruct docWins; discriminate. }
    cbn [st_summary st_outDetections documentType primaryBox confidence
         setConfidence setDocumentType].
    repeat split; try assumption; try contradiction.
    intros _. destruct docWins; reflexivity.
Qed.

End Conflict.



(** ** Cropping *)

(** X19.  The region that [cropByDetection] extracts.  Its left and top are
    never negative and its width and height are at least 1.  It does not
    depend on which corner of the box comes first.  For a box with a
    non-negative left and top, at least one pixel wide and high, it is the
    box itself.  The clamping of the left edge does not shorten the width:
    for a box that starts left of the image and ends in it, the region ends
    to the right of the box. *)
Theorem crop_region (det : Types.DetectionAxisAligned) :
  let r := Crop.cropByDetection det in
  let b := Types.box det in
  (0 <= Crop.left r /\ 0 <= Crop.top r /\
   1 <= Crop.r_width r /\ 1 <= Crop.r_height r) /\
  (let r' := Crop.cropByDetection (Crop.flipped det) in
   Crop.left r' == Crop.left r /\ Crop.top r' == Crop.top r /\
   Crop.r_width r' == Crop.r_width r /\ Crop.r_height r' == Crop.r_height r) /\
  (0 <= Types.x1 b -> Types.x1 b + 1 <= Types.x2 b ->
   0 <= Types.y1 b -> Types.y1 b + 1 <= Types.y2 b ->
   Crop.left r == Types.x1 b /\ Crop.top r == Types.y1 b /\
   Crop.left r + Crop.r_width r == Types.x2 b /\
   Crop.top r + Crop.r_height r == Types.y2 b) /\
  (Types.x1 b < 0 -> 0 <= Types.x2 b ->
   Types.x2 b < Crop.left r + Crop.r_width r).
Proof.
  cbv zeta. unfold Crop.cropByDetection, Crop.flipped.
  destruct det as [lbl sc [bx1 by1 bx2 by2] m].
  cbn [Types.box Types.x1 Types.y1 Types.x2 Types.y2 Crop.left Crop.top
       Crop.r_width Crop.r_height].
  split; [repeat split; apply Q.le_max_l|].
  split.
  { repeat split.
    - now rewrite (Q.min_comm bx2 bx1).
    - now rewrite (Q.min_comm by2 by1).
    - assert (E : bx1 - bx2 == - (bx2 - bx1)) by ring.
      now rewrite E, Qabs_opp.
    - assert (E : by1 - by2 == - (by2 - by1)) by ring.
      now rewrite E, Qabs_opp. }
  split.
  - intros Hx1 Hx Hy1 Hy.
    rewrite (Q.min_l bx1 bx2), (Q.min_l by1 by2) by lra.
    rewrite (Q.max_r 0 bx1), (Q.max_r 0 by1) by assumption.
    rewrite (Qabs_pos (bx2 - bx1)), (Qabs_pos (by2 - by1)) by lra.
    rewrite (Q.max_r 1 (bx2 - bx1)), (Q.max_r 1 (by2 - by1)) by lra.
    repeat split; ring.
  - intros Hx1 Hx2.
    pose proof (Q.le_max_l 0 (Qmin bx1 bx2)).
    pose proof (Q.le_max_r 1 (Qabs (bx2 - bx1))).
    pose proof (Qle_Qabs (bx2 - bx1)). lra.
Qed.

(** ** The analyzer *)

Section AnalyzerFacts.
Import Js Types Analyzer AnalyzerSpec.

Lemma top_fold (l : list DetectionAxisAligned) :
  forall before best after,
    (forall d, In d before -> score d < score best) ->
    (forall d, In d after -> score d <= score best) ->
    firstGreatest (before ++ best :: after ++ l)
      (fold_left
         (fun best cur =>
            if Qlt_bool (score best) (score cur) then cur else best)
         l best).
Proof.
  induction l as [|cur l IH]; intros before best after Hb Ha; simpl.
  - rewrite app_nil_r. now exists before, after.
  - destruct (Qlt_bool (score best) (score cur)) eqn:E.
    + apply Qlt_bool_iff in E.
      replace (before ++ best :: after ++ cur :: l)
        with ((before ++ best :: after) ++ cur :: [] ++ l)
        by (rewrite <- app_assoc; reflexivity).
      apply IH; [|intros d []].
      intros d Hd. apply in_app_or in Hd.
      destruct Hd as [Hd|[<-|Hd]]; [specialize (Hb d Hd)| |specialize (Ha d Hd)];
        lra.
    + apply Qlt_bool_false_iff in E.
      replace (before ++ best :: after ++ cur :: l)
        with (before ++ best :: (after ++ [cur]) ++ l)
        by (rewrite <- app_assoc; reflexivity).
      apply IH; [exact Hb|].
      intros d Hd. apply in_app_or in Hd.
      destruct Hd as [Hd|[<-|[]]]; [now apply Ha | exact E].
Qed.

Lemma topDetection_facts (dets : list DetectionAxisAligned) :
  match topDetection dets with
  | None => dets = []
  | Some t => firstGreatest dets t
  end.
Proof.
  destruct dets as [|first others]; [reflexivity|].
  unfold topDetection.
  apply (top_fold others [] first []); intros d [].
Qed.

Lemma firstGreatest_In (dets : list DetectionAxisAligned)
  (t : DetectionAxisAligned) :
  firstGreatest dets t ->
  In t dets /\ forall d, In d dets -> score d <= score t.
Proof.
  intros (before & after & -> & Hb & Ha). split.
  - apply in_or_app. right. now left.
  - intros d Hd. apply in_app_or in Hd.
    destruct Hd as [Hd|[<-|Hd]]; [specialize (Hb d Hd); lra | lra | now apply Ha].
Qed.

End AnalyzerFacts.

Section AnalyzeFacts.
Import Js Types Analyzer AnalyzerSpec Processor.
Variable basename : string -> string.
Variable BackgroundType_UNKNOWN : string.

Lemma Qeq_bool_false (x y : Q) : ~ x == y -> Qeq_bool x y = false.
Proof.
  intros H. destruct (Qeq_bool x y) eqn:E; [|reflexivity].
  apply Qeq_bool_eq in E. contradiction.
Qed.

Lemma getImageMetadata_facts (m : SharpMetadata) :
  match getImageMetadata m with
  | inl meta =>
      m_width m = Some (i_width meta) /\ m_height m = Some (i_height meta) /\
      ~ i_width meta == 0 /\ ~ i_height meta == 0 /\
      i_density meta = m_density m
  | inr (InvalidSize w h) =>
      noSize m /\ w = Refine.orElse (m_width m) 0 /\
      h = Refine.orElse (m_height m) 0
  end.
Proof.
  unfold getImageMetadata, noSize.
  destruct (Qeq_bool (Refine.orElse (m_width m) 0) 0) eqn:Ew; cbn [orb].
  - apply Qeq_bool_eq in Ew. auto.
  - destruct (Qeq_bool (Refine.orElse (m_height m) 0) 0) eqn:Eh.
    + apply Qeq_bool_eq in Eh. auto.
    + cbn [i_width i_height i_density].
      apply Qeq_bool_neq in Ew, Eh.
      destruct (m_width m) as [w|]; [|exfalso; now apply Ew].
      destruct (m_height m) as [h|]; [|exfalso; now apply Eh].
      cbn [Refine.orElse] in *. auto.
Qed.

Lemma analyze_unrefined (classNames : list string) (src : Src) (ob : Observed)
  (result : DocumentAnalysisResult) :
  analyze basename BackgroundType_UNKNOWN classNames src ob None = inl result ->
  detections result = ob_detections ob /\
  (ob_detections ob = [] ->
   documentType (summary result) = UNKNOWN /\
   confidence (summary result) = Some 0 /\
   primaryBox (summary result) = None) /\
  (ob_detections ob <> [] ->
   exists t,
     firstGreatest (ob_detections ob) t /\
     documentType (summary result) = mapLabelToType (Some (label t)) /\
     confidence (summary result) = Some (score t) /\
     primaryBox (summary result) = Some (box t)) /\
  (exists q,
      quality (summary result) = Some q /\
      isPartial q = Some false /\
      edgeIntensity q = Some (ob_edgeIntensity ob) /\
      (exists r, readabilityScore q = Some r /\ r <= 1 /\
                 (0 <= ob_edgeIntensity ob -> 0 <= r)) /\
      (ob_edgeIntensity ob < 0.01 -> clarity q = Some Low) /\
      (0.05 < ob_edgeIntensity ob -> clarity q = Some High) /\
      (0.01 <= ob_edgeIntensity ob <= 0.05 -> clarity q = Some Medium)) /\
  (m_width (ob_meta ob) = Some (width (meta_ result)) /\
   m_height (ob_meta ob) = Some (height (meta_ result)) /\
   ~ width (meta_ result) == 0 /\ ~ height (meta_ result) == 0 /\
   aspectRatio (meta_ result) =
     width (meta_ result) / height (meta_ result)).
Proof.
  unfold analyze.
  pose proof (getImageMetadata_facts (ob_meta ob)) as Hm.
  destruct (getImageMetadata (ob_meta ob)) as [meta|e]; [|discriminate].
  intros E. injection E as <-.
  cbn [detections summary documentType confidence primaryBox quality meta_
       width height aspectRatio].
  destruct Hm as (Hw & Hh & Hnw & Hnh & _).
  split; [reflexivity|].
  pose proof (topDetection_facts (ob_detections ob)) as Ht.
  split; [|split; [|split]].
  - intros E. rewrite E. cbn. auto.
  - intros Hne. destruct (topDetection (ob_detections ob)) as [t|];
      [|contradiction].
    exists t. cbn [option_map]. auto.
  - eexists. split; [reflexivity|].
    cbn [isPartial edgeIntensity readabilityScore clarity].
    split; [reflexivity|]. split; [reflexivity|]. split; [|split; [|split]].
    + eexists. split; [reflexivity|]. split; [apply Q.le_min_r|].
      intros He. apply Q.min_glb; lra.
    + intros Hl. unfold clarityOf.
      apply Qlt_bool_iff in Hl. now rewrite Hl.
    + intros Hl. unfold clarityOf.
      assert (E1 : Qlt_bool (ob_edgeIntensity ob) 0.01 = false)
        by (apply Qlt_bool_false_iff; lra).
      apply Qlt_bool_iff in Hl. now rewrite E1, Hl.
    + intros [Hl Hu]. unfold clarityOf.
      assert (E1 : Qlt_bool (ob_edgeIntensity ob) 0.01 = false)
        by (now apply Qlt_bool_false_iff).
      assert (E2 : Qlt_bool 0.05 (ob_edgeIntensity ob) = false)
        by (now apply Qlt_bool_false_iff).
      now rewrite E1, E2.
  - repeat split; try assumption.
    now rewrite (Qeq_bool_false _ _ Hnw), (Qeq_bool_false _ _ Hnh).
Qed.

Lemma analyze_refined (classNames : list string) (src : Src) (ob : Observed)
  (opts : option AnalyzeOptions) :
  analyze basename BackgroundType_UNKNOWN classNames src ob opts =
  match analyze basename BackgroundType_UNKNOWN classNames src ob None, opts with
  | inl result, Some o =>
      if Refine.orElse (refine o) false
      then inl (Refine.refineDocumentAnalysis result (refineOptions o))
      else inl result
  | r, _ => r
  end.
Proof.
  unfold analyze.
  destruct (getImageMetadata (ob_meta ob)) as [meta|e];
    destruct opts as [o|]; reflexivity.
Qed.

Lemma analyze_failed (classNames : list string) (src : Src) (ob : Observed)
  (opts : option AnalyzeOptions) :
  failed (analyze basename BackgroundType_UNKNOWN classNames src ob opts) <->
  noSize (ob_meta ob).
Proof.
  unfold analyze.
  pose proof (getImageMetadata_facts (ob_meta ob)) as Hm.
  destruct (getImageMetadata (ob_meta ob)) as [meta|[w h]].
  - destruct Hm as (Hw & Hh & Hnw & Hnh & _).
    assert (Hok : ~ noSize (ob_meta ob)).
    { unfold noSize. rewrite Hw, Hh. cbn [Refine.orElse]. tauto. }
    destruct opts as [o|]; [destruct (Refine.orElse (refine o) false)|];
      cbn [failed]; tauto.
  - cbn [failed]. tauto.
Qed.

End AnalyzeFacts.

(** X20.  The result that [analyze] builds when no refinement is asked for.
    Its detections are those of the detector.  With no detection, the type
    is Unknown, the confidence 0 and there is no primary box.  Otherwise the
    summary follows the first detection of greatest score: the type is the
    one that [mapLabelToType] gives its label, the confidence is its score
    and the primary box is its box.  The quality says [isPartial: false],
    carries the edge intensity, a readability score that is at most 1 (and
    not negative when the edge intensity is not), and the clarity [low]
    below an edge intensity of 0.01, [high] above 0.05 and [medium] in
    between.  The width and the height of the metadata are the ones that
    sharp reports, neither is zero, and the aspect ratio is their
    quotient. *)
Theorem analyze_builds (basename : string -> string)
  (BackgroundType_UNKNOWN : string) (classNames : list string)
  (src : Analyzer.Src) (ob : Analyzer.Observed)
  (result : Types.DocumentAnalysisResult) :
  Analyzer.analyze basename BackgroundType_UNKNOWN classNames src ob None =
    inl result ->
  Types.detections result = Analyzer.ob_detections ob /\
  (Analyzer.ob_detections ob = [] ->
   Types.documentType (Types.summary result) = Types.UNKNOWN /\
   Types.confidence (Types.summary result) = Some 0 /\
   Types.primaryBox (Types.summary result) = None) /\
  (Analyzer.ob_detections ob <> [] ->
   exists t,
     AnalyzerSpec.firstGreatest (Analyzer.ob_detections ob) t /\
     Types.documentType (Types.summary result) =
       Analyzer.mapLabelToType (Some (Types.label t)) /\
     Types.confidence (Types.summary result) = Some (Types.score t) /\
     Types.primaryBox (Types.summary result) = Some (Types.box t)) /\
  (exists q,
      Types.quality (Types.summary result) = Some q /\
      Types.isPartial q = Some false /\
      Types.edgeIntensity q = Some (Analyzer.ob_edgeIntensity ob) /\
      (exists r, Types.readabilityScore q = Some r /\ r <= 1 /\
                 (0 <= Analyzer.ob_edgeIntensity ob -> 0 <= r)) /\
      (Analyzer.ob_edgeIntensity ob < 0.01 ->
       Types.clarity q = Some Types.Low) /\
      (0.05 < Analyzer.ob_edgeIntensity ob ->
       Types.clarity q = Some Types.High) /\
      (0.01 <= Analyzer.ob_edgeIntensity ob <= 0.05 ->
       Types.clarity q = Some Types.Medium)) /\
  (Processor.m_width (Analyzer.ob_meta ob) =
     Some (Types.width (Types.meta_ result)) /\
   Processor.m_height (Analyzer.ob_meta ob) =
     Some (Types.height (Types.meta_ result)) /\
   ~ Types.width (Types.meta_ result) == 0 /\
   ~ Types.height (Types.meta_ result) == 0 /\
   Types.aspectRatio (Types.meta_ result) =
     Types.width (Types.meta_ result) / Types.height (Types.meta_ result)).
Proof. apply analyze_unrefined. Qed.

Lemma analyze_builds_witness :
  exists result t,
    Analyzer.analyze (fun p => p) "unknown" ["Receipt"; "Document"]%string
      (Analyzer.Path "a.jpg") AnalyzerSpec.threeDetected None = inl result /\
    AnalyzerSpec.firstGreatest
      (Analyzer.ob_detections AnalyzerSpec.threeDetected) t /\
    Types.box t = Types.mkBox 10 10 700 500 /\
    Types.primaryBox (Types.summary result) = Some (Types.box t) /\
    Types.documentType (Types.summary result) = Types.DOCUMENT.
Proof.
  destruct (Analyzer.analyze (fun p => p) "unknown"
              ["Receipt"; "Document"]%string (Analyzer.Path "a.jpg")
              AnalyzerSpec.threeDetected None) as [result|e] eqn:E;
    [|vm_compute in E; discriminate E].
  destruct (analyze_builds _ _ _ _ _ _ E) as (_ & _ & Htop & _).
  destruct Htop as (t & Ht & Hty & _ & Hbox); [discriminate|].
  exists result, t. split; [reflexivity|]. split; [exact Ht|].
  assert (Hb : Types.primaryBox (Types.summary result) =
               Some (Types.mkBox 10 10 700 500)).
  { vm_compute in E. injection E as <-. reflexivity. }
  rewrite Hbox in Hb. injection Hb as Hb.
  split; [exact Hb|]. split; [exact Hbox|].
  vm_compute in E. injection E as <-. reflexivity.
Defined.

Section AnalyzeRefined.
Import Js Types Analyzer AnalyzerSpec Processor.
Variable basename : string -> string.
Variable BackgroundType_UNKNOWN : string.

Lemma analyze_nothing (classNames : list string) (src : Src) (ob : Observed)
  (o : AnalyzeOptions) :
  refine o = Some true ->
  ob_detections ob = [] -> ~ noSize (ob_meta ob) ->
  exists result W H,
    analyze basename BackgroundType_UNKNOWN classNames src ob (Some o) =
      inl result /\
    m_width (ob_meta ob) = Some W /\ m_height (ob_meta ob) = Some H /\
    documentType (summary result) = UNKNOWN /\
    primaryBox (summary result) = Some (mkBox 0 0 W H) /\
    detections result = [Refine.fullDoc W H] /\
    StageSpec.flaggedPartial (summary result) = false.
Proof.
  intros Hr Hd Hsize.
  rewrite analyze_refined.
  destruct (analyze basename BackgroundType_UNKNOWN classNames src ob None)
    as [result0|e] eqn:E0.
  2:{ exfalso. apply Hsize.
      apply (analyze_failed basename BackgroundType_UNKNOWN classNames src ob
               None).
      now rewrite E0. }
  destruct (analyze_unrefined basename BackgroundType_UNKNOWN classNames src ob
              result0 E0) as (Hdets & Hempty & _ & _ & Hw & Hh & _).
  destruct (Hempty Hd) as (Ht & _ & Hb). rewrite Hd in Hdets.
  rewrite Hr. cbn [Refine.orElse].
  exists (Refine.refineDocumentAnalysis result0 (refineOptions o)),
    (width (meta_ result0)), (height (meta_ result0)).
  split; [reflexivity|]. split; [exact Hw|]. split; [exact Hh|].
  set (cfg := Refine.buildConfig (refineOptions o)).
  assert (Est : Refine.stages cfg result0 =
                Refine.unknownFallback result0 (width (meta_ result0))
                  (height (meta_ result0))
                  (Refine.mkState (summary result0) [] [])).
  { unfold Refine.stages. now rewrite (stagesToPrimary_empty cfg result0 Hdets Ht Hb). }
  destruct (unknownFallback_unknown result0 (width (meta_ result0))
              (height (meta_ result0))
              (Refine.mkState (summary result0) [] []) Ht)
    as (Hout & Hbox & Hq).
  cbv zeta in Hout, Hbox, Hq. rewrite <- Est in Hout, Hbox, Hq.
  cbn [Refine.st_summary Refine.st_outDetections] in Hout, Hbox, Hq.
  assert (Hnear : Refine.hasNearFullDoc result0 (width (meta_ result0))
                    (height (meta_ result0)) = false).
  { unfold Refine.hasNearFullDoc. now rewrite Hdets. }
  rewrite Hnear in Hout. rewrite Hb in Hbox. cbn [Refine.orElse] in Hbox.
  assert (Htype : documentType (Refine.st_summary (Refine.stages cfg result0)) =
                  UNKNOWN).
  { rewrite Est, unknownFallback_type. exact Ht. }
  rewrite refine_summary. fold cfg.
  split; [exact Htype|]. split; [exact Hbox|]. split.
  - pose proof (refine_detections result0 (refineOptions o)) as Ed.
    cbv zeta in Ed. fold cfg in Ed. rewrite Ed, Hbox, Htype.
    cbn [Refine.wantedLblOf]. exact Hout.
  - unfold StageSpec.flaggedPartial. now rewrite Hq.
Qed.

End AnalyzeRefined.

(** X21.  [analyze] with the refinement asked for.  It returns what
    [refineDocumentAnalysis], given the refine options, makes of the result
    that it builds without refinement.  When the detector finds nothing in
    an image that has a size, the result is of type Unknown, its primary box
    is the full frame, its only detection is the synthetic full-frame
    Document, and [isPartial] is not set. *)
Theorem analyze_with_refine (basename : string -> string)
  (BackgroundType_UNKNOWN : string) (classNames : list string)
  (src : Analyzer.Src) (ob : Analyzer.Observed)
  (o : Analyzer.AnalyzeOptions) :
  Analyzer.refine o = Some true ->
  (forall result0,
      Analyzer.analyze basename BackgroundType_UNKNOWN classNames src ob None =
        inl result0 ->
      Analyzer.analyze basename BackgroundType_UNKNOWN classNames src ob
        (Some o) =
        inl (Refine.refineDocumentAnalysis result0 (Analyzer.refineOptions o))) /\
  (Analyzer.ob_detections ob = [] ->
   ~ AnalyzerSpec.noSize (Analyzer.ob_meta ob) ->
   exists result W H,
     Analyzer.analyze basename BackgroundType_UNKNOWN classNames src ob
       (Some o) = inl result /\
     Processor.m_width (Analyzer.ob_meta ob) = Some W /\
     Processor.m_height (Analyzer.ob_meta ob) = Some H /\
     Types.documentType (Types.summary result) = Types.UNKNOWN /\
     Types.primaryBox (Types.summary result) = Some (Types.mkBox 0 0 W H) /\
     Types.detections result = [Refine.fullDoc W H] /\
     StageSpec.flaggedPartial (Types.summary result) = false).
Proof.
  intros Hr. split.
  - intros result0 E0. rewrite analyze_refined, E0, Hr. reflexivity.
  - now apply analyze_nothing.
Qed.

Lemma analyze_with_refine_witness :
  exists result,
    Analyzer.analyze (fun p => p) "unknown" ["Receipt"; "Document"]%string
      (Analyzer.Path "a.jpg") AnalyzerSpec.nothingDetected
      (Some (Analyzer.mkAnalyzeOptions (Some true) None)) = inl result /\
    Types.primaryBox (Types.summary result) = Some (Types.mkBox 0 0 800 600) /\
    Types.detections result = [Refine.fullDoc 800 600].
Proof.
  destruct (analyze_with_refine (fun p => p) "unknown"
              ["Receipt"; "Document"]%string (Analyzer.Path "a.jpg")
              AnalyzerSpec.nothingDetected
              (Analyzer.mkAnalyzeOptions (Some true) None) eq_refl)
    as [_ Hn].
  destruct Hn as (result & W & H & E & Hw & Hh & _ & Hb & Hd & _);
    [reflexivity | intros [E|E]; discriminate E |].
  injection Hw as <-. injection Hh as <-.
  exists result. split; [exact E|]. split; [exact Hb | exact Hd].
Defined.

(** X22.  How [analyze] ends.  It awaits, in this order, [initialize] when
    the detector is not ready, the metadata of the image, the colours, the
    edge intensity and the detections, and it rejects with the error of the
    first of these calls that throws, without making the later ones.
    Between the metadata and the colours it rejects for a width or a height
    that is missing or zero, with the size that it found, 0 standing for a
    missing number.  When every call returns and the size is there, it
    returns the result built from what the calls returned, whatever the
    options; so it returns a result exactly when the detector is ready or
    gets ready, every call returns and the image has a size. *)
Theorem analyze_failures (basename : string -> string)
  (BackgroundType_UNKNOWN : string) (classNames : list string)
  (src : Analyzer.Src) (calls : Analyzer.Calls)
  (opts : option Analyzer.AnalyzeOptions) :
  let r :=
    Analyzer.analyzeAwaiting basename BackgroundType_UNKNOWN classNames src
      calls opts in
  (forall m,
      Analyzer.c_isReady calls = false ->
      Analyzer.c_initialize calls = Analyzer.Threw m ->
      r = inr (Analyzer.Rejected m)) /\
  (AnalyzerSpec.started calls ->
   (forall m,
       Analyzer.c_metadata calls = Analyzer.Threw m ->
       r = inr (Analyzer.Rejected m)) /\
   (forall meta,
       Analyzer.c_metadata calls = Analyzer.Returned meta ->
       (AnalyzerSpec.noSize meta ->
        r = inr (Analyzer.InvalidImage
                   (Processor.InvalidSize
                      (Refine.orElse (Processor.m_width meta) 0)
                      (Refine.orElse (Processor.m_height meta) 0)))) /\
       (~ AnalyzerSpec.noSize meta ->
        (forall m,
            Analyzer.c_colors calls = Analyzer.Threw m ->
            r = inr (Analyzer.Rejected m)) /\
        (forall colors,
            Analyzer.c_colors calls = Analyzer.Returned colors ->
            (forall m,
                Analyzer.c_edgeIntensity calls = Analyzer.Threw m ->
                r = inr (Analyzer.Rejected m)) /\
            (forall edge,
                Analyzer.c_edgeIntensity calls = Analyzer.Returned edge ->
                (forall m,
                    Analyzer.c_detectObjects calls = Analyzer.Threw m ->
                    r = inr (Analyzer.Rejected m)) /\
                (forall dets,
                    Analyzer.c_detectObjects calls = Analyzer.Returned dets ->
                    exists result,
                      r = inl result /\
                      Analyzer.analyze basename BackgroundType_UNKNOWN
                        classNames src
                        (Analyzer.mkObserved meta colors edge dets
                           (Analyzer.c_now calls)) opts = inl result)))))) /\
  ((exists result, r = inl result) <->
   AnalyzerSpec.started calls /\
   exists meta colors edge dets,
     Analyzer.c_metadata calls = Analyzer.Returned meta /\
     ~ AnalyzerSpec.noSize meta /\
     Analyzer.c_colors calls = Analyzer.Returned colors /\
     Analyzer.c_edgeIntensity calls = Analyzer.Returned edge /\
     Analyzer.c_detectObjects calls = Analyzer.Returned dets).
Proof.
  cbv zeta. unfold Analyzer.analyzeAwaiting, AnalyzerSpec.started.
  assert (Hmeta : forall meta,
             match Processor.getImageMetadata meta with
             | inl _ => ~ AnalyzerSpec.noSize meta
             | inr e =>
                 AnalyzerSpec.noSize meta /\
                 e = Processor.InvalidSize
                       (Refine.orElse (Processor.m_width meta) 0)
                       (Refine.orElse (Processor.m_height meta) 0)
             end).
  { intros meta. pose proof (getImageMetadata_facts meta) as Hm.
    destruct (Processor.getImageMetadata meta) as [im|[w h]].
    - destruct Hm as (Hw & Hh & Hnw & Hnh & _).
      unfold AnalyzerSpec.noSize. rewrite Hw, Hh. cbn [Refine.orElse]. tauto.
    - destruct Hm as (Hs & -> & ->). auto. }
  assert (Hok : forall ob,
             ~ AnalyzerSpec.noSize (Analyzer.ob_meta ob) ->
             exists result,
               Analyzer.analyze basename BackgroundType_UNKNOWN classNames src
                 ob opts = inl result).
  { intros ob Hn.
    pose proof (analyze_failed basename BackgroundType_UNKNOWN classNames src
                  ob opts) as Hf.
    destruct (Analyzer.analyze basename BackgroundType_UNKNOWN classNames src
                ob opts) as [result|e].
    - now exists result.
    - exfalso. apply Hn, Hf. exact I. }
  split; [|split].
  - intros m -> ->. reflexivity.
  - intros Hs.
    assert (E : (if Analyzer.c_isReady calls then Analyzer.Returned tt
                 else Analyzer.c_initialize calls) = Analyzer.Returned tt)
      by (destruct Hs as [-> | Hs]; [reflexivity|];
          destruct (Analyzer.c_isReady calls); [reflexivity|exact Hs]).
    rewrite E. split; [intros m ->; reflexivity|].
    intros meta ->. specialize (Hmeta meta).
    destruct (Processor.getImageMetadata meta) as [im|e].
    + split; [intros Hn; contradiction|]. intros _.
      split; [intros m ->; reflexivity|]. intros colors ->.
      split; [intros m ->; reflexivity|]. intros edge ->.
      split; [intros m ->; reflexivity|]. intros dets ->.
      destruct (Hok (Analyzer.mkObserved meta colors edge dets
                       (Analyzer.c_now calls)) Hmeta) as (result & Hr).
      exists result. rewrite Hr. auto.
    + destruct Hmeta as [Hn ->]. split; [reflexivity|].
      intros Hc. contradiction.
  - split.
    + intros (result & Hr).
      destruct (Analyzer.c_isReady calls) eqn:Er.
      * destruct (Analyzer.c_metadata calls) as [meta|m]; [|discriminate].
        specialize (Hmeta meta).
        destruct (Processor.getImageMetadata meta) as [im|e];
          [|discriminate].
        destruct (Analyzer.c_colors calls) as [colors|m]; [|discriminate].
        destruct (Analyzer.c_edgeIntensity calls) as [edge|m];
          [|discriminate].
        destruct (Analyzer.c_detectObjects calls) as [dets|m];
          [|discriminate].
        split; [now left|]. exists meta, colors, edge, dets. auto.
      * destruct (Analyzer.c_initialize calls) as [[]|m]; [|discriminate].
        destruct (Analyzer.c_metadata calls) as [meta|m]; [|discriminate].
        specialize (Hmeta meta).
        destruct (Processor.getImageMetadata meta) as [im|e];
          [|discriminate].
        destruct (Analyzer.c_colors calls) as [colors|m]; [|discriminate].
        destruct (Analyzer.c_edgeIntensity calls) as [edge|m];
          [|discriminate].
        destruct (Analyzer.c_detectObjects calls) as [dets|m];
          [|discriminate].
        split; [now right|]. exists meta, colors, edge, dets. auto.
    + intros (Hs & meta & colors & edge & dets & -> & Hn & -> & -> & ->).
      assert (E : (if Analyzer.c_isReady calls then Analyzer.Returned tt
                   else Analyzer.c_initialize calls) = Analyzer.Returned tt)
        by (destruct Hs as [-> | Hs]; [reflexivity|];
            destruct (Analyzer.c_isReady calls); [reflexivity|exact Hs]).
      rewrite E. specialize (Hmeta meta).
      destruct (Processor.getImageMetadata meta) as [im|e];
        [|destruct Hmeta; contradiction].
      destruct (Hok (Analyzer.mkObserved meta colors edge dets
                       (Analyzer.c_now calls)) Hn) as (result & Hr).
      exists result. now rewrite Hr.
Qed.

Section Labels.
Import Js Types Analyzer.

Lemma toLowerChar_idem (c : Ascii.ascii) :
  toLowerChar (toLowerChar c) = toLowerChar c.
Proof.
  destruct c as [[] [] [] [] [] [] [] []]; vm_compute; reflexivity.
Qed.

Lemma toLowerCase_idem (s : string) : toLowerCase (toLowerCase s) = toLowerCase s.
Proof.
  induction s as [|c s IH]; simpl; [reflexivity|].
  now rewrite toLowerChar_idem, IH.
Qed.

Lemma mapLabelToType_lower (l : string) :
  mapLabelToType (Some (toLowerCase l)) = mapLabelToType (Some l).
Proof.
  destruct l as [|c l]; [reflexivity|].
  unfold mapLabelToType. cbn [toLowerCase].
  now rewrite toLowerChar_idem, toLowerCase_idem.
Qed.

Lemma includes_nonempty (s sub : string) :
  sub <> EmptyString -> includes s sub = true -> s <> EmptyString.
Proof.
  intros Hsub H E. subst s. destruct sub; [congruence|]. discriminate.
Qed.

End Labels.

(** X23.  [mapLabelToType], the type that the analyzer gives a label.  An
    absent or empty label gives Unknown.  The case of the letters does not
    matter.  A label that contains [receipt] gives Receipt, whatever else it
    contains.  On the three class labels of the refinement the analyzer and
    the refinement agree, and the analyzer takes both bars for signs of a
    Screenshot. *)
Theorem mapLabelToType_properties :
  (Analyzer.mapLabelToType None = Types.UNKNOWN /\
   Analyzer.mapLabelToType (Some EmptyString) = Types.UNKNOWN) /\
  (forall l,
      Analyzer.mapLabelToType (Some (Analyzer.toLowerCase l)) =
      Analyzer.mapLabelToType (Some l)) /\
  (forall l,
      Analyzer.includes (Analyzer.toLowerCase l) "receipt" = true ->
      Analyzer.mapLabelToType (Some l) = Types.RECEIPT) /\
  (forall l t,
      Refine.preferred l = Some t -> Analyzer.mapLabelToType (Some l) = t) /\
  (forall d,
      Refine.isBar d = true ->
      Analyzer.mapLabelToType (Some (Types.label d)) = Types.SCREENSHOT).
Proof.
  split; [split; reflexivity|].
  split; [apply mapLabelToType_lower|].
  split; [|split].
  - intros l H. destruct l as [|c l]; [discriminate|].
    unfold Analyzer.mapLabelToType. now rewrite H.
  - intros l t. unfold Refine.preferred.
    destruct (String.eqb l "Receipt") eqn:E1.
    { apply String.eqb_eq in E1. subst l. intros E. now injection E as <-. }
    destruct (String.eqb l "Document") eqn:E2.
    { apply String.eqb_eq in E2. subst l. intros E. now injection E as <-. }
    destruct (String.eqb l "Screenshot") eqn:E3; [|discriminate].
    apply String.eqb_eq in E3. subst l. intros E. now injection E as <-.
  - intros d. unfold Refine.isBar. intros H. apply orb_true_iff in H.
    destruct H as [H|H]; apply String.eqb_eq in H; rewrite H; reflexivity.
Qed.

(** ** One detection per class *)

Section PerClass.
Import Js Types Refine ByClassSpec RawDetect.

Lemma bestByLabel_collected (dets : list DetectionAxisAligned) :
  collected (fun _ => true) dets (bestByLabel dets).
Proof.
  unfold bestByLabel.
  assert (Hgen : forall l seen m,
    collected (fun _ => true) seen m ->
    collected (fun _ => true) (seen ++ l)
      (fold_left
         (fun m d =>
            if (negb (mapHas m (label d)) ||
                match mapGet m (label d) with
                | Some prev => Qlt_bool (score prev) (score d)
                | None => false
                end)%bool
            then mapSet m (label d) d
            else m) l m)).
  { induction l as [|d l IH]; intros seen m Hm; simpl.
    - now rewrite app_nil_r.
    - replace (seen ++ d :: l) with ((seen ++ [d]) ++ l)
        by (now rewrite <- app_assoc).
      apply IH. pose proof (collected_step (fun _ => true) seen m d Hm) as Hs.
      cbv beta iota in Hs. unfold mapHas.
      destruct (mapGet m (label d)) as [prev|]; cbn [negb orb]; exact Hs. }
  apply (Hgen dets [] []).
  split; [intros k v []|]. split; [constructor|]. intros d [].
Qed.

Lemma bestPerClass_facts (dets : list DetectionAxisAligned) :
  let best := bestPerClass dets in
  NoDup (map label best) /\
  (forall b, In b best -> In b dets) /\
  (forall d, In d dets ->
     exists b, In b best /\ label b = label d /\ score d <= score b) /\
  (List.length best <= List.length dets)%nat.
Proof.
  cbv zeta. unfold bestPerClass.
  destruct (bestByLabel_collected dets) as (Hin & Hnd & Hbest).
  assert (Hkeys : map label (map snd (bestByLabel dets)) =
                  map fst (bestByLabel dets)).
  { rewrite map_map. apply map_ext_in. intros [k v] Hkv.
    destruct (Hin k v Hkv) as (-> & _). reflexivity. }
  assert (Hsub : forall b, In b (map snd (bestByLabel dets)) -> In b dets).
  { intros b Hb. apply in_map_iff in Hb. destruct Hb as ([k v] & <- & Hkv).
    now destruct (Hin k v Hkv) as (_ & H & _). }
  split; [now rewrite Hkeys|]. split; [exact Hsub|]. split.
  - intros d Hd. destruct (Hbest d Hd eq_refl) as (v & Hv & Hle).
    exists v. apply mapGet_In in Hv. split; [|split; [|exact Hle]].
    + apply in_map_iff. now exists (label d, v).
    + now destruct (Hin _ _ Hv) as (<- & _).
  - assert (Hl : NoDup (map snd (bestByLabel dets))).
    { apply (NoDup_map_inv label). now rewrite Hkeys. }
    apply NoDup_incl_length; [exact Hl | exact Hsub].
Qed.

End PerClass.

(** X24.  The selection of one detection per class in the raw-detection
    example.  No two of the selected detections have the same label; each
    is one of the detections given; every detection given has a selected
    one of its label that scores at least as much; and not more detections
    are selected than were given. *)
Theorem bestPerClass_selection (dets : list Types.DetectionAxisAligned) :
  let best := RawDetect.bestPerClass dets in
  NoDup (map Types.label best) /\
  (forall b, In b best -> In b dets) /\
  (forall d, In d dets ->
     exists b, In b best /\ Types.label b = Types.label d /\
               Types.score d <= Types.score b) /\
  (List.length best <= List.length dets)%nat.
Proof. apply bestPerClass_facts. Qed.

(** ** Otsu's threshold *)

Section LevelSums.
Import Js Deskew DeskewSpec.
Variable c : Z -> Q.
Hypothesis c_nonneg : forall t, 0 <= c t.

Lemma below_nonneg (n : nat) : 0 <= below c n.
Proof.
  induction n as [|k IH]; simpl; [lra|]. pose proof (c_nonneg (Z.of_nat k)). lra.
Qed.

Lemma below_mono (n m : nat) : (n <= m)%nat -> below c n <= below c m.
Proof.
  induction 1 as [|m Hle IH]; [lra|]. simpl.
  pose proof (c_nonneg (Z.of_nat m)). lra.
Qed.

Lemma below_zero (n : nat) :
  below c n == 0 -> forall i, (i < n)%nat -> c (Z.of_nat i) == 0.
Proof.
  induction n as [|k IH]; intros Hz i Hi; [lia|]. simpl in Hz.
  pose proof (below_nonneg k). pose proof (c_nonneg (Z.of_nat k)).
  destruct (Nat.eq_dec i k) as [->|Hne]; [lra|].
  apply IH; [lra|lia].
Qed.

Lemma weightedBelow_zero (n : nat) : below c n == 0 -> weightedBelow c n == 0.
Proof.
  induction n as [|k IH]; intros Hz; simpl; [reflexivity|]. simpl in Hz.
  pose proof (below_nonneg k). pose proof (c_nonneg (Z.of_nat k)).
  assert (Hk : c (Z.of_nat k) == 0) by lra.
  rewrite IH by lra. rewrite Hk. ring.
Qed.

Lemma below_positive (n : nat) :
  0 < below c n -> exists i, (i < n)%nat /\ 0 < c (Z.of_nat i).
Proof.
  induction n as [|k IH]; simpl; [lra|]. intros Hp.
  destruct (Qlt_le_dec 0 (c (Z.of_nat k))) as [Hk|Hk].
  - exists k. split; [lia|exact Hk].
  - destruct IH as (i & Hi & Hci); [lra|]. exists i. split; [lia|exact Hci].
Qed.

Lemma below_gap (n m : nat) :
  (n <= m)%nat -> below c n < below c m ->
  exists j, (n <= j < m)%nat /\ 0 < c (Z.of_nat j).
Proof.
  induction 1 as [|m Hle IH]; [lra|]. simpl. intros Hp.
  destruct (Qlt_le_dec 0 (c (Z.of_nat m))) as [Hk|Hk].
  - exists m. split; [lia|exact Hk].
  - destruct IH as (j & Hj & Hcj); [lra|]. exists j. split; [lia|exact Hcj].
Qed.

Lemma below_flat (n m : nat) :
  (n <= m)%nat -> below c m == below c n ->
  forall j, (n <= j < m)%nat -> c (Z.of_nat j) == 0.
Proof.
  intros Hle He j Hj.
  destruct (Qlt_le_dec 0 (c (Z.of_nat j))) as [Hp|Hp];
    [|pose proof (c_nonneg (Z.of_nat j)); lra].
  exfalso.
  assert (H1 : below c n <= below c j) by (apply below_mono; lia).
  assert (H2 : below c (S j) <= below c m) by (apply below_mono; lia).
  simpl in H2. lra.
Qed.

(** Every level from [n] on weighs at least [n]. *)
Lemma weightedBelow_tail (n m : nat) :
  (n <= m)%nat ->
  inject_Z (Z.of_nat n) * (below c m - below c n) <=
  weightedBelow c m - weightedBelow c n.
Proof.
  induction 1 as [|m Hle IH]; [lra|]. simpl.
  pose proof (c_nonneg (Z.of_nat m)).
  assert (Hnm : inject_Z (Z.of_nat n) <= inject_Z (Z.of_nat m))
    by (rewrite <- Zle_Qle; lia).
  nra.
Qed.

End LevelSums.

Section ThresholdLoop.
Import Js Deskew DeskewSpec.

Lemma between_comp (total sum w w' s s' : Q) :
  w == w' -> s == s' -> between total sum w s == between total sum w' s'.
Proof. intros Hw Hs. unfold between. now rewrite Hw, Hs. Qed.

(** At the first level that occurs, when a brighter one occurs too, the
    variance is positive. *)
Lemma between_first (total sum w s t : Q) :
  0 < w -> w < total -> s == t * w ->
  (t + 1) * (total - w) <= sum - s ->
  0 < between total sum w s.
Proof.
  intros Hw Hlt Hs Htail. unfold between.
  assert (HmB : s / w == t) by (rewrite Hs; field; lra).
  assert (HmF : t + 1 <= (sum - s) / (total - w))
    by (apply Qle_shift_div_l; lra).
  rewrite HmB.
  set (mF := (sum - s) / (total - w)) in *.
  assert (Hd : 1 <= (t - mF) * (t - mF)) by nra.
  assert (Hp : 0 < w * (total - w)) by nra.
  assert (E : w * (total - w) * (t - mF) * (t - mF) ==
              (w * (total - w)) * ((t - mF) * (t - mF))) by ring.
  rewrite E. nra.
Qed.

Lemma thresholdLoop_step (hist : list Z) (total sum : Q) (n : nat) (t : Z)
  (r : Running) :
  thresholdLoop hist total sum (S n) t r =
  if Qeq_bool (wB r + histAt hist t) 0 then
    thresholdLoop hist total sum n (t + 1)
      (mkRunning (sumB r) (wB r + histAt hist t) (varMax r) (threshold r))
  else if Qeq_bool (total - (wB r + histAt hist t)) 0 then threshold r
  else if Qlt_bool (varMax r)
            (between total sum (wB r + histAt hist t)
               (sumB r + inject_Z t * histAt hist t)) then
    thresholdLoop hist total sum n (t + 1)
      (mkRunning (sumB r + inject_Z t * histAt hist t)
         (wB r + histAt hist t)
         (between total sum (wB r + histAt hist t)
            (sumB r + inject_Z t * histAt hist t)) t)
  else
    thresholdLoop hist total sum n (t + 1)
      (mkRunning (sumB r + inject_Z t * histAt hist t)
         (wB r + histAt hist t) (varMax r) (threshold r)).
Proof. reflexivity. Qed.

Variable hist : list Z.
Variables total sum : Q.
Hypothesis hist_nonneg : forall t, 0 <= histAt hist t.
Hypothesis total_is : total == below (histAt hist) 256.
Hypothesis sum_is : sum == weightedBelow (histAt hist) 256.

Lemma thresholdLoop_settled (remaining : nat) :
  forall t r,
    (t + remaining = 256)%nat ->
    reached (histAt hist) total sum t r ->
    settled (histAt hist) (thresholdLoop hist total sum remaining (Z.of_nat t) r).
Proof.
  induction remaining as [|n IH];
    intros t r Ht (HwB & HsB & Hopen & Hnone & Hsome).
  - (* the loop ran to its end: no pixel at all *)
    assert (t = 256)%nat by lia. subst t. cbn [thresholdLoop].
    assert (Hz : below (histAt hist) 256 == 0) by (destruct Hopen; lra).
    destruct (Hnone Hz) as [Hthr _]. left. split; [exact Hthr|].
    intros i j Hij Hj Hi _.
    pose proof (below_zero (histAt hist) hist_nonneg 256 Hz (Z.to_nat i)) as Hci.
    rewrite Z2Nat.id in Hci by lia.
    assert (Z.to_nat i < 256)%nat by lia. specialize (Hci H). lra.
  - assert (Htn : (t < 256)%nat) by lia.
    rewrite thresholdLoop_step.
    replace (Z.of_nat t + 1)%Z with (Z.of_nat (S t)) by lia.
    pose proof (below_nonneg (histAt hist) hist_nonneg t) as Hb0.
    pose proof (hist_nonneg (Z.of_nat t)) as Hct.
    pose proof (below_mono (histAt hist) hist_nonneg (S t) 256 ltac:(lia))
      as Hle.
    assert (HwB' : wB r + histAt hist (Z.of_nat t) ==
                   below (histAt hist) (S t)) by (simpl; lra).
    assert (HsB' : sumB r +
                   inject_Z (Z.of_nat t) * histAt hist (Z.of_nat t) ==
                   weightedBelow (histAt hist) (S t)) by (simpl; lra).
    destruct (Qeq_bool (wB r + histAt hist (Z.of_nat t)) 0) eqn:E0.
    + (* continue: nothing at or below this level *)
      apply Qeq_bool_iff in E0.
      assert (Hz' : below (histAt hist) (S t) == 0) by lra.
      assert (Hz : below (histAt hist) t == 0) by (simpl in Hz'; lra).
      assert (Hc0 : histAt hist (Z.of_nat t) == 0) by (simpl in Hz'; lra).
      apply IH; [lia|]. unfold reached.
           cbn [wB sumB varMax threshold].
      split; [exact HwB'|]. split.
      { simpl. rewrite Hc0. lra. }
      split; [now left|]. split; [intros _; now apply Hnone|].
      intros Hp. lra.
    + apply Qeq_bool_neq in E0.
      assert (Hpos : 0 < below (histAt hist) (S t)).
      { pose proof (below_nonneg (histAt hist) hist_nonneg (S t)).
        destruct (Qeq_dec (below (histAt hist) (S t)) 0) as [E|E]; [|lra].
        exfalso. apply E0. lra. }
      destruct (Qeq_bool (total - (wB r + histAt hist (Z.of_nat t))) 0) eqn:E1.
      * (* break: nothing above this level *)
        apply Qeq_bool_iff in E1.
        assert (Hall : below (histAt hist) 256 == below (histAt hist) (S t))
          by lra.
        destruct (Qeq_dec (below (histAt hist) t) 0) as [Hz|Hnz].
        -- destruct (Hnone Hz) as [Hthr _]. left. split; [exact Hthr|].
           intros i j Hij Hj Hi Hcj.
           assert (Hi0 : (Z.to_nat i < t)%nat -> False).
           { intros Hlt.
             pose proof (below_zero (histAt hist) hist_nonneg t Hz (Z.to_nat i)
                           Hlt) as Hci.
             rewrite Z2Nat.id in Hci by lia. lra. }
           assert (Hj0 : (S t <= Z.to_nat j < 256)%nat -> False).
           { intros Hr.
             pose proof (below_flat (histAt hist) hist_nonneg (S t) 256
                           ltac:(lia) Hall (Z.to_nat j) Hr) as Hcj0.
             rewrite Z2Nat.id in Hcj0 by lia. lra. }
           lia.
        -- assert (Hp : 0 < below (histAt hist) t) by lra.
           destruct (Hsome Hp) as (Hthr & Hcthr & _).
           right. split; [lia|]. split; [exact Hcthr|].
           exists (Z.of_nat t). split; [lia|].
           destruct Hopen as [Hz|Hlt]; [contradiction|].
           simpl in Hall. lra.
      * apply Qeq_bool_neq in E1.
        assert (Hlt : below (histAt hist) (S t) < total).
        { destruct (Qeq_dec (below (histAt hist) (S t)) total) as [E|E]; [|lra].
          exfalso. apply E1. lra. }
        pose proof (between_comp total sum _ _ _ _ HwB' HsB') as Hbt.
        set (bt := between total sum (wB r + histAt hist (Z.of_nat t))
                     (sumB r + inject_Z (Z.of_nat t) *
                               histAt hist (Z.of_nat t))) in *.
        destruct (Qlt_bool (varMax r) bt) eqn:E2.
        -- (* a new maximum: this level occurs *)
           apply Qlt_bool_iff in E2.
           apply IH; [lia|]. unfold reached.
           cbn [wB sumB varMax threshold].
           split; [exact HwB'|]. split; [exact HsB'|].
           split; [now right|]. split; [intros Hz; lra|].
           intros _. split; [lia|]. split; [|lra].
           destruct (Qlt_le_dec 0 (histAt hist (Z.of_nat t))) as [Hc|Hc];
             [exact Hc|].
           exfalso.
           assert (Hc0 : histAt hist (Z.of_nat t) == 0) by lra.
           assert (Hp : 0 < below (histAt hist) t) by (simpl in Hpos; lra).
           destruct (Hsome Hp) as (_ & _ & Hold).
           assert (Hsame : between total sum (below (histAt hist) t)
                             (weightedBelow (histAt hist) t) ==
                           between total sum (below (histAt hist) (S t))
                             (weightedBelow (histAt hist) (S t))).
           { apply between_comp; simpl; rewrite Hc0; ring. }
           lra.
        -- apply Qlt_bool_false_iff in E2.
           apply IH; [lia|]. unfold reached.
           cbn [wB sumB varMax threshold].
           split; [exact HwB'|]. split; [exact HsB'|].
           split; [now right|]. split; [intros Hz; lra|].
           intros _.
           destruct (Qeq_dec (below (histAt hist) t) 0) as [Hz|Hnz].
           ++ (* the first level that occurs always sets the threshold *)
              exfalso. destruct (Hnone Hz) as [_ Hv0].
              assert (Hw0 : weightedBelow (histAt hist) t == 0)
                by (now apply weightedBelow_zero).
              pose proof (weightedBelow_tail (histAt hist) hist_nonneg
                            (S t) 256 ltac:(lia)) as Htail.
              assert (Hfirst : 0 < between total sum
                                 (below (histAt hist) (S t))
                                 (weightedBelow (histAt hist) (S t))).
              { apply (between_first total sum _ _ (inject_Z (Z.of_nat t)));
                  try assumption.
                - simpl. rewrite Hw0, Hz. ring.
                - replace (Z.of_nat (S t)) with (Z.of_nat t + 1)%Z in Htail
                    by lia.
                  rewrite inject_Z_plus in Htail.
                  rewrite total_is, sum_is. exact Htail. }
              lra.
           ++ assert (Hp : 0 < below (histAt hist) t) by lra.
              destruct (Hsome Hp) as (Hthr & Hcthr & _).
              split; [lia|]. split; [exact Hcthr|]. lra.
Qed.

End ThresholdLoop.

Section Histogram.
Import Js Deskew DeskewSpec.

Lemma nth_replaced {A : Type} (l : list A) (x d h : A) :
  forall k j, nth_error l k = Some h ->
    nth j (firstn k l ++ x :: skipn (S k) l) d =
    if Nat.eqb j k then x else nth j l d.
Proof.
  induction l as [|a l IH]; intros [|k] [|j]; simpl; try discriminate;
    try reflexivity.
  intros H. now apply IH.
Qed.

Lemma length_replaced {A : Type} (l : list A) (x h : A) :
  forall k, nth_error l k = Some h ->
    List.length (firstn k l ++ x :: skipn (S k) l) = List.length l.
Proof.
  induction l as [|a l IH]; intros [|k]; simpl; try discriminate;
    try reflexivity.
  intros H. f_equal. now apply IH.
Qed.

Lemma pixel_range (p : Byte.byte) : (0 <= pixel p < 256)%Z.
Proof. unfold pixel. pose proof (Byte.to_N_bounded p). lia. Qed.

Lemma increment_length (hist : list Z) (g : Z) :
  List.length (increment hist g) = List.length hist.
Proof.
  unfold increment. destruct (nth_error hist (Z.to_nat g)) eqn:E;
    [|reflexivity].
  now apply length_replaced with z.
Qed.

Lemma increment_nth (hist : list Z) (g : Z) (j : nat) :
  (Z.to_nat g < List.length hist)%nat ->
  nth j (increment hist g) 0%Z =
  if Nat.eqb j (Z.to_nat g) then ((nth j hist 0 + 1) mod 2 ^ 32)%Z
  else nth j hist 0%Z.
Proof.
  intros Hg. unfold increment.
  destruct (nth_error hist (Z.to_nat g)) eqn:E.
  - rewrite (nth_replaced hist _ 0%Z z _ j E).
    destruct (Nat.eqb j (Z.to_nat g)) eqn:Ej; [|reflexivity].
    apply Nat.eqb_eq in Ej. subst j.
    now rewrite (nth_error_nth _ _ 0%Z E).
  - apply nth_error_None in E. lia.
Qed.

(** While no count reaches [2^32], the histogram counts the pixels of
    each level. *)
Lemma histogram_counts (l : list Byte.byte) :
  forall hist,
    List.length hist = 256%nat ->
    (forall j, (j < 256)%nat ->
       (0 <= nth j hist 0 /\
        nth j hist 0 + Z.of_nat (List.length l) < 2 ^ 32)%Z) ->
    forall j, (j < 256)%nat ->
      nth j (fold_left (fun hist g => increment hist (pixel g)) l hist) 0%Z =
      (nth j hist 0 +
       Z.of_nat (count_occ Z.eq_dec (map pixel l) (Z.of_nat j)))%Z.
Proof.
  induction l as [|a l IH]; intros hist Hlen Hb j Hj.
  - simpl. lia.
  - pose proof (pixel_range a) as Ha.
    assert (Hg : (Z.to_nat (pixel a) < List.length hist)%nat) by lia.
    cbn [fold_left map].
    rewrite IH; [| now rewrite increment_length | | exact Hj].
    + rewrite (increment_nth hist (pixel a) j Hg).
      destruct (Hb j Hj) as [H0 H1]. cbn [List.length] in H1.
      cbn [count_occ].
      destruct (Nat.eqb j (Z.to_nat (pixel a))) eqn:Ej.
      * apply Nat.eqb_eq in Ej.
        destruct (Z.eq_dec (pixel a) (Z.of_nat j)) as [E|E]; [|lia].
        rewrite Z.mod_small by lia. lia.
      * apply Nat.eqb_neq in Ej.
        destruct (Z.eq_dec (pixel a) (Z.of_nat j)) as [E|E]; [lia|].
        reflexivity.
    + intros k Hk. rewrite (increment_nth hist (pixel a) k Hg).
      destruct (Hb k Hk) as [H0 H1]. cbn [List.length] in H1.
      destruct (Nat.eqb k (Z.to_nat (pixel a))).
      * rewrite Z.mod_small by lia. lia.
      * lia.
Qed.

Lemma histogram_length (l : list Byte.byte) :
  forall hist, List.length hist = 256%nat ->
    List.length (fold_left (fun hist g => increment hist (pixel g)) l hist) =
    256%nat.
Proof.
  induction l as [|a l IH]; intros hist Hlen; [exact Hlen|].
  cbn [fold_left]. apply IH. now rewrite increment_length.
Qed.

Lemma nth_zeros (n j : nat) : nth j (repeat 0%Z n) 0%Z = 0%Z.
Proof.
  revert j. induction n as [|n IH]; intros [|j]; simpl; auto.
Qed.

Lemma histAt_histogram (gray : list Byte.byte) (t : Z) :
  (Z.of_nat (List.length gray) < 2 ^ 32)%Z ->
  (0 <= t < 256)%Z ->
  histAt (histogram gray) t = inject_Z (count gray t).
Proof.
  intros Hlen Ht. unfold histAt, histogram, count.
  rewrite histogram_counts.
  - rewrite nth_zeros, Z2Nat.id by lia. reflexivity.
  - apply repeat_length.
  - intros j _. rewrite nth_zeros. lia.
  - lia.
Qed.

Lemma histAt_nonneg (gray : list Byte.byte) (t : Z) :
  (Z.of_nat (List.length gray) < 2 ^ 32)%Z ->
  0 <= histAt (histogram gray) t.
Proof.
  intros Hlen.
  destruct (Z_lt_le_dec t 0) as [Hneg|Hpos].
  - unfold histAt. replace (Z.to_nat t) with (Z.to_nat 0) by lia.
    change (0 <= histAt (histogram gray) 0).
    rewrite histAt_histogram by lia.
    change 0 with (inject_Z 0). rewrite <- Zle_Qle. unfold count. lia.
  - destruct (Z_lt_le_dec t 256) as [Hlt|Hge].
    + rewrite histAt_histogram by lia.
      change 0 with (inject_Z 0). rewrite <- Zle_Qle. unfold count. lia.
    + unfold histAt. rewrite nth_overflow; [apply Qle_refl|].
      unfold histogram. rewrite histogram_length by apply repeat_length.
      lia.
Qed.

(** A level has a positive count exactly when a pixel has it. *)
Lemma histAt_positive (gray : list Byte.byte) (t : Z) :
  (Z.of_nat (List.length gray) < 2 ^ 32)%Z ->
  (0 <= t < 256)%Z ->
  (0 < histAt (histogram gray) t <->
   exists p, In p gray /\ pixel p = t).
Proof.
  intros Hlen Ht. rewrite histAt_histogram by assumption.
  change 0 with (inject_Z 0). rewrite <- Zlt_Qlt. unfold count.
  split.
  - intros H.
    assert (Hin : In t (map pixel gray)).
    { apply (count_occ_In Z.eq_dec). lia. }
    apply in_map_iff in Hin. destruct Hin as (p & Hp & Hi). now exists p.
  - intros (p & Hi & Hp).
    assert (Hin : In t (map pixel gray))
      by (apply in_map_iff; now exists p).
    apply (count_occ_In Z.eq_dec) in Hin. lia.
Qed.

Lemma below_ext (c c' : Z -> Q) (n : nat) :
  (forall k, (k < n)%nat -> c (Z.of_nat k) == c' (Z.of_nat k)) ->
  below c n == below c' n.
Proof.
  induction n as [|n IH]; intros H; [reflexivity|].
  simpl. rewrite IH, (H n) by (intros; apply H; lia) || lia.
  reflexivity.
Qed.

Lemma below_cons (a : Byte.byte) (l : list Byte.byte) (n : nat) :
  below (fun t => inject_Z (count (a :: l) t)) n ==
  below (fun t => inject_Z (count l t)) n +
  (if (pixel a <? Z.of_nat n)%Z then 1 else 0).
Proof.
  pose proof (pixel_range a) as Ha.
  induction n as [|n IH].
  - simpl. destruct (pixel a <? 0)%Z eqn:E; [apply Z.ltb_lt in E; lia|].
    reflexivity.
  - cbn [below]. rewrite IH. unfold count. cbn [map count_occ].
    destruct (Z.eq_dec (pixel a) (Z.of_nat n)) as [E|E].
    + destruct (pixel a <? Z.of_nat n)%Z eqn:E1;
        [apply Z.ltb_lt in E1; lia|].
      destruct (pixel a <? Z.of_nat (S n))%Z eqn:E2;
        [|apply Z.ltb_ge in E2; lia].
      rewrite Nat2Z.inj_succ. unfold Z.succ. rewrite inject_Z_plus.
      change (inject_Z 1) with 1. ring.
    + destruct (pixel a <? Z.of_nat n)%Z eqn:E1;
        destruct (pixel a <? Z.of_nat (S n))%Z eqn:E2;
        try (apply Z.ltb_lt in E1); try (apply Z.ltb_ge in E1);
        try (apply Z.ltb_lt in E2); try (apply Z.ltb_ge in E2);
        try lia; ring.
Qed.

Lemma below_all (l : list Byte.byte) :
  below (fun t => inject_Z (count l t)) 256 ==
  inject_Z (Z.of_nat (List.length l)).
Proof.
  induction l as [|a l IH].
  - generalize 256%nat. intros n. induction n as [|n IHn]; [reflexivity|].
    cbn [below]. rewrite IHn. unfold count. simpl. ring.
  - rewrite below_cons, IH. pose proof (pixel_range a) as Ha.
    destruct (pixel a <? Z.of_nat 256)%Z eqn:E;
      [|apply Z.ltb_ge in E; lia].
    cbn [List.length]. rewrite Nat2Z.inj_succ. unfold Z.succ.
    rewrite inject_Z_plus. reflexivity.
Qed.

Lemma weightedSum_levels (c : Z -> Q) (n : nat) :
  fold_left (fun sum i => sum + inject_Z i * c i)
    (map Z.of_nat (seq 0 n)) 0 = weightedBelow c n.
Proof.
  induction n as [|n IH]; [reflexivity|].
  rewrite seq_S, map_app, fold_left_app, IH. reflexivity.
Qed.

(** The threshold is the default and at most one level has a pixel, or
    it is the level of a pixel and some pixel is brighter. *)
Lemma otsuThreshold_settled (gray : list Byte.byte) :
  (Z.of_nat (List.length gray) < 2 ^ 32)%Z ->
  settled (histAt (histogram gray)) (otsuThreshold gray).
Proof.
  intros Hlen. unfold otsuThreshold.
  apply (thresholdLoop_settled (histogram gray)
           (inject_Z (Z.of_nat (List.length gray)))
           (weightedSum (histogram gray))
           (fun t => histAt_nonneg gray t Hlen)) with (t := 0%nat).
  - rewrite <- below_all. apply below_ext. intros k Hk.
    rewrite histAt_histogram by lia. reflexivity.
  - unfold weightedSum. rewrite weightedSum_levels. reflexivity.
  - reflexivity.
  - unfold reached. cbn [wB sumB varMax threshold below weightedBelow].
    split; [reflexivity|]. split; [reflexivity|]. split; [now left|].
    split; [intros _; split; reflexivity|]. intros Hp. lra.
Qed.

End Histogram.

Section OtsuThreshold.
Import Js Deskew DeskewSpec.

(** X25. [otsuThreshold], for an image of fewer than [2^32] pixels,
    returns a level from 0 to 255.  When all the pixels have the same
    level (or there is no pixel) it returns the default 127.  When two
    pixels differ, it returns the level of some pixel of the image, and
    some pixel of the image is brighter than it. *)
Theorem otsuThreshold_level (gray : list Byte.byte) :
  (Z.of_nat (List.length gray) < 2 ^ 32)%Z ->
  (0 <= otsuThreshold gray < 256)%Z /\
  ((forall p q, In p gray -> In q gray -> pixel p = pixel q) ->
   otsuThreshold gray = 127%Z) /\
  ((exists p q, In p gray /\ In q gray /\ pixel p <> pixel q) ->
   (exists p, In p gray /\ pixel p = otsuThreshold gray) /\
   (exists q, In q gray /\ (otsuThreshold gray < pixel q)%Z)).
Proof.
  intros Hlen. pose proof (otsuThreshold_settled gray Hlen) as Hs.
  destruct Hs as [[H127 Hone] | (Hr & Hthr & j & Hj & Hcj)].
  - split; [lia|]. split; [intros _; exact H127|].
    intros (p & q & Hp & Hq & Hne). exfalso.
    pose proof (pixel_range p) as Rp. pose proof (pixel_range q) as Rq.
    assert (Pp : 0 < histAt (histogram gray) (pixel p))
      by (apply histAt_positive; [assumption|lia|now exists p]).
    assert (Pq : 0 < histAt (histogram gray) (pixel q))
      by (apply histAt_positive; [assumption|lia|now exists q]).
    destruct (Z_lt_le_dec (pixel p) (pixel q)) as [Hlt|Hge].
    + apply (Hone (pixel p) (pixel q)); try assumption; lia.
    + apply (Hone (pixel q) (pixel p)); try assumption; lia.
  - apply histAt_positive in Hthr; [|assumption|lia].
    apply histAt_positive in Hcj; [|assumption|lia].
    destruct Hthr as (p & Hp & Ep). destruct Hcj as (q & Hq & Eq).
    split; [exact Hr|]. split.
    + intros Hall. specialize (Hall p q Hp Hq). lia.
    + intros _. split; [now exists p|]. exists q. split; [exact Hq|lia].
Qed.

Lemma otsuThreshold_level_witness :
  (Z.of_nat (List.length [Byte.x10; Byte.xc8; Byte.x10]) < 2 ^ 32)%Z /\
  (0 <= otsuThreshold [Byte.x10; Byte.xc8; Byte.x10] < 256)%Z.
Proof.
  split; [vm_compute; reflexivity|].
  apply (otsuThreshold_level [Byte.x10; Byte.xc8; Byte.x10]).
  vm_compute. reflexivity.
Defined.

End OtsuThreshold.

(** ** The projection score *)
Section Projection.
Import Js Deskew DeskewSpec.

Lemma square_nonneg (x : Q) : 0 <= x * x.
Proof.
  destruct x as [n d]. unfold Qle. simpl. rewrite Z.mul_1_r.
  apply Z.square_nonneg.
Qed.

Lemma fold_sq_zero (m : Q) (rows : list Q) :
  forall acc, 0 <= acc ->
    (fold_left (fun varSum r => let d := r - m in varSum + d * d) rows acc
       == 0 <->
     acc == 0 /\ Forall (fun r => r == m) rows).
Proof.
  induction rows as [|a rows IH]; intros acc Hacc; cbn [fold_left].
  - split; [intros H; split; [exact H|constructor] | intros [H _]; exact H].
  - cbv zeta. pose proof (square_nonneg (a - m)) as Hsq.
    set (sq := (a - m) * (a - m)) in *.
    rewrite IH by lra. split.
    + intros [H1 H2].
      assert (Hz : sq == 0) by lra.
      split; [lra|]. constructor; [|exact H2].
      destruct (Qmult_integral _ _ Hz); lra.
    + intros [H1 H2]. apply Forall_cons_iff in H2. destruct H2 as [Hx Hl].
      split; [|exact Hl].
      assert (Hz : sq == 0) by (unfold sq; rewrite Hx; ring). lra.
Qed.

Lemma fold_sq_nonneg (m : Q) (rows : list Q) :
  forall acc, 0 <= acc ->
    0 <= fold_left (fun varSum r => let d := r - m in varSum + d * d)
           rows acc.
Proof.
  induction rows as [|a rows IH]; intros acc Hacc; cbn [fold_left];
    [exact Hacc|].
  apply IH. cbv zeta. pose proof (square_nonneg (a - m)). lra.
Qed.

Lemma fold_plus_const (s : Q) (rows : list Q) :
  Forall (fun r => r == s) rows ->
  forall acc,
    fold_left Qplus rows acc ==
    acc + inject_Z (Z.of_nat (List.length rows)) * s.
Proof.
  induction 1 as [|x l Hx Hl IH]; intros acc; cbn [fold_left List.length].
  - simpl. ring.
  - rewrite IH, Nat2Z.inj_succ. unfold Z.succ. rewrite inject_Z_plus, Hx.
    change (inject_Z 1) with 1. ring.
Qed.

Lemma horizontalProjectionScore_facts (bw : list Byte.byte) (w h : nat)
  (thr : Q) :
  (0 < h)%nat ->
  exists v, horizontalProjectionScore bw w h thr = Fin v /\ 0 <= v /\
    (v == 0 <->
     forall y y', (y < h)%nat -> (y' < h)%nat ->
       rowSum bw w thr (y * w) == rowSum bw w thr (y' * w)).
Proof.
  intros Hh. unfold horizontalProjectionScore, jsdiv.
  set (f := fun y => rowSum bw w thr (y * w)).
  set (hq := inject_Z (Z.of_nat h)).
  assert (Hq : 0 < hq).
  { unfold hq. change 0 with (inject_Z 0). rewrite <- Zlt_Qlt. lia. }
  assert (E : Qeq_bool hq 0 = false) by (apply Qeq_bool_false; lra).
  rewrite E. cbv beta iota zeta.
  set (mean := fold_left Qplus (map f (seq 0 h)) 0 / hq).
  set (varSum := fold_left _ (map f (seq 0 h)) 0).
  assert (Hv : 0 <= varSum) by (apply fold_sq_nonneg; lra).
  assert (Hz : varSum == 0 <-> Forall (fun r => r == mean) (map f (seq 0 h))).
  { unfold varSum. rewrite fold_sq_zero by lra. split; [now intros [_ H]|].
    intros H. split; [reflexivity|exact H]. }
  exists (varSum / hq). split; [reflexivity|]. split.
  { apply Qle_shift_div_l; lra. }
  assert (Hdiv : varSum / hq == 0 <-> varSum == 0).
  { split; intros H.
    - assert (E' : varSum == varSum / hq * hq) by (field; lra).
      rewrite E', H. ring.
    - rewrite H. field. lra. }
  rewrite Hdiv, Hz. split.
  - intros Hall y y' Hy Hy'. rewrite Forall_forall in Hall.
    assert (H1 : f y == mean)
      by (apply Hall, in_map, in_seq; lia).
    assert (H2 : f y' == mean)
      by (apply Hall, in_map, in_seq; lia).
    fold (f y) (f y'). lra.
  - intros Hall.
    assert (Hs : Forall (fun r => r == f 0%nat) (map f (seq 0 h))).
    { apply Forall_forall. intros r Hr. apply in_map_iff in Hr.
      destruct Hr as (y & <- & Hy). apply in_seq in Hy.
      apply Hall; lia. }
    assert (Hm : mean == f 0%nat).
    { unfold mean. rewrite (fold_plus_const _ _ Hs).
      rewrite length_map, length_seq. fold hq. field. lra. }
    apply Forall_forall. intros r Hr. rewrite Forall_forall in Hs.
    rewrite (Hs r Hr). symmetry. exact Hm.
Qed.

(** X26. [horizontalProjectionScore] of an image with no row is [NaN].
    With at least one row it is a finite number that is never negative,
    and it is zero exactly when every row has the same number of dark
    pixels. *)
Theorem horizontalProjectionScore_variance (bw : list Byte.byte) (w h : nat)
  (thr : Q) :
  (h = 0%nat -> horizontalProjectionScore bw w h thr = NaN) /\
  ((0 < h)%nat ->
   exists v, horizontalProjectionScore bw w h thr = Fin v /\ 0 <= v /\
     (v == 0 <->
      forall y y', (y < h)%nat -> (y' < h)%nat ->
        rowSum bw w thr (y * w) == rowSum bw w thr (y' * w))).
Proof.
  split; [intros ->; reflexivity|].
  apply horizontalProjectionScore_facts.
Qed.

Lemma rowSum_none (bw : list Byte.byte) (w : nat) (thr : Q) (rowOff : nat) :
  (forall idx, dark bw thr idx = 0) -> rowSum bw w thr rowOff == 0.
Proof.
  intros Hd. unfold rowSum.
  assert (H : forall l acc,
             fold_left (fun s x => s + dark bw thr (rowOff + x)) l acc
             == acc).
  { induction l as [|x l IH]; intros acc; cbn [fold_left]; [reflexivity|].
    rewrite IH, Hd. ring. }
  apply H.
Qed.

(** X27. For an image that has exactly two gray levels, [otsuThreshold]
    returns the darker one.  [horizontalProjectionScore] counts a pixel as
    dark only when it is below the threshold, so with that threshold no
    pixel of an image whose levels are at least the darker one is dark, and
    its score is zero whatever its width and height. *)
Theorem two_levels_score_zero (gray : list Byte.byte) (a b : Z) :
  (Z.of_nat (List.length gray) < 2 ^ 32)%Z ->
  (a < b)%Z ->
  (exists p, In p gray /\ pixel p = a) ->
  (exists q, In q gray /\ pixel q = b) ->
  (forall p, In p gray -> pixel p = a \/ pixel p = b) ->
  otsuThreshold gray = a /\
  forall bw, Forall (fun p => (a <= pixel p)%Z) bw ->
    (forall idx, dark bw (inject_Z (otsuThreshold gray)) idx = 0) /\
    forall w h, (0 < h)%nat ->
      exists v,
        horizontalProjectionScore bw w h (inject_Z (otsuThreshold gray)) =
        Fin v /\ v == 0.
Proof.
  intros Hlen Hab (p & Hp & Ep) (q & Hq & Eq) Hall.
  pose proof (pixel_range p) as Rp. pose proof (pixel_range q) as Rq.
  assert (Hthr : otsuThreshold gray = a).
  { destruct (otsuThreshold_settled gray Hlen)
      as [[_ Hone] | (Hr & Hc & j & Hj & Hcj)].
    - exfalso. apply (Hone a b); try lia.
      + apply histAt_positive; [assumption|lia|now exists p].
      + apply histAt_positive; [assumption|lia|now exists q].
    - apply histAt_positive in Hc; [|assumption|lia].
      apply histAt_positive in Hcj; [|assumption|lia].
      destruct Hc as (p1 & Hp1 & E1). destruct Hcj as (q1 & Hq1 & E2).
      destruct (Hall p1 Hp1), (Hall q1 Hq1); lia. }
  split; [exact Hthr|]. intros bw Hbw. rewrite Hthr.
  assert (Hd : forall idx, dark bw (inject_Z a) idx = 0).
  { intros idx. unfold dark. destruct (nth_error bw idx) as [x|] eqn:E;
      [|reflexivity].
    rewrite Forall_forall in Hbw.
    specialize (Hbw x (nth_error_In _ _ E)).
    destruct (Qlt_bool (inject_Z (pixel x)) (inject_Z a)) eqn:El;
      [|reflexivity].
    apply Qlt_bool_iff in El. rewrite <- Zlt_Qlt in El. lia. }
  split; [exact Hd|]. intros w h Hh.
  destruct (horizontalProjectionScore_facts bw w h (inject_Z a) Hh)
    as (v & Ev & _ & Hz).
  exists v. split; [exact Ev|]. apply Hz. intros y y' _ _.
  now rewrite !rowSum_none.
Qed.

Lemma two_levels_score_zero_witness :
  otsuThreshold [Byte.x10; Byte.xc8; Byte.x10] = 16%Z /\
  forall bw, Forall (fun p => (16 <= pixel p)%Z) bw ->
    (forall idx,
        dark bw (inject_Z (otsuThreshold [Byte.x10; Byte.xc8; Byte.x10]))
          idx = 0) /\
    forall w h, (0 < h)%nat ->
      exists v,
        horizontalProjectionScore bw w h
          (inject_Z (otsuThreshold [Byte.x10; Byte.xc8; Byte.x10])) =
        Fin v /\ v == 0.
Proof.
  apply (two_levels_score_zero [Byte.x10; Byte.xc8; Byte.x10] 16 200).
  - vm_compute. reflexivity.
  - lia.
  - exists Byte.x10. split; [now left|reflexivity].
  - exists Byte.xc8. split; [right; now left|reflexivity].
  - intros p [<-|[<-|[<-|[]]]]; vm_compute; auto.
Defined.

End Projection.

(** ** The overlay *)
Section OverlayGeometry.
Import Js Types Overlay OverlaySpec.

Lemma clamp0_range (W v : Q) : 0 <= W -> 0 <= Qmax 0 (Qmin W v) <= W.
Proof.
  intros HW. split; [apply Q.le_max_l|].
  apply Q.max_lub; [exact HW | apply Q.le_min_l].
Qed.

Lemma floor_nonneg (v : Q) : 0 <= v -> 0 <= floor v.
Proof.
  intros Hv. unfold floor. now apply Qfloor_nonneg.
Qed.

Lemma ceil_nonneg (v : Q) : 0 <= v -> 0 <= ceil v.
Proof.
  intros Hv. unfold ceil. pose proof (Qle_ceiling v). lra.
Qed.

Lemma Qle_bool_false (x y : Q) : Qle_bool x y = false -> y < x.
Proof.
  intros H. destruct (Qlt_le_dec y x) as [Hlt|Hle]; [exact Hlt|].
  apply Qle_bool_iff in Hle. congruence.
Qed.

Lemma styleOf_bounds (W H : Q) :
  2 <= strokeWidth (styleOf W H) /\ 14 <= fontSize (styleOf W H) /\
  6 <= textPaddingX (styleOf W H) /\ 4 <= textPaddingY (styleOf W H).
Proof.
  unfold styleOf. cbn [strokeWidth fontSize textPaddingX textPaddingY].
  repeat split; apply Q.le_max_l.
Qed.

Variable textLength : DetectionAxisAligned -> nat.

Lemma drawOneOnBuffer_inside (W H : Q) (st : Style)
  (det : DetectionAxisAligned) (d : Drawn) :
  0 < W -> 0 < H ->
  14 <= fontSize st -> 6 <= textPaddingX st -> 4 <= textPaddingY st ->
  drawOneOnBuffer textLength W H st det = Some d ->
  insideImage W H d.
Proof.
  intros HW HH Hfs Hpx Hpy. unfold drawOneOnBuffer.
  destruct (box det) as [bx1 by1 bx2 by2].
  pose proof (clamp0_range W (round bx1) ltac:(lra)) as Rx1.
  pose proof (clamp0_range W (round bx2) ltac:(lra)) as Rx2.
  pose proof (clamp0_range H (round by1) ltac:(lra)) as Ry1.
  pose proof (clamp0_range H (round by2) ltac:(lra)) as Ry2.
  set (X1 := Qmax 0 (Qmin W (round bx1))) in *.
  set (X2 := Qmax 0 (Qmin W (round bx2))) in *.
  set (Y1 := Qmax 0 (Qmin H (round by1))) in *.
  set (Y2 := Qmax 0 (Qmin H (round by2))) in *.
  cbv zeta.
  destruct (Qle_bool X2 X1 || Qle_bool Y2 Y1)%bool eqn:E; [discriminate|].
  apply orb_false_iff in E. destruct E as [Ex Ey].
  apply Qle_bool_false in Ex. apply Qle_bool_false in Ey.
  intros Hd. injection Hd as <-.
  unfold insideImage. cbn [d_box d_bg d_textX d_textY r_x r_y r_w r_h].
  set (bgH := fontSize st + textPaddingY st * 2).
  set (m := Qmax 2 (strokeWidth st)).
  assert (Hm : 2 <= m) by apply Q.le_max_l.
  assert (HbgH : 0 < bgH) by (unfold bgH; lra).
  set (approxW := ceil (inject_Z (Z.of_nat (textLength det)) * fontSize st
                        * 0.6)).
  assert (Ha : 0 <= approxW).
  { apply ceil_nonneg.
    assert (Hn : 0 <= inject_Z (Z.of_nat (textLength det))).
    { change 0 with (inject_Z 0). rewrite <- Zle_Qle. lia. }
    nra. }
  assert (HbgY0 : 0 <= Qmax 0 (Y1 - bgH - m)) by apply Q.le_max_l.
  assert (HbgY1 : Qmax 0 (Y1 - bgH - m) <= Y1) by (apply Q.max_lub; lra).
  assert (Hw0 : 0 < Qmin (approxW + textPaddingX st * 2) (W - X1))
    by (apply Q.min_glb_lt; lra).
  assert (Hw1 : Qmin (approxW + textPaddingX st * 2) (W - X1) <= W - X1)
    by apply Q.le_min_r.
  assert (Hf : 0 <= floor (fontSize st * 0.8))
    by (apply floor_nonneg; lra).
  repeat split; try lra; try reflexivity.
Qed.

Lemma drawOne_agree (W H : Q) (st : Style) (det : DetectionAxisAligned) :
  0 < W -> 0 < H ->
  14 <= fontSize st -> 6 <= textPaddingX st -> 4 <= textPaddingY st ->
  match drawOne textLength W H st det,
        drawOneOnBuffer textLength W H st det with
  | Some a, Some b =>
      sameDrawn a b /\ ~ emptyOnImage W H det /\
      d_box b = clampedBox W H det
  | None, None => emptyOnImage W H det
  | _, _ => False
  end.
Proof.
  intros HW HH Hfs Hpx Hpy.
  unfold drawOne, drawOneOnBuffer, emptyOnImage, clampedBox.
  destruct (box det) as [bx1 by1 bx2 by2]. cbn [x1 y1 x2 y2 r_w r_h].
  pose proof (clamp0_range W (round bx1) ltac:(lra)) as Rx1.
  pose proof (clamp0_range H (round by1) ltac:(lra)) as Ry1.
  set (X1 := Qmax 0 (Qmin W (round bx1))) in *.
  set (X2 := Qmax 0 (Qmin W (round bx2))) in *.
  set (Y1 := Qmax 0 (Qmin H (round by1))) in *.
  set (Y2 := Qmax 0 (Qmin H (round by2))) in *.
  cbv zeta.
  destruct (Qle_bool X2 X1 || Qle_bool Y2 Y1)%bool eqn:E.
  - apply orb_true_iff in E.
    destruct E as [E|E]; apply Qle_bool_iff in E; [left|right]; lra.
  - apply orb_false_iff in E. destruct E as [Ex Ey].
    apply Qle_bool_false in Ex. apply Qle_bool_false in Ey.
    set (bgH := fontSize st + textPaddingY st * 2).
    set (bgY := Qmax 0 (Y1 - bgH - Qmax 2 (strokeWidth st))).
    assert (HbgY : 0 <= bgY) by apply Q.le_max_l.
    assert (Hf : 0 <= floor (fontSize st * 0.8))
      by (apply floor_nonneg; lra).
    assert (EX : Qmax 0 X1 == X1) by (apply Q.max_r; lra).
    assert (EY : Qmax 0 bgY == bgY) by (apply Q.max_r; lra).
    assert (EL : Qmax 0 (bgY + textPaddingY st + floor (fontSize st * 0.8))
                 == bgY + textPaddingY st + floor (fontSize st * 0.8))
      by (apply Q.max_r; lra).
    split; [|split; [intros [Hc|Hc]; lra | reflexivity]].
    unfold sameDrawn, sameRect.
    cbn [d_box d_bg d_rx d_textX d_textY r_x r_y r_w r_h].
    rewrite EX, EY, EL. repeat split; reflexivity.
Qed.

Lemma insideImage_same (W H : Q) (a b : Drawn) :
  sameDrawn a b -> insideImage W H b -> insideImage W H a.
Proof.
  unfold sameDrawn, sameRect, insideImage.
  intros ((A1 & A2 & A3 & A4) & (B1 & B2 & B3 & B4) & _ & C1 & C2).
  intros ((I1 & I2 & I3) & (J1 & J2 & J3) & (K1 & K2 & K3 & K4 & K5) & L1 & L2).
  repeat split; lra.
Qed.

Lemma drawAll_agree (W H : Q) (st : Style) (dets : list DetectionAxisAligned) :
  0 < W -> 0 < H ->
  14 <= fontSize st -> 6 <= textPaddingX st -> 4 <= textPaddingY st ->
  let la := drawAll (drawOne textLength W H st) dets in
  let lb := drawAll (drawOneOnBuffer textLength W H st) dets in
  Forall2 sameDrawn la lb /\
  Forall (insideImage W H) la /\ Forall (insideImage W H) lb /\
  (List.length lb <= List.length dets)%nat /\
  (forall det, In det dets -> ~ emptyOnImage W H det ->
     exists d, In d lb /\ d_box d = clampedBox W H det) /\
  (forall d, In d lb ->
     exists det, In det dets /\ ~ emptyOnImage W H det /\
       d_box d = clampedBox W H det).
Proof.
  intros HW HH Hfs Hpx Hpy. cbv zeta. unfold drawAll.
  induction dets as [|det dets IH]; cbn [flat_map].
  - repeat split; try constructor; [intros det []|intros d []].
  - destruct IH as (I1 & I2 & I3 & I4 & I5 & I6).
    pose proof (drawOne_agree W H st det HW HH Hfs Hpx Hpy) as Ha.
    pose proof (drawOneOnBuffer_inside W H st det) as Hi.
    destruct (drawOne textLength W H st det) as [a|],
             (drawOneOnBuffer textLength W H st det) as [b|];
      try contradiction; cbn [app List.length].
    + destruct Ha as (Hs & Hne & Hx).
      specialize (Hi b HW HH Hfs Hpx Hpy eq_refl).
      split; [now constructor|].
      split; [constructor; [now apply insideImage_same with b|exact I2]|].
      split; [now constructor|]. split; [lia|]. split.
      * intros det' [<-|Hin] Hn; [exists b; split; [now left|exact Hx]|].
        destruct (I5 det' Hin Hn) as (d & Hd & Hdx). exists d.
        split; [now right|exact Hdx].
      * intros d [<-|Hd]; [exists det; split; [now left|now split]|].
        destruct (I6 d Hd) as (det' & Hin & Hn & Hdx). exists det'.
        split; [now right|now split].
    + split; [exact I1|]. split; [exact I2|]. split; [exact I3|].
      split; [lia|]. split.
      * intros det' [<-|Hin] Hn; [contradiction|]. now apply I5.
      * intros d Hd. destruct (I6 d Hd) as (det' & Hin & Hn & Hdx).
        exists det'. split; [now right|now split].
Qed.


End OverlayGeometry.

Section Escaping.
Import Overlay OverlaySpec.
Local Open Scope string_scope.

Lemma append_nested (a b c : string) : a ++ (b ++ c) = (a ++ b) ++ c.
Proof.
  induction a as [|x a IH]; [reflexivity|]. cbn [append]. now rewrite IH.
Qed.

Lemma replaceAll_app (c : ascii) (by_ s t : string) :
  replaceAll c by_ (s ++ t) = replaceAll c by_ s ++ replaceAll c by_ t.
Proof.
  induction s as [|a s IH]; [reflexivity|].
  cbn [append replaceAll]. rewrite IH.
  destruct (Ascii.eqb a c); [apply append_nested|reflexivity].
Qed.

(** The three passes together replace each character on its own: the
    ampersands that the later passes bring in are not replaced again. *)
Lemma escape_cons (a : ascii) (s : string) :
  escape (String a s) = escapeChar a ++ escape s.
Proof.
  unfold escape, escapeChar. cbn [replaceAll].
  destruct (Ascii.eqb a "&") eqn:E1.
  { rewrite !replaceAll_app. reflexivity. }
  cbn [replaceAll]. destruct (Ascii.eqb a "<") eqn:E2.
  { rewrite !replaceAll_app. reflexivity. }
  cbn [replaceAll]. destruct (Ascii.eqb a ">") eqn:E3; reflexivity.
Qed.

Lemma occurs_app (c : ascii) (s t : string) :
  occurs c (s ++ t) <-> occurs c s \/ occurs c t.
Proof.
  induction s as [|a s IH]; cbn [append occurs]; [tauto|].
  rewrite IH. tauto.
Qed.

Lemma escapeChar_cases (a : ascii) :
  (a = "&"%char /\ escapeChar a = "&amp;") \/
  (a = "<"%char /\ escapeChar a = "&lt;") \/
  (a = ">"%char /\ escapeChar a = "&gt;") \/
  (a <> "&"%char /\ a <> "<"%char /\ a <> ">"%char /\
   escapeChar a = String a "").
Proof.
  unfold escapeChar.
  destruct (Ascii.eqb a "&") eqn:E1;
    [apply Ascii.eqb_eq in E1; now left|apply Ascii.eqb_neq in E1].
  destruct (Ascii.eqb a "<") eqn:E2;
    [apply Ascii.eqb_eq in E2; right; now left|apply Ascii.eqb_neq in E2].
  destruct (Ascii.eqb a ">") eqn:E3;
    [apply Ascii.eqb_eq in E3; right; right; now left
    |apply Ascii.eqb_neq in E3].
  right; right; right. now repeat split.
Qed.

Lemma escapeChar_inj (a b : ascii) (r r' : string) :
  escapeChar a ++ r = escapeChar b ++ r' -> a = b /\ r = r'.
Proof.
  destruct (escapeChar_cases a) as [[-> ->]|[[-> ->]|[[-> ->]|(A1 & A2 & A3 & ->)]]];
    destruct (escapeChar_cases b) as [[-> ->]|[[-> ->]|[[-> ->]|(B1 & B2 & B3 & ->)]]];
    cbn [append]; intros H; try discriminate;
    try (injection H; intros; subst; split; congruence);
    injection H; intros; subst; congruence.
Qed.

Lemma escape_facts (s : string) :
  ~ occurs "<" (escape s) /\ ~ occurs ">" (escape s) /\
  entitiesOnly (escape s) /\
  (~ occurs "&" s -> ~ occurs "<" s -> ~ occurs ">" s -> escape s = s).
Proof.
  induction s as [|a s (I1 & I2 & I3 & I4)].
  - cbn. tauto.
  - rewrite escape_cons.
    destruct (escapeChar_cases a)
      as [[-> ->]|[[-> ->]|[[-> ->]|(A1 & A2 & A3 & ->)]]];
      cbn [append occurs entitiesOnly startsWith].
    + intuition (try discriminate).
    + intuition (try discriminate).
    + intuition (try discriminate).
    + intuition (try discriminate; try congruence).
Qed.

(** X29.  [escape], which both renderers apply to the text of a label.
    The result contains no [<] and no [>], and each of its ampersands
    starts one of the entities [&amp;], [&lt;], [&gt;].  A text without
    these three characters is left as it is.  Distinct texts have distinct
    results. *)
Theorem escape_wellformed :
  (forall s,
      ~ occurs "<" (escape s) /\ ~ occurs ">" (escape s) /\
      entitiesOnly (escape s)) /\
  (forall s,
      ~ occurs "&" s -> ~ occurs "<" s -> ~ occurs ">" s -> escape s = s) /\
  (forall s t, escape s = escape t -> s = t).
Proof.
  split; [|split].
  - intros s. destruct (escape_facts s) as (H1 & H2 & H3 & _). auto.
  - intros s. now destruct (escape_facts s) as (_ & _ & _ & H).
  - induction s as [|a s IH]; intros [|b t] H.
    + reflexivity.
    + rewrite escape_cons in H. exfalso.
      destruct (escapeChar_cases b)
        as [[_ E]|[[_ E]|[[_ E]|(_ & _ & _ & E)]]];
        rewrite E in H; discriminate.
    + rewrite escape_cons in H. exfalso.
      destruct (escapeChar_cases a)
        as [[_ E]|[[_ E]|[[_ E]|(_ & _ & _ & E)]]];
        rewrite E in H; discriminate.
    + rewrite !escape_cons in H. apply escapeChar_inj in H.
      destruct H as [-> H]. f_equal. now apply IH.
Qed.

End Escaping.

(** ** The dominant colours *)
Section ColourKeys.
Import Js Colors ColorsSpec.
Local Open Scope string_scope.

Lemma Number_show (n : N) : Number (show n) = Some n.
Proof.
  unfold Number, show. rewrite NilEmpty.usu. cbn [option_map].
  now rewrite DecimalN.Unsigned.of_to.
Qed.

Lemma splitDash_digits (d : Decimal.uint) (rest : string) :
  splitDash (NilEmpty.string_of_uint d ++ String "-" rest) =
  NilEmpty.string_of_uint d :: splitDash rest.
Proof.
  induction d as [|d IH|d IH|d IH|d IH|d IH|d IH|d IH|d IH|d IH|d IH];
    cbn [NilEmpty.string_of_uint append splitDash];
    try reflexivity; rewrite IH; reflexivity.
Qed.

Lemma splitDash_digits_end (d : Decimal.uint) :
  splitDash (NilEmpty.string_of_uint d) = [NilEmpty.string_of_uint d].
Proof.
  induction d as [|d IH|d IH|d IH|d IH|d IH|d IH|d IH|d IH|d IH|d IH];
    cbn [NilEmpty.string_of_uint splitDash];
    try reflexivity; rewrite IH; reflexivity.
Qed.

Lemma splitDash_keyOf (a b c : N) :
  splitDash (keyOf (a, b, c)) = [show a; show b; show c].
Proof.
  unfold keyOf, show. cbn [append].
  now rewrite !splitDash_digits, splitDash_digits_end.
Qed.

(** The key names its bin again, and the colour read off the key is the
    centre of the bin. *)
Lemma binOf_keyOf (t : Bin) : binOf (keyOf t) = Some t.
Proof.
  destruct t as [[a b] c]. unfold binOf. rewrite splitDash_keyOf.
  cbn [map]. now rewrite !Number_show.
Qed.

Lemma colorOf_keyOf (t : Bin) : colorOf (keyOf t) = Some (rgb t).
Proof.
  destruct t as [[a b] c]. unfold colorOf. rewrite splitDash_keyOf.
  cbn [map]. now rewrite !Number_show.
Qed.

Lemma keyOf_inj (s t : Bin) : keyOf s = keyOf t -> s = t.
Proof.
  intros H. pose proof (binOf_keyOf s) as Hs. rewrite H, binOf_keyOf in Hs.
  now injection Hs.
Qed.

Lemma keyAt_keyOf (data : list Byte.byte) (i : nat) :
  keyAt data i = keyOf (binAt data i).
Proof. reflexivity. Qed.

Lemma Bin_eqb_eq (a b : Bin) : Bin_eqb a b = true <-> a = b.
Proof.
  destruct a as [[a1 a2] a3], b as [[b1 b2] b3]. unfold Bin_eqb.
  rewrite !andb_true_iff, !N.eqb_eq. split.
  - intros [[-> ->] ->]. reflexivity.
  - intros H. injection H as -> -> ->. auto.
Qed.

Lemma shr4_range (data : list Byte.byte) (i : nat) : (shr4 data i < 16)%N.
Proof.
  unfold shr4. destruct (nth_error data i) as [b|]; [|reflexivity].
  pose proof (Byte.to_N_bounded b) as Hb.
  rewrite N.shiftr_div_pow2. change (2 ^ 4)%N with 16%N.
  apply N.Div0.div_lt_upper_bound. lia.
Qed.

End ColourKeys.

Section Tally.
Import Js Colors ColorsSpec.

Lemma binsGet_binsSet (bins : Bins) (key k : string) (v : N) :
  binsGet (binsSet bins key v) k =
  if String.eqb key k then Some v else binsGet bins k.
Proof.
  induction bins as [|[k0 n0] rest IH]; cbn [binsSet binsGet].
  - reflexivity.
  - destruct (String.eqb k0 key) eqn:E0; cbn [binsGet].
    + apply String.eqb_eq in E0. subst k0.
      destruct (String.eqb key k); reflexivity.
    + rewrite IH. destruct (String.eqb k0 k) eqn:E1; [|reflexivity].
      apply String.eqb_eq in E1. subst k0. now rewrite String.eqb_sym, E0.
Qed.

Lemma binsSet_In (bins : Bins) (key k : string) (v : N) :
  In k (map fst (binsSet bins key v)) <-> k = key \/ In k (map fst bins).
Proof.
  induction bins as [|[k0 n0] rest IH]; cbn [binsSet map fst In].
  - intuition.
  - destruct (String.eqb k0 key) eqn:E0; cbn [map fst In].
    + apply String.eqb_eq in E0. subst k0. intuition.
    + rewrite IH. intuition.
Qed.

Lemma binsSet_NoDup (bins : Bins) (key : string) (v : N) :
  NoDup (map fst bins) -> NoDup (map fst (binsSet bins key v)).
Proof.
  induction bins as [|[k0 n0] rest IH]; cbn [binsSet map fst]; intros Hnd.
  - constructor; [intros []|constructor].
  - apply NoDup_cons_iff in Hnd. destruct Hnd as [Hni Hnd].
    destruct (String.eqb k0 key) eqn:E0; cbn [map fst].
    + now constructor.
    + constructor; [|now apply IH].
      rewrite binsSet_In. intros [->|H]; [|contradiction].
      now rewrite String.eqb_refl in E0.
Qed.

Lemma binsGet_In (bins : Bins) (k : string) (n : N) :
  NoDup (map fst bins) -> (In (k, n) bins <-> binsGet bins k = Some n).
Proof.
  induction bins as [|[k0 n0] rest IH]; cbn [binsGet map fst In]; intros Hnd.
  - split; [intros []|discriminate].
  - apply NoDup_cons_iff in Hnd. destruct Hnd as [Hni Hnd].
    destruct (String.eqb k0 k) eqn:E.
    + apply String.eqb_eq in E. subst k0. split.
      * intros [H|H]; [now injection H as ->|].
        exfalso. apply Hni. apply in_map_iff. now exists (k, n).
      * intros H. injection H as ->. now left.
    + apply String.eqb_neq in E. rewrite <- (IH Hnd). split.
      * intros [H|H]; [injection H as -> ->; congruence|exact H].
      * intros H. now right.
Qed.

Lemma occurrences_snoc (keys : list string) (key k : string) :
  occurrences (keys ++ [key]) k =
  (occurrences keys k + if String.eqb k key then 1 else 0)%N.
Proof.
  unfold occurrences. rewrite filter_app, length_app. cbn [filter].
  destruct (String.eqb k key); cbn [List.length]; lia.
Qed.

Lemma tallies_bump (keys : list string) (bins : Bins) (key : string) :
  tallies keys bins -> tallies (keys ++ [key]) (bump bins key).
Proof.
  intros [Hnd Hget]. split; [now apply binsSet_NoDup|].
  intros k. unfold bump. rewrite binsGet_binsSet, occurrences_snoc.
  rewrite (String.eqb_sym k key).
  destruct (String.eqb key k) eqn:E.
  - apply String.eqb_eq in E. subst k. rewrite Hget.
    destruct (N.eqb (occurrences keys key) 0) eqn:E0.
    + apply N.eqb_eq in E0. rewrite E0. reflexivity.
    + destruct (N.eqb (occurrences keys key + 1) 0) eqn:E1;
        [apply N.eqb_eq in E1; lia|reflexivity].
  - rewrite Hget, N.add_0_r. reflexivity.
Qed.

Lemma fold_tallies (more : list string) :
  forall keys bins,
    tallies keys bins -> tallies (keys ++ more) (fold_left bump more bins).
Proof.
  induction more as [|key more IH]; intros keys bins Ht; cbn [fold_left].
  - now rewrite app_nil_r.
  - replace (keys ++ key :: more) with ((keys ++ [key]) ++ more)
      by (now rewrite <- app_assoc).
    apply IH. now apply tallies_bump.
Qed.

Lemma starts_spec (channels len i : nat) :
  (0 < channels)%nat ->
  (In i (starts channels len) <->
   (i < len)%nat /\ exists k, i = (k * channels)%nat).
Proof.
  intros Hc. unfold starts. rewrite in_map_iff. split.
  - intros (k & <- & Hk). apply in_seq in Hk. split; [|now exists k].
    assert (Hlt : (k < (len + channels - 1) / channels)%nat) by lia.
    destruct (Nat.lt_ge_cases (k * channels) len) as [H|H]; [exact H|].
    exfalso.
    assert (((len + channels - 1) / channels < S k)%nat).
    { apply Nat.Div0.div_lt_upper_bound. nia. }
    lia.
  - intros (Hi & k & ->). exists k. split; [reflexivity|].
    apply in_seq. split; [lia|]. cbn [plus].
    assert ((S k <= (len + channels - 1) / channels)%nat).
    { apply Nat.div_le_lower_bound; [lia|]. nia. }
    lia.
Qed.

(** The loop, with enough fuel, visits the starts of the pixels in
    order. *)
Lemma binLoop_fold (data : list Byte.byte) (channels : nat) :
  (0 < channels)%nat ->
  forall fuel k bins,
    (List.length data <= k * channels + fuel)%nat ->
    binLoop data channels fuel (k * channels) bins =
    fold_left bump
      (map (keyAt data)
         (map (fun k => (k * channels)%nat)
            (seq k ((List.length data + channels - 1) / channels - k))))
      bins.
Proof.
  intros Hc. set (len := List.length data).
  set (count := ((len + channels - 1) / channels)%nat).
  assert (Hlow : forall k, (k * channels < len)%nat -> (S k <= count)%nat).
  { intros k Hk. apply Nat.div_le_lower_bound; [lia|]. nia. }
  assert (Hup : forall k, (len <= k * channels)%nat -> (count <= k)%nat).
  { intros k Hk.
    assert ((count < S k)%nat)
      by (apply Nat.Div0.div_lt_upper_bound; nia).
    lia. }
  induction fuel as [|fuel IH]; intros k bins Hf; cbn [binLoop].
  - rewrite Nat.add_0_r in Hf. apply Hup in Hf.
    replace (count - k)%nat with 0%nat by lia. reflexivity.
  - fold len. destruct (k * channels <? len)%nat eqn:E.
    + apply Nat.ltb_lt in E. pose proof (Hlow k E) as Hk.
      replace (count - k)%nat with (S (count - S k)) by lia.
      cbn [seq map fold_left].
      replace (k * channels + channels)%nat with (S k * channels)%nat
        by lia.
      apply IH. nia.
    + apply Nat.ltb_ge in E. apply Hup in E.
      replace (count - k)%nat with 0%nat by lia. reflexivity.
Qed.

End Tally.

Section TopOfSorted.
Import Js.
Context {A : Type} (key : A -> Q).

Lemma insertDesc_perm (a : A) (l : list A) :
  Permutation (insertDesc key a l) (a :: l).
Proof.
  induction l as [|b l IH]; cbn [insertDesc]; [reflexivity|].
  destruct (Qlt_bool (key a) (key b)); [|reflexivity].
  rewrite IH. apply perm_swap.
Qed.

Lemma sortDesc_perm (l : list A) : Permutation (sortDesc key l) l.
Proof.
  induction l as [|a l IH]; cbn [sortDesc]; [reflexivity|].
  rewrite insertDesc_perm. now constructor.
Qed.

Lemma sorted_firstn_skipn (R : A -> A -> Prop) (n : nat) :
  forall l, StronglySorted R l ->
    forall a b, In a (firstn n l) -> In b (skipn n l) -> R a b.
Proof.
  induction n as [|n IH]; intros l Hs a b Ha Hb; [destruct Ha|].
  destruct l as [|x l]; [destruct Ha|].
  cbn [firstn skipn] in Ha, Hb. apply StronglySorted_inv in Hs.
  destruct Hs as [Hs Hx]. destruct Ha as [<-|Ha].
  - rewrite Forall_forall in Hx. apply Hx.
    rewrite <- (firstn_skipn n l). apply in_or_app. now right.
  - now apply (IH l Hs).
Qed.

Lemma sorted_firstn (R : A -> A -> Prop) (n : nat) :
  forall l, StronglySorted R l -> StronglySorted R (firstn n l).
Proof.
  induction n as [|n IH]; intros l Hs; [constructor|].
  destruct l as [|x l]; [constructor|].
  cbn [firstn]. apply StronglySorted_inv in Hs. destruct Hs as [Hs Hx].
  constructor; [now apply IH|].
  rewrite Forall_forall in *. intros y Hy. apply Hx.
  rewrite <- (firstn_skipn n l). apply in_or_app. now left.
Qed.

End TopOfSorted.

Section DominantColours.
Import Js Colors ColorsSpec.

Lemma sorted_map_in {A B : Type} (R : A -> A -> Prop) (S : B -> B -> Prop)
  (f : A -> B) (l : list A) :
  (forall a b, In a l -> In b l -> R a b -> S (f a) (f b)) ->
  StronglySorted R l -> StronglySorted S (map f l).
Proof.
  intros Hf Hs. induction Hs as [|a l Hl IH Ha]; cbn [map]; constructor.
  - apply IH. intros x y Hx Hy. apply Hf; now right.
  - apply Forall_forall. intros y Hy. apply in_map_iff in Hy.
    destruct Hy as (b & <- & Hb). rewrite Forall_forall in Ha.
    apply Hf; [now left|now right|now apply Ha].
Qed.

Lemma NoDup_firstn {A : Type} (n : nat) (l : list A) :
  NoDup l -> NoDup (firstn n l).
Proof.
  intros H. rewrite <- (firstn_skipn n l) in H.
  now apply NoDup_app_remove_r in H.
Qed.

Lemma skipn_full {A : Type} (n : nat) (l : list A) (x : A) :
  In x (skipn n l) -> List.length (firstn n l) = n.
Proof.
  intros H. apply firstn_length_le.
  destruct (Nat.le_gt_cases n (List.length l)) as [Hle|Hgt]; [exact Hle|].
  rewrite skipn_all2 in H by lia. destruct H.
Qed.

Lemma occurrences_population (data : list Byte.byte) (t : Bin)
  (l : list nat) :
  occurrences (map (keyAt data) l) (keyOf t) =
  N.of_nat (List.length (filter (fun i => Bin_eqb (binAt data i) t) l)).
Proof.
  unfold occurrences. f_equal. induction l as [|i l IH]; [reflexivity|].
  cbn [map filter]. rewrite keyAt_keyOf.
  destruct (Bin_eqb (binAt data i) t) eqn:E.
  - apply Bin_eqb_eq in E. rewrite E, String.eqb_refl.
    cbn [List.length]. now rewrite IH.
  - destruct (String.eqb (keyOf t) (keyOf (binAt data i))) eqn:E'.
    + apply String.eqb_eq, keyOf_inj in E'. subst t.
      assert (Bin_eqb (binAt data i) (binAt data i) = true)
        by now apply Bin_eqb_eq.
      congruence.
    + exact IH.
Qed.

Lemma occurrences_In (keys : list string) (k : string) :
  occurrences keys k <> 0%N -> In k keys.
Proof.
  unfold occurrences. intros H.
  destruct (filter (String.eqb k) keys) as [|x l] eqn:E;
    [now elim H|].
  assert (Hx : In x (filter (String.eqb k) keys)) by (rewrite E; now left).
  apply filter_In in Hx. destruct Hx as [Hx Hk].
  apply String.eqb_eq in Hk. now subst x.
Qed.

(** What the bins hold once the loop is over: one entry for each bin in
    which a pixel falls, with the number of its pixels. *)
Lemma bins_population (data : list Byte.byte) (channels : nat) :
  (0 < channels)%nat ->
  let bins := binLoop data channels (List.length data) 0 [] in
  NoDup (map fst bins) /\
  (forall k n, In (k, n) bins ->
     exists i, In i (starts channels (List.length data)) /\
       k = keyOf (binAt data i) /\
       n = N.of_nat (population data channels (binAt data i))) /\
  (forall i, In i (starts channels (List.length data)) ->
     In (keyOf (binAt data i),
         N.of_nat (population data channels (binAt data i))) bins).
Proof.
  intros Hc. cbv zeta.
  pose proof (binLoop_fold data channels Hc (List.length data) 0 []
                ltac:(lia)) as Hl.
  cbn [Nat.mul] in Hl. rewrite Nat.sub_0_r in Hl. rewrite Hl. clear Hl.
  fold (starts channels (List.length data)).
  set (st := starts channels (List.length data)).
  assert (Ht : tallies (map (keyAt data) st)
                 (fold_left bump (map (keyAt data) st) [])).
  { apply (fold_tallies (map (keyAt data) st) [] []).
    split; [constructor|]. intros k. reflexivity. }
  destruct Ht as [Hnd Hget].
  set (bins := fold_left bump (map (keyAt data) st) []) in *.
  assert (Hpop : forall i,
             occurrences (map (keyAt data) st) (keyOf (binAt data i)) =
             N.of_nat (population data channels (binAt data i))).
  { intros i. apply occurrences_population. }
  split; [exact Hnd|]. split.
  - intros k n Hin. apply (binsGet_In bins k n Hnd) in Hin.
    rewrite Hget in Hin.
    destruct (N.eqb (occurrences (map (keyAt data) st) k) 0) eqn:E;
      [discriminate|].
    apply N.eqb_neq in E. injection Hin as <-.
    pose proof (occurrences_In _ _ E) as Hk. apply in_map_iff in Hk.
    destruct Hk as (i & <- & Hi). exists i. split; [exact Hi|].
    split; [apply keyAt_keyOf|]. rewrite keyAt_keyOf. apply Hpop.
  - intros i Hi. apply (binsGet_In bins _ _ Hnd). rewrite Hget, Hpop.
    assert (Hp : (0 < population data channels (binAt data i))%nat).
    { unfold population. fold st.
      assert (Hf : In i (filter (fun j => Bin_eqb (binAt data j)
                                            (binAt data i)) st)).
      { apply filter_In. split; [exact Hi|]. now apply Bin_eqb_eq. }
      destruct (filter _ st); [destruct Hf|cbn [List.length]; lia]. }
    destruct (N.eqb (N.of_nat (population data channels (binAt data i))) 0)
      eqn:E; [apply N.eqb_eq in E; lia|reflexivity].
Qed.

(** X30.  [analyzeImageColors] on the raw pixels of the downscaled image.
    With fewer than 3 channels it returns nothing.  Otherwise every pixel,
    one at each multiple of the number of channels below the length of the
    buffer, falls in the bin of its three channels divided by 16, and the
    result is the list of the colours [rgb(16a+8,16b+8,16c+8)] of at most
    five different bins [(a, b, c)], each below 16 in every channel and
    each holding a pixel of the image, in descending order of the number of
    their pixels.  A bin that holds a pixel is left out only when five
    bins are returned, none of which holds fewer pixels. *)
Theorem analyzeImageColors_top (data : list Byte.byte) (channels : nat) :
  ((channels < 3)%nat -> analyzeImageColors data channels = []) /\
  ((3 <= channels)%nat ->
   (forall i, In i (starts channels (List.length data)) <->
      (i < List.length data)%nat /\ exists k, i = (k * channels)%nat) /\
   exists top : list Bin,
     analyzeImageColors data channels = map (fun t => Some (rgb t)) top /\
     NoDup top /\ (List.length top <= 5)%nat /\
     (forall t, In t top ->
        (exists i, In i (starts channels (List.length data)) /\
                   binAt data i = t) /\
        (fst (fst t) < 16 /\ snd (fst t) < 16 /\ snd t < 16)%N) /\
     StronglySorted
       (fun s t =>
          (population data channels t <= population data channels s)%nat)
       top /\
     (forall i, In i (starts channels (List.length data)) ->
        In (binAt data i) top \/
        (List.length top = 5%nat /\
         forall t, In t top ->
           (population data channels (binAt data i) <=
            population data channels t)%nat))).
Proof.
  unfold analyzeImageColors. split.
  { intros H. apply Nat.ltb_lt in H. now rewrite H. }
  intros Hc. split; [intros i; apply starts_spec; lia|].
  assert (E : (channels <? 3)%nat = false) by (apply Nat.ltb_ge; lia).
  rewrite E. cbv zeta.
  destruct (bins_population data channels ltac:(lia)) as (Hnd & Hfrom & Hto).
  cbv zeta in Hnd, Hfrom, Hto.
  set (bins := binLoop data channels (List.length data) 0 []) in *.
  set (weight := fun e : string * N => inject_Z (Z.of_N (snd e))).
  set (sorted := sortDesc weight bins).
  set (toBin := fun e : string * N =>
                  match binOf (fst e) with Some t => t | None => (0, 0, 0)%N
                  end).
  assert (Hsub : forall e, In e (firstn 5 sorted) -> In e bins).
  { intros e He. apply (sortDesc_In weight). fold sorted.
    rewrite <- (firstn_skipn 5 sorted). apply in_or_app. now left. }
  assert (Hbin : forall e, In e bins ->
             exists i, In i (starts channels (List.length data)) /\
               toBin e = binAt data i /\ fst e = keyOf (toBin e) /\
               snd e = N.of_nat (population data channels (toBin e))).
  { intros [k n] He. destruct (Hfrom k n He) as (i & Hi & -> & ->).
    exists i. unfold toBin. cbn [fst snd]. rewrite binOf_keyOf. auto. }
  exists (map toBin (firstn 5 sorted)).
  split; [|split; [|split; [|split; [|split]]]].
  - rewrite map_map. apply map_ext_in. intros e He.
    destruct (Hbin e (Hsub e He)) as (i & _ & _ & Hk & _).
    rewrite Hk at 1. apply colorOf_keyOf.
  - apply (NoDup_map_inv keyOf). rewrite map_map.
    assert (Hm : map (fun e => keyOf (toBin e)) (firstn 5 sorted) =
                 map fst (firstn 5 sorted)).
    { apply map_ext_in. intros e He.
      destruct (Hbin e (Hsub e He)) as (i & _ & _ & Hk & _). now rewrite <- Hk. }
    rewrite Hm, <- firstn_map. apply NoDup_firstn.
    apply (Permutation_NoDup (l := map fst bins)); [|exact Hnd].
    apply Permutation_map. symmetry. apply sortDesc_perm.
  - rewrite length_map. apply firstn_le_length.
  - intros t Ht. apply in_map_iff in Ht. destruct Ht as (e & <- & He).
    destruct (Hbin e (Hsub e He)) as (i & Hi & Hb & _).
    split; [exists i; split; [exact Hi|now symmetry]|].
    rewrite Hb. unfold binAt. cbn [fst snd].
    repeat split; apply shr4_range.
  - apply (sorted_map_in (descending weight)).
    + intros a b Ha Hb Hab.
      destruct (Hbin a (Hsub a Ha)) as (_ & _ & _ & _ & Ea).
      destruct (Hbin b (Hsub b Hb)) as (_ & _ & _ & _ & Eb).
      unfold descending, weight in Hab. rewrite <- Zle_Qle in Hab. lia.
    + apply sorted_firstn. apply sortDesc_sorted.
  - intros i Hi. specialize (Hto i Hi).
    apply (sortDesc_In weight) in Hto. fold sorted in Hto.
    rewrite <- (firstn_skipn 5 sorted) in Hto. apply in_app_or in Hto.
    destruct Hto as [Hin|Hout].
    + left. apply in_map_iff.
      exists (keyOf (binAt data i),
              N.of_nat (population data channels (binAt data i))).
      split; [|exact Hin]. unfold toBin. cbn [fst].
      now rewrite binOf_keyOf.
    + right. split; [rewrite length_map; now apply skipn_full with (x := _) in Hout|].
      intros t Ht. apply in_map_iff in Ht. destruct Ht as (e & <- & He).
      pose proof (sorted_firstn_skipn (descending weight) 5 sorted
                    (sortDesc_sorted weight bins) _ _ He Hout) as Hd.
      destruct (Hbin e (Hsub e He)) as (_ & _ & _ & _ & Ee).
      unfold descending, weight in Hd. cbn [snd] in Hd.
      rewrite <- Zle_Qle in Hd. lia.
Qed.

End DominantColours.

(** ** The decision of the Screenshot stage *)

Section BestByScore.
Import Js Types Refine ScreenshotSpec.

Lemma sortDesc_head {A : Type} (key : A -> Q) (a : A) (after : list A) :
  (forall d, In d after -> key d <= key a) ->
  forall before,
    (forall d, In d before -> key d < key a) ->
    hd_error (sortDesc key (before ++ a :: after)) = Some a.
Proof.
  intros Hafter. induction before as [|b before IH]; intros Hbefore.
  - cbn [app sortDesc].
    destruct (sortDesc key after) as [|c tl] eqn:E; [reflexivity|].
    assert (Hc : In c after)
      by (apply (sortDesc_In key); rewrite E; now left).
    cbn [insertDesc].
    assert (El : Qlt_bool (key a) (key c) = false)
      by (apply Qlt_bool_false_iff; now apply Hafter).
    now rewrite El.
  - cbn [app sortDesc].
    assert (IH' : hd_error (sortDesc key (before ++ a :: after)) = Some a)
      by (apply IH; intros d Hd; apply Hbefore; now right).
    destruct (sortDesc key (before ++ a :: after)) as [|c tl];
      [discriminate|].
    injection IH' as ->. cbn [insertDesc].
    assert (El : Qlt_bool (key b) (key a) = true)
      by (apply Qlt_bool_iff, Hbefore; now left).
    now rewrite El.
Qed.

(** [bestByScore] finds the first of the detections of greatest score
    among those kept. *)
Lemma firstBest_bestByScore (keep : DetectionAxisAligned -> bool)
  (dets : list DetectionAxisAligned) (o : option DetectionAxisAligned) :
  firstBest keep dets o -> bestByScore keep dets = o.
Proof.
  unfold bestByScore. destruct o as [a|]; cbn [firstBest].
  - intros (before & after & -> & Ha & Hb & Hafter).
    rewrite filter_app. cbn [filter]. rewrite Ha.
    apply sortDesc_head.
    + intros d Hd. apply filter_In in Hd. destruct Hd. now apply Hafter.
    + intros d Hd. apply filter_In in Hd. destruct Hd. now apply Hb.
  - intros Hnone.
    assert (E : filter keep dets = []).
    { induction dets as [|d dets IH]; [reflexivity|]. cbn [filter].
      rewrite (Hnone d) by now left. apply IH.
      intros x Hx. apply Hnone. now right. }
    now rewrite E.
Qed.

Lemma validateBar_notes (bar : DetectionAxisAligned) (container : Box)
  (W H : Q) (which : BarSide) (t : Tol) (notes : list Note) :
  fst (validateBarNoMutate bar container W H which t notes) =
  fst (validateBarNoMutate bar container W H which t []).
Proof.
  unfold validateBarNoMutate. cbv zeta.
  destruct (Qle_bool _ 0); [reflexivity|].
  destruct (Qlt_bool _ _); [reflexivity|].
  destruct (Qlt_bool _ _); [reflexivity|].
  destruct which; destruct (Qlt_bool _ _); reflexivity.
Qed.

Lemma Qlt_bool_false_le (x y : Q) : Qlt_bool x y = false -> y <= x.
Proof. intros H. now apply Qlt_bool_false_iff. Qed.

(** [validateBarNoMutate] accepts exactly the bars that fit. *)
Lemma validateBar_fits (bar : DetectionAxisAligned) (container : Box)
  (W H : Q) (which : BarSide) (t : Tol) (notes : list Note) :
  (exists out,
      fst (validateBarNoMutate bar container W H which t notes) = Some out)
  <-> barFits which container t bar.
Proof.
  unfold validateBarNoMutate, barFits. cbv zeta.
  set (inter := intersect (box bar) container).
  destruct (Qle_bool (area inter) 0) eqn:Ea.
  { apply Qle_bool_iff in Ea. cbn [fst]. split.
    - intros (out & E). discriminate.
    - intros (Hpos & _). lra. }
  assert (Hpos : 0 < area inter).
  { destruct (Qlt_le_dec 0 (area inter)) as [Hl|Hl]; [exact Hl|].
    apply Qle_bool_iff in Hl. congruence. }
  destruct (Qlt_bool _ _) eqn:Ew.
  { apply Qlt_bool_iff in Ew. cbn [fst]. split.
    - intros (out & E). discriminate.
    - intros (_ & Hw & _). lra. }
  apply Qlt_bool_false_le in Ew.
  destruct (Qlt_bool _ _) eqn:Eh.
  { apply Qlt_bool_iff in Eh. cbn [fst]. split.
    - intros (out & E). discriminate.
    - intros (_ & _ & Hh & _). lra. }
  apply Qlt_bool_false_le in Eh.
  destruct which; destruct (Qlt_bool _ _) eqn:Ec; cbn [fst].
  - apply Qlt_bool_iff in Ec. split.
    + intros (out & E). discriminate.
    + intros (_ & _ & _ & Hc). lra.
  - apply Qlt_bool_false_le in Ec. split; [|intros _; eexists; reflexivity].
    intros _. auto.
  - apply Qlt_bool_iff in Ec. split.
    + intros (out & E). discriminate.
    + intros (_ & _ & _ & Hc). lra.
  - apply Qlt_bool_false_le in Ec. split; [|intros _; eexists; reflexivity].
    intros _. auto.
Qed.

Lemma barFitsBy_fits (which : BarSide) (container : Box) (t : Tol)
  (bar : DetectionAxisAligned) :
  barFitsBy StageSpec.margin which container t bar ->
  barFits which container t bar.
Proof.
  unfold barFitsBy, barFits. cbv zeta.
  set (inter := intersect (box bar) container).
  intros (Hw & Hh & Hmin & Hmax & Hc).
  assert (Hm : 0 < StageSpec.margin) by reflexivity.
  split.
  - unfold area.
    assert (E1 : Qmax 0 (x2 inter - x1 inter) == x2 inter - x1 inter)
      by (apply Q.max_r; lra).
    assert (E2 : Qmax 0 (y2 inter - y1 inter) == y2 inter - y1 inter)
      by (apply Q.max_r; lra).
    rewrite E1, E2. apply Qmult_lt_0_compat; lra.
  - split; [lra|]. split; [lra|]. destruct which; lra.
Qed.

Lemma barMissesBy_not_fits (which : BarSide) (container : Box) (t : Tol)
  (bar : DetectionAxisAligned) :
  barMissesBy StageSpec.margin which container t bar ->
  ~ barFits which container t bar.
Proof.
  unfold barMissesBy, barFits. cbv zeta.
  assert (Hm : 0 < StageSpec.margin) by reflexivity.
  intros [Ha|[Hw|[Hh|Hc]]] (Hpos & Hmin & Hmax & Hcy);
    destruct which; lra.
Qed.

(** Away from equality by the margin, the stage finds the bar valid or not
    as [barDecided] says. *)
Lemma barDecided_validBar (bars : list DetectionAxisAligned) (lbl : string)
  (which : BarSide) (container : Box) (W H : Q) (t : Tol) (ok : bool) :
  barDecided bars lbl which container t ok ->
  validBar bars lbl which container W H t = ok.
Proof.
  unfold barDecided, validBar.
  destruct (find (fun b => String.eqb (label b) lbl) bars) as [raw|];
    [|intros ->; reflexivity].
  intros (_ & _ & Hd).
  pose proof (validateBar_fits raw container W H which t []) as Hf.
  destruct ok.
  - apply barFitsBy_fits, Hf in Hd. destruct Hd as (out & ->). reflexivity.
  - destruct (fst (validateBarNoMutate raw container W H which t []))
      as [out|]; [|reflexivity].
    exfalso. apply (barMissesBy_not_fits _ _ _ _ Hd). apply Hf.
    now exists out.
Qed.

End BestByScore.

Section ScreenshotStage.
Import Js Types Refine StageSpec ScreenshotSpec.

Lemma container_best (input : DocumentAnalysisResult) (W H : Q) :
  screenshotContainerOf input W H =
  containerFor (bestByScore isScreenshot (detections input)) W H.
Proof.
  unfold screenshotContainerOf, containerFor.
  destruct (bestByScore isScreenshot (detections input)); reflexivity.
Qed.

(** The acceptance score of the stage: the base confidence, the bonuses for
    the bars and the bonus for the coverage. *)
Lemma evidence_acceptance (cfg : FullRefineConfig)
  (input : DocumentAnalysisResult) (W H : Q)
  (bars : list DetectionAxisAligned) (summary_ : DocumentAnalysisSummary)
  (notes : list Note) :
  tol cfg = DEFAULT_TOL ->
  let best := bestByScore isScreenshot (detections input) in
  let container := containerFor best W H in
  let e := screenshotEvidence cfg input W H bars summary_ notes in
  s_score (e_s e) ==
  baseFor summary_ best +
  barBonus (validBar bars "Top status bar" Top container W H DEFAULT_TOL)
    (validBar bars "Bottom nav bar" Bottom container W H DEFAULT_TOL) +
  (if jsge (jsdiv (area container) (W * H)) (Fin 0.80) then 0.05 else 0).
Proof.
  intros Htol. cbv zeta. unfold screenshotEvidence, validBar.
  rewrite container_best, Htol.
  set (best := bestByScore isScreenshot (detections input)).
  set (container := containerFor best W H).
  assert (Hbase : orElse (confidence summary_)
                    (match best with Some b => score b | None => 0 end) =
                  baseFor summary_ best).
  { unfold baseFor. destruct (confidence summary_), best; reflexivity. }
  rewrite Hbase. clear Hbase. set (base := baseFor summary_ best).
  destruct (find (fun b => String.eqb (label b) "Top status bar") bars)
    as [topRaw|].
  - pose proof (validateBar_notes topRaw container W H Top DEFAULT_TOL notes)
      as Ht.
    destruct (validateBarNoMutate topRaw container W H Top DEFAULT_TOL notes)
      as [topOk n1].
    cbn [fst] in Ht. rewrite <- Ht.
    destruct (find (fun b => String.eqb (label b) "Bottom nav bar") bars)
      as [botRaw|].
    + pose proof (validateBar_notes botRaw container W H Bottom DEFAULT_TOL n1)
        as Hb.
      destruct (validateBarNoMutate botRaw container W H Bottom DEFAULT_TOL n1)
        as [botOk n2].
      cbn [fst] in Hb. rewrite <- Hb. cbn [e_s].
      unfold scoreScreenshot, barBonus.
      change (screenshotMinCoverFrac DEFAULT_TOL) with 0.80.
      change (screenshotBarBonus DEFAULT_TOL) with 0.05.
      change (screenshotBothBarsBonus DEFAULT_TOL) with 0.03.
      change (screenshotCoverBonus DEFAULT_TOL) with 0.05.
      destruct topOk, botOk; cbn [Nat.eqb andb s_score];
        destruct (jsge _ _); ring.
    + cbn [e_s]. unfold scoreScreenshot, barBonus.
      change (screenshotMinCoverFrac DEFAULT_TOL) with 0.80.
      change (screenshotBarBonus DEFAULT_TOL) with 0.05.
      change (screenshotBothBarsBonus DEFAULT_TOL) with 0.03.
      change (screenshotCoverBonus DEFAULT_TOL) with 0.05.
      destruct topOk; cbn [Nat.eqb andb s_score];
        destruct (jsge _ _); ring.
  - destruct (find (fun b => String.eqb (label b) "Bottom nav bar") bars)
      as [botRaw|].
    + pose proof (validateBar_notes botRaw container W H Bottom DEFAULT_TOL
                    notes) as Hb.
      destruct (validateBarNoMutate botRaw container W H Bottom DEFAULT_TOL
                  notes) as [botOk n2].
      cbn [fst] in Hb. rewrite <- Hb. cbn [e_s].
      unfold scoreScreenshot, barBonus.
      change (screenshotMinCoverFrac DEFAULT_TOL) with 0.80.
      change (screenshotBarBonus DEFAULT_TOL) with 0.05.
      change (screenshotBothBarsBonus DEFAULT_TOL) with 0.03.
      change (screenshotCoverBonus DEFAULT_TOL) with 0.05.
      destruct botOk; cbn [Nat.eqb andb s_score];
        destruct (jsge _ _); ring.
    + cbn [e_s]. unfold scoreScreenshot, barBonus.
      change (screenshotMinCoverFrac DEFAULT_TOL) with 0.80.
      change (screenshotBarBonus DEFAULT_TOL) with 0.05.
      change (screenshotBothBarsBonus DEFAULT_TOL) with 0.03.
      change (screenshotCoverBonus DEFAULT_TOL) with 0.05.
      cbn [Nat.eqb andb s_score]; destruct (jsge _ _); ring.
Qed.




End ScreenshotStage.
